(* ===== verification/_CoqProject ===== *)
-Q . S2P
Prelude.v
Wire.v
Errors.v
RowCodec.v
ParamValue.v
Compression.v
Footers.v
MultiResult.v
DiskSpill.v
BulkInsert.v
Memory.v
Text.v
ApiErrors.v
Versions.v
Identifier.v
Capabilities.v
SqlText.v
Plugins.v
Upsert.v
Returning.v
SessionInit.v
CatalogSql.v
Registry.v
Security.v
Caches.v
Columnar.v
CellReader.v
OutputParams.v
Streaming.v
Handles.v
Execution.v
SqlLog.v
Telemetry.v
Catalog.v
BatchExecutor.v
StatementReuse.v
Tracing.v
StreamSources.v
Pool.v
PoolManager.v
AsyncRequests.v
AsyncBridge.v
ArrayBinding.v
BulkLoad.v
BulkCopy.v
Bcp.v
Chunking.v
Transaction.v
Xid.v
Xa.v
XaOci.v
XaDtc.v
XaMsdtc.v
FfiState.v
FfiSession.v
Connection.v
FfiXa.v
FfiQuery.v
FfiStreams.v
FfiPool.v
FfiInfo.v
FfiCatalog.v
FfiLogic.v
FfiMachine.v
FfiDemo.v
FfiPoison.v
FfiInvariant.v
FfiWrites.v
FfiShared.v
FfiTurns.v
FfiThreads.v
FfiResults.v
FfiFetch.v
FfiErrors.v
FfiSpecs.v
FfiCatalogSpecs.v
