(* ===== verification/Prelude.v ===== *)
(** * A verification development of the ODBC engine

    The program is the Rust crate [native/odbc_engine] (sources under
    src/native/odbc_engine/src/): a native engine that a Dart client drives over a
    C interface (ffi/mod.rs, more than eighty entry points).  One mutex guards the process state:
    tables of connections, transactions, distributed branches, statements, streams,
    requests and pools under integer ids.  An entry point looks its ids up, calls the engine,
    and delivers bytes into a buffer of the client, keeping what does not fit for a retry.
    Below it the engine runs statements on driver connections, streams results from
    workers, inserts in bulk, writes SQL for each database, and encodes everything in binary
    formats of its own.  The ODBC driver, the pooling, compression and JSON crates and the
    native libraries of the databases are third-party code.

    ** Files, in dependency order

    Foundations.
    - Prelude: outcomes of Rust code ([Ok], [Err] and the panic), the [let?] notation, loops
      ([ofold], [omap_list]), list and string lemmas, tactics and the hint database [odbc].
    - Wire: bytes, fixed-width integers and their wrap-around, little-endian encoding, UTF-8
      validation, slices and indexing that panic, and the position predicate [at_pos] by
      which every decoder is proved against its encoder.
    - Errors (error/mod.rs): the error type, its texts, classification and wire format.
    - Text: Rust text operations ([Debug], trimming, splitting, parsing, lossy decoding).
    - ApiErrors (error/mod.rs): from an error of odbc_api to one of the engine.
    - Memory (protocol/arena.rs, engine/core/memory_engine.rs): the bump arena, the buffer pool.
    - Versions (versioning/, engine/core/protocol_engine.rs): versions and their negotiation.

    Wire formats (protocol/).
    - RowCodec (types.rs, row_buffer.rs, encoder.rs, decoder.rs): the row-major message.
    - ParamValue (param_value.rs, bound_param.rs): parameters, the legacy and the DRT1 list.
    - Compression (compression.rs), Footers (encoder.rs), MultiResult (multi_result.rs),
      BulkInsert (bulk_insert.rs): compressed messages, footers, batch results, bulk payloads.
    - Columnar (columnar.rs, columnar_v2.rs, columnar_encoder.rs, converter.rs): version 2.

    SQL text.
    - Identifier (engine/identifier.rs), SqlText: names, quoting, and lexers as specification.
    - Capabilities (engine/core/driver_capabilities.rs): which engine a driver stands for.
    - Plugins, Upsert, Returning, SessionInit, CatalogSql, BulkLoad (plugins/): what each
      plugin rewrites and generates; Registry (plugins/registry.rs) chooses and dispatches.
    - Catalog (engine/catalog.rs): catalog queries run on a connection.

    Credentials and effects on the side.
    - Security (security/): redaction, audit log, secrets.  SqlLog (observability/logging.rs):
      the log and its masking of literals.  Tracing, Telemetry (observability/): spans, export.
    - Caches (prepared_cache.rs, metadata_cache.rs, observability/metrics.rs), over the class
      [Lru] of the lru crate.

    Connections and statements.
    - Handles (handles/mod.rs, engine/dbms_info.rs): the handle table, the world [World] of
      driver calls, the state-and-error monad [M] with [let!], and the class [Driver]: its
      answer to a call depends on the whole history of the process, so a theorem about
      every driver covers a failure at every point.  [runs m w h r] says that [m] makes
      exactly the calls [h], changes nothing else, and ends with [r].
    - CellReader (engine/cell_reader.rs, sqlserver_json.rs), OutputParams
      (output_aware_params.rs, ref_cursor_oracle.rs), Execution (execution_engine.rs,
      pipeline.rs, engine/query.rs): from a statement to the bytes of its result.
    - BatchExecutor (batch_executor.rs), StatementReuse (handles/cached_connection.rs with
      the feature statement-handle-reuse), Connection (engine/connection.rs, environment.rs).
    - DiskSpill, Streaming, StreamSources (engine/core/disk_spill.rs, engine/streaming.rs):
      results in chunks, from memory, from a file, from workers.  The receiver of a worker
      stream is the list of the messages still to come; a poll is told whether the next one
      has arrived, so every timing is covered.
    - Pool (pool/mod.rs) over the class [PoolDriver] of r2d2, and PoolManager
      (engine/core/connection_manager.rs).
    - AsyncRequests (ffi/mod.rs): the request table and each step of its workers; AsyncBridge
      (async_bridge/mod.rs): the runtime they run on.
    - ArrayBinding, Chunking, BulkCopy, Bcp (engine/core/array_binding.rs,
      parallel_insert.rs, bulk_copy.rs, sqlserver_bcp.rs): bulk inserts over the class
      [ColumnBuffers], side by side on several connections, and through the native library of
      SQL Server.  Each parallel worker has a driver of its own, whose answers may
      depend on what the others do.
    - Transaction (engine/transaction.rs); Xid, Xa (engine/xa_transaction.rs); XaOci, XaDtc
      (engine/xa_oci.rs, xa_dtc.rs): local transactions; global ids and the life of a
      distributed branch; branches through Oracle's library and through MSDTC.  XaMsdtc is
      xa_transaction.rs again, in the build where a branch on SQL Server is one of MSDTC.

    The C interface (ffi/mod.rs, ffi/guard.rs).
    - FfiState: the process state [Ffi] and the monad [F] of an entry point, which threads the
      state, the held lock and what was written, and ends in a value, an early return or a
      panic.  FfiSession, FfiXa, FfiQuery, FfiStreams, FfiPool, FfiInfo, FfiCatalog: the entry
      points.  FfiMachine: the library as its client sees it, any sequence of calls with
      the steps of the workers in between.  FfiLogic: the rules by which a piece of an entry
      point is run ([ok], and [okw] among threads) and framed ([moves]).  FfiDemo: a concrete
      platform for witnesses.
    - FfiPoison, FfiInvariant, FfiWrites, FfiResults, FfiFetch, FfiErrors, FfiSpecs,
      FfiCatalogSpecs: what is shown of them.
    - FfiTurns, FfiThreads: the library among threads, a call in turns and the machine of several
      calls; FfiShared: what the mutex protects then.

    ** What is shown

    - The library as a state machine: the tables stay consistent through every sequence of
      calls and worker steps, unless a panic poisons the mutex, after which everything
      refuses; a call writes only where it may and never more than it was given room
      for; closing a connection takes what is its own and nothing else; a result that
      did not fit is the one the retry gets; a stream is fetched once and in order and
      ends; no call touches the error of a connection it is not about.
    - The library among threads: the invariant that is left when calls meet in the gaps of each
      other, no call waits for a mutex it holds, each ends after at most seven turns, one that
      is not interrupted is a call of the state machine; and the races that break the rest.
    - Through the library to the driver: ending a transaction, giving back a pooled
      connection, and the catalog calls, with the cache of columns.
    - Transactions: exactly which calls reach the driver, in which order, for every outcome.
      A closure is committed, rolled back or, on a panic, dropped with a rollback.  A branch
      is ended once, on the engines' SQL, Oracle's library and MSDTC alike, and a prepared
      one is not rolled back by the two-phase commit.
    - Codecs: each decoder is total on arbitrary bytes, what it accepts is within its
      limits, and it inverts its encoder; both row formats carry the same rows.
    - Statements: every row the driver yields is in the message, a batch loses no result,
      keeping prepared statements changes no result.
    - Bulk inserts: whatever the drivers answer, the rows accepted are a prefix of each
      worker's rows, NULLs at the right places, and success means every row once; the native
      copy frees its handles on every path.
    - Streams: fetched chunks put together are the result, in memory or spilled, blocking or
      polled in any order; and the two cases in which a truncated stream looks complete.
    - Requests: over every interleaving of clients and workers the table stays consistent, and
      a request whose worker has run does not stay pending; one runtime at most is made.
    - Errors: state, number and text of a driver error are what the client decodes.
    - SQL and secrets: savepoints, upserts and catalog queries are read back by a lexer as
      the text intended, with names as names; no literal reaches the log, no password the
      audit log.

    ** Conventions and bounds

    Integers are [Z] with the width of the Rust type written out where it matters; [usize] is
    64 bits; a parameter [checks] tells a build that panics on overflow from one that
    wraps, where the code can overflow.  Strings are byte strings, and a Rust [String]
    is one that is valid UTF-8 ([str_wf]).  A panic is a value of [outcome], so its absence is
    proved and not assumed; the exceptions are allocation failure and stack exhaustion.  A
    consumed Rust value is dropped explicitly ([consume], [leave]).  A feature of the build is
    named where a file models it: BulkCopy takes the build as an argument, StatementReuse,
    XaOci, XaDtc and XaMsdtc are the code of their features.

    Fuel.  [deserialize_loop] takes the length of its buffer (every turn consumes five bytes
    or more), [step_ranges] the number of rows, [drain_chunks] the length of its
    buffer, [chunk_loop] the length of the list (every turn takes an element; the theorem
    [batch_spec] has every set in it), [sanitize_loop] and [sanitize_sql_loop] the length
    of the text (every turn takes a character; for the second, [sanitize_fuel] shows
    that more changes nothing), [utf8_lossy] the number of bytes, [batch_loop] the number of
    rows and two, and the trimming loops of Text the length of the text.
    [allocate_aligned] says with [None] that its recursion needs more: two calls are enough for
    every size that fits a chunk ([arena_regions]), none otherwise ([aligned_never_ends]).
    The reference clients [drain_stream] and [drain_worker] take one step more than the work
    there is, and their theorems show that the stream ends within it.

    ** How the model stands to concurrency

    A call of the C interface is a function that can be run alone ([Alone]: the state machine of
    FfiMachine) or among threads ([Finds], FfiThreads): then others can run where it takes the
    global mutex and where it lets it go, and it goes on in the process they have left.
    The state behind the mutex sees every interleaving this way; the driver calls a call makes
    without the mutex are one block.  The mutexes of the handle table and of a connection can be
    poisoned but are not waited for.  The workers of requests are interleaved with the calls.
    The worker of a stream runs before its stream is read, each of its readings of the cancel
    flag being an argument.  The workers of a parallel insert are independent.

    ** Not modelled

    The destructor of a pool, the rates in floating point of the metrics, getters, test-only
    constructors, and the Dart client: code without logic of its own, or another language.
    The drivers of the model answer with errors already converted (ApiErrors), and [odbc_init]
    does not thread the runtime it starts (AsyncBridge). *)

From Stdlib Require Export ZArith Lia String Ascii.
From Stdlib Require Import DecimalString DecimalZ.
From stdpp Require Export base tactics numbers list option strings gmap.

Declare Scope odbc_scope.
Delimit Scope odbc_scope with odbc.
Global Open Scope odbc_scope.
Global Open Scope Z_scope.

(** * Outcomes of Rust code

    A fallible Rust function returns [Ok] or [Err]; a function that indexes out
    of bounds, slices out of range or unwraps with [expect] panics.  The three
    cases are kept apart, so that "no input makes this decoder panic" is a
    statement of the model and not a convention of it. *)
Inductive outcome (E A : Type) : Type :=
| Ok (a : A)
| Err (e : E)
| Panic.
Arguments Ok {E A} a.
Arguments Err {E A} e.
Arguments Panic {E A}.

Definition obind {E A B : Type} (m : outcome E A) (k : A → outcome E B) : outcome E B :=
  match m with
  | Ok a => k a
  | Err e => Err e
  | Panic => Panic
  end.

(** Rust's [let p = m?; k]. *)
Notation "'let?' p ':=' m 'in' k" := (obind m (fun p => k))
  (at level 10, p binder, m at level 100, k at level 200,
   format "'[v' 'let?'  p  ':='  m  'in' '/' k ']'") : odbc_scope.

(** [Result::map_err], [Result::map] and [Option::ok_or]. *)
Definition omap_err {E F A : Type} (f : E → F) (m : outcome E A) : outcome F A :=
  match m with
  | Ok a => Ok a
  | Err e => Err (f e)
  | Panic => Panic
  end.

Definition omap_ok {E A B : Type} (f : A → B) (m : outcome E A) : outcome E B :=
  match m with
  | Ok a => Ok (f a)
  | Err e => Err e
  | Panic => Panic
  end.

Definition ok_or {E A : Type} (o : option A) (e : E) : outcome E A :=
  match o with Some a => Ok a | None => Err e end.

(** [Result::expect]: the error becomes a panic. *)
Definition expect {E A : Type} (m : outcome E A) : outcome E A :=
  match m with
  | Ok a => Ok a
  | Err _ | Panic => Panic
  end.

(** [expect] where the caller's error type differs. *)
Definition expect_into {E F A : Type} (m : outcome E A) : outcome F A :=
  match m with
  | Ok a => Ok a
  | Err _ | Panic => Panic
  end.

Definition is_ok {E A : Type} (m : outcome E A) : bool :=
  match m with Ok _ => true | _ => false end.

Definition is_panic {E A : Type} (m : outcome E A) : bool :=
  match m with Panic => true | _ => false end.

#[export] Instance outcome_eq_dec {E A : Type} `{EqDecision E} `{EqDecision A} :
  EqDecision (outcome E A).
Proof. solve_decision. Defined.

Lemma obind_Ok_inv {E A B : Type} (m : outcome E A) (k : A → outcome E B) (b : B) :
  obind m k = Ok b → ∃ a, m = Ok a ∧ k a = Ok b.
Proof. destruct m; simpl; intros H; try discriminate H; eauto. Qed.

Lemma obind_Err_inv {E A B : Type} (m : outcome E A) (k : A → outcome E B) (e : E) :
  obind m k = Err e → m = Err e ∨ ∃ a, m = Ok a ∧ k a = Err e.
Proof. destruct m; simpl; intros H; [right; eauto | left; congruence | discriminate H]. Qed.

Lemma obind_no_panic {E A B : Type} (m : outcome E A) (k : A → outcome E B) :
  m ≠ Panic → (∀ a, m = Ok a → k a ≠ Panic) → obind m k ≠ Panic.
Proof. destruct m; simpl; intros H1 H2; [by apply H2 | done | done]. Qed.

Lemma obind_assoc {E A B C : Type} (m : outcome E A) (f : A → outcome E B) (g : B → outcome E C) :
  obind (obind m f) g = obind m (λ a, obind (f a) g).
Proof. by destruct m. Qed.

Lemma ok_or_no_panic {E A : Type} (o : option A) (e : E) : ok_or o e ≠ Panic.
Proof. by destruct o. Qed.

Lemma omap_err_no_panic {E F A : Type} (f : E → F) (m : outcome E A) :
  m ≠ Panic → omap_err f m ≠ Panic.
Proof. by destruct m. Qed.

Create HintDb odbc discriminated.
#[export] Hint Resolve ok_or_no_panic omap_err_no_panic : odbc.

(** Peel the first [let?] of a hypothesis [... = Ok _]: the bound value [a], the
    equation [Ha] of the computation, and [H] for the rest. *)
Ltac inv_bind H :=
  match type of H with
  | obind ?m _ = Ok _ =>
      let a := fresh "a" in
      let Ha := fresh "Ha" in
      let Hk := fresh "Hk" in
      apply obind_Ok_inv in H as (a & Ha & Hk);
      repeat match type of a with
             | prod _ _ => let x := fresh "x" in let y := fresh "o" in destruct a as [x y]
             end;
      cbn beta iota zeta in Hk; rename Hk into H
  end.

Ltac inv_ok H := injection H as ? ?; subst || injection H as ?; subst.

(** Split the guards of a goal or of a hypothesis. *)
Ltac case_if :=
  match goal with
  | |- context [ if ?b then _ else _ ] => let E := fresh "E" in destruct b eqn:E
  end.
Ltac case_if_in H :=
  match type of H with
  | context [ if ?b then _ else _ ] => let E := fresh "E" in destruct b eqn:E
  end.

(** Close a "does not panic" goal made of binds, guards and matches. *)
Ltac no_panic :=
  repeat first
    [ discriminate
    | assumption
    | solve [eauto with odbc]
    | apply obind_no_panic; [| let x := fresh "x" in intros x ?; cbn beta iota; try destruct x ]
    | match goal with
      | |- context [ if ?b then _ else _ ] => destruct b eqn:?
      | |- context [ match ?x with _ => _ end ] => destruct x eqn:?
      end
    | progress intros ].

(** Boolean comparisons of [Z] and [nat] to propositions. *)
Ltac bool_to_prop :=
  repeat match goal with
    | H : (_ <? _) = true |- _ => apply Z.ltb_lt in H
    | H : (_ <? _) = false |- _ => apply Z.ltb_ge in H
    | H : (_ <=? _) = true |- _ => apply Z.leb_le in H
    | H : (_ <=? _) = false |- _ => apply Z.leb_gt in H
    | H : (_ =? _) = true |- _ => apply Z.eqb_eq in H
    | H : (_ =? _) = false |- _ => apply Z.eqb_neq in H
    | H : Nat.ltb _ _ = true |- _ => apply Nat.ltb_lt in H
    | H : Nat.ltb _ _ = false |- _ => apply Nat.ltb_ge in H
    | H : Nat.leb _ _ = true |- _ => apply Nat.leb_le in H
    | H : Nat.leb _ _ = false |- _ => apply Nat.leb_gt in H
    | H : Nat.eqb _ _ = true |- _ => apply Nat.eqb_eq in H
    | H : Nat.eqb _ _ = false |- _ => apply Nat.eqb_neq in H
    | H : negb _ = true |- _ => apply negb_true_iff in H
    | H : negb _ = false |- _ => apply negb_false_iff in H
    | H : (_ && _)%bool = true |- _ => apply andb_prop in H as [? ?]
    | H : (_ || _)%bool = false |- _ => apply orb_false_elim in H as [? ?]
    end.

(** * Lists *)

(** The length of a Rust slice or [Vec] as a [usize]. *)
Definition len {A : Type} (l : list A) : Z := Z.of_nat (length l).

Lemma len_nonneg {A : Type} (l : list A) : 0 ≤ len l.
Proof. unfold len. lia. Qed.

Lemma len_app {A : Type} (l k : list A) : len (l ++ k) = len l + len k.
Proof. unfold len. rewrite length_app. lia. Qed.

Lemma len_nil {A : Type} : len (@nil A) = 0.
Proof. reflexivity. Qed.

Lemma len_cons {A : Type} (x : A) l : len (x :: l) = 1 + len l.
Proof. unfold len. simpl. lia. Qed.

Lemma drop_app_cons_length {A : Type} (l : list A) o x k :
  drop o l = x ++ k → (length l - o = length x + length k)%nat.
Proof. intros H. rewrite <- length_drop, H, length_app. lia. Qed.

Lemma drop_step {A : Type} (l : list A) o x k :
  drop o l = x ++ k → drop (o + length x) l = k.
Proof. intros H. rewrite <- drop_drop, H. apply drop_app_length. Qed.

Lemma drop_cons_step {A : Type} (l : list A) o x k :
  drop o l = x :: k → drop (o + 1) l = k.
Proof. intros H. exact (drop_step l o [x] k H). Qed.

Lemma drop_lookup {A : Type} (l : list A) o x k : drop o l = x :: k → l !! o = Some x.
Proof. intros H. rewrite <- (Nat.add_0_r o), <- lookup_drop, H. reflexivity. Qed.

Lemma drop_nonempty_lt {A : Type} (l : list A) o x k : drop o l = x :: k → (o < length l)%nat.
Proof. intros H. apply lookup_lt_Some with x. eapply drop_lookup; eauto. Qed.

(** [concat] of an encoded list, the shape of every sequence on the wire. *)
Definition encode_list {A B : Type} (enc : A → list B) (xs : list A) : list B :=
  concat (map enc xs).

Lemma encode_list_cons {A B : Type} (enc : A → list B) x xs :
  encode_list enc (x :: xs) = enc x ++ encode_list enc xs.
Proof. reflexivity. Qed.

Lemma encode_list_app {A B : Type} (enc : A → list B) xs ys :
  encode_list enc (xs ++ ys) = encode_list enc xs ++ encode_list enc ys.
Proof. unfold encode_list. by rewrite map_app, concat_app. Qed.

Lemma encode_list_length_const {A B : Type} (enc : A → list B) k xs :
  (∀ x, length (enc x) = k) → length (encode_list enc xs) = (length xs * k)%nat.
Proof.
  intros H. induction xs as [|x xs IH]; [done|].
  rewrite encode_list_cons, length_app, H, IH. simpl. lia.
Qed.

(** * Decimal rendering, as Rust's [Display] of an integer *)

Definition fmt_Z (z : Z) : string := NilEmpty.string_of_int (Z.to_int z).

(** The inverse: [str::parse] on a canonical decimal. *)
Definition parse_Z (s : string) : option Z := Z.of_int <$> NilEmpty.int_of_string s.

Lemma parse_fmt_Z (z : Z) : parse_Z (fmt_Z z) = Some z.
Proof. unfold parse_Z, fmt_Z. rewrite NilEmpty.isi. simpl. by rewrite DecimalZ.of_to. Qed.

Lemma fmt_Z_inj (x y : Z) : fmt_Z x = fmt_Z y → x = y.
Proof. intros H. apply (f_equal parse_Z) in H. rewrite !parse_fmt_Z in H. congruence. Qed.

(** * Strings *)

Lemma string_app_nil_l (s : string) : EmptyString +:+ s = s.
Proof. reflexivity. Qed.

Lemma string_app_cons (c : ascii) (s t : string) : String c s +:+ t = String c (s +:+ t).
Proof. reflexivity. Qed.

Lemma string_app_assoc (a b c : string) : (a +:+ b) +:+ c = a +:+ (b +:+ c).
Proof. induction a as [|x a IH]; [done|]. by rewrite !string_app_cons, IH. Qed.

Lemma string_app_nil_r (s : string) : s +:+ EmptyString = s.
Proof. induction s as [|c s IH]; [done|]. by rewrite string_app_cons, IH. Qed.

(** * Loops: [for x in xs { s = f(s, x)?; }] *)

Fixpoint ofold {E S A : Type} (f : S → A → outcome E S) (xs : list A) (s : S) : outcome E S :=
  match xs with
  | [] => Ok s
  | x :: xs => let? s := f s x in ofold f xs s
  end.

(** [iter.map(f).collect::<Result<Vec<_>>>()], and the loop that pushes [f(x)?]. *)
Fixpoint omap_list {E A B : Type} (f : A → outcome E B) (xs : list A) : outcome E (list B) :=
  match xs with
  | [] => Ok []
  | x :: xs => let? y := f x in let? ys := omap_list f xs in Ok (y :: ys)
  end.

Definition zsum (xs : list Z) : Z := foldr Z.add 0 xs.

Lemma zsum_app xs ys : zsum (xs ++ ys) = zsum xs + zsum ys.
Proof. induction xs as [|x xs IH]; simpl; [done|]. rewrite IH. lia. Qed.

Lemma zsum_nonneg xs : Forall (λ x, 0 ≤ x) xs → 0 ≤ zsum xs.
Proof. induction 1; simpl; lia. Qed.

Lemma zsum_map_nonneg {A : Type} (g : A → Z) xs : (∀ x, 0 ≤ g x) → 0 ≤ zsum (map g xs).
Proof. intros H. induction xs as [|x xs IH]; simpl; [lia|]. specialize (H x). lia. Qed.

Lemma len_encode_list {A B : Type} (enc : A → list B) xs :
  len (encode_list enc xs) = zsum (map (λ x, len (enc x)) xs).
Proof.
  induction xs as [|x xs IH]; [done|]. rewrite encode_list_cons, len_app, IH. done.
Qed.

(** A loop that appends to a buffer. *)
Lemma ofold_emit {E A B : Type} (f : list B → A → outcome E (list B)) (g : A → list B) (P : A → Prop) xs s :
  (∀ s x, P x → f s x = Ok (s ++ g x)) → Forall P xs → ofold f xs s = Ok (s ++ encode_list g xs).
Proof.
  intros Hf HP. revert s. induction HP as [|x xs Hx HP IH]; intros s; simpl.
  - unfold encode_list. simpl. by rewrite app_nil_r.
  - rewrite Hf by done. simpl. by rewrite IH, encode_list_cons, app_assoc.
Qed.

(** A loop that adds up sizes under an upper limit. *)
Lemma ofold_add {E A : Type} (f : Z → A → outcome E Z) (g : A → Z) (P : A → Prop) (M : Z) xs s :
  (∀ x, 0 ≤ g x) →
  (∀ s x, P x → 0 ≤ s → s + g x ≤ M → f s x = Ok (s + g x)) →
  Forall P xs → 0 ≤ s → s + zsum (map g xs) ≤ M → ofold f xs s = Ok (s + zsum (map g xs)).
Proof.
  intros Hg Hf HP. revert s. induction HP as [|x xs Hx HP IH]; intros s Hs HM; simpl in *.
  - f_equal. lia.
  - pose proof (zsum_map_nonneg g xs Hg). specialize (Hg x).
    rewrite Hf by (done || lia). simpl. rewrite IH by lia. f_equal. lia.
Qed.

Lemma ofold_app {E S A : Type} (f : S → A → outcome E S) xs ys s :
  ofold f (xs ++ ys) s = obind (ofold f xs s) (ofold f ys).
Proof.
  revert s. induction xs as [|x xs IH]; intros s; simpl; [done|]. destruct (f s x); simpl; [apply IH|done..].
Qed.

Lemma ofold_no_panic {E S A : Type} (f : S → A → outcome E S) xs s :
  (∀ s x, f s x ≠ Panic) → ofold f xs s ≠ Panic.
Proof.
  intros Hf. revert s. induction xs as [|x xs IH]; intros s; simpl; [done|].
  apply obind_no_panic; [apply Hf|]. intros; apply IH.
Qed.

(** An invariant of the accumulator of a loop. *)
Lemma ofold_inv {E S A : Type} (I : S → Prop) (f : S → A → outcome E S) xs s s' :
  (∀ s x s', I s → f s x = Ok s' → I s') → I s → ofold f xs s = Ok s' → I s'.
Proof.
  intros Hf. revert s. induction xs as [|x xs IH]; intros s Hs H; simpl in H.
  - by injection H as <-.
  - inv_bind H. eapply IH; [|exact H]. by eapply Hf.
Qed.

Lemma omap_list_Forall2 {E A B : Type} (f : A → outcome E B) xs ys :
  omap_list f xs = Ok ys ↔ Forall2 (λ x y, f x = Ok y) xs ys.
Proof.
  split.
  - revert ys. induction xs as [|x xs IH]; intros ys H; simpl in H.
    + injection H as <-. constructor.
    + inv_bind H. inv_bind H. injection H as <-. constructor; auto.
  - induction 1 as [|x y xs ys Hxy _ IH]; simpl; [done|]. by rewrite Hxy, IH.
Qed.

Lemma omap_list_length {E A B : Type} (f : A → outcome E B) xs ys :
  omap_list f xs = Ok ys → length ys = length xs.
Proof. intros H%omap_list_Forall2. symmetry. by eapply Forall2_length. Qed.

Lemma omap_list_no_panic {E A B : Type} (f : A → outcome E B) xs :
  (∀ x, f x ≠ Panic) → omap_list f xs ≠ Panic.
Proof.
  intros Hf. induction xs as [|x xs IH]; simpl; [done|].
  apply obind_no_panic; [apply Hf|]. intros y _.
  apply obind_no_panic; [apply IH|]. done.
Qed.
