(* ===== verification/Wire.v ===== *)
(** Bytes, UTF-8, little-endian integers and positioned reads: the parts of the
    Rust standard library that every wire format of the engine uses
    ([u32::to_le_bytes], [u32::from_le_bytes], [str::from_utf8], slice indexing),
    and the interface [WireCodec] through which composite formats use the
    formats of their parts. *)

From Stdlib Require Export Strings.Byte.
From S2P Require Import Prelude.

(** * Bytes *)

#[export] Instance byte_eq_dec : EqDecision byte := byte_eq_dec.

(** A byte as a [u8]. *)
Definition b2z (b : byte) : Z := Z.of_N (Byte.to_N b).

(** Truncation of an integer to a [u8] ([as u8]). *)
Definition z2b (z : Z) : byte :=
  match Byte.of_N (Z.to_N (z mod 256)) with Some b => b | None => x00 end.

Lemma b2z_range b : 0 ≤ b2z b < 256.
Proof. unfold b2z. pose proof (Byte.to_N_bounded b). lia. Qed.

Lemma z2b_b2z b : z2b (b2z b) = b.
Proof.
  unfold z2b, b2z. rewrite Z.mod_small by apply b2z_range.
  rewrite N2Z.id, Byte.of_to_N. done.
Qed.

Lemma b2z_z2b z : b2z (z2b z) = z mod 256.
Proof.
  unfold z2b, b2z. pose proof (Z.mod_pos_bound z 256 ltac:(lia)) as Hb.
  destruct (Byte.of_N (Z.to_N (z mod 256))) as [b|] eqn:E.
  - apply Byte.to_of_N in E. rewrite E. lia.
  - apply Byte.of_N_None_iff in E. lia.
Qed.

Lemma b2z_inj b c : b2z b = b2z c → b = c.
Proof. intros H. rewrite <- (z2b_b2z b), <- (z2b_b2z c). by rewrite H. Qed.

Lemma z2b_mod z : z2b (z mod 256) = z2b z.
Proof. apply b2z_inj. rewrite !b2z_z2b, Z.mod_mod by lia. done. Qed.

(** * Little-endian integers *)

(** [to_le_bytes] of an [n]-byte unsigned integer; of a signed one, its two's
    complement. *)
Fixpoint le_bytes (n : nat) (z : Z) : list byte :=
  match n with
  | O => []
  | S n => z2b z :: le_bytes n (z / 256)
  end.

(** [from_le_bytes] of an unsigned integer. *)
Fixpoint le_val (bs : list byte) : Z :=
  match bs with
  | [] => 0
  | b :: bs => b2z b + 256 * le_val bs
  end.

(** [as iN] of a [w]-bit unsigned integer. *)
Definition to_signed (w z : Z) : Z := if z <? 2 ^ (w - 1) then z else z - 2 ^ w.

(** [as uN]: the low [w] bits. *)
Definition to_unsigned (w z : Z) : Z := z mod 2 ^ w.

(** The ranges of the machine types. *)
Definition u8_range (z : Z) : Prop := 0 ≤ z < 2 ^ 8.
Definition u16_range (z : Z) : Prop := 0 ≤ z < 2 ^ 16.
Definition u32_range (z : Z) : Prop := 0 ≤ z < 2 ^ 32.
Definition u64_range (z : Z) : Prop := 0 ≤ z < 2 ^ 64.
Definition i16_range (z : Z) : Prop := - 2 ^ 15 ≤ z < 2 ^ 15.
Definition i32_range (z : Z) : Prop := - 2 ^ 31 ≤ z < 2 ^ 31.
Definition i64_range (z : Z) : Prop := - 2 ^ 63 ≤ z < 2 ^ 63.

(** [usize::MAX] of the 64-bit targets the engine is built for. *)
Definition usize_max : Z := 2 ^ 64 - 1.

(** [usize::checked_add], [checked_mul], [saturating_sub], [saturating_add]. *)
Definition checked_add (a b : Z) : option Z := if a + b <=? usize_max then Some (a + b) else None.
Definition checked_mul (a b : Z) : option Z := if a * b <=? usize_max then Some (a * b) else None.
Definition saturating_sub (a b : Z) : Z := Z.max 0 (a - b).
Definition saturating_add (a b : Z) : Z := Z.min usize_max (a + b).

(** [usize::div_ceil]. *)
Definition div_ceil (a b : Z) : Z := (a + b - 1) / b.

Lemma le_bytes_S n z : le_bytes (S n) z = z2b z :: le_bytes n (z / 256).
Proof. reflexivity. Qed.

Lemma length_le_bytes n z : length (le_bytes n z) = n.
Proof. revert z. induction n as [|n IH]; intros z; [done|]. rewrite le_bytes_S. simpl. by rewrite IH. Qed.

Lemma le_val_cons b bs : le_val (b :: bs) = b2z b + 256 * le_val bs.
Proof. reflexivity. Qed.

Lemma len_le_bytes n z : len (le_bytes n z) = Z.of_nat n.
Proof. unfold len. by rewrite length_le_bytes. Qed.

Lemma le_val_range bs : 0 ≤ le_val bs < 2 ^ (8 * len bs).
Proof.
  induction bs as [|b bs IH]; [unfold len, le_val; simpl; lia|].
  rewrite len_cons, le_val_cons. pose proof (b2z_range b).
  replace (8 * (1 + len bs)) with (8 + 8 * len bs) by lia.
  rewrite Z.pow_add_r by (pose proof (len_nonneg bs); lia).
  change (2 ^ 8) with 256. lia.
Qed.

Lemma le_val_le_bytes n z : le_val (le_bytes n z) = z mod 2 ^ (8 * Z.of_nat n).
Proof.
  revert z. induction n as [|n IH]; intros z.
  - by rewrite Z.mod_1_r.
  - rewrite le_bytes_S, le_val_cons, b2z_z2b, IH.
    replace (8 * Z.of_nat (S n)) with (8 + 8 * Z.of_nat n) by lia.
    rewrite Z.pow_add_r by lia. change (2 ^ 8) with 256.
    rewrite Z.rem_mul_r by lia. done.
Qed.

Lemma le_bytes_le_val bs : le_bytes (length bs) (le_val bs) = bs.
Proof.
  induction bs as [|b bs IH]; [done|]. simpl length. rewrite le_bytes_S, le_val_cons.
  replace ((b2z b + 256 * le_val bs) / 256) with (le_val bs).
  2: { rewrite (Z.mul_comm 256), Z.div_add by lia.
       rewrite Z.div_small by apply b2z_range. lia. }
  rewrite IH. f_equal. rewrite <- z2b_mod, (Z.mul_comm 256), Z.mod_add by lia.
  rewrite z2b_mod. apply z2b_b2z.
Qed.

Lemma le_val_unsigned n z : 0 ≤ z < 2 ^ (8 * Z.of_nat n) → le_val (le_bytes n z) = z.
Proof. intros H. rewrite le_val_le_bytes. by apply Z.mod_small. Qed.

Lemma to_signed_unsigned w z :
  0 < w → - 2 ^ (w - 1) ≤ z < 2 ^ (w - 1) → to_signed w (z mod 2 ^ w) = z.
Proof.
  intros Hw Hz. unfold to_signed.
  assert (2 ^ w = 2 * 2 ^ (w - 1)) as E.
  { replace w with (Z.succ (w - 1)) at 1 by lia. rewrite Z.pow_succ_r by lia. lia. }
  assert (0 < 2 ^ (w - 1)) by lia.
  destruct (Z_lt_le_dec z 0).
  - replace (z mod 2 ^ w) with (z + 2 ^ w).
    2: { rewrite <- (Z.mod_add z 1) by lia. rewrite Z.mod_small by lia. lia. }
    destruct (Z.ltb_spec (z + 2 ^ w) (2 ^ (w - 1))); lia.
  - rewrite Z.mod_small by lia. destruct (Z.ltb_spec z (2 ^ (w - 1))); lia.
Qed.

Lemma to_signed_range w z : 0 < w → 0 ≤ z < 2 ^ w → - 2 ^ (w - 1) ≤ to_signed w z < 2 ^ (w - 1).
Proof.
  intros Hw Hz. unfold to_signed.
  assert (2 ^ w = 2 * 2 ^ (w - 1)) as E.
  { replace w with (Z.succ (w - 1)) at 1 by lia. rewrite Z.pow_succ_r by lia. lia. }
  destruct (Z.ltb_spec z (2 ^ (w - 1))); lia.
Qed.

Lemma le_val_i16 z : i16_range z → to_signed 16 (le_val (le_bytes 2 z)) = z.
Proof. intros H. rewrite le_val_le_bytes. by apply (to_signed_unsigned 16). Qed.

Lemma le_val_i32 z : i32_range z → to_signed 32 (le_val (le_bytes 4 z)) = z.
Proof. intros H. rewrite le_val_le_bytes. by apply (to_signed_unsigned 32). Qed.

Lemma le_val_i64 z : i64_range z → to_signed 64 (le_val (le_bytes 8 z)) = z.
Proof. intros H. rewrite le_val_le_bytes. by apply (to_signed_unsigned 64). Qed.

(** * Strings and UTF-8 *)

(** A Rust [str] is a sequence of bytes that is well-formed UTF-8; the model
    keeps it as a [string], one character per byte. *)
Definition as_bytes (s : string) : list byte := list_byte_of_string s.

Definition is_cont (b : byte) : bool := (0x80 <=? b2z b) && (b2z b <=? 0xBF).

Definition in_range (lo hi : Z) (b : byte) : bool := (lo <=? b2z b) && (b2z b <=? hi).

(** The well-formed byte sequences of the Unicode standard (table 3-7), which
    is what [str::from_utf8] accepts. *)
Fixpoint utf8_valid (bs : list byte) : bool :=
  match bs with
  | [] => true
  | b0 :: r0 =>
      if b2z b0 <? 0x80 then utf8_valid r0
      else if in_range 0xC2 0xDF b0 then
        match r0 with
        | b1 :: r1 => is_cont b1 && utf8_valid r1
        | _ => false
        end
      else if in_range 0xE0 0xEF b0 then
        match r0 with
        | b1 :: b2 :: r2 =>
            (if b2z b0 =? 0xE0 then in_range 0xA0 0xBF b1
             else if b2z b0 =? 0xED then in_range 0x80 0x9F b1
             else is_cont b1)
            && is_cont b2 && utf8_valid r2
        | _ => false
        end
      else if in_range 0xF0 0xF4 b0 then
        match r0 with
        | b1 :: b2 :: b3 :: r3 =>
            (if b2z b0 =? 0xF0 then in_range 0x90 0xBF b1
             else if b2z b0 =? 0xF4 then in_range 0x80 0x8F b1
             else is_cont b1)
            && is_cont b2 && is_cont b3 && utf8_valid r3
        | _ => false
        end
      else false
  end.

(** [Utf8Error]: where the valid prefix ends, and the length of the invalid
    sequence, [None] when the input ends within a sequence. *)
Fixpoint utf8_error (i : Z) (bs : list byte) : option (Z * option Z) :=
  match bs with
  | [] => None
  | b0 :: r0 =>
      if b2z b0 <? 0x80 then utf8_error (i + 1) r0
      else if in_range 0xC2 0xDF b0 then
        match r0 with
        | [] => Some (i, None)
        | b1 :: r1 => if is_cont b1 then utf8_error (i + 2) r1 else Some (i, Some 1)
        end
      else if in_range 0xE0 0xEF b0 then
        match r0 with
        | [] => Some (i, None)
        | b1 :: r1 =>
            if negb (if b2z b0 =? 0xE0 then in_range 0xA0 0xBF b1
                     else if b2z b0 =? 0xED then in_range 0x80 0x9F b1
                     else is_cont b1) then Some (i, Some 1)
            else match r1 with
            | [] => Some (i, None)
            | b2 :: r2 => if is_cont b2 then utf8_error (i + 3) r2 else Some (i, Some 2)
            end
        end
      else if in_range 0xF0 0xF4 b0 then
        match r0 with
        | [] => Some (i, None)
        | b1 :: r1 =>
            if negb (if b2z b0 =? 0xF0 then in_range 0x90 0xBF b1
                     else if b2z b0 =? 0xF4 then in_range 0x80 0x8F b1
                     else is_cont b1) then Some (i, Some 1)
            else match r1 with
            | [] => Some (i, None)
            | b2 :: r2 =>
                if negb (is_cont b2) then Some (i, Some 2)
                else match r2 with
                | [] => Some (i, None)
                | b3 :: r3 => if is_cont b3 then utf8_error (i + 4) r3 else Some (i, Some 3)
                end
            end
        end
      else Some (i, Some 1)
  end.

(** [Display] of [Utf8Error]. *)
Definition fmt_utf8_error (bs : list byte) : string :=
  match utf8_error 0 bs with
  | Some (i, Some n) => "invalid utf-8 sequence of " +:+ fmt_Z n +:+ " bytes from index " +:+ fmt_Z i
  | Some (i, None) => "incomplete utf-8 byte sequence from index " +:+ fmt_Z i
  | None => EmptyString
  end.

(** A hexadecimal digit; [a] is the code of the digit ten. *)
Definition hex_digit_of (a n : Z) : ascii := ascii_of_N (Z.to_N (if n <? 10 then 48 + n else a + (n - 10))).

(** [{:02x}] of a byte. *)
Definition hex2 (b : byte) : string :=
  String (hex_digit_of 97 (b2z b / 16)) (String (hex_digit_of 97 (b2z b mod 16)) EmptyString).

(** [{:02x}] of every byte in turn. *)
Fixpoint hex_lower (bs : list byte) : string :=
  match bs with
  | [] => EmptyString
  | b :: bs => hex2 b +:+ hex_lower bs
  end.

(** [{:0nX}] of a number of at most [n] digits. *)
Fixpoint fmt_HEX (n : nat) (z : Z) : string :=
  match n with
  | O => EmptyString
  | S n => String (hex_digit_of 65 (z / 16 ^ Z.of_nat n mod 16)) (fmt_HEX n z)
  end.

(** [str::from_utf8] and [String::from_utf8], errors left to the caller. *)
Definition from_utf8 (bs : list byte) : option string :=
  if utf8_valid bs then Some (string_of_list_byte bs) else None.

(** A Rust [String] of the model. *)
Definition str_wf (s : string) : Prop := utf8_valid (as_bytes s) = true.

Lemma from_utf8_as_bytes s : str_wf s → from_utf8 (as_bytes s) = Some s.
Proof.
  intros H. unfold from_utf8, str_wf, as_bytes in *. rewrite H.
  by rewrite string_of_list_byte_of_string.
Qed.

Lemma from_utf8_Some bs s : from_utf8 bs = Some s → as_bytes s = bs ∧ str_wf s.
Proof.
  unfold from_utf8, str_wf, as_bytes. intros H.
  destruct (utf8_valid bs) eqn:E; [|discriminate]. injection H as <-.
  rewrite list_byte_of_string_of_list_byte. done.
Qed.

Lemma as_bytes_app s t : as_bytes (s +:+ t) = as_bytes s ++ as_bytes t.
Proof.
  unfold as_bytes, list_byte_of_string. rewrite <- map_app. f_equal.
  induction s as [|c s IH]; [done|]. rewrite string_app_cons. cbn. by rewrite IH.
Qed.

Lemma as_bytes_inj s t : as_bytes s = as_bytes t → s = t.
Proof.
  unfold as_bytes. intros H.
  rewrite <- (string_of_list_byte_of_string s), <- (string_of_list_byte_of_string t).
  by rewrite H.
Qed.

Lemma length_as_bytes s : length (as_bytes s) = String.length s.
Proof. unfold as_bytes, list_byte_of_string. rewrite length_map. induction s as [|c s IH]; simpl; [done|]. by rewrite IH. Qed.

(** Every ASCII byte sequence is valid UTF-8. *)
Lemma utf8_valid_ascii bs : Forall (λ b, b2z b < 128) bs → utf8_valid bs = true.
Proof.
  induction 1 as [|b bs Hb _ IH]; [done|]. cbn [utf8_valid].
  destruct (Z.ltb_spec (b2z b) 0x80); [done | lia].
Qed.

(** * Indexing and slicing, with the panics *)

Section Slices.
Context {E : Type}.

(** [data[i]] *)
Definition index {A : Type} (data : list A) (i : nat) : outcome E A :=
  match data !! i with Some b => Ok b | None => Panic end.

(** [&data[i..j]] *)
Definition slice {A : Type} (data : list A) (i j : nat) : outcome E (list A) :=
  if (i <=? j)%nat && (j <=? length data)%nat then Ok (take (j - i) (drop i data)) else Panic.

(** [&data[i..]] *)
Definition slice_from {A : Type} (data : list A) (i : nat) : outcome E (list A) :=
  if (i <=? length data)%nat then Ok (drop i data) else Panic.

(** [uN::from_le_bytes([data[o], ..., data[o + n - 1]])] *)
Definition le_at (n : nat) (data : list byte) (o : nat) : outcome E Z :=
  let? bs := slice data o (o + n) in Ok (le_val bs).

Lemma slice_Ok {A : Type} (data : list A) i j :
  (i ≤ j)%nat → (j ≤ length data)%nat → slice data i j = Ok (take (j - i) (drop i data)).
Proof.
  intros H1 H2. unfold slice.
  destruct (Nat.leb_spec i j), (Nat.leb_spec j (length data)); simpl; [done|lia..].
Qed.

Lemma slice_inv {A : Type} (data : list A) i j x :
  slice data i j = Ok x → (i ≤ j ≤ length data)%nat ∧ x = take (j - i) (drop i data).
Proof.
  unfold slice. destruct (Nat.leb_spec i j), (Nat.leb_spec j (length data)); simpl; try done.
  intros [= <-]. done.
Qed.

Lemma slice_length {A : Type} (data : list A) i j x :
  slice data i j = Ok x → length x = (j - i)%nat.
Proof. intros [? ->]%slice_inv. rewrite length_take, length_drop. lia. Qed.

Lemma slice_no_panic {A : Type} (data : list A) i j :
  (i ≤ j)%nat → (j ≤ length data)%nat → slice data i j ≠ Panic.
Proof. intros. by rewrite slice_Ok. Qed.

Lemma index_no_panic {A : Type} (data : list A) i : (i < length data)%nat → index data i ≠ Panic.
Proof. intros H. unfold index. destruct (lookup_lt_is_Some_2 data i H) as [b ->]. done. Qed.

Lemma index_Ok_lt {A : Type} (data : list A) i b : index data i = Ok b → data !! i = Some b.
Proof. unfold index. destruct (data !! i); [|done]. by intros [= ->]. Qed.

Lemma index_lookup {A : Type} (data : list A) i b : data !! i = Some b → index data i = Ok b.
Proof. unfold index. by intros ->. Qed.

Lemma slice_from_Ok {A : Type} (data : list A) i :
  (i ≤ length data)%nat → slice_from data i = Ok (drop i data).
Proof. intros H. unfold slice_from. by destruct (Nat.leb_spec i (length data)); [|lia]. Qed.

Lemma slice_from_no_panic {A : Type} (data : list A) i :
  (i ≤ length data)%nat → slice_from data i ≠ Panic.
Proof. intros. by rewrite slice_from_Ok. Qed.

Lemma le_at_no_panic n data o : (o + n ≤ length data)%nat → le_at n data o ≠ Panic.
Proof. intros H. unfold le_at. rewrite slice_Ok by lia. done. Qed.

Lemma le_at_inv n data o v :
  le_at n data o = Ok v →
  (o + n ≤ length data)%nat ∧ 0 ≤ v < 2 ^ (8 * Z.of_nat n).
Proof.
  unfold le_at. intros H. inv_bind H. injection H as <-.
  pose proof (slice_length _ _ _ _ Ha) as Hl.
  apply slice_inv in Ha as [? _]. split; [lia|].
  pose proof (le_val_range a) as Hr. unfold len in Hr. rewrite Hl in Hr.
  by replace (o + n - o)%nat with n in Hr by lia.
Qed.

Lemma le_at_Ok_ex n data o :
  (o + n ≤ length data)%nat → ∃ v, le_at n data o = Ok v ∧ 0 ≤ v < 2 ^ (8 * Z.of_nat n).
Proof.
  intros H. destruct (le_at n data o) as [v|e|] eqn:Hq.
  - exists v. split; [done|]. by destruct (le_at_inv _ _ _ _ Hq).
  - unfold le_at in Hq. rewrite slice_Ok in Hq by lia. done.
  - by destruct (le_at_no_panic n data o).
Qed.

(** Bytes appended after the positions read change nothing. *)
Lemma le_at_app n (data suf : list byte) o :
  (o + n ≤ length data)%nat → le_at n (data ++ suf) o = le_at n data o.
Proof.
  intros H. unfold le_at. rewrite !slice_Ok by (rewrite ?length_app; lia).
  rewrite drop_app_le by lia. rewrite take_app_le; [done|]. rewrite length_drop. lia.
Qed.

(** * Cursors: [rest] is what remains of [data] from position [o] *)

Definition at_pos {A : Type} (data : list A) (o : nat) (rest : list A) : Prop :=
  (o ≤ length data)%nat ∧ drop o data = rest.

Lemma at_pos_start {A : Type} (data : list A) : at_pos data 0 data.
Proof. split; [lia|done]. Qed.

Lemma at_pos_length {A : Type} (data : list A) o rest :
  at_pos data o rest → length data = (o + length rest)%nat.
Proof. intros [H <-]. rewrite length_drop. lia. Qed.

Lemma at_pos_step {A : Type} (data : list A) o (x rest : list A) :
  at_pos data o (x ++ rest) → at_pos data (o + length x) rest.
Proof.
  intros H. pose proof (at_pos_length _ _ _ H) as Hl. rewrite length_app in Hl.
  destruct H as [H1 H2]. split; [lia|]. by apply drop_step.
Qed.

Lemma at_pos_step1 {A : Type} (data : list A) o (x : A) rest :
  at_pos data o (x :: rest) → at_pos data (o + 1) rest.
Proof. apply (at_pos_step data o [x] rest). Qed.

Lemma at_pos_slice {A : Type} (data : list A) o (x rest : list A) :
  at_pos data o (x ++ rest) → slice data o (o + length x) = Ok x.
Proof.
  intros H. pose proof (at_pos_length _ _ _ H) as Hl. rewrite length_app in Hl.
  destruct H as [H1 H2]. rewrite slice_Ok by lia. rewrite H2.
  replace (o + length x - o)%nat with (length x) by lia. by rewrite take_app_length.
Qed.

Lemma at_pos_slice_from {A : Type} (data : list A) o (rest : list A) :
  at_pos data o rest → slice_from data o = Ok rest.
Proof. intros [H1 H2]. by rewrite slice_from_Ok, H2. Qed.

Lemma at_pos_index {A : Type} (data : list A) o (x : A) rest :
  at_pos data o (x :: rest) → index data o = Ok x.
Proof. intros [_ H]. unfold index. by rewrite (drop_lookup _ _ _ _ H). Qed.

Lemma at_pos_le n data o z rest :
  at_pos data o (le_bytes n z ++ rest) → le_at n data o = Ok (z mod 2 ^ (8 * Z.of_nat n)).
Proof.
  intros H. apply at_pos_slice in H. rewrite length_le_bytes in H.
  unfold le_at. rewrite H. simpl. by rewrite le_val_le_bytes.
Qed.

Lemma at_pos_le_unsigned n data o z rest :
  0 ≤ z < 2 ^ (8 * Z.of_nat n) →
  at_pos data o (le_bytes n z ++ rest) → le_at n data o = Ok z.
Proof. intros Hz H. rewrite (at_pos_le _ _ _ _ _ H). by rewrite Z.mod_small. Qed.

Lemma at_pos_u16 data o z rest :
  u16_range z → at_pos data o (le_bytes 2 z ++ rest) → le_at 2 data o = Ok z.
Proof. intros Hz. by apply at_pos_le_unsigned. Qed.

Lemma at_pos_u32 data o z rest :
  u32_range z → at_pos data o (le_bytes 4 z ++ rest) → le_at 4 data o = Ok z.
Proof. intros Hz. by apply at_pos_le_unsigned. Qed.

Lemma at_pos_le_step n data o z rest :
  at_pos data o (le_bytes n z ++ rest) → at_pos data (o + n) rest.
Proof. intros H. apply at_pos_step in H. by rewrite length_le_bytes in H. Qed.

Lemma at_pos_nil {A : Type} (data : list A) o : at_pos data o [] → o = length data.
Proof. intros H. apply at_pos_length in H. simpl in H. lia. Qed.

(** * Counted loops: [for _ in 0..n { ... }] over a moving offset *)

Section Loop.
Context {A : Type} (step : nat → outcome E (A * nat)).

Fixpoint read_n (n : nat) (o : nat) : outcome E (list A * nat) :=
  match n with
  | O => Ok ([], o)
  | S n =>
      let? '(x, o) := step o in
      let? '(xs, o) := read_n n o in
      Ok (x :: xs, o)
  end.

Lemma read_n_no_panic n o : (∀ o, step o ≠ Panic) → read_n n o ≠ Panic.
Proof.
  intros Hs. revert o. induction n as [|n IH]; intros o; simpl; [done|].
  apply obind_no_panic; [apply Hs|]. intros [x o1] _.
  apply obind_no_panic; [apply IH|]. by intros [xs o2] _.
Qed.

Lemma read_n_length n o xs o' : read_n n o = Ok (xs, o') → length xs = n.
Proof.
  revert o xs. induction n as [|n IH]; intros o xs H; simpl in H.
  - by injection H as <- <-.
  - inv_bind H. inv_bind H. injection H as <- <-. simpl. f_equal. by eapply IH.
Qed.

Lemma read_n_Forall (P : A → Prop) n o xs o' :
  (∀ o x o', step o = Ok (x, o') → P x) → read_n n o = Ok (xs, o') → Forall P xs.
Proof.
  intros Hs. revert o xs. induction n as [|n IH]; intros o xs H; simpl in H.
  - by injection H as <- <-.
  - inv_bind H. inv_bind H. injection H as <- <-.
    constructor; [by eapply Hs | by eapply IH].
Qed.

(** The loop keeps a relation between its first and last offsets. *)
Lemma read_n_bound (R : nat → Prop) n o xs o' :
  (∀ o x o', R o → step o = Ok (x, o') → R o') →
  R o → read_n n o = Ok (xs, o') → R o'.
Proof.
  intros Hs. revert o xs. induction n as [|n IH]; intros o xs Ho H; simpl in H.
  - by injection H as <- <-.
  - inv_bind H. inv_bind H. injection H as <- <-. eapply IH; [|exact Ha0].
    by eapply Hs.
Qed.

(** No panic when every step keeps an invariant of the offset. *)
Lemma read_n_no_panic_inv (R : nat → Prop) n o :
  (∀ o, R o → step o ≠ Panic) → (∀ o x o', step o = Ok (x, o') → R o') → R o → read_n n o ≠ Panic.
Proof.
  intros Hs HR. revert o. induction n as [|n IH]; intros o Ho; simpl; [done|].
  apply obind_no_panic; [by apply Hs|]. intros [x o1] Hx.
  apply obind_no_panic; [by eapply IH, HR|]. by intros [xs o2] _.
Qed.

(** If every step decodes one encoded element to its image under [f], the loop
    decodes the concatenation of the encoded elements to their images. *)
Lemma read_n_encoded_map {B : Type} (f : B → A) (enc : B → list byte) (P : B → Prop) (data : list byte) xs o rest :
  (∀ x o rest, P x → at_pos data o (enc x ++ rest) → step o = Ok (f x, (o + length (enc x))%nat)) →
  Forall P xs →
  at_pos data o (encode_list enc xs ++ rest) →
  read_n (length xs) o = Ok (map f xs, (o + length (encode_list enc xs))%nat).
Proof.
  intros Hs HP. revert o. induction HP as [|x xs Hx HP IH]; intros o Ho.
  - simpl. by rewrite Nat.add_0_r.
  - rewrite encode_list_cons in Ho |- *. rewrite <- app_assoc in Ho.
    simpl. rewrite (Hs x o _ Hx Ho). simpl.
    rewrite (IH _ (at_pos_step _ _ _ _ Ho)). simpl. rewrite length_app.
    by rewrite Nat.add_assoc.
Qed.

Lemma read_n_encoded (enc : A → list byte) (P : A → Prop) (data : list byte) xs o rest :
  (∀ x o rest, P x → at_pos data o (enc x ++ rest) → step o = Ok (x, (o + length (enc x))%nat)) →
  Forall P xs →
  at_pos data o (encode_list enc xs ++ rest) →
  read_n (length xs) o = Ok (xs, (o + length (encode_list enc xs))%nat).
Proof.
  intros Hs HP Ho. rewrite (read_n_encoded_map (λ x, x) enc P data xs o rest Hs HP Ho).
  by rewrite map_id.
Qed.
End Loop.
End Slices.

#[export] Hint Resolve at_pos_start : odbc.
#[export] Hint Extern 1 (slice _ _ _ ≠ Panic) => (apply slice_no_panic; lia) : odbc.
#[export] Hint Extern 1 (index _ _ ≠ Panic) => (apply index_no_panic; lia) : odbc.
#[export] Hint Extern 1 (le_at _ _ _ ≠ Panic) => (apply le_at_no_panic; lia) : odbc.
#[export] Hint Extern 1 (slice_from _ _ ≠ Panic) => (apply slice_from_no_panic; lia) : odbc.

(** * The interface between a format and the formats built from it

    A prefix codec: values are written without a separator, and the decoder of
    a value that is followed by other bytes gives it back with the number of
    bytes it used.  The composite formats (parameter lists, directed lists,
    output footers) are proved against this interface. *)
Class WireCodec (E A : Type) := {
  wire_enc : A → list byte;
  wire_dec : list byte → outcome E (A * nat);
  wire_wf : A → Prop;
  wire_dec_enc : ∀ a rest, wire_wf a → wire_dec (wire_enc a ++ rest) = Ok (a, length (wire_enc a));
  wire_dec_bounds : ∀ data a n, wire_dec data = Ok (a, n) → (0 < n ≤ length data)%nat;
  wire_dec_wf : ∀ data a n, wire_dec data = Ok (a, n) → wire_wf a;
  wire_dec_no_panic : ∀ data, wire_dec data ≠ Panic
}.

Section CodecLists.
Context {E A : Type} `{!WireCodec E A}.

Lemma wire_enc_nonempty (a : A) : wire_wf a → (0 < length (wire_enc a))%nat.
Proof.
  intros H. pose proof (wire_dec_enc a [] H) as Hd. apply wire_dec_bounds in Hd. lia.
Qed.

Lemma encode_list_length_ge (xs : list A) :
  Forall wire_wf xs → (length xs ≤ length (encode_list wire_enc xs))%nat.
Proof.
  induction 1 as [|x xs Hx HP IH]; [done|]. rewrite encode_list_cons, length_app. simpl.
  pose proof (wire_enc_nonempty x Hx). lia.
Qed.
End CodecLists.

(** [simpl] leaves encoded integers and positioned reads folded. *)
#[global] Opaque le_bytes le_val slice slice_from index le_at.
