(* ===== verification/Errors.v ===== *)
(** The error values of the engine (src/native/odbc_engine/src/error/mod.rs):
    [OdbcError], its classification and the structured error that crosses the
    FFI boundary as bytes. *)

From S2P Require Import Prelude Wire.

(** [ErrorCategory] *)
Inductive ErrorCategory :=
| Transient
| Fatal
| Validation
| ConnectionLost.

#[export] Instance ErrorCategory_eq_dec : EqDecision ErrorCategory.
Proof. solve_decision. Defined.

(** [OdbcError].  The SQLSTATE is the [u8; 5] of the driver. *)
Inductive OdbcError :=
| OdbcApi (msg : string)
| InvalidHandle (id : Z)
| EmptyConnectionString
| EnvironmentNotInitialized
| Structured (sqlstate : list byte) (native_code : Z) (message : string)
| PoolError (msg : string)
| InternalError (msg : string)
| ValidationError (msg : string)
| UnsupportedFeature (msg : string)
| NoMoreResults
| MalformedPayload (msg : string)
| RollbackFailed (msg : string)
| ResourceLimitReached (msg : string)
| Cancelled
| WorkerCrashed (msg : string)
| BulkPartialFailure (rows_inserted_before_failure failed_chunks : Z) (detail : string).

#[export] Instance OdbcError_eq_dec : EqDecision OdbcError.
Proof. solve_decision. Defined.

(** [crate::error::Result] *)
Abbreviation Result := (outcome OdbcError).

(** The [Display] of an error, from the [#[error]] attributes. *)
Definition to_string (e : OdbcError) : string :=
  match e with
  | OdbcApi m => "ODBC error: " +:+ m
  | InvalidHandle id => "Invalid handle ID: " +:+ fmt_Z id
  | EmptyConnectionString => "Connection string is empty"
  | EnvironmentNotInitialized => "Environment not initialized"
  | Structured _ _ m => "Structured error: " +:+ m
  | PoolError m => "Pool error: " +:+ m
  | InternalError m => "Internal error: " +:+ m
  | ValidationError m => "Validation error: " +:+ m
  | UnsupportedFeature m => "Unsupported feature: " +:+ m
  | NoMoreResults => "No more result sets available"
  | MalformedPayload m => "Malformed payload: " +:+ m
  | RollbackFailed m => "Rollback failed: " +:+ m
  | ResourceLimitReached m => "Resource limit reached: " +:+ m
  | Cancelled => "Operation cancelled"
  | WorkerCrashed m => "Worker thread crashed: " +:+ m
  | BulkPartialFailure n k d =>
      "Bulk insert partial failure: " +:+ fmt_Z k +:+ " chunk(s) failed; " +:+ fmt_Z n
        +:+ " rows inserted before failure: " +:+ d
  end.

(** [str::contains] with a string pattern. *)
Fixpoint str_contains (needle hay : string) : bool :=
  String.prefix needle hay ||
  match hay with
  | EmptyString => false
  | String _ hay => str_contains needle hay
  end.

(** ** Accessors and classification *)

Definition sqlstate (e : OdbcError) : list byte :=
  match e with
  | Structured s _ _ => s
  | _ => replicate 5 (z2b 0)
  end.

Definition native_code (e : OdbcError) : Z :=
  match e with
  | Structured _ n _ => n
  | _ => 0
  end.

Definition message (e : OdbcError) : string :=
  match e with
  | Structured _ _ m => m
  | _ => to_string e
  end.

(** [sqlstate[0] == b'0' && sqlstate[1] == b'8'] on a [u8; 5]. *)
Definition sqlstate_is_08 (s : list byte) : bool :=
  match s with
  | a :: b :: _ => (b2z a =? 0x30) && (b2z b =? 0x38)
  | _ => false
  end.

Definition is_retryable (e : OdbcError) : bool :=
  match e with
  | Structured s _ _ => sqlstate_is_08 s
  | PoolError _ => true
  | InternalError m => str_contains "timeout" m || str_contains "Timeout" m
  | _ => false
  end.

Definition is_connection_error (e : OdbcError) : bool :=
  match e with
  | EmptyConnectionString | EnvironmentNotInitialized => true
  | Structured s _ _ => sqlstate_is_08 s
  | _ => false
  end.

Definition error_category (e : OdbcError) : ErrorCategory :=
  if match e with ValidationError _ => true | _ => false end then Validation
  else if match e with UnsupportedFeature _ => true | _ => false end then Fatal
  else if is_connection_error e then ConnectionLost
  else if is_retryable e then Transient
  else Fatal.

(** ** The structured error and its wire form *)

Record StructuredError := mkStructuredError {
  se_sqlstate : list byte;
  se_native_code : Z;
  se_message : string
}.

Definition to_structured (e : OdbcError) : StructuredError :=
  mkStructuredError (sqlstate e) (native_code e) (message e).

Definition se_serialize (e : StructuredError) : list byte :=
  se_sqlstate e
    ++ le_bytes 4 (se_native_code e)
    ++ le_bytes 4 (to_unsigned 32 (len (as_bytes (se_message e))))
    ++ as_bytes (se_message e).

Definition se_deserialize (data : list byte) : outcome OdbcError (option StructuredError) :=
  if len data <? 13 then Ok None
  else
    let? st := slice data 0 5 in
    let? code := le_at 4 data 5 in
    let? msg_len := le_at 4 data 9 in
    if len data <? 13 + msg_len then Ok None
    else
      let? bs := slice data 13 (13 + Z.to_nat msg_len) in
      match from_utf8 bs with
      | None => Ok None
      | Some m => Ok (Some (mkStructuredError st (to_signed 32 code) m))
      end.

(** What the Rust types guarantee of a structured error. *)
Record structured_wf (e : StructuredError) : Prop := {
  sw_state : length (se_sqlstate e) = 5%nat;
  sw_code : i32_range (se_native_code e);
  sw_msg : str_wf (se_message e);
  sw_len : len (as_bytes (se_message e)) < 2 ^ 32
}.

(** Deserialising what was serialised gives the error back, and bytes that
    follow it are ignored. *)
Theorem structured_roundtrip (e : StructuredError) (rest : list byte) :
  structured_wf e → se_deserialize (se_serialize e ++ rest) = Ok (Some e).
Proof.
  intros [Hs Hc Hm Hl]. destruct e as [st code msg]; simpl in *.
  set (m := as_bytes msg) in *.
  assert (to_unsigned 32 (len m) = len m) as Hu.
  { unfold to_unsigned. rewrite Z.mod_small; [done|]. pose proof (len_nonneg m). lia. }
  unfold se_serialize; simpl. fold m. rewrite Hu.
  set (data := (st ++ _) ++ rest).
  assert (at_pos data 0 (st ++ le_bytes 4 code ++ le_bytes 4 (len m) ++ m ++ rest)) as P0.
  { unfold data. rewrite <- !app_assoc. apply at_pos_start. }
  pose proof (at_pos_length _ _ _ P0) as Hlen.
  rewrite !length_app, !length_le_bytes, Hs in Hlen.
  pose proof (at_pos_step _ _ _ _ P0) as P1. rewrite Hs in P1. simpl in P1.
  pose proof (at_pos_le_step _ _ _ _ _ P1) as P2.
  pose proof (at_pos_le_step _ _ _ _ _ P2) as P3.
  simpl in P2, P3.
  unfold se_deserialize.
  destruct (Z.ltb_spec (len data) 13) as [Hlt|_]; [unfold len in Hlt; lia|].
  pose proof (at_pos_slice (E := OdbcError) _ _ _ _ P0) as E0. rewrite Hs in E0. simpl in E0.
  rewrite E0. simpl. rewrite (at_pos_le _ _ _ _ _ P1). simpl.
  rewrite (at_pos_u32 _ _ _ _ (conj (len_nonneg m) Hl) P2). simpl.
  destruct (Z.ltb_spec (len data) (13 + len m)) as [Hlt|_]; [unfold len in *; lia|].
  replace (Z.to_nat (len m)) with (length m) by (unfold len; lia).
  rewrite (at_pos_slice _ _ _ _ P3). simpl.
  unfold m. rewrite from_utf8_as_bytes by done. repeat f_equal.
  by apply (to_signed_unsigned 32).
Qed.

(** Decoding is total on arbitrary bytes. *)
Lemma se_deserialize_no_panic (data : list byte) : se_deserialize data ≠ Panic.
Proof.
  unfold se_deserialize. destruct (Z.ltb_spec (len data) 13) as [|H13]; [done|].
  unfold len in H13.
  apply obind_no_panic; [apply slice_no_panic; lia|]. intros st _.
  apply obind_no_panic; [apply le_at_no_panic; lia|]. intros code _.
  apply obind_no_panic; [apply le_at_no_panic; lia|]. intros ml Hml.
  apply le_at_inv in Hml as [_ Hml].
  destruct (Z.ltb_spec (len data) (13 + ml)) as [|Hd]; [done|]. unfold len in Hd.
  apply obind_no_panic; [apply slice_no_panic; lia|]. intros bs _. by destruct (from_utf8 bs).
Qed.

Lemma structured_roundtrip_witness :
  se_deserialize (se_serialize (mkStructuredError (as_bytes "08S01") (-5) "lost") ++ [xff])
  = Ok (Some (mkStructuredError (as_bytes "08S01") (-5) "lost")).
Proof. apply structured_roundtrip. split; vm_compute; (reflexivity || (split; (reflexivity || discriminate))). Defined.
