(* ===== verification/RowCodec.v ===== *)
(** The row-major result format, version 1: column types
    (protocol/types.rs), the row buffer (protocol/row_buffer.rs), its encoder
    with the optional footers (protocol/encoder.rs) and its decoder
    (protocol/decoder.rs). *)

From S2P Require Import Prelude Wire Errors.

(** * Column types *)

(** [OdbcType], [#[repr(u16)]] *)
Inductive OdbcType :=
| Varchar | Integer | BigInt | Decimal | Date | Timestamp | Binary
| NVarchar | TimestampWithTz | DatetimeOffset | Time | SmallInt | Boolean
| Float | Double | Json | Uuid | Money | Interval.

#[export] Instance OdbcType_eq_dec : EqDecision OdbcType.
Proof. solve_decision. Defined.

(** [odbc_type as u16] *)
Definition type_code (t : OdbcType) : Z :=
  match t with
  | Varchar => 1 | Integer => 2 | BigInt => 3 | Decimal => 4 | Date => 5
  | Timestamp => 6 | Binary => 7 | NVarchar => 8 | TimestampWithTz => 9
  | DatetimeOffset => 10 | Time => 11 | SmallInt => 12 | Boolean => 13
  | Float => 14 | Double => 15 | Json => 16 | Uuid => 17 | Money => 18
  | Interval => 19
  end.

Definition from_protocol_discriminant (code : Z) : OdbcType :=
  match code with
  | 1 => Varchar
  | 2 => Integer
  | 3 => BigInt
  | 4 => Decimal
  | 5 => Date
  | 6 => Timestamp
  | 7 => Binary
  | 8 => NVarchar
  | 9 => TimestampWithTz
  | 10 => DatetimeOffset
  | 11 => Time
  | 12 => SmallInt
  | 13 => Boolean
  | 14 => Float
  | 15 => Double
  | 16 => Json
  | 17 => Uuid
  | 18 => Money
  | 19 => Interval
  | _ => Varchar
  end.

(** The argument is the [i16] SQL type of the driver. *)
Definition from_odbc_sql_type (sql_type : Z) : OdbcType :=
  match sql_type with
  | 1 => Varchar
  | 4 => Integer
  | -5 => BigInt
  | 3 => Decimal
  | 9 | 91 => Date
  | 11 | 93 => Timestamp
  | -4 | -3 | -2 => Binary
  | -10 | -9 | -8 => NVarchar
  | 5 => SmallInt
  | -6 => SmallInt
  | -7 => Boolean
  | 7 => Float
  | 6 | 8 => Double
  | 10 | 92 => Time
  | 2 => Decimal
  | -11 => Uuid
  | _ => Varchar
  end.

Lemma type_code_u16 t : u16_range (type_code t).
Proof. unfold u16_range. destruct t; simpl; lia. Qed.

Lemma from_protocol_type_code t : from_protocol_discriminant (type_code t) = t.
Proof. by destruct t. Qed.

(** * The row buffer *)

(** A cell: [Option<Vec<u8>>]. *)
Abbreviation cell := (option (list byte)).

Record ColumnMetadata := mkColumn { col_name : string; col_type : OdbcType }.

Record RowBuffer := mkRowBuffer { rb_columns : list ColumnMetadata; rb_rows : list (list cell) }.

#[export] Instance ColumnMetadata_eq_dec : EqDecision ColumnMetadata.
Proof. solve_decision. Defined.

Definition rb_new : RowBuffer := mkRowBuffer [] [].

Definition add_column (b : RowBuffer) (name : string) (t : OdbcType) : RowBuffer :=
  mkRowBuffer (rb_columns b ++ [mkColumn name t]) (rb_rows b).

Definition add_row (b : RowBuffer) (row : list cell) : RowBuffer :=
  mkRowBuffer (rb_columns b) (rb_rows b ++ [row]).

Definition row_count (b : RowBuffer) : Z := len (rb_rows b).

Definition column_count (b : RowBuffer) : Z := len (rb_columns b).

(** * The encoder *)

(** [EncodeError]; the [Io] case carries the writer's error. *)
Inductive EncodeError :=
| LengthTooLarge (field : string) (value : Z) (target : string)
| PayloadSizeOverflow (context : string)
| Io (error : string).

Definition encode_error_string (e : EncodeError) : string :=
  match e with
  | LengthTooLarge field value target => field +:+ " value " +:+ fmt_Z value +:+ " exceeds " +:+ target
  | PayloadSizeOverflow context => "payload size overflow while adding " +:+ context
  | Io error => "writer error: " +:+ error
  end.

Definition MAGIC : Z := 0x4F444243.
Definition VERSION : Z := 1.

Definition checked_u16_len (value : Z) (field : string) : outcome EncodeError Z :=
  if value <=? 2 ^ 16 - 1 then Ok value else Err (LengthTooLarge field value "u16").

Definition checked_u32_len (value : Z) (field : string) : outcome EncodeError Z :=
  if value <=? 2 ^ 32 - 1 then Ok value else Err (LengthTooLarge field value "u32").

Definition checked_payload_add (current added : Z) (context : string) : outcome EncodeError Z :=
  ok_or (checked_add current added) (PayloadSizeOverflow context).

(** The size pass over the column metadata. *)
Definition add_column_size (size : Z) (c : ColumnMetadata) : outcome EncodeError Z :=
  let? _ := checked_u16_len (len (as_bytes (col_name c))) "column name length" in
  let? size := checked_payload_add size 2 "column type" in
  let? size := checked_payload_add size 2 "column name length" in
  checked_payload_add size (len (as_bytes (col_name c))) "column name".

(** The size pass over one cell. *)
Definition add_cell_size (size : Z) (c : cell) : outcome EncodeError Z :=
  let? size := checked_payload_add size 1 "cell null flag" in
  match c with
  | Some data =>
      let? _ := checked_u32_len (len data) "cell data length" in
      let? size := checked_payload_add size 4 "cell data length" in
      checked_payload_add size (len data) "cell data"
  | None => Ok size
  end.

Section Writer.
(** A [std::io::Write] sink: [write_all] appends or fails. *)
Context {W : Type} (write_all : W → list byte → outcome EncodeError W).

Definition write_column (w : W) (c : ColumnMetadata) : outcome EncodeError W :=
  let? w := write_all w (le_bytes 2 (type_code (col_type c))) in
  let? name_len := checked_u16_len (len (as_bytes (col_name c))) "column name length" in
  let? w := write_all w (le_bytes 2 name_len) in
  write_all w (as_bytes (col_name c)).

Definition write_cell (w : W) (c : cell) : outcome EncodeError W :=
  match c with
  | Some data =>
      let? w := write_all w [z2b 0] in
      let? data_len := checked_u32_len (len data) "cell data length" in
      let? w := write_all w (le_bytes 4 data_len) in
      write_all w data
  | None => write_all w [z2b 1]
  end.

Definition encode_to_writer (b : RowBuffer) (w : W) : outcome EncodeError W :=
  let? columns := checked_u16_len (column_count b) "column count" in
  let? rows := checked_u32_len (row_count b) "row count" in
  let? metadata_size := ofold add_column_size (rb_columns b) 0 in
  let? payload_size := ofold (λ size row, ofold add_cell_size row size) (rb_rows b) metadata_size in
  let? payload_size := checked_u32_len payload_size "payload size" in
  let? w := write_all w (le_bytes 4 MAGIC) in
  let? w := write_all w (le_bytes 2 VERSION) in
  let? w := write_all w (le_bytes 2 columns) in
  let? w := write_all w (le_bytes 4 rows) in
  let? w := write_all w (le_bytes 4 payload_size) in
  let? w := ofold write_column (rb_columns b) w in
  ofold (λ w row, ofold write_cell row w) (rb_rows b) w.
End Writer.

(** A [Vec<u8>] is a sink that never fails. *)
Definition vec_write_all (w bs : list byte) : outcome EncodeError (list byte) := Ok (w ++ bs).

Definition try_encode (b : RowBuffer) : outcome EncodeError (list byte) :=
  encode_to_writer vec_write_all b [].

Definition encode (b : RowBuffer) : outcome EncodeError (list byte) := expect (try_encode b).

(** ** What the encoder writes *)

Definition enc_column (c : ColumnMetadata) : list byte :=
  le_bytes 2 (type_code (col_type c)) ++ le_bytes 2 (len (as_bytes (col_name c))) ++ as_bytes (col_name c).

Definition enc_cell (c : cell) : list byte :=
  match c with
  | Some data => z2b 0 :: le_bytes 4 (len data) ++ data
  | None => [z2b 1]
  end.

Definition enc_row (row : list cell) : list byte := encode_list enc_cell row.

Definition enc_payload (b : RowBuffer) : list byte :=
  encode_list enc_column (rb_columns b) ++ encode_list enc_row (rb_rows b).

Definition enc_header (columns rows payload_size : Z) : list byte :=
  le_bytes 4 MAGIC ++ le_bytes 2 VERSION ++ le_bytes 2 columns ++ le_bytes 4 rows
    ++ le_bytes 4 payload_size.

(** The values the wire can carry at all. *)
Definition column_fits (c : ColumnMetadata) : Prop := len (as_bytes (col_name c)) < 2 ^ 16.
Definition cell_fits (c : cell) : Prop := match c with Some d => len d < 2 ^ 32 | None => True end.

Record encodable (b : RowBuffer) : Prop := {
  enc_cols : column_count b < 2 ^ 16;
  enc_rows : row_count b < 2 ^ 32;
  enc_names : Forall column_fits (rb_columns b);
  enc_cells : Forall (Forall cell_fits) (rb_rows b);
  enc_size : len (enc_payload b) < 2 ^ 32
}.

Lemma len_enc_column c : len (enc_column c) = 4 + len (as_bytes (col_name c)).
Proof. unfold enc_column. rewrite !len_app, !len_le_bytes. lia. Qed.

Lemma len_enc_cell c : len (enc_cell c) = match c with Some d => 5 + len d | None => 1 end.
Proof.
  destruct c as [d|]; simpl; [|done]. rewrite len_cons, len_app, len_le_bytes. lia.
Qed.

Lemma checked_payload_add_ok a b ctx :
  a + b ≤ usize_max → checked_payload_add a b ctx = Ok (a + b).
Proof.
  intros H. unfold checked_payload_add, checked_add.
  by destruct (Z.leb_spec (a + b) usize_max); [|lia].
Qed.

Lemma checked_u16_len_ok v f : v < 2 ^ 16 → checked_u16_len v f = Ok v.
Proof. intros H. unfold checked_u16_len. by destruct (Z.leb_spec v (2 ^ 16 - 1)); [|lia]. Qed.

Lemma checked_u32_len_ok v f : v < 2 ^ 32 → checked_u32_len v f = Ok v.
Proof. intros H. unfold checked_u32_len. by destruct (Z.leb_spec v (2 ^ 32 - 1)); [|lia]. Qed.

Lemma add_column_size_ok s c :
  column_fits c → 0 ≤ s → s + len (enc_column c) ≤ usize_max →
  add_column_size s c = Ok (s + len (enc_column c)).
Proof.
  unfold column_fits. intros Hc Hs HM. rewrite len_enc_column in *.
  pose proof (len_nonneg (as_bytes (col_name c))).
  unfold add_column_size. rewrite checked_u16_len_ok by done. simpl.
  rewrite checked_payload_add_ok by lia. simpl.
  rewrite checked_payload_add_ok by lia. simpl.
  rewrite checked_payload_add_ok by lia. f_equal. lia.
Qed.

Lemma add_cell_size_ok s c :
  cell_fits c → 0 ≤ s → s + len (enc_cell c) ≤ usize_max →
  add_cell_size s c = Ok (s + len (enc_cell c)).
Proof.
  intros Hc Hs HM. rewrite len_enc_cell in *. unfold add_cell_size.
  destruct c as [d|]; simpl in Hc.
  - pose proof (len_nonneg d). rewrite checked_payload_add_ok by lia. simpl.
    rewrite checked_u32_len_ok by done. simpl.
    rewrite checked_payload_add_ok by lia. simpl.
    rewrite checked_payload_add_ok by lia. f_equal. lia.
  - by rewrite checked_payload_add_ok by lia.
Qed.

Lemma write_column_ok w c :
  column_fits c → write_column vec_write_all w c = Ok (w ++ enc_column c).
Proof.
  intros Hc. unfold write_column, vec_write_all. simpl.
  rewrite checked_u16_len_ok by done. simpl. unfold enc_column. by rewrite !app_assoc.
Qed.

Lemma write_cell_ok w c : cell_fits c → write_cell vec_write_all w c = Ok (w ++ enc_cell c).
Proof.
  intros Hc. destruct c as [d|]; [|done]. unfold write_cell, vec_write_all. simpl in Hc |- *.
  rewrite checked_u32_len_ok by done. simpl. by rewrite <- !app_assoc.
Qed.

(** The encoder refines the layout: header, columns, rows. *)
Lemma try_encode_spec b :
  encodable b →
  try_encode b =
    Ok (enc_header (column_count b) (row_count b) (len (enc_payload b)) ++ enc_payload b).
Proof.
  intros [Hc Hr Hn Hce Hs]. unfold try_encode, encode_to_writer.
  rewrite checked_u16_len_ok by done. simpl. rewrite checked_u32_len_ok by done. simpl.
  unfold enc_payload in Hs |- *. rewrite len_app in Hs |- *.
  set (cs := encode_list enc_column (rb_columns b)) in *.
  set (rs := encode_list enc_row (rb_rows b)) in *.
  pose proof (len_nonneg cs). pose proof (len_nonneg rs).
  rewrite (ofold_add _ (λ c, len (enc_column c)) column_fits usize_max) by
    (auto using len_nonneg, add_column_size_ok; rewrite <- ?len_encode_list; fold cs;
     unfold usize_max; lia).
  rewrite <- len_encode_list. fold cs. simpl.
  rewrite (ofold_add _ (λ r, len (enc_row r)) (Forall cell_fits) usize_max);
    [| auto using len_nonneg | | done | lia
     | rewrite <- len_encode_list; fold rs; unfold usize_max; lia].
  2: { intros s row HP H1 H2. unfold enc_row in *. rewrite len_encode_list in *.
       by apply (ofold_add _ _ cell_fits usize_max); auto using len_nonneg, add_cell_size_ok. }
  rewrite <- len_encode_list. fold rs. simpl. rewrite checked_u32_len_ok by lia. simpl.
  rewrite (ofold_emit _ enc_column column_fits) by auto using write_column_ok. simpl.
  rewrite (ofold_emit _ enc_row (Forall cell_fits));
    [| by intros s x Hx; apply (ofold_emit _ enc_cell cell_fits); auto using write_cell_ok | done].
  unfold enc_header. rewrite <- !app_assoc. done.
Qed.

(** * The decoder *)

Definition HEADER_SIZE : Z := 16.
Definition MAX_DECODED_COLUMNS : Z := 4096.
Definition MAX_DECODED_ROWS : Z := 1000000.
Definition MAX_DECODED_CELLS : Z := 5000000.
Definition MAX_DECODED_PAYLOAD_SIZE : Z := 256 * 1024 * 1024.
Definition MAX_DECODED_CELL_SIZE : Z := 64 * 1024 * 1024.

(** [DecodedResult]; a [ColumnInfo] holds what a [ColumnMetadata] does. *)
Record DecodedResult := mkDecoded {
  dr_columns : list ColumnMetadata;
  dr_rows : list (list cell);
  dr_row_count : Z;
  dr_column_count : Z
}.

Definition validate_shape (column_count row_count payload_size : Z) : Result unit :=
  if MAX_DECODED_COLUMNS <? column_count then
    Err (ValidationError ("Column count " +:+ fmt_Z column_count +:+ " exceeds limit " +:+ fmt_Z MAX_DECODED_COLUMNS))
  else if MAX_DECODED_ROWS <? row_count then
    Err (ValidationError ("Row count " +:+ fmt_Z row_count +:+ " exceeds limit " +:+ fmt_Z MAX_DECODED_ROWS))
  else
    let? cell_count := ok_or (checked_mul column_count row_count) (ValidationError "Cell count overflow") in
    if MAX_DECODED_CELLS <? cell_count then
      Err (ValidationError ("Cell count " +:+ fmt_Z cell_count +:+ " exceeds limit " +:+ fmt_Z MAX_DECODED_CELLS))
    else if MAX_DECODED_PAYLOAD_SIZE <? payload_size then
      Err (ValidationError ("Payload size " +:+ fmt_Z payload_size +:+ " exceeds limit " +:+ fmt_Z MAX_DECODED_PAYLOAD_SIZE))
    else Ok tt.

(** One turn of the column metadata loop. *)
Definition read_column (buffer : list byte) (offset : nat) : Result (ColumnMetadata * nat) :=
  if (length buffer <? offset + 4)%nat then
    Err (ValidationError "Buffer too small for column metadata")
  else
    let? odbc_type_code := le_at 2 buffer offset in
    let odbc_type := from_protocol_discriminant odbc_type_code in
    let offset := (offset + 2)%nat in
    let? name_len := le_at 2 buffer offset in
    let offset := (offset + 2)%nat in
    let name_len := Z.to_nat name_len in
    if (length buffer <? offset + name_len)%nat then
      Err (ValidationError "Buffer too small for column name")
    else
      let? name_bytes := slice buffer offset (offset + name_len) in
      let? name := ok_or (from_utf8 name_bytes) (ValidationError ("Invalid UTF-8 in column name: " +:+ fmt_utf8_error name_bytes)) in
      Ok (mkColumn name odbc_type, (offset + name_len)%nat).

(** One turn of the cell loop. *)
Definition read_cell (buffer : list byte) (offset : nat) : Result (cell * nat) :=
  if (length buffer <=? offset)%nat then
    Err (ValidationError "Buffer too small for row data")
  else
    let? is_null := index buffer offset in
    let offset := (offset + 1)%nat in
    if b2z is_null =? 1 then Ok (None, offset)
    else if (length buffer <? offset + 4)%nat then
      Err (ValidationError "Buffer too small for data length")
    else
      let? data_len := le_at 4 buffer offset in
      if MAX_DECODED_CELL_SIZE <? data_len then
        Err (ValidationError ("Cell data length " +:+ fmt_Z data_len +:+ " exceeds limit " +:+ fmt_Z MAX_DECODED_CELL_SIZE))
      else
        let offset := (offset + 4)%nat in
        let? end_ := ok_or (checked_add (Z.of_nat offset) data_len) (ValidationError "Cell data offset overflow") in
        if Z.of_nat (length buffer) <? end_ then
          Err (ValidationError "Buffer too small for cell data")
        else
          let? data := slice buffer offset (Z.to_nat end_) in
          Ok (Some data, Z.to_nat end_).

Definition read_row (buffer : list byte) (column_count : Z) (offset : nat) : Result (list cell * nat) :=
  read_n (read_cell buffer) (Z.to_nat column_count) offset.

(** [BinaryProtocolDecoder::parse] *)
Definition parse (buffer : list byte) : Result DecodedResult :=
  if len buffer <? HEADER_SIZE then
    Err (ValidationError ("Buffer too small: need at least " +:+ fmt_Z HEADER_SIZE +:+ " bytes, got " +:+ fmt_Z (len buffer)))
  else
    let? magic := le_at 4 buffer 0 in
    if negb (magic =? MAGIC) then 
      Err (ValidationError ("Invalid magic number: expected 0x" +:+ fmt_HEX 8 MAGIC +:+ ", got 0x" +:+ fmt_HEX 8 magic))
    else
      let? version := le_at 2 buffer 4 in
      if negb (version =? VERSION) then
        Err (ValidationError ("Invalid version: expected " +:+ fmt_Z VERSION +:+ ", got " +:+ fmt_Z version))
      else
        let? column_count := le_at 2 buffer 6 in
        let? row_count := le_at 4 buffer 8 in
        let? payload_size := le_at 4 buffer 12 in
        let? _ := validate_shape column_count row_count payload_size in
        let? '(columns, offset) := read_n (read_column buffer) (Z.to_nat column_count) 16%nat in
        let? '(rows, offset) := read_n (read_row buffer column_count) (Z.to_nat row_count) offset in
        let? expected_len := ok_or (checked_add HEADER_SIZE payload_size) (ValidationError "Payload size overflow") in
        if negb (expected_len =? len buffer) then
          Err (ValidationError ("Payload size mismatch: header declares " +:+ fmt_Z payload_size +:+ ", buffer has "
                 +:+ fmt_Z (saturating_sub (len buffer) HEADER_SIZE) +:+ " payload bytes"))
        else if negb (Nat.eqb offset (length buffer)) then
          Err (ValidationError "Buffer has trailing bytes")
        else Ok (mkDecoded columns rows row_count column_count).

(** ** No input makes the decoder panic *)

Lemma read_column_no_panic buffer o : read_column buffer o ≠ Panic.
Proof.
  unfold read_column. destruct (Nat.ltb_spec (length buffer) (o + 4)); [done|].
  apply obind_no_panic; [auto with odbc|]. intros tc _. cbn zeta.
  apply obind_no_panic; [apply le_at_no_panic; lia|]. intros nl Hnl.
  destruct (Nat.ltb_spec (length buffer) (o + 2 + 2 + Z.to_nat nl)); [done|].
  apply obind_no_panic; [apply slice_no_panic; lia|]. intros bs _.
  by destruct (from_utf8 bs).
Qed.

Lemma read_cell_no_panic buffer o : read_cell buffer o ≠ Panic.
Proof.
  unfold read_cell. destruct (Nat.leb_spec (length buffer) o); [done|].
  apply obind_no_panic; [auto with odbc|]. intros b _. cbn zeta.
  destruct (b2z b =? 1); [done|].
  destruct (Nat.ltb_spec (length buffer) (o + 1 + 4)); [done|].
  apply obind_no_panic; [auto with odbc|]. intros dl [_ Hdl]%le_at_inv.
  destruct (_ <? dl); [done|].
  apply obind_no_panic; [auto with odbc|]. intros e He.
  unfold checked_add in He. destruct (_ <=? _); [injection He as <-|discriminate].
  destruct (Z.ltb_spec (Z.of_nat (length buffer)) (Z.of_nat (o + 1 + 4) + dl)); [done|].
  apply obind_no_panic; [apply slice_no_panic; lia|]. done.
Qed.

Lemma validate_shape_no_panic c r p : validate_shape c r p ≠ Panic.
Proof.
  unfold validate_shape. destruct (_ <? c); [done|]. destruct (_ <? r); [done|].
  apply obind_no_panic; [auto with odbc|]. intros n _.
  destruct (_ <? n); [done|]. by destruct (_ <? p).
Qed.

(** [BinaryProtocolDecoder::parse] never panics. *)
Lemma parse_no_panic (buffer : list byte) : parse buffer ≠ Panic.
Proof.
  unfold parse, HEADER_SIZE. destruct (Z.ltb_spec (len buffer) 16) as [|H]; [done|].
  unfold len in H.
  apply obind_no_panic; [auto with odbc|]. intros magic _. destruct (negb _); [done|].
  apply obind_no_panic; [auto with odbc|]. intros ver _. destruct (negb _); [done|].
  apply obind_no_panic; [auto with odbc|]. intros cc _.
  apply obind_no_panic; [auto with odbc|]. intros rc _.
  apply obind_no_panic; [auto with odbc|]. intros ps _.
  apply obind_no_panic; [apply validate_shape_no_panic|]. intros _ _.
  apply obind_no_panic; [apply read_n_no_panic, read_column_no_panic|]. intros [cs o] _.
  apply obind_no_panic; [apply read_n_no_panic; intros; apply read_n_no_panic, read_cell_no_panic|].
  intros [rs o'] _.
  apply obind_no_panic; [auto with odbc|]. intros el _.
  destruct (negb _); [done|]. by destruct (negb _).
Qed.

(** ** What a successful decode guarantees *)

Record decoded_shape (buffer : list byte) (r : DecodedResult) : Prop := {
  ds_columns : len (dr_columns r) = dr_column_count r;
  ds_rows : len (dr_rows r) = dr_row_count r;
  ds_rect : Forall (λ row, len row = dr_column_count r) (dr_rows r);
  ds_names : Forall (λ c, str_wf (col_name c)) (dr_columns r);
  ds_max_columns : dr_column_count r ≤ MAX_DECODED_COLUMNS;
  ds_max_rows : dr_row_count r ≤ MAX_DECODED_ROWS;
  ds_max_cells : dr_column_count r * dr_row_count r ≤ MAX_DECODED_CELLS;
  ds_cells : Forall (Forall (λ c : cell, match c with Some d => len d ≤ MAX_DECODED_CELL_SIZE | None => True end)) (dr_rows r);
  ds_len : len buffer ≤ HEADER_SIZE + MAX_DECODED_PAYLOAD_SIZE
}.

Lemma read_column_name buffer o c o' : read_column buffer o = Ok (c, o') → str_wf (col_name c).
Proof.
  unfold read_column. destruct (_ <? _)%nat; [done|]. intros H. inv_bind H. inv_bind H.
  destruct (_ <? _)%nat; [done|]. inv_bind H. inv_bind H. injection H as <- <-.
  simpl. destruct (from_utf8 a1) as [s|] eqn:Hs; [|done]. injection Ha2 as <-.
  by apply from_utf8_Some in Hs as [_ ?].
Qed.

Lemma read_cell_size buffer o (c : cell) o' :
  read_cell buffer o = Ok (c, o') →
  match c with Some d => len d ≤ MAX_DECODED_CELL_SIZE | None => True end.
Proof.
  unfold read_cell. destruct (_ <=? _)%nat; [done|]. intros H. inv_bind H.
  destruct (_ =? 1); [by injection H as <- <-|]. destruct (_ <? _)%nat; [done|]. inv_bind H.
  destruct (Z.ltb_spec MAX_DECODED_CELL_SIZE a0) as [|Hle]; [done|]. inv_bind H.
  unfold checked_add in Ha1. destruct (_ <=? _); [injection Ha1 as <-|done].
  destruct (_ <? _); [done|]. inv_bind H. injection H as <- <-.
  apply slice_length in Ha1. apply le_at_inv in Ha0. unfold len. lia.
Qed.

Lemma validate_shape_inv c r p :
  validate_shape c r p = Ok tt →
  c ≤ MAX_DECODED_COLUMNS ∧ r ≤ MAX_DECODED_ROWS ∧ c * r ≤ MAX_DECODED_CELLS ∧ p ≤ MAX_DECODED_PAYLOAD_SIZE.
Proof.
  unfold validate_shape. intros H.
  destruct (Z.ltb_spec MAX_DECODED_COLUMNS c); [done|].
  destruct (Z.ltb_spec MAX_DECODED_ROWS r); [done|]. inv_bind H.
  destruct (Z.ltb_spec MAX_DECODED_CELLS a) as [|Hca]; [done|].
  destruct (Z.ltb_spec MAX_DECODED_PAYLOAD_SIZE p) as [|Hpa]; [done|].
  unfold checked_mul in Ha. destruct (_ <=? _); [injection Ha as <-|done]. lia.
Qed.

(** The header a successful parse has read, and the offset it has reached. *)
Lemma parse_Ok_inv buffer r :
  parse buffer = Ok r →
  16 ≤ len buffer ∧
  le_at (E := OdbcError) 4 buffer 0 = Ok MAGIC ∧
  le_at (E := OdbcError) 4 buffer 12 = Ok (len buffer - 16) ∧
  validate_shape (dr_column_count r) (dr_row_count r) (len buffer - 16) = Ok tt ∧
  0 ≤ dr_column_count r ∧ 0 ≤ dr_row_count r ∧
  ∃ o, read_n (read_column buffer) (Z.to_nat (dr_column_count r)) 16%nat = Ok (dr_columns r, o) ∧
       read_n (read_row buffer (dr_column_count r)) (Z.to_nat (dr_row_count r)) o = Ok (dr_rows r, length buffer).
Proof.
  unfold parse, HEADER_SIZE. destruct (Z.ltb_spec (len buffer) 16) as [|H16]; [done|]. intros H.
  inv_bind H. destruct (Z.eqb_spec a MAGIC) as [->|]; [|done]. cbn [negb] in H.
  inv_bind H. destruct (Z.eqb_spec a VERSION) as [->|]; [|done]. cbn [negb] in H.
  inv_bind H. inv_bind H. inv_bind H. inv_bind H. inv_bind H. inv_bind H. inv_bind H.
  rename a into cc, a0 into rc, a1 into ps, a2 into u, a3 into ex, Ha7 into Hexp.
  unfold checked_add in Hexp. destruct (_ <=? usize_max); [injection Hexp as <-|done].
  destruct (Z.eqb_spec (16 + ps) (len buffer)) as [Heq|]; [|done]. cbn [negb] in H.
  destruct (Nat.eqb_spec o0 (length buffer)) as [->|]; [|done]. cbn [negb] in H.
  injection H as <-. simpl. destruct u.
  replace (len buffer - 16) with ps by lia.
  apply le_at_inv in Ha1 as [_ ?]. apply le_at_inv in Ha2 as [_ ?].
  repeat split; try done; try lia. by exists o.
Qed.

Lemma parse_shape (buffer : list byte) (r : DecodedResult) :
  parse buffer = Ok r → decoded_shape buffer r.
Proof.
  intros H. apply parse_Ok_inv in H as (H16 & _ & _ & Hv & Hc & Hr & o & Hcs & Hrs).
  apply validate_shape_inv in Hv as (? & ? & ? & ?).
  split; try done; try (unfold HEADER_SIZE; lia).
  - apply read_n_length in Hcs. unfold len. lia.
  - apply read_n_length in Hrs. unfold len. lia.
  - revert Hrs. apply read_n_Forall. intros o1 row o2 Hrow.
    apply read_n_length in Hrow. unfold len. lia.
  - revert Hcs. apply read_n_Forall. apply read_column_name.
  - revert Hrs. apply read_n_Forall. intros o1 row o2. apply read_n_Forall. apply read_cell_size.
Qed.


(** ** Round trip *)

(** The buffers the decoder accepts: names are [String]s, every row has one cell
    per column, and the limits hold. *)
Record decodable (b : RowBuffer) : Prop := {
  dec_encodable : encodable b;
  dec_names : Forall (λ c, str_wf (col_name c)) (rb_columns b);
  dec_rect : Forall (λ row, length row = length (rb_columns b)) (rb_rows b);
  dec_cells : Forall (Forall (λ c : cell, match c with Some d => len d ≤ MAX_DECODED_CELL_SIZE | None => True end)) (rb_rows b);
  dec_shape : validate_shape (column_count b) (row_count b) (len (enc_payload b)) = Ok tt
}.

Lemma read_column_enc buffer o c rest :
  column_fits c ∧ str_wf (col_name c) → at_pos buffer o (enc_column c ++ rest) →
  read_column buffer o = Ok (c, (o + length (enc_column c))%nat).
Proof.
  intros [Hf Hn] H. unfold enc_column in *. rewrite <- !app_assoc in H.
  unfold column_fits in Hf. set (m := as_bytes (col_name c)) in *.
  pose proof (at_pos_length _ _ _ H) as Hl. rewrite !length_app, !length_le_bytes in Hl.
  pose proof (at_pos_le_step _ _ _ _ _ H) as H1. pose proof (at_pos_le_step _ _ _ _ _ H1) as H2.
  unfold read_column. destruct (Nat.ltb_spec (length buffer) (o + 4)); [lia|].
  rewrite (at_pos_u16 _ _ _ _ (type_code_u16 _) H). simpl.
  rewrite (at_pos_u16 _ _ _ _ (conj (len_nonneg m) Hf) H1). simpl.
  replace (Z.to_nat (len m)) with (length m) by (unfold len; lia).
  destruct (Nat.ltb_spec (length buffer) (o + 2 + 2 + length m)); [lia|].
  rewrite (at_pos_slice _ _ _ _ H2). simpl. unfold m. rewrite from_utf8_as_bytes by done. simpl.
  rewrite from_protocol_type_code. destruct c as [n t]. simpl. do 2 f_equal.
  rewrite !length_app, !length_le_bytes. lia.
Qed.

Lemma read_cell_enc buffer o (c : cell) rest :
  match c with Some d => len d ≤ MAX_DECODED_CELL_SIZE | None => True end →
  len buffer ≤ usize_max →
  at_pos buffer o (enc_cell c ++ rest) → read_cell buffer o = Ok (c, (o + length (enc_cell c))%nat).
Proof.
  intros Hc Hb H. pose proof (at_pos_length _ _ _ H) as Hl.
  unfold read_cell. destruct c as [d|]; simpl in H, Hl |- *.
  2: { destruct (Nat.leb_spec (length buffer) o); [lia|]. by rewrite (at_pos_index _ _ _ _ H). }
  rewrite <- app_assoc in H. rewrite !length_app, length_le_bytes in Hl.
  pose proof (at_pos_step1 _ _ _ _ H) as H1. pose proof (at_pos_le_step _ _ _ _ _ H1) as H2.
  destruct (Nat.leb_spec (length buffer) o); [lia|].
  rewrite (at_pos_index _ _ _ _ H). simpl.
  destruct (Nat.ltb_spec (length buffer) (o + 1 + 4)); [lia|].
  assert (u32_range (len d)) as Hd.
  { unfold u32_range, MAX_DECODED_CELL_SIZE in *. pose proof (len_nonneg d). lia. }
  rewrite (at_pos_u32 _ _ _ _ Hd H1). simpl.
  destruct (Z.ltb_spec MAX_DECODED_CELL_SIZE (len d)); [lia|].
  unfold checked_add, len in *.
  destruct (Z.leb_spec (Z.of_nat (o + 1 + 4) + Z.of_nat (length d)) usize_max); [|lia]. simpl.
  destruct (Z.ltb_spec (Z.of_nat (length buffer)) (Z.of_nat (o + 1 + 4) + Z.of_nat (length d))); [lia|].
  replace (Z.to_nat (Z.of_nat (o + 1 + 4) + Z.of_nat (length d))) with (o + 1 + 4 + length d)%nat by lia.
  rewrite (at_pos_slice _ _ _ _ H2). simpl. do 2 f_equal.
  rewrite length_app, length_le_bytes. lia.
Qed.

Lemma enc_header_length c r p : length (enc_header c r p) = 16%nat.
Proof. unfold enc_header. by rewrite !length_app, !length_le_bytes. Qed.

Lemma parse_encode_lemma (b : RowBuffer) :
  decodable b →
  ∃ bytes, try_encode b = Ok bytes ∧
    parse bytes = Ok (mkDecoded (rb_columns b) (rb_rows b) (row_count b) (column_count b)).
Proof.
  intros [He Hn Hrect Hcells Hshape]. rewrite (try_encode_spec b He). eexists; split; [done|].
  destruct He as [Hc Hr Hcf _ Hsz].
  set (data := enc_header _ _ _ ++ enc_payload b).
  assert (len data = 16 + len (enc_payload b)) as Hlen.
  { unfold data. rewrite len_app. unfold len at 1. rewrite enc_header_length. lia. }
  assert (at_pos data 0 (enc_header (column_count b) (row_count b) (len (enc_payload b)) ++ enc_payload b)) as P
    by apply at_pos_start.
  pose proof (at_pos_step _ _ _ _ P) as Q. rewrite enc_header_length in Q. simpl in Q.
  unfold enc_header in P. rewrite <- !app_assoc in P.
  pose proof (at_pos_le_step _ _ _ _ _ P) as P1. pose proof (at_pos_le_step _ _ _ _ _ P1) as P2.
  pose proof (at_pos_le_step _ _ _ _ _ P2) as P3. pose proof (at_pos_le_step _ _ _ _ _ P3) as P4.
  simpl in P1, P2, P3, P4.
  unfold parse, HEADER_SIZE. pose proof (len_nonneg (enc_payload b)).
  destruct (Z.ltb_spec (len data) 16); [lia|].
  rewrite (at_pos_u32 _ _ MAGIC _ ltac:(unfold u32_range, MAGIC; lia) P). simpl.
  rewrite (at_pos_u16 _ _ VERSION _ ltac:(unfold u16_range, VERSION; lia) P1). simpl.
  assert (u16_range (column_count b)) as Rc by (split; [apply len_nonneg | done]).
  assert (u32_range (row_count b)) as Rr by (split; [apply len_nonneg | done]).
  assert (u32_range (len (enc_payload b))) as Rp by done.
  rewrite (at_pos_u16 _ _ _ _ Rc P2). simpl. rewrite (at_pos_u32 _ _ _ _ Rr P3). simpl.
  rewrite (at_pos_u32 _ _ _ _ Rp P4). simpl.
  rewrite Hshape. simpl.
  unfold enc_payload in Q.
  replace (Z.to_nat (column_count b)) with (length (rb_columns b)) by (unfold column_count, len; lia).
  replace (Z.to_nat (row_count b)) with (length (rb_rows b)) by (unfold row_count, len; lia).
  rewrite (read_n_encoded _ enc_column (λ c, column_fits c ∧ str_wf (col_name c)) data _ _
    (encode_list enc_row (rb_rows b))
    (λ c o rest, read_column_enc data o c rest)); [| by apply Forall_and | exact Q].
  cbn [obind]. apply at_pos_step in Q.
  rewrite (read_n_encoded _ enc_row
    (λ row, length row = length (rb_columns b) ∧
       Forall (λ c : cell, match c with Some d => len d ≤ MAX_DECODED_CELL_SIZE | None => True end) row)
    data (rb_rows b) _ []); [| | by apply Forall_and | by rewrite app_nil_r].
  2: { intros row o rest [Hrow Hcl] Hp. unfold read_row, enc_row.
       replace (Z.to_nat (column_count b)) with (length row) by (unfold column_count, len; lia).
       apply (read_n_encoded _ _ _ data row o rest) with (2 := Hcl) (3 := Hp).
       intros c o' rest' Hc'. apply read_cell_enc; [done|]. unfold usize_max. lia. }
  cbn [obind]. unfold checked_add.
  destruct (Z.leb_spec (16 + len (enc_payload b)) usize_max); [|unfold usize_max in *; lia].
  cbn [obind ok_or]. rewrite Hlen, Z.eqb_refl. cbn [negb].
  unfold enc_payload, len in Hlen. rewrite length_app in Hlen.
  match goal with |- context [Nat.eqb ?x ?y] => replace x with y by lia end.
  by rewrite Nat.eqb_refl.
Qed.

(** C20: what the encoder writes for a decodable buffer, the decoder reads back. *)
Theorem parse_encode (b : RowBuffer) :
  decodable b →
  ∃ bytes, try_encode b = Ok bytes ∧
    parse bytes = Ok (mkDecoded (rb_columns b) (rb_rows b) (row_count b) (column_count b)).
Proof. exact (parse_encode_lemma b). Qed.

Example sample_buffer : RowBuffer :=
  mkRowBuffer [mkColumn "id" Integer; mkColumn "name" Varchar]
    [[Some (as_bytes "1"); None]; [Some (as_bytes "22"); Some (as_bytes "x")]].

Lemma parse_encode_witness :
  ∃ bytes, try_encode sample_buffer = Ok bytes ∧
    parse bytes = Ok (mkDecoded (rb_columns sample_buffer) (rb_rows sample_buffer) 2 2).
Proof.
  apply (parse_encode sample_buffer). split; [split| | | |];
    repeat constructor; vm_compute; (reflexivity || discriminate).
Defined.

(** No strict prefix of a message is accepted: a truncated transfer is always
    an error. *)
Theorem parse_prefix_rejected (bytes pre suf : list byte) (r : DecodedResult) :
  parse bytes = Ok r → bytes = pre ++ suf → suf ≠ [] → ∃ e, parse pre = Err e.
Proof.
  intros H -> Hs. destruct (parse pre) as [r'|e|] eqn:Hp; [|by eexists|by destruct (parse_no_panic pre)].
  exfalso. apply parse_Ok_inv in H as (_ & _ & H12 & _).
  apply parse_Ok_inv in Hp as (H16 & _ & H12' & _).
  assert (le_at (E := OdbcError) 4 (pre ++ suf) 12 = le_at 4 pre 12) as Heq.
  { apply le_at_app. unfold len in H16. lia. }
  rewrite Heq, H12' in H12. injection H12 as H12. rewrite len_app in H12.
  assert (len suf ≠ 0); [|lia]. unfold len. destruct suf; simpl; [done|lia].
Qed.

Lemma parse_prefix_rejected_witness :
  ∃ e, parse (take 19 (enc_header 1 0 5 ++ enc_column (mkColumn "a" Integer))) = Err e.
Proof.
  eapply (parse_prefix_rejected (enc_header 1 0 5 ++ enc_column (mkColumn "a" Integer)) _ _
            (mkDecoded [mkColumn "a" Integer] [] 0 1)); [vm_compute; reflexivity| symmetry; apply take_drop |].
  vm_compute. discriminate.
Defined.
