(* ===== verification/ParamValue.v ===== *)
(** Query parameters on the wire: the tagged value (protocol/param_value.rs),
    the legacy list of values, and the directed list "DRT1" with its detection
    (protocol/bound_param.rs). *)

From S2P Require Import Prelude Wire Errors.

Definition TAG_NULL : Z := 0.
Definition TAG_STRING : Z := 1.
Definition TAG_INTEGER : Z := 2.
Definition TAG_BIGINT : Z := 3.
Definition TAG_DECIMAL : Z := 4.
Definition TAG_BINARY : Z := 5.
Definition TAG_REF_CURSOR_OUT : Z := 6.
Definition MAX_PARAM_COUNT : Z := 4096.
Definition MAX_PARAM_VALUE_PAYLOAD_LEN : Z := 16 * 1024 * 1024.

Inductive ParamValue :=
| PString (s : string)
| PInteger (n : Z)
| PBigInt (n : Z)
| PDecimal (s : string)
| PBinary (b : list byte)
| PNull
| PRefCursorOut.

#[export] Instance ParamValue_eq_dec : EqDecision ParamValue.
Proof. solve_decision. Defined.

Definition checked_payload_len (value : Z) (field : string) : Result Z :=
  if MAX_PARAM_VALUE_PAYLOAD_LEN <? value then
    Err (ValidationError (field +:+ " length " +:+ fmt_Z value +:+ " exceeds limit " +:+ fmt_Z MAX_PARAM_VALUE_PAYLOAD_LEN))
  else if value <=? 2 ^ 32 - 1 then Ok value
  else Err (ValidationError (field +:+ " length " +:+ fmt_Z value +:+ " exceeds u32")).

Definition try_serialize (p : ParamValue) : Result (list byte) :=
  match p with
  | PNull => Ok (z2b TAG_NULL :: le_bytes 4 0)
  | PString s =>
      let b := as_bytes s in
      let? n := checked_payload_len (len b) "ParamValue::String" in
      Ok (z2b TAG_STRING :: le_bytes 4 n ++ b)
  | PInteger n => Ok (z2b TAG_INTEGER :: le_bytes 4 4 ++ le_bytes 4 n)
  | PBigInt n => Ok (z2b TAG_BIGINT :: le_bytes 4 8 ++ le_bytes 8 n)
  | PDecimal s =>
      let b := as_bytes s in
      let? n := checked_payload_len (len b) "ParamValue::Decimal" in
      Ok (z2b TAG_DECIMAL :: le_bytes 4 n ++ b)
  | PBinary b =>
      let? n := checked_payload_len (len b) "ParamValue::Binary" in
      Ok (z2b TAG_BINARY :: le_bytes 4 n ++ b)
  | PRefCursorOut => Ok (z2b TAG_REF_CURSOR_OUT :: le_bytes 4 0)
  end.

(** [ParamValue::serialize] *)
Definition serialize (p : ParamValue) : Result (list byte) := expect (try_serialize p).

(** The decoding of the payload by tag; [n] is the declared payload length. *)
Definition decode_payload (tag n : Z) (payload : list byte) : Result ParamValue :=
  match tag with
  | 0 => Ok PNull
  | 1 =>
      let? s := ok_or (from_utf8 payload) (ValidationError "Invalid UTF-8 in ParamValue::String") in
      Ok (PString s)
  | 2 =>
      if negb (n =? 4) then Err (ValidationError "ParamValue::Integer expected 4 bytes")
      else let? v := le_at 4 payload 0 in Ok (PInteger (to_signed 32 v))
  | 3 =>
      if negb (n =? 8) then Err (ValidationError "ParamValue::BigInt expected 8 bytes")
      else let? v := le_at 8 payload 0 in Ok (PBigInt (to_signed 64 v))
  | 4 =>
      let? s := ok_or (from_utf8 payload) (ValidationError "Invalid UTF-8 in ParamValue::Decimal") in
      Ok (PDecimal s)
  | 5 => Ok (PBinary payload)
  | 6 =>
      if negb (n =? 0) then Err (ValidationError "ParamValue::RefCursorOut expected 0-byte payload")
      else Ok PRefCursorOut
  | _ => Err (ValidationError ("Unknown ParamValue tag: " +:+ fmt_Z tag))
  end.

(** [ParamValue::deserialize]: the value and the number of bytes it took. *)
Definition deserialize (data : list byte) : Result (ParamValue * nat) :=
  if len data <? 5 then Err (ValidationError "ParamValue buffer too short")
  else
    let? tag := index data 0 in
    let? n := le_at 4 data 1 in
    if MAX_PARAM_VALUE_PAYLOAD_LEN <? n then
      Err (ValidationError ("ParamValue payload length " +:+ fmt_Z n +:+ " exceeds limit " +:+ fmt_Z MAX_PARAM_VALUE_PAYLOAD_LEN))
    else
      let? consumed := ok_or (checked_add 5 n) (ValidationError "ParamValue length overflow") in
      if len data <? consumed then Err (ValidationError "ParamValue buffer truncated")
      else
        let? payload := (if 0 <? n then slice data 5 (Z.to_nat consumed) else Ok []) in
        let? p := decode_payload (b2z tag) n payload in
        Ok (p, Z.to_nat consumed).

(** The parameter values a Rust program can hold, within the payload limit. *)
Definition param_wf (p : ParamValue) : Prop :=
  match p with
  | PString s | PDecimal s => str_wf s ∧ len (as_bytes s) ≤ MAX_PARAM_VALUE_PAYLOAD_LEN
  | PInteger n => i32_range n
  | PBigInt n => i64_range n
  | PBinary b => len b ≤ MAX_PARAM_VALUE_PAYLOAD_LEN
  | PNull | PRefCursorOut => True
  end.

(** The bytes of a value: tag, payload length, payload. *)
Definition param_tag (p : ParamValue) : Z :=
  match p with
  | PNull => TAG_NULL | PString _ => TAG_STRING | PInteger _ => TAG_INTEGER
  | PBigInt _ => TAG_BIGINT | PDecimal _ => TAG_DECIMAL | PBinary _ => TAG_BINARY
  | PRefCursorOut => TAG_REF_CURSOR_OUT
  end.

Definition param_payload (p : ParamValue) : list byte :=
  match p with
  | PString s | PDecimal s => as_bytes s
  | PInteger n => le_bytes 4 n
  | PBigInt n => le_bytes 8 n
  | PBinary b => b
  | PNull | PRefCursorOut => []
  end.

Definition enc_param (p : ParamValue) : list byte :=
  z2b (param_tag p) :: le_bytes 4 (len (param_payload p)) ++ param_payload p.

Lemma checked_payload_len_ok v f : v ≤ MAX_PARAM_VALUE_PAYLOAD_LEN → checked_payload_len v f = Ok v.
Proof.
  intros H. unfold checked_payload_len. destruct (Z.ltb_spec MAX_PARAM_VALUE_PAYLOAD_LEN v); [lia|].
  unfold MAX_PARAM_VALUE_PAYLOAD_LEN in *. by destruct (Z.leb_spec v (2 ^ 32 - 1)); [|lia].
Qed.

Lemma try_serialize_spec p : param_wf p → try_serialize p = Ok (enc_param p).
Proof.
  unfold enc_param. destruct p; simpl; intros H; rewrite ?len_le_bytes, ?app_nil_r; try reflexivity.
  all: rewrite checked_payload_len_ok by tauto; reflexivity.
Qed.

Lemma param_payload_le p : param_wf p → len (param_payload p) ≤ MAX_PARAM_VALUE_PAYLOAD_LEN.
Proof.
  destruct p; cbn [param_payload param_wf]; intros H; rewrite ?len_le_bytes; try tauto.
  all: unfold MAX_PARAM_VALUE_PAYLOAD_LEN; rewrite ?len_nil; lia.
Qed.

Lemma decode_payload_enc p :
  param_wf p → decode_payload (param_tag p) (len (param_payload p)) (param_payload p) = Ok p.
Proof.
  intros H. destruct p; cbn [param_tag param_payload param_wf] in *; try done.
  - cbn. destruct H as [H _]. by rewrite from_utf8_as_bytes.
  - unfold len. rewrite length_le_bytes. cbn [TAG_INTEGER decode_payload]. simpl.
    pose proof (at_pos_start (le_bytes 4 n ++ [])) as P. rewrite app_nil_r in P at 1.
    rewrite (at_pos_le _ _ _ _ _ P). simpl. by rewrite (to_signed_unsigned 32).
  - unfold len. rewrite length_le_bytes. simpl.
    pose proof (at_pos_start (le_bytes 8 n ++ [])) as P. rewrite app_nil_r in P at 1.
    rewrite (at_pos_le _ _ _ _ _ P). simpl. by rewrite (to_signed_unsigned 64).
  - cbn. destruct H as [H _]. by rewrite from_utf8_as_bytes.
Qed.

(** A serialised value followed by anything is read back, and exactly its own
    bytes are consumed. *)
Lemma deserialize_enc p rest :
  param_wf p → deserialize (enc_param p ++ rest) = Ok (p, length (enc_param p)).
Proof.
  intros H.
  pose proof (param_payload_le p H) as Hle. pose proof (decode_payload_enc p H) as Hdec.
  unfold enc_param. set (pl := param_payload p) in *. set (data := (_ :: _) ++ rest).
  assert (at_pos data 0 (z2b (param_tag p) :: le_bytes 4 (len pl) ++ pl ++ rest)) as P.
  { unfold data. rewrite <- app_comm_cons, <- app_assoc. apply at_pos_start. }
  pose proof (at_pos_length _ _ _ P) as Hl.
  rewrite length_cons, !length_app, length_le_bytes in Hl.
  pose proof (at_pos_step1 _ _ _ _ P) as P1. pose proof (at_pos_le_step _ _ _ _ _ P1) as P2.
  simpl in P1, P2.
  unfold deserialize. unfold len at 1. destruct (Z.ltb_spec (Z.of_nat (length data)) 5); [lia|].
  rewrite (at_pos_index _ _ _ _ P). simpl.
  assert (u32_range (len pl)) as Hr.
  { unfold u32_range, MAX_PARAM_VALUE_PAYLOAD_LEN in *. pose proof (len_nonneg pl). lia. }
  rewrite (at_pos_u32 _ _ _ _ Hr P1). simpl.
  destruct (Z.ltb_spec MAX_PARAM_VALUE_PAYLOAD_LEN (len pl)); [lia|].
  unfold checked_add. unfold u32_range in Hr.
  destruct (Z.leb_spec (5 + len pl) usize_max); [|unfold usize_max in *; lia]. cbn [obind ok_or].
  unfold len at 1. destruct (Z.ltb_spec (Z.of_nat (length data)) (5 + len pl)); [unfold len in *; lia|].
  assert ((if 0 <? len pl then slice data 5 (Z.to_nat (5 + len pl)) else Ok []) = Ok (E := OdbcError) pl) as ->.
  { destruct (Z.ltb_spec 0 (len pl)).
    - replace (Z.to_nat (5 + len pl)) with (5 + length pl)%nat by (unfold len; lia).
      apply (at_pos_slice _ _ _ _ P2).
    - assert (length pl = 0%nat) as Hz by (unfold len in *; lia). by destruct pl. }
  cbn [obind]. assert (b2z (z2b (param_tag p)) = param_tag p) as -> by by destruct p.
  rewrite Hdec. cbn [obind]. do 2 f_equal. simpl. rewrite length_app, length_le_bytes. unfold len. lia.
Qed.

(** ** Decoding arbitrary bytes *)

Lemma decode_payload_no_panic tag n payload :
  len payload = n → decode_payload tag n payload ≠ Panic.
Proof.
  intros Hn. unfold decode_payload. unfold len in Hn.
  destruct tag as [|[[|[]|]|[[]| []|]|]|]; try done.
  all: try (apply obind_no_panic; [auto with odbc | done]).
  all: try (destruct (Z.eqb_spec n 8); [simpl|done]; apply obind_no_panic; [|done]; apply le_at_no_panic; lia).
  all: try (destruct (Z.eqb_spec n 4); [simpl|done]; apply obind_no_panic; [|done]; apply le_at_no_panic; lia).
  all: try by destruct (negb (n =? 0)).
Qed.

Lemma deserialize_no_panic data : deserialize data ≠ Panic.
Proof.
  unfold deserialize. destruct (Z.ltb_spec (len data) 5) as [|H5]; [done|]. unfold len in H5.
  apply obind_no_panic; [auto with odbc|]. intros tag _.
  apply obind_no_panic; [auto with odbc|]. intros n [_ Hn]%le_at_inv.
  destruct (_ <? n); [done|]. apply obind_no_panic; [auto with odbc|]. intros c Hc.
  unfold checked_add in Hc. destruct (_ <=? _); [injection Hc as <-|done].
  destruct (Z.ltb_spec (len data) (5 + n)) as [|Hd]; [done|]. unfold len in Hd.
  destruct (Z.ltb_spec 0 n) as [H0|H0].
  - apply obind_no_panic; [apply slice_no_panic; lia|]. intros pl Hpl.
    apply slice_length in Hpl. apply obind_no_panic; [|done].
    apply decode_payload_no_panic. unfold len. lia.
  - cbn [obind]. apply obind_no_panic; [|done]. apply decode_payload_no_panic. unfold len. simpl. lia.
Qed.

Lemma decode_payload_wf tag n payload p :
  len payload = n → n ≤ MAX_PARAM_VALUE_PAYLOAD_LEN → decode_payload tag n payload = Ok p → param_wf p.
Proof.
  intros Hn Hle H. unfold decode_payload in H.
  destruct tag as [|[[|[]|]|[[]| []|]|]|]; try done.
  all: try (destruct (Z.eqb_spec n 4); [simpl in H|done]; inv_bind H; injection H as <-;
            apply le_at_inv in Ha as [_ Ha]; by apply (to_signed_range 32)).
  all: try (destruct (Z.eqb_spec n 8); [simpl in H|done]; inv_bind H; injection H as <-;
            apply le_at_inv in Ha as [_ Ha]; by apply (to_signed_range 64)).
  all: try (destruct (from_utf8 payload) as [s|] eqn:E; [|done]; injection H as <-;
            apply from_utf8_Some in E as [E ?]; simpl; rewrite E; split; [done|lia]).
  all: try (injection H as <-; done || (simpl; lia)).
  all: try (destruct (negb (n =? 0)); [done|]; by injection H as <-).
  all: injection H as <-; simpl; lia.
Qed.

(** What a successful decode has consumed and produced. *)
Lemma deserialize_inv data p n :
  deserialize data = Ok (p, n) →
  (5 ≤ n ≤ length data)%nat ∧ param_wf p ∧
  ∃ tag, data !! 0%nat = Some tag ∧ b2z tag ≤ TAG_REF_CURSOR_OUT.
Proof.
  unfold deserialize. intros H. destruct (Z.ltb_spec (len data) 5) as [|H5]; [done|].
  unfold len in H5. inv_bind H. inv_bind H. rename a into tag, a0 into k.
  apply le_at_inv in Ha0 as [_ Hk]. destruct (Z.ltb_spec MAX_PARAM_VALUE_PAYLOAD_LEN k) as [|Hmax]; [done|].
  inv_bind H. unfold checked_add in Ha0. destruct (_ <=? usize_max); [injection Ha0 as <-|done].
  destruct (Z.ltb_spec (len data) (5 + k)) as [|Hd]; [done|]. unfold len in Hd.
  inv_bind H. inv_bind H. injection H as <- <-. rename a into payload.
  assert (len payload = k) as Hpl.
  { destruct (Z.ltb_spec 0 k); [apply slice_length in Ha0; unfold len; lia|].
    injection Ha0 as <-. unfold len. simpl. lia. }
  split; [lia|]. split; [by eapply decode_payload_wf|].
  exists tag. split; [by apply (index_Ok_lt (E := OdbcError))|].
  unfold decode_payload in Ha1. pose proof (b2z_range tag). unfold TAG_REF_CURSOR_OUT.
  destruct (b2z tag) as [|[[[]|[]|]|[[]|[]|]|]|]; try done; lia.
Qed.

Lemma deserialize_bounds data p n : deserialize data = Ok (p, n) → (0 < n ≤ length data)%nat.
Proof. intros H%deserialize_inv. lia. Qed.

Lemma deserialize_wf data p n : deserialize data = Ok (p, n) → param_wf p.
Proof. intros H%deserialize_inv. tauto. Qed.

(** A parameter value is a prefix codec. *)
#[export] Instance param_codec : WireCodec OdbcError ParamValue := {|
  wire_enc := enc_param;
  wire_dec := deserialize;
  wire_wf := param_wf;
  wire_dec_enc := deserialize_enc;
  wire_dec_bounds := deserialize_bounds;
  wire_dec_wf := deserialize_wf;
  wire_dec_no_panic := deserialize_no_panic
|}.

(** * The legacy list: values one after the other *)

Definition try_serialize_params (params : list ParamValue) : Result (list byte) :=
  if MAX_PARAM_COUNT <? len params then
    Err (ValidationError ("Parameter count " +:+ fmt_Z (len params) +:+ " exceeds limit " +:+ fmt_Z MAX_PARAM_COUNT))
  else ofold (λ out p, let? bs := try_serialize p in Ok (out ++ bs)) params [].

(** [serialize_params] *)
Definition serialize_params (params : list ParamValue) : Result (list byte) :=
  expect (try_serialize_params params).

(** The [while offset < data.len()] loop; the fuel is an upper bound of its turns,
    and running out of it would count as a panic. *)
Fixpoint deserialize_loop (fuel : nat) (data : list byte) (offset : nat) (out : list ParamValue) :
    Result (list ParamValue) :=
  if (length data <=? offset)%nat then Ok out
  else match fuel with
  | O => Panic
  | S fuel =>
      if MAX_PARAM_COUNT <=? len out then
        Err (ValidationError ("Parameter count exceeds limit " +:+ fmt_Z MAX_PARAM_COUNT))
      else
        let? rest := slice_from data offset in
        let? '(p, n) := deserialize rest in
        deserialize_loop fuel data (offset + n) (out ++ [p])
  end.

Definition deserialize_params (data : list byte) : Result (list ParamValue) :=
  deserialize_loop (length data) data 0 [].

Lemma deserialize_loop_no_panic fuel data o out :
  (length data ≤ o + fuel)%nat → deserialize_loop fuel data o out ≠ Panic.
Proof.
  revert o out. induction fuel as [|fuel IH]; intros o out Hf; simpl;
    destruct (Nat.leb_spec (length data) o); try done; [lia|].
  destruct (_ <=? _); [done|]. rewrite slice_from_Ok by lia. simpl.
  apply obind_no_panic; [apply deserialize_no_panic|]. intros [p n] Hp.
  apply deserialize_inv in Hp as [Hn _]. apply IH. lia.
Qed.

Lemma deserialize_loop_enc fuel data o out ps :
  Forall param_wf ps → len out + len ps ≤ MAX_PARAM_COUNT →
  at_pos data o (encode_list enc_param ps) → (length data ≤ o + fuel)%nat →
  deserialize_loop fuel data o out = Ok (out ++ ps).
Proof.
  intros Hps. revert fuel o out. induction Hps as [|p ps Hp Hps IH]; intros fuel o out Hc Hpos Hf.
  - apply at_pos_nil in Hpos as ->. rewrite app_nil_r.
    destruct fuel; simpl; destruct (Nat.leb_spec (length data) (length data)); (done || lia).
  - rewrite encode_list_cons in Hpos. pose proof (at_pos_length _ _ _ Hpos) as Hl.
    rewrite length_app in Hl. pose proof (wire_enc_nonempty p Hp) as Hne. cbn [wire_enc param_codec] in Hne.
    destruct fuel as [|fuel]; simpl; destruct (Nat.leb_spec (length data) o); try lia.
    rewrite len_cons in Hc. pose proof (len_nonneg ps).
    destruct (Z.leb_spec MAX_PARAM_COUNT (len out)); [lia|].
    rewrite (at_pos_slice_from _ _ _ Hpos). cbn [obind].
    rewrite deserialize_enc by done. cbn [obind].
    apply at_pos_step in Hpos. rewrite IH; [by rewrite <- app_assoc | | done | lia].
    rewrite len_app, len_cons, len_nil. lia.
Qed.

Lemma try_serialize_params_spec ps :
  Forall param_wf ps → len ps ≤ MAX_PARAM_COUNT → try_serialize_params ps = Ok (encode_list enc_param ps).
Proof.
  intros Hps Hc. unfold try_serialize_params. destruct (Z.ltb_spec MAX_PARAM_COUNT (len ps)); [lia|].
  rewrite (ofold_emit _ enc_param param_wf); [done| |done].
  intros s p Hp. by rewrite try_serialize_spec.
Qed.

Lemma deserialize_params_enc ps :
  Forall param_wf ps → len ps ≤ MAX_PARAM_COUNT → deserialize_params (encode_list enc_param ps) = Ok ps.
Proof.
  intros Hps Hc. unfold deserialize_params.
  rewrite (deserialize_loop_enc _ _ _ _ ps); [done|done| |apply at_pos_start|lia].
  rewrite len_nil. lia.
Qed.

(** ** Helpers on parameter lists *)

Definition param_value_to_string (p : ParamValue) : Result (option string) :=
  match p with
  | PNull => Ok None
  | PString s => Ok (Some s)
  | PInteger n => Ok (Some (fmt_Z n))
  | PBigInt n => Ok (Some (fmt_Z n))
  | PDecimal s => Ok (Some s)
  | PBinary b => Ok (Some (hex_lower b))
  | PRefCursorOut => Err (ValidationError "ParamValue::RefCursorOut is not convertible to string parameters")
  end.

Definition param_values_to_strings (params : list ParamValue) : Result (list (option string)) :=
  omap_list param_value_to_string params.

Definition has_null_param (params : list ParamValue) : bool :=
  existsb (λ p, match p with PNull => true | _ => false end) params.

Definition param_count_exceeds_limit (params : list ParamValue) (limit : Z) : bool := limit <? len params.

Definition param_string_len (p : ParamValue) : Z :=
  match p with
  | PString s | PDecimal s => len (as_bytes s)
  | PBinary b => len b * 2
  | _ => 0
  end.

Definition max_param_string_len (params : list ParamValue) : Z :=
  fold_left (λ m p, Z.max m (param_string_len p)) params 1.

(** * Directed lists (protocol/bound_param.rs) *)

Inductive ParamDirection := Input | Output | InOut.

#[export] Instance ParamDirection_eq_dec : EqDecision ParamDirection.
Proof. solve_decision. Defined.

Definition direction_from_u8 (b : Z) : option ParamDirection :=
  match b with
  | 0 => Some Input
  | 1 => Some Output
  | 2 => Some InOut
  | _ => None
  end.

(** [direction as u8] *)
Definition direction_u8 (d : ParamDirection) : Z :=
  match d with Input => 0 | Output => 1 | InOut => 2 end.

Record BoundParam := mkBound { bp_direction : ParamDirection; bp_value : ParamValue }.

#[export] Instance BoundParam_eq_dec : EqDecision BoundParam.
Proof. solve_decision. Defined.

Inductive ParamList :=
| Legacy (ps : list ParamValue)
| Directed (ps : list BoundParam).

Definition DRT1 : list byte := as_bytes "DRT1".

Definition is_directed_param_buffer (data : list byte) : bool :=
  (8 <=? len data) && bool_decide (take 4 data = DRT1).

(** One turn of the directed loop. *)
Definition read_bound (data : list byte) (offset : nat) : Result (BoundParam * nat) :=
  if (length data <=? offset)%nat then Err (ValidationError "DRT1 buffer truncated (direction)")
  else
    let? d := index data offset in
    let? dir := ok_or (direction_from_u8 (b2z d)) (ValidationError ("DRT1 invalid direction " +:+ fmt_Z (b2z d))) in
    let offset := (offset + 1)%nat in
    if (length data <=? offset)%nat then Err (ValidationError "DRT1 buffer truncated (value)")
    else
      let? rest := slice_from data offset in
      let? '(value, n) := deserialize rest in
      Ok (mkBound dir value, (offset + n)%nat).

Definition deserialize_param_buffer (data : list byte) : Result ParamList :=
  if len data =? 0 then Ok (Legacy [])
  else if is_directed_param_buffer data then
    let? count := le_at 4 data 4 in
    if MAX_PARAM_COUNT <? count then
      Err (ValidationError ("DRT1 parameter count " +:+ fmt_Z count +:+ " exceeds limit " +:+ fmt_Z MAX_PARAM_COUNT))
    else
      let remaining := saturating_sub (len data) 8 in
      if remaining <? count then Err (ValidationError "DRT1 parameter count exceeds available payload")
      else
        let? '(out, offset) := read_n (read_bound data) (Z.to_nat count) 8%nat in
        if negb (Nat.eqb offset (length data)) then Err (ValidationError "DRT1 buffer has trailing bytes")
        else Ok (Directed out)
  else
    let? ps := deserialize_params data in
    Ok (Legacy ps).

(** ** The directed list, against the codec of its values *)

Definition enc_bound (b : BoundParam) : list byte :=
  z2b (direction_u8 (bp_direction b)) :: enc_param (bp_value b).

(** The buffer the client writes for a directed list. *)
Definition enc_directed (ps : list BoundParam) : list byte :=
  DRT1 ++ le_bytes 4 (len ps) ++ encode_list enc_bound ps.

Definition bound_wf (b : BoundParam) : Prop := param_wf (bp_value b).

Lemma direction_roundtrip d : direction_from_u8 (b2z (z2b (direction_u8 d))) = Some d.
Proof. by destruct d. Qed.

Lemma read_bound_enc data b o rest :
  bound_wf b → at_pos data o (enc_bound b ++ rest) →
  read_bound data o = Ok (b, (o + length (enc_bound b))%nat).
Proof.
  destruct b as [d p]. unfold bound_wf, enc_bound. cbn [bp_value bp_direction]. intros Hp Hpos.
  rewrite <- app_comm_cons in Hpos. pose proof (at_pos_length _ _ _ Hpos) as Hl.
  rewrite length_cons, length_app in Hl.
  pose proof (wire_enc_nonempty p Hp) as Hne. cbn [wire_enc param_codec] in Hne.
  unfold read_bound. destruct (Nat.leb_spec (length data) o); [lia|].
  rewrite (at_pos_index _ _ _ _ Hpos). cbn [obind]. rewrite direction_roundtrip. cbn [obind ok_or].
  apply at_pos_step1 in Hpos. destruct (Nat.leb_spec (length data) (o + 1)); [lia|].
  rewrite (at_pos_slice_from _ _ _ Hpos). cbn [obind].
  rewrite deserialize_enc by done. cbn [obind]. do 2 f_equal. rewrite length_cons. lia.
Qed.

Lemma read_bound_no_panic data o : read_bound data o ≠ Panic.
Proof.
  unfold read_bound. destruct (Nat.leb_spec (length data) o); [done|].
  apply obind_no_panic; [auto with odbc|]. intros d _.
  apply obind_no_panic; [auto with odbc|]. intros dir _.
  destruct (Nat.leb_spec (length data) (o + 1)); [done|].
  apply obind_no_panic; [auto with odbc|]. intros r _.
  apply obind_no_panic; [apply deserialize_no_panic|]. by intros [v n] _.
Qed.

Lemma deserialize_params_no_panic data : deserialize_params data ≠ Panic.
Proof. apply deserialize_loop_no_panic. lia. Qed.

(** The request buffer decoder never panics. *)
Theorem deserialize_param_buffer_no_panic (data : list byte) : deserialize_param_buffer data ≠ Panic.
Proof.
  unfold deserialize_param_buffer. destruct (_ =? 0); [done|].
  destruct (is_directed_param_buffer data) eqn:Hd.
  - unfold is_directed_param_buffer in Hd. apply andb_prop in Hd as [Hd _].
    apply Z.leb_le in Hd. unfold len in Hd.
    apply obind_no_panic; [auto with odbc|]. intros c _. do 2 (case_if; [done|]).
    apply obind_no_panic; [apply read_n_no_panic, read_bound_no_panic|].
    intros [out o] _. by case_if.
  - apply obind_no_panic; [apply deserialize_params_no_panic|done].
Qed.

Lemma enc_bound_nonempty b : (1 ≤ length (enc_bound b))%nat.
Proof. unfold enc_bound. rewrite length_cons. lia. Qed.

Lemma encode_bound_length ps : (length ps ≤ length (encode_list enc_bound ps))%nat.
Proof.
  induction ps as [|b ps IH]; [simpl; lia|]. rewrite encode_list_cons, length_app, length_cons.
  pose proof (enc_bound_nonempty b). lia.
Qed.

Lemma is_directed_enc ps : is_directed_param_buffer (enc_directed ps) = true.
Proof.
  unfold is_directed_param_buffer, enc_directed. rewrite andb_true_iff. split.
  - apply Z.leb_le. rewrite !len_app, len_le_bytes. change (len DRT1) with 4.
    pose proof (len_nonneg (encode_list enc_bound ps)). lia.
  - apply bool_decide_eq_true. change 4%nat with (length DRT1). apply take_app_length.
Qed.

Lemma deserialize_directed_lemma (ps : list BoundParam) :
  Forall bound_wf ps → len ps ≤ MAX_PARAM_COUNT →
  deserialize_param_buffer (enc_directed ps) = Ok (Directed ps).
Proof.
  intros Hps Hc. unfold deserialize_param_buffer. rewrite is_directed_enc.
  assert (at_pos (enc_directed ps) 0 (enc_directed ps)) as P by apply at_pos_start.
  unfold enc_directed in P at 2. apply at_pos_step in P. change (0 + length DRT1)%nat with 4%nat in P.
  pose proof (at_pos_length _ _ _ P) as Hl. rewrite length_app, length_le_bytes in Hl.
  pose proof (encode_bound_length ps) as Hn. pose proof (len_nonneg ps) as Hnn.
  destruct (Z.eqb_spec (len (enc_directed ps)) 0) as [H0|_]; [unfold len in H0; lia|].
  assert (u32_range (len ps)) as Hr by (unfold u32_range, MAX_PARAM_COUNT in *; lia).
  rewrite (at_pos_u32 _ _ _ _ Hr P). cbn [obind].
  destruct (Z.ltb_spec MAX_PARAM_COUNT (len ps)); [lia|].
  unfold saturating_sub. destruct (Z.ltb_spec (Z.max 0 (len (enc_directed ps) - 8)) (len ps)) as [Hlt|_].
  { unfold len in Hlt. lia. }
  apply at_pos_le_step in P. change (4 + 4)%nat with 8%nat in P.
  rewrite <- (app_nil_r (encode_list enc_bound ps)) in P.
  replace (Z.to_nat (len ps)) with (length ps) by (unfold len; lia).
  rewrite (read_n_encoded (E := OdbcError) _ enc_bound bound_wf _ _ _ _
             (λ b o rest Hb Ho, read_bound_enc _ b o rest Hb Ho) Hps P).
  cbn [obind]. destruct (Nat.eqb_spec (8 + length (encode_list enc_bound ps)) (length (enc_directed ps))); [done|lia].
Qed.

(** C22: every directed list within the count limit is decoded from its wire form,
    directions included, with no byte left over. *)
Theorem deserialize_directed (ps : list BoundParam) :
  Forall bound_wf ps → len ps ≤ MAX_PARAM_COUNT →
  deserialize_param_buffer (enc_directed ps) = Ok (Directed ps).
Proof. exact (deserialize_directed_lemma ps). Qed.

Lemma deserialize_directed_witness :
  deserialize_param_buffer (enc_directed [mkBound InOut (PInteger (-3)); mkBound Output PNull; mkBound Input (PString "ab")])
  = Ok (Directed [mkBound InOut (PInteger (-3)); mkBound Output PNull; mkBound Input (PString "ab")]).
Proof.
  apply deserialize_directed; [|vm_compute; discriminate].
  repeat constructor; vm_compute; (reflexivity || discriminate).
Defined.

Lemma deserialize_legacy_lemma (ps : list ParamValue) :
  Forall param_wf ps → len ps ≤ MAX_PARAM_COUNT →
  ∃ bytes, try_serialize_params ps = Ok bytes ∧ deserialize_param_buffer bytes = Ok (Legacy ps).
Proof.
  intros Hps Hc. exists (encode_list enc_param ps). split; [by apply try_serialize_params_spec|].
  unfold deserialize_param_buffer. destruct ps as [|p ps]; [done|].
  destruct (Z.eqb_spec (len (encode_list enc_param (p :: ps))) 0) as [H0|_].
  { rewrite encode_list_cons, len_app in H0. unfold enc_param at 1 in H0. rewrite len_cons in H0.
    pose proof (len_nonneg (encode_list enc_param ps)). pose proof (len_nonneg (le_bytes 4 (len (param_payload p)) ++ param_payload p)). lia. }
  assert (is_directed_param_buffer (encode_list enc_param (p :: ps)) = false) as ->.
  { unfold is_directed_param_buffer. rewrite andb_false_iff. right.
    apply bool_decide_eq_false. rewrite encode_list_cons. unfold enc_param at 1.
    rewrite <- app_comm_cons. cbn [take]. intros [= Hb _]. by destruct p. }
  by rewrite deserialize_params_enc.
Qed.

(** A legacy list is never mistaken for a directed one: its decoding through the
    request-buffer entry point is the legacy decoding. *)
Theorem deserialize_legacy (ps : list ParamValue) :
  Forall param_wf ps → len ps ≤ MAX_PARAM_COUNT →
  ∃ bytes, try_serialize_params ps = Ok bytes ∧ deserialize_param_buffer bytes = Ok (Legacy ps).
Proof. exact (deserialize_legacy_lemma ps). Qed.

Lemma deserialize_legacy_witness :
  ∃ bytes, try_serialize_params [PString "DRT1"; PBigInt (- 2 ^ 63); PBinary [x00; xff]] = Ok bytes ∧
    deserialize_param_buffer bytes = Ok (Legacy [PString "DRT1"; PBigInt (- 2 ^ 63); PBinary [x00; xff]]).
Proof.
  apply deserialize_legacy; [|vm_compute; discriminate].
  repeat constructor; vm_compute; (reflexivity || discriminate).
Defined.
