(* ===== verification/Compression.v ===== *)
(** Payload compression (protocol/compression.rs, with the algorithm ids of
    protocol/columnar.rs).  The zstd and lz4 crates are parameters; what the
    engine relies on is the class [Codec]. *)

From S2P Require Import Prelude Wire Errors.

Definition COMPRESSION_THRESHOLD_BYTES : Z := 1000000.
Definition DEFAULT_MAX_DECOMPRESSED_LEN : Z := 256 * 1024 * 1024.

Inductive CompressionType := CtNone | CtZstd | CtLz4.

#[export] Instance CompressionType_eq_dec : EqDecision CompressionType.
Proof. solve_decision. Defined.

(** [as u8] *)
Definition compression_u8 (c : CompressionType) : Z :=
  match c with CtNone => 0 | CtZstd => 1 | CtLz4 => 2 end.

Definition compression_from_u8 (value : Z) : CompressionType :=
  match value with
  | 1 => CtZstd
  | 2 => CtLz4
  | _ => CtNone
  end.

Inductive CompressionStrategy := StNone | StZstd (level : Z) | StLz4.

Definition auto_select (payload_size : Z) : CompressionStrategy :=
  if COMPRESSION_THRESHOLD_BYTES <? payload_size then StZstd 3 else StNone.

(** What can go wrong in the lz4 encoder, by call. *)
Inductive Lz4Error := Lz4Create (e : string) | Lz4Write (e : string) | Lz4Finish (e : string).

(** A reader over compressed bytes: what it yields before it ends, and the error
    it ends with, if any. *)
Record Stream := mkStream { st_bytes : list byte; st_error : option string }.

(** The operations of the zstd and lz4 crates the engine calls. *)
Record CodecOps := mkCodecOps {
  zstd_encode_all : list byte → Z → outcome string (list byte);
  zstd_decoder : list byte → outcome string Stream;
  lz4_encode : list byte → outcome Lz4Error (list byte);
  lz4_decoder : list byte → outcome string Stream
}.

(** What the crates document: decoding what was encoded yields it back. *)
Class Codec (ops : CodecOps) := {
  zstd_inverse : ∀ data level z, zstd_encode_all ops data level = Ok z →
    zstd_decoder ops z = Ok (mkStream data None);
  lz4_inverse : ∀ data z, lz4_encode ops data = Ok z → lz4_decoder ops z = Ok (mkStream data None)
}.

Section Compression.
Context (ops : CodecOps).

Definition zstd_compress (data : list byte) (level : Z) : Result (list byte) :=
  omap_err (λ e, InternalError ("Zstd compression failed: " +:+ e)) (zstd_encode_all ops data level).

(** [compress], and [compress_cow] whose result it owns. *)
Definition compress (data : list byte) (t : CompressionType) : Result (list byte) :=
  match t with
  | CtNone => Ok data
  | CtZstd => zstd_compress data 3
  | CtLz4 =>
      omap_err (λ e, InternalError match e with
                     | Lz4Create e => "Lz4 encoder creation failed: " +:+ e
                     | Lz4Write e => "Lz4 write failed: " +:+ e
                     | Lz4Finish e => "Lz4 finish failed: " +:+ e
                     end) (lz4_encode ops data)
  end.

(** [CompressionStrategy::compress], [compress_cow] and [compress_owned]. *)
Definition compress_owned (st : CompressionStrategy) (data : list byte) : Result (list byte) :=
  match st with
  | StNone => Ok data
  | StZstd level => zstd_compress data level
  | StLz4 => compress data CtLz4
  end.

Definition decompression_limit_error (actual limit : Z) : OdbcError :=
  ResourceLimitReached ("Decompressed payload length " +:+ fmt_Z actual +:+ " exceeds limit " +:+ fmt_Z limit).

(** [reader.take(limit)] read to its end: an error the reader ends with is
    met only if the limit does not come first. *)
Definition read_limited (reader : Stream) (max_decompressed_len : Z) : Result (list byte) :=
  let? limit := ok_or (checked_add max_decompressed_len 1) (ResourceLimitReached "Decompression limit overflow") in
  let? decompressed :=
    (if len (st_bytes reader) <? limit then
       match st_error reader with
       | Some e => Err (InternalError ("Decompression read failed: " +:+ e))
       | None => Ok (st_bytes reader)
       end
     else Ok (take (Z.to_nat limit) (st_bytes reader))) in
  if max_decompressed_len <? len decompressed then
    Err (decompression_limit_error (len decompressed) max_decompressed_len)
  else Ok decompressed.

(** [decompress_with_limit], and [decompress_cow_with_limit] whose result it owns. *)
Definition decompress_with_limit (data : list byte) (t : CompressionType) (max_decompressed_len : Z) :
    Result (list byte) :=
  match t with
  | CtNone =>
      if max_decompressed_len <? len data then Err (decompression_limit_error (len data) max_decompressed_len)
      else Ok data
  | CtZstd =>
      let? decoder := omap_err (λ e, InternalError ("Zstd decoder creation failed: " +:+ e)) (zstd_decoder ops data) in
      read_limited decoder max_decompressed_len
  | CtLz4 =>
      let? decoder := omap_err (λ e, InternalError ("Lz4 decoder creation failed: " +:+ e)) (lz4_decoder ops data) in
      read_limited decoder max_decompressed_len
  end.

Definition decompress (data : list byte) (t : CompressionType) : Result (list byte) :=
  decompress_with_limit data t DEFAULT_MAX_DECOMPRESSED_LEN.

Lemma read_limited_complete bytes max :
  0 ≤ max < usize_max → 
  read_limited (mkStream bytes None) max
  = if len bytes <=? max then Ok bytes else Err (decompression_limit_error (max + 1) max).
Proof.
  intros Hm. unfold read_limited, checked_add.
  destruct (Z.leb_spec (max + 1) usize_max); [|lia]. cbn [ok_or obind st_bytes st_error].
  destruct (Z.ltb_spec (len bytes) (max + 1)) as [Hlt|Hge]; cbn [obind].
  - destruct (Z.leb_spec (len bytes) max); [|lia]. by destruct (Z.ltb_spec max (len bytes)); [lia|].
  - destruct (Z.leb_spec (len bytes) max); [lia|].
    assert (len (take (Z.to_nat (max + 1)) bytes) = max + 1) as ->.
    { unfold len in *. rewrite length_take. lia. }
    by destruct (Z.ltb_spec max (max + 1)); [|lia].
Qed.

Lemma compress_decoder `{!Codec ops} data t z :
  compress data t = Ok z → t = CtNone ∧ z = data ∨
  (t = CtZstd ∧ zstd_decoder ops z = Ok (mkStream data None)) ∨
  (t = CtLz4 ∧ lz4_decoder ops z = Ok (mkStream data None)).
Proof.
  destruct t; simpl; intros H.
  - injection H as <-. by left.
  - right. left. split; [done|]. unfold zstd_compress in H.
    destruct (zstd_encode_all ops data 3) eqn:Hz; simplify_eq/=. by eapply zstd_inverse.
  - right. right. split; [done|]. destruct (lz4_encode ops data) eqn:Hz; simplify_eq/=. by apply lz4_inverse.
Qed.

Lemma decompress_compress_eq `{!Codec ops} data t z max :
  0 ≤ max < usize_max → compress data t = Ok z → len data ≤ max →
  decompress_with_limit z t max = Ok data.
Proof.
  intros Hm Hc Hle.
  destruct (compress_decoder _ _ _ Hc) as [[-> ->]|[[-> Hd]|[-> Hd]]]; simpl.
  - by destruct (Z.ltb_spec max (len data)); [lia|].
  - rewrite Hd. simpl. rewrite read_limited_complete by done.
    by destruct (Z.leb_spec (len data) max); [|lia].
  - rewrite Hd. simpl. rewrite read_limited_complete by done.
    by destruct (Z.leb_spec (len data) max); [|lia].
Qed.

(** The limit is never exceeded, whatever the decoder yields. *)
Lemma decompress_bounded data t max z : decompress_with_limit data t max = Ok z → len z ≤ max.
Proof.
  assert (∀ r, read_limited r max = Ok z → len z ≤ max) as Hr.
  { intros r H. unfold read_limited in H. inv_bind H. inv_bind H.
    destruct (Z.ltb_spec max (len a0)); [done|]. by injection H as <-. }
  destruct t; simpl; intros H.
  - destruct (Z.ltb_spec max (len data)); [done|]. by injection H as <-.
  - inv_bind H. by eapply Hr.
  - inv_bind H. by eapply Hr.
Qed.
End Compression.

(** ** A concrete codec, which stores its input with a marker byte *)

Definition stored_ops : CodecOps := {|
  zstd_encode_all := λ data _, Ok (x28 :: data);
  zstd_decoder := λ z, match z with x28 :: d => Ok (mkStream d None) | _ => Err "bad frame" end;
  lz4_encode := λ data, Ok (x04 :: data);
  lz4_decoder := λ z, match z with x04 :: d => Ok (mkStream d None) | _ => Err "bad frame" end
|}.

#[export] Instance stored_codec : Codec stored_ops.
Proof. split; simpl; intros; simplify_eq; done. Qed.

(** A payload compressed by any algorithm is given back by the decompressor
    when it is within the limit, and refused with the limit error, never
    truncated, when it is above it. *)
Theorem decompress_compress (ops : CodecOps) (HC : Codec ops) (data z : list byte) (t : CompressionType) (max : Z) :
  0 ≤ max < usize_max → compress ops data t = Ok z →
  decompress_with_limit ops z t max
  = if len data <=? max then Ok data
    else Err (decompression_limit_error (match t with CtNone => len data | _ => max + 1 end) max).
Proof.
  intros Hm Hc. destruct (Z.leb_spec (len data) max); [by apply decompress_compress_eq|].
  destruct (compress_decoder _ _ _ _ Hc) as [[-> ->]|[[-> Hd]|[-> Hd]]]; simpl.
  - by destruct (Z.ltb_spec max (len data)); [|lia].
  - rewrite Hd. simpl. rewrite read_limited_complete by done. by destruct (Z.leb_spec (len data) max); [lia|].
  - rewrite Hd. simpl. rewrite read_limited_complete by done. by destruct (Z.leb_spec (len data) max); [lia|].
Qed.

Lemma decompress_compress_witness :
  decompress_with_limit stored_ops (x28 :: as_bytes "hello") CtZstd 3
  = Err (ResourceLimitReached "Decompressed payload length 4 exceeds limit 3").
Proof.
  rewrite (decompress_compress stored_ops stored_codec (as_bytes "hello")).
  - vm_compute. reflexivity.
  - unfold usize_max. lia.
  - vm_compute. reflexivity.
Defined.
