(* ===== verification/Footers.v ===== *)
(** The footers that follow a row-major message (protocol/encoder.rs): the
    output parameters and the materialised cursors, and the compressed encoding
    of large messages. *)

From S2P Require Import Prelude Wire Errors RowCodec ParamValue Compression.

Definition OUTPUT_FOOTER_MAGIC : list byte := as_bytes "OUT1".
Definition REF_CURSOR_FOOTER_MAGIC : list byte := as_bytes "RC1" ++ [x00].

Definition try_append_output_footer (base : list byte) (outputs : list ParamValue) :
    outcome EncodeError (list byte) :=
  if len outputs =? 0 then Ok base
  else
    let base := base ++ OUTPUT_FOOTER_MAGIC in
    let? output_count := checked_u32_len (len outputs) "output parameter count" in
    let base := base ++ le_bytes 4 output_count in
    ofold (λ base p, let? bytes := expect_into (try_serialize p) in Ok (base ++ bytes)) outputs base.

Definition append_output_footer (base : list byte) (outputs : list ParamValue) :
    outcome EncodeError (list byte) :=
  expect (try_append_output_footer base outputs).

Definition append_blob (base b : list byte) : outcome EncodeError (list byte) :=
  let? blob_len := checked_u32_len (len b) "ref cursor payload length" in
  Ok (base ++ le_bytes 4 blob_len ++ b).

Definition try_append_ref_cursor_footer (base : list byte) (blobs : list (list byte)) :
    outcome EncodeError (list byte) :=
  if len blobs =? 0 then Ok base
  else
    let base := base ++ REF_CURSOR_FOOTER_MAGIC in
    let? blob_count := checked_u32_len (len blobs) "ref cursor count" in
    let base := base ++ le_bytes 4 blob_count in
    ofold append_blob blobs base.

Definition append_ref_cursor_footer (base : list byte) (blobs : list (list byte)) :
    outcome EncodeError (list byte) :=
  expect (try_append_ref_cursor_footer base blobs).

Section Compressed.
Context (ops : CodecOps).

Definition try_encode_with_compression (buffer : RowBuffer) : outcome EncodeError (list byte) :=
  let? raw := try_encode buffer in
  let strategy := auto_select (len raw) in
  match compress_owned ops strategy raw with
  | Ok compressed => Ok compressed
  | Err _ => try_encode buffer
  | Panic => Panic
  end.

Definition encode_with_compression (buffer : RowBuffer) : outcome EncodeError (list byte) :=
  expect (try_encode_with_compression buffer).

(** Messages up to the threshold stay as they are. *)
Lemma encode_with_compression_small b raw :
  try_encode b = Ok raw → len raw ≤ COMPRESSION_THRESHOLD_BYTES →
  try_encode_with_compression b = Ok raw.
Proof.
  intros H Hl. unfold try_encode_with_compression, auto_select. rewrite H. cbn [obind].
  by destruct (Z.ltb_spec COMPRESSION_THRESHOLD_BYTES (len raw)); [lia|].
Qed.
End Compressed.

(** * What the footers look like on the wire *)

Definition enc_output_footer (outputs : list ParamValue) : list byte :=
  OUTPUT_FOOTER_MAGIC ++ le_bytes 4 (len outputs) ++ encode_list enc_param outputs.

Definition enc_blob (b : list byte) : list byte := le_bytes 4 (len b) ++ b.

Definition enc_ref_cursor_footer (blobs : list (list byte)) : list byte :=
  REF_CURSOR_FOOTER_MAGIC ++ le_bytes 4 (len blobs) ++ encode_list enc_blob blobs.

Lemma len_zero_iff {A : Type} (l : list A) : len l = 0 ↔ l = [].
Proof. unfold len. destruct l; simpl; split; (done || lia). Qed.

Lemma try_append_output_footer_spec base outputs :
  outputs ≠ [] → Forall param_wf outputs → len outputs < 2 ^ 32 →
  try_append_output_footer base outputs = Ok (base ++ enc_output_footer outputs).
Proof.
  intros Hne Hwf Hl. unfold try_append_output_footer, enc_output_footer.
  destruct (Z.eqb_spec (len outputs) 0) as [H0|_]; [by apply len_zero_iff in H0|].
  rewrite checked_u32_len_ok by done. cbn [obind].
  rewrite (ofold_emit _ enc_param param_wf); [by rewrite <- !app_assoc | | done].
  intros s p Hp. by rewrite try_serialize_spec.
Qed.

Lemma try_append_ref_cursor_footer_spec base blobs :
  blobs ≠ [] → Forall (λ b, len b < 2 ^ 32) blobs → len blobs < 2 ^ 32 →
  try_append_ref_cursor_footer base blobs = Ok (base ++ enc_ref_cursor_footer blobs).
Proof.
  intros Hne Hwf Hl. unfold try_append_ref_cursor_footer, enc_ref_cursor_footer.
  destruct (Z.eqb_spec (len blobs) 0) as [H0|_]; [by apply len_zero_iff in H0|].
  rewrite checked_u32_len_ok by done. cbn [obind].
  rewrite (ofold_emit _ enc_blob (λ b, len b < 2 ^ 32)); [by rewrite <- !app_assoc | | done].
  intros s b Hb. unfold append_blob. by rewrite checked_u32_len_ok.
Qed.

(** A reader of a message with an output footer finds the footer from the
    message's own header: the payload size leads to the magic and the count, and
    the bytes after them decode to exactly the output values. *)
Theorem output_footer_located (b : RowBuffer) (outputs : list ParamValue) :
  encodable b → outputs ≠ [] → Forall param_wf outputs → len outputs ≤ MAX_PARAM_COUNT →
  ∃ base out payload_size, try_encode b = Ok base ∧ try_append_output_footer base outputs = Ok out ∧
    le_at (E := OdbcError) 4 out 12 = Ok payload_size ∧
    let footer := drop (Z.to_nat (HEADER_SIZE + payload_size)) out in
    take 4 footer = OUTPUT_FOOTER_MAGIC ∧
    le_at (E := OdbcError) 4 footer 4 = Ok (len outputs) ∧
    deserialize_params (drop 8 footer) = Ok outputs.
Proof.
  intros He Hne Hwf Hl. pose proof (try_encode_spec b He) as Henc. pose proof (enc_size b He) as Hsz.
  assert (u32_range (len outputs)) as Hr.
  { unfold u32_range, MAX_PARAM_COUNT in *. pose proof (len_nonneg outputs). lia. }
  eexists _, _, (len (enc_payload b)). split; [exact Henc|].
  split; [apply try_append_output_footer_spec; try done; by destruct Hr|].
  set (base := enc_header _ _ _ ++ enc_payload b) in *.
  set (out := base ++ _).
  assert (at_pos out 0 (enc_header (column_count b) (row_count b) (len (enc_payload b)) ++ enc_payload b ++ enc_output_footer outputs)) as P.
  { unfold out, base. rewrite <- app_assoc. apply at_pos_start. }
  pose proof P as Q. unfold enc_header in Q. rewrite <- !app_assoc in Q.
  do 4 apply at_pos_le_step in Q. change (0 + 4 + 2 + 2 + 4)%nat with 12%nat in Q.
  split; [apply (at_pos_u32 _ _ _ _ (conj (len_nonneg _) Hsz) Q)|].
  apply at_pos_step in P. rewrite enc_header_length in P. apply at_pos_step in P.
  replace (0 + 16 + length (enc_payload b))%nat with (Z.to_nat (HEADER_SIZE + len (enc_payload b))) in P
    by (unfold HEADER_SIZE, len; lia).
  destruct P as [_ P]. rewrite P. cbv zeta.
  assert (at_pos (enc_output_footer outputs) 0 (enc_output_footer outputs)) as R by apply at_pos_start.
  unfold enc_output_footer in R at 2. split.
  { unfold enc_output_footer. change 4%nat with (length OUTPUT_FOOTER_MAGIC). apply take_app_length. }
  apply at_pos_step in R. change (0 + length OUTPUT_FOOTER_MAGIC)%nat with 4%nat in R.
  split; [by apply (at_pos_u32 _ _ _ _ Hr R)|].
  apply at_pos_le_step in R. destruct R as [_ R]. change (4 + 4)%nat with 8%nat in R. rewrite R.
  by apply deserialize_params_enc.
Qed.

Lemma output_footer_located_witness :
  ∃ base out payload_size, try_encode sample_buffer = Ok base ∧
    try_append_output_footer base [PInteger 7; PNull] = Ok out ∧
    le_at (E := OdbcError) 4 out 12 = Ok payload_size ∧
    let footer := drop (Z.to_nat (HEADER_SIZE + payload_size)) out in
    take 4 footer = OUTPUT_FOOTER_MAGIC ∧
    le_at (E := OdbcError) 4 footer 4 = Ok 2 ∧
    deserialize_params (drop 8 footer) = Ok [PInteger 7; PNull].
Proof.
  apply (output_footer_located sample_buffer [PInteger 7; PNull]);
    [split| | |]; repeat constructor; vm_compute; (reflexivity || discriminate).
Defined.
