(* ===== verification/MultiResult.v ===== *)
(** Multi-result messages (protocol/multi_result.rs): the version 2 framing with
    its magic, the legacy framing, and the decoder that tells them apart. *)

From S2P Require Import Prelude Wire Errors RowCodec ParamValue Footers.

Definition TAG_RESULT_SET : Z := 0.
Definition TAG_ROW_COUNT : Z := 1.
Definition MULTI_RESULT_MAGIC : Z := 0x544C554D.
Definition MULTI_RESULT_VERSION : Z := 2.
Definition HEADER_V2_LEN : nat := 4 + 2 + 2 + 4.
Definition MIN_ITEM_LEN : Z := 1 + 4.
Definition MAX_MULTI_RESULT_ITEMS : Z := 16384.
Definition MAX_MULTI_RESULT_PAYLOAD : Z := 256 * 1024 * 1024.

Inductive MultiResultItem :=
| ResultSet (payload : list byte)
| RowCount (n : Z).

#[export] Instance MultiResultItem_eq_dec : EqDecision MultiResultItem.
Proof. solve_decision. Defined.

(** One turn of [encode_items]; [as u32] keeps the low 32 bits. *)
Definition encode_item (item : MultiResultItem) : list byte :=
  match item with
  | ResultSet buf => z2b TAG_RESULT_SET :: le_bytes 4 (to_unsigned 32 (len buf)) ++ buf
  | RowCount n => z2b TAG_ROW_COUNT :: le_bytes 4 8 ++ le_bytes 8 n
  end.

Definition encode_items (items : list MultiResultItem) : list byte := encode_list encode_item items.

Definition encode_multi (items : list MultiResultItem) : list byte :=
  le_bytes 4 MULTI_RESULT_MAGIC ++ le_bytes 2 MULTI_RESULT_VERSION ++ le_bytes 2 0
    ++ le_bytes 4 (to_unsigned 32 (len items)) ++ encode_items items.

Definition encode_multi_v1 (items : list MultiResultItem) : list byte :=
  le_bytes 4 (to_unsigned 32 (len items)) ++ encode_items items.

(** The size [encode_multi] reserves. *)
Definition estimate_payload_size (items : list MultiResultItem) : Z :=
  zsum (map (λ i, match i with ResultSet b => 1 + 4 + len b | RowCount _ => 1 + 4 + 8 end) items).

Definition starts_with (data prefix : list byte) : bool := bool_decide (take (length prefix) data = prefix).

Definition is_known_footer (data : list byte) : bool :=
  starts_with data OUTPUT_FOOTER_MAGIC || starts_with data REF_CURSOR_FOOTER_MAGIC.

Definition validate_item_count (data : list byte) (offset : nat) (count : Z) : Result unit :=
  if MAX_MULTI_RESULT_ITEMS <? count then
    Err (ValidationError ("Multi-result item count " +:+ fmt_Z count +:+ " exceeds limit " +:+ fmt_Z MAX_MULTI_RESULT_ITEMS))
  else
    let remaining := saturating_sub (len data) (Z.of_nat offset) in
    let? min_required := ok_or (checked_mul count MIN_ITEM_LEN) (ValidationError "Multi-result count overflow") in
    if remaining <? min_required then Err (ValidationError "Multi-result count exceeds available payload")
    else Ok tt.

(** One turn of the item loop of [decode_items]. *)
Definition read_item (data : list byte) (offset : nat) : Result (MultiResultItem * nat) :=
  if (length data <=? offset)%nat then Err (ValidationError "Multi-result buffer truncated at item")
  else
    let? tag := index data offset in
    let offset := (offset + 1)%nat in
    if (length data <? offset + 4)%nat then Err (ValidationError "Multi-result buffer truncated at item length")
    else
      let? n := le_at 4 data offset in
      if MAX_MULTI_RESULT_PAYLOAD <? n then
        Err (ValidationError ("Multi-result item payload " +:+ fmt_Z n +:+ " exceeds limit " +:+ fmt_Z MAX_MULTI_RESULT_PAYLOAD))
      else
        let offset := (offset + 4)%nat in
        let? end_ := ok_or (checked_add (Z.of_nat offset) n) (ValidationError "Multi-result payload offset overflow") in
        if len data <? end_ then Err (ValidationError "Multi-result buffer truncated at item payload")
        else
          let? payload := slice data offset (Z.to_nat end_) in
          let? item :=
            match b2z tag with
            | 0 => Ok (ResultSet payload)
            | 1 =>
                if negb (n =? 8) then Err (ValidationError "RowCount item expected 8-byte payload")
                else let? v := le_at 8 payload 0 in Ok (RowCount (to_signed 64 v))
            | t => Err (ValidationError ("Unknown multi-result item tag: " +:+ fmt_Z t))
            end in
          Ok (item, Z.to_nat end_).

Definition decode_items (data : list byte) (offset : nat) (count : Z) (reject_trailing : bool) :
    Result (list MultiResultItem) :=
  let? _ := validate_item_count data offset count in
  let? '(out, offset) := read_n (read_item data) (Z.to_nat count) offset in
  if reject_trailing && negb (Nat.eqb offset (length data)) then
    let? rest := slice_from data offset in
    if negb (is_known_footer rest) then Err (ValidationError "Multi-result v2 buffer has trailing bytes")
    else Ok out
  else Ok out.

Definition decode_multi_v2 (data : list byte) : Result (list MultiResultItem) :=
  if (length data <? HEADER_V2_LEN)%nat then Err (ValidationError "Multi-result v2 buffer too short for header")
  else
    let? version := le_at 2 data 4 in
    if negb (version =? MULTI_RESULT_VERSION) then
      Err (ValidationError ("Unsupported multi-result version: " +:+ fmt_Z version +:+ " (expected " +:+ fmt_Z MULTI_RESULT_VERSION +:+ ")"))
    else
      let? count := le_at 4 data 8 in
      decode_items data HEADER_V2_LEN count true.

Definition decode_multi_v1 (data : list byte) : Result (list MultiResultItem) :=
  if len data <? 4 then Err (ValidationError "Multi-result buffer too short for count")
  else
    let? count := le_at 4 data 0 in
    decode_items data 4 count false.

Definition decode_multi (data : list byte) : Result (list MultiResultItem) :=
  if 4 <=? len data then
    let? magic := le_at 4 data 0 in
    if magic =? MULTI_RESULT_MAGIC then decode_multi_v2 data else decode_multi_v1 data
  else decode_multi_v1 data.

(** * Totality *)

(** What a decoded item satisfies, and what an item must satisfy to be decoded. *)
Definition item_wf (i : MultiResultItem) : Prop :=
  match i with
  | ResultSet b => len b ≤ MAX_MULTI_RESULT_PAYLOAD
  | RowCount n => i64_range n
  end.

Lemma read_item_inv data o i o' : read_item data o = Ok (i, o') → item_wf i ∧ (o < o' ≤ length data)%nat.
Proof.
  unfold read_item. intros H. destruct (Nat.leb_spec (length data) o) as [|Ho]; [done|].
  inv_bind H. rename a into tag. destruct (Nat.ltb_spec (length data) (o + 1 + 4)) as [|Ho4]; [done|].
  inv_bind H. rename a into n. apply le_at_inv in Ha0 as [_ Hn].
  destruct (Z.ltb_spec MAX_MULTI_RESULT_PAYLOAD n) as [|Hmax]; [done|].
  inv_bind H. unfold checked_add in Ha0. destruct (_ <=? usize_max); [injection Ha0 as <-|done].
  match type of H with (if ?b then _ else _) = _ => destruct b eqn:Hd; [done|] end.
  apply Z.ltb_ge in Hd. unfold len in Hd.
  inv_bind H. inv_bind H. injection H as <- <-. apply slice_length in Ha0.
  split; [|lia]. destruct (b2z tag) as [|[]|]; try done.
  - injection Ha1 as <-. simpl. unfold len. lia.
  - destruct (Z.eqb_spec n 8); [cbn [negb] in Ha1|done]. inv_bind Ha1. injection Ha1 as <-.
    apply le_at_inv in Ha2 as [_ Ha2]. by apply (to_signed_range 64).
Qed.

Lemma read_item_no_panic data o : read_item data o ≠ Panic.
Proof.
  unfold read_item. destruct (Nat.leb_spec (length data) o) as [|Ho]; [done|].
  apply obind_no_panic; [auto with odbc|]. intros tag _.
  destruct (Nat.ltb_spec (length data) (o + 1 + 4)); [done|].
  apply obind_no_panic; [auto with odbc|]. intros n [_ Hn]%le_at_inv.
  destruct (_ <? n); [done|]. apply obind_no_panic; [auto with odbc|]. intros e He.
  unfold checked_add in He. destruct (_ <=? _); [injection He as <-|done].
  case_if; [done|]. apply Z.ltb_ge in E. unfold len in E.
  apply obind_no_panic; [apply slice_no_panic; lia|]. intros pl Hpl. apply slice_length in Hpl.
  apply obind_no_panic; [|done]. destruct (b2z tag) as [|[]|]; try done.
  destruct (Z.eqb_spec n 8); [|done]. cbn [negb]. apply obind_no_panic; [|done]. apply le_at_no_panic. lia.
Qed.

Lemma read_items_end data n o items o' :
  (o ≤ length data)%nat → read_n (read_item data) n o = Ok (items, o') → (o' ≤ length data)%nat.
Proof.
  intros Ho. apply (read_n_bound _ (λ o, o ≤ length data)%nat); [|done].
  intros o1 x o2 _ H%read_item_inv. lia.
Qed.

Lemma decode_items_no_panic data o count t :
  (o ≤ length data)%nat → decode_items data o count t ≠ Panic.
Proof.
  intros Ho. unfold decode_items. apply obind_no_panic.
  { unfold validate_item_count. destruct (_ <? count); [done|].
    apply obind_no_panic; [auto with odbc|]. intros m _. by case_if. }
  intros _ _. apply obind_no_panic; [apply read_n_no_panic, read_item_no_panic|].
  intros [out o'] Hr. apply read_items_end in Hr; [|done].
  case_if; [|done]. apply obind_no_panic; [by apply slice_from_no_panic|]. intros r _. by case_if.
Qed.

Lemma decode_items_inv data o count t items :
  decode_items data o count t = Ok items →
  count ≤ MAX_MULTI_RESULT_ITEMS ∧ length items = Z.to_nat count ∧ Forall item_wf items.
Proof.
  unfold decode_items. intros H. inv_bind H. inv_bind H.
  assert (items = x) as ->.
  { case_if_in H; [|by injection H]. inv_bind H. case_if_in H; [done|]. by injection H. }
  split.
  { unfold validate_item_count in Ha. by destruct (Z.ltb_spec MAX_MULTI_RESULT_ITEMS count). }
  split; [by eapply read_n_length|]. revert Ha0. apply read_n_Forall. intros o1 i o2 Hi. by apply read_item_inv in Hi as [? _].
Qed.

Lemma decode_multi_cases data :
  (∃ o count t, (o ≤ length data)%nat ∧ 0 ≤ count ∧ decode_multi data = decode_items data o count t) ∨
  (∃ e, decode_multi data = Err e).
Proof.
  assert (∀ d, decode_multi_v1 d = decode_multi_v1 data →
    (∃ o count t, (o ≤ length data)%nat ∧ 0 ≤ count ∧ decode_multi_v1 d = decode_items data o count t) ∨
    ∃ e, decode_multi_v1 d = Err e) as Hv1.
  { intros d ->. unfold decode_multi_v1. destruct (Z.ltb_spec (len data) 4) as [|H4]; [by right; eexists|].
    unfold len in H4. left. destruct (le_at_Ok_ex (E := OdbcError) 4 data 0) as (v & -> & Hv); [lia|].
    exists 4%nat, v, false. repeat split; (done || lia). }
  unfold decode_multi. destruct (Z.leb_spec 4 (len data)) as [H4|_]; [|by apply Hv1]. unfold len in H4.
  destruct (le_at_Ok_ex (E := OdbcError) 4 data 0) as (v & Hle & _); [lia|]. rewrite Hle. cbn [obind].
  destruct (v =? MULTI_RESULT_MAGIC); [|by apply Hv1].
  unfold decode_multi_v2. destruct (Nat.ltb_spec (length data) HEADER_V2_LEN) as [|H12]; [by right; eexists|].
  unfold HEADER_V2_LEN in H12.
  destruct (le_at_Ok_ex (E := OdbcError) 2 data 4) as (ver & -> & _); [lia|]. cbn [obind].
  destruct (negb _); [by right; eexists|].
  destruct (le_at_Ok_ex (E := OdbcError) 4 data 8) as (c & -> & Hc); [lia|]. left.
  exists HEADER_V2_LEN, c, true. repeat split; (done || lia).
Qed.

(** On any bytes the decoder returns without a panic; what it accepts has at
    most the allowed number of items, each within its limit. *)
Theorem decode_multi_total (data : list byte) :
  (∃ e, decode_multi data = Err e) ∨
  (∃ items, decode_multi data = Ok items ∧ len items ≤ MAX_MULTI_RESULT_ITEMS ∧ Forall item_wf items).
Proof.
  destruct (decode_multi_cases data) as [(o & c & t & Ho & Hc & Heq)|]; [|by left].
  destruct (decode_multi data) as [items|e|] eqn:H; [right|by left; eexists|].
  - symmetry in Heq. apply decode_items_inv in Heq as (? & Hl & ?). exists items.
    split; [done|]. split; [|done]. unfold len. lia.
  - symmetry in Heq. by apply decode_items_no_panic in Heq.
Qed.

(** * Round trips *)

Lemma encode_item_length i : (5 ≤ length (encode_item i))%nat.
Proof. destruct i; cbn [encode_item]; rewrite length_cons, length_app, length_le_bytes; lia. Qed.

Lemma encode_items_length items : (5 * length items ≤ length (encode_items items))%nat.
Proof.
  induction items as [|i items IH]; [simpl; lia|]. unfold encode_items in *.
  rewrite encode_list_cons, length_app, length_cons. pose proof (encode_item_length i). lia.
Qed.

(** The item an encoded item is read as. *)
Lemma read_item_at data o tag n payload rest i :
  0 ≤ n ≤ MAX_MULTI_RESULT_PAYLOAD → len payload = n → Z.of_nat (length data) ≤ usize_max →
  match b2z tag with
  | 0 => Ok (ResultSet payload)
  | 1 => if negb (n =? 8) then Err (ValidationError "RowCount item expected 8-byte payload")
         else let? v := le_at 8 payload 0 in Ok (RowCount (to_signed 64 v))
  | t => Err (ValidationError ("Unknown multi-result item tag: " +:+ fmt_Z t))
  end = Ok i →
  at_pos data o (tag :: le_bytes 4 n ++ payload ++ rest) →
  read_item data o = Ok (i, (o + (5 + length payload))%nat).
Proof.
  intros Hn Hpl Hus Hi P. pose proof (at_pos_length _ _ _ P) as Hl.
  rewrite length_cons, !length_app, length_le_bytes in Hl.
  unfold read_item. destruct (Nat.leb_spec (length data) o); [lia|].
  rewrite (at_pos_index _ _ _ _ P). cbn [obind].
  pose proof (at_pos_step1 _ _ _ _ P) as P1. pose proof (at_pos_le_step _ _ _ _ _ P1) as P2.
  destruct (Nat.ltb_spec (length data) (o + 1 + 4)); [lia|].
  assert (u32_range n) as Hr by (unfold u32_range, MAX_MULTI_RESULT_PAYLOAD in *; lia).
  rewrite (at_pos_u32 _ _ _ _ Hr P1). cbn [obind].
  destruct (Z.ltb_spec MAX_MULTI_RESULT_PAYLOAD n); [lia|].
  unfold len in Hpl. unfold checked_add.
  destruct (Z.leb_spec (Z.of_nat (o + 1 + 4) + n) usize_max); [|lia]. cbn [ok_or obind].
  destruct (Z.ltb_spec (len data) (Z.of_nat (o + 1 + 4) + n)) as [Hlt|_]; [unfold len in Hlt; lia|].
  replace (Z.to_nat (Z.of_nat (o + 1 + 4) + n)) with (o + 1 + 4 + length payload)%nat by lia.
  rewrite (at_pos_slice _ _ _ _ P2). cbn [obind]. rewrite Hi. cbn [obind]. do 2 f_equal. lia.
Qed.

Lemma read_item_enc data o i rest :
  Z.of_nat (length data) ≤ usize_max → item_wf i → at_pos data o (encode_item i ++ rest) →
  read_item data o = Ok (i, (o + length (encode_item i))%nat).
Proof.
  intros Hus Hi P. destruct i as [b|n]; cbn [encode_item item_wf] in *;
    rewrite <- app_comm_cons, <- app_assoc in P; rewrite length_cons, length_app, length_le_bytes.
  - pose proof (len_nonneg b). unfold MAX_MULTI_RESULT_PAYLOAD in Hi.
    unfold to_unsigned in P. rewrite Z.mod_small in P by lia.
    apply (read_item_at _ _ _ _ _ _ (ResultSet b)) in P; [exact P| |done|done|done].
    unfold MAX_MULTI_RESULT_PAYLOAD. lia.
  - apply (read_item_at _ _ _ _ _ _ (RowCount n)) in P; [exact P| |by rewrite len_le_bytes|done|].
    { unfold MAX_MULTI_RESULT_PAYLOAD. lia. }
    change (b2z (z2b TAG_ROW_COUNT)) with 1. cbn [negb Z.eqb Pos.eqb].
    pose proof (at_pos_start (le_bytes 8 n ++ [])) as Q. rewrite app_nil_r in Q at 1.
    rewrite (at_pos_le _ _ _ _ _ Q). cbn [obind]. by rewrite (to_signed_unsigned 64).
Qed.

(** The item loop over encoded items that [tail] follows. *)
Lemma decode_items_enc data o items tail t :
  Z.of_nat (length data) ≤ usize_max → Forall item_wf items → len items ≤ MAX_MULTI_RESULT_ITEMS →
  (t = true → tail = [] ∨ is_known_footer tail = true) →
  at_pos data o (encode_items items ++ tail) →
  decode_items data o (len items) t = Ok items.
Proof.
  intros Hus Hwf Hl Ht P. unfold decode_items, validate_item_count.
  destruct (Z.ltb_spec MAX_MULTI_RESULT_ITEMS (len items)); [lia|].
  pose proof (at_pos_length _ _ _ P) as Hlen. rewrite length_app in Hlen.
  pose proof (encode_items_length items). unfold checked_mul, MIN_ITEM_LEN, saturating_sub.
  destruct (Z.leb_spec (len items * (1 + 4)) usize_max) as [_|Hb].
  2: { unfold usize_max, MAX_MULTI_RESULT_ITEMS in *. lia. }
  cbn [ok_or obind].
  destruct (Z.ltb_spec (Z.max 0 (len data - Z.of_nat o)) (len items * (1 + 4))) as [Hb|_].
  { unfold len in Hb. lia. }
  cbn [obind]. replace (Z.to_nat (len items)) with (length items) by (unfold len; lia).
  rewrite (read_n_encoded _ encode_item item_wf data items o tail); [|by intros; apply read_item_enc with (rest := rest)|done|done].
  cbn [obind]. destruct t; [|done]. cbn [andb].
  apply at_pos_step in P. destruct (Nat.eqb_spec (o + length (encode_items items)) (length data)) as [He|Hne].
  { unfold encode_items in He. rewrite He, Nat.eqb_refl. done. }
  unfold encode_items in Hne, P. destruct (Nat.eqb_spec (o + length (encode_list encode_item items)) (length data)); [done|].
  cbn [negb]. rewrite (at_pos_slice_from _ _ _ P). cbn [obind].
  destruct (Ht eq_refl) as [Hz|Hz]; [|by rewrite Hz]. subst tail. by apply at_pos_nil in P.
Qed.

(** The shapes of what may follow a version 2 message: nothing, or a footer that
    starts with its magic. *)
Definition footer_or_nothing (footer : list byte) : Prop :=
  footer = [] ∨ (∃ tail, footer = OUTPUT_FOOTER_MAGIC ++ tail) ∨ (∃ tail, footer = REF_CURSOR_FOOTER_MAGIC ++ tail).

Lemma starts_with_app (m tail : list byte) : starts_with (m ++ tail) m = true.
Proof. unfold starts_with. rewrite take_app_length. by apply bool_decide_eq_true_2. Qed.

Lemma footer_known footer : footer_or_nothing footer → footer = [] ∨ is_known_footer footer = true.
Proof.
  intros [->|[[tail ->]|[tail ->]]]; [by left|right..]; unfold is_known_footer; rewrite starts_with_app;
    [done|apply orb_true_r].
Qed.

Lemma decode_encode_multi_lemma (items : list MultiResultItem) (footer : list byte) :
  Forall item_wf items → len items ≤ MAX_MULTI_RESULT_ITEMS →
  footer_or_nothing footer →
  Z.of_nat (length (encode_multi items ++ footer)) ≤ usize_max →
  decode_multi (encode_multi items ++ footer) = Ok items.
Proof.
  intros Hwf Hl Hf%footer_known Hus. set (data := encode_multi items ++ footer) in *.
  assert (u32_range (len items)) as Hr.
  { unfold u32_range, MAX_MULTI_RESULT_ITEMS in *. pose proof (len_nonneg items). lia. }
  assert (at_pos data 0 (le_bytes 4 MULTI_RESULT_MAGIC ++ le_bytes 2 MULTI_RESULT_VERSION ++ le_bytes 2 0
    ++ le_bytes 4 (len items) ++ encode_items items ++ footer)) as P.
  { unfold data, encode_multi, to_unsigned. unfold u32_range in Hr. rewrite (Z.mod_small _ _ Hr), <- !app_assoc.
    apply at_pos_start. }
  pose proof (at_pos_length _ _ _ P) as Hlen. rewrite !length_app, !length_le_bytes in Hlen.
  pose proof (at_pos_le_step _ _ _ _ _ P) as P1. pose proof (at_pos_le_step _ _ _ _ _ P1) as P2.
  pose proof (at_pos_le_step _ _ _ _ _ P2) as P3. pose proof (at_pos_le_step _ _ _ _ _ P3) as P4.
  simpl in P1, P2, P3, P4.
  unfold decode_multi. destruct (Z.leb_spec 4 (len data)) as [_|Hb]; [|unfold len in Hb; lia].
  rewrite (at_pos_u32 _ _ MULTI_RESULT_MAGIC _ ltac:(unfold u32_range, MULTI_RESULT_MAGIC; lia) P). cbn [obind].
  rewrite Z.eqb_refl. unfold decode_multi_v2, HEADER_V2_LEN.
  destruct (Nat.ltb_spec (length data) (4 + 2 + 2 + 4)); [lia|].
  rewrite (at_pos_u16 _ _ MULTI_RESULT_VERSION _ ltac:(unfold u16_range, MULTI_RESULT_VERSION; lia) P1). cbn [obind].
  rewrite Z.eqb_refl. cbn [negb]. rewrite (at_pos_u32 _ _ _ _ Hr P3). cbn [obind].
  by apply (decode_items_enc data 12 items footer true).
Qed.



(** A legacy message within the item limit is never taken for a version 2 one,
    and decodes to its items, whatever follows it. *)
Theorem decode_encode_multi_v1 (items : list MultiResultItem) (rest : list byte) :
  Forall item_wf items → len items ≤ MAX_MULTI_RESULT_ITEMS →
  Z.of_nat (length (encode_multi_v1 items ++ rest)) ≤ usize_max →
  decode_multi (encode_multi_v1 items ++ rest) = Ok items.
Proof.
  intros Hwf Hl Hus. set (data := encode_multi_v1 items ++ rest) in *.
  assert (u32_range (len items)) as Hr.
  { unfold u32_range, MAX_MULTI_RESULT_ITEMS in *. pose proof (len_nonneg items). lia. }
  assert (at_pos data 0 (le_bytes 4 (len items) ++ encode_items items ++ rest)) as P.
  { unfold data, encode_multi_v1, to_unsigned. unfold u32_range in Hr. rewrite (Z.mod_small _ _ Hr), <- !app_assoc.
    apply at_pos_start. }
  pose proof (at_pos_length _ _ _ P) as Hlen. rewrite !length_app, !length_le_bytes in Hlen.
  pose proof (at_pos_le_step _ _ _ _ _ P) as P1. simpl in P1.
  unfold decode_multi. destruct (Z.leb_spec 4 (len data)) as [_|Hb]; [|unfold len in Hb; lia].
  rewrite (at_pos_u32 _ _ _ _ Hr P). cbn [obind].
  destruct (Z.eqb_spec (len items) MULTI_RESULT_MAGIC) as [He|_].
  { unfold MULTI_RESULT_MAGIC, MAX_MULTI_RESULT_ITEMS in *. lia. }
  unfold decode_multi_v1. destruct (Z.ltb_spec (len data) 4) as [Hb|_]; [unfold len in Hb; lia|].
  rewrite (at_pos_u32 _ _ _ _ Hr P). cbn [obind].
  by apply (decode_items_enc data 4 items rest false).
Qed.

Lemma decode_encode_multi_v1_witness :
  decode_multi (encode_multi_v1 [ResultSet []; RowCount 5] ++ [x00; x01]) = Ok [ResultSet []; RowCount 5].
Proof.
  apply decode_encode_multi_v1;
    [repeat constructor; vm_compute; (reflexivity || discriminate) | vm_compute; discriminate
    | vm_compute; discriminate].
Defined.
