(* ===== verification/DiskSpill.v ===== *)
(** Spilling an encoded result to a temporary file (engine/core/disk_spill.rs): the
    buffering writer, the stream that moves to disk above a threshold, and the two
    ways to get the bytes back, over a file system that may fail at any call. *)

From S2P Require Import Prelude Wire Errors RowCodec.

(** * Files *)

(** The files of the temporary directory, the clock in milliseconds, and the
    outcomes of the coming I/O calls: the text of an error, or success. When the
    list is used up every call succeeds. *)
Record Fs := mkFs {
  fs_files : gmap string (list byte);
  fs_clock : Z;
  fs_faults : list (option string)
}.

(** One I/O call: [e] says which, as the [map_err] of the call does. *)
Definition io {A : Type} (e : string) (fs : Fs) (op : gmap string (list byte) → A * gmap string (list byte)) : Result (A * Fs) :=
  match fs_faults fs with
  | Some msg :: _ => Err (InternalError (e +:+ ": " +:+ msg))
  | faults => let '(a, files) := op (fs_files fs) in Ok (a, mkFs files (fs_clock fs) (tail faults))
  end.

(** An open file: its path and the position of its next write. *)
Definition handle : Type := string * nat.

(** Writing at a position of a file, beyond its end with zeros between. *)
Definition write_at (pos : nat) (bs content : list byte) : list byte :=
  take pos content ++ replicate (pos - length content) x00 ++ bs ++ drop (pos + length bs) content.

Definition write_file (e : string) (h : handle) (bs : list byte) (fs : Fs) : Result (handle * Fs) :=
  io e fs (λ files, ((h.1, (h.2 + length bs)%nat), alter (write_at h.2 bs) h.1 files)).

(** [File::create]: an existing file is emptied. *)
Definition create_file (e : string) (path : string) (fs : Fs) : Result (handle * Fs) :=
  io e fs (λ files, ((path, 0%nat), <[path := []]> files)).

(** [std::fs::read]; a missing file is an error of the call. *)
Definition read_file (e : string) (path : string) (fs : Fs) : Result (list byte * Fs) :=
  let? '(content, fs) := io e fs (λ files, (files !! path, files)) in
  match content with
  | Some bs => Ok (bs, fs)
  | None => Err (InternalError (e +:+ ": No such file or directory"))
  end.

Definition remove_file (path : string) (fs : Fs) : Fs := mkFs (delete path (fs_files fs)) (fs_clock fs) (fs_faults fs).

(** * The stream *)

Definition DEFAULT_THRESHOLD_MB : Z := 100.
Definition WRITE_CHUNK_SIZE : Z := 64 * 1024.

(** The [BufWriter] is not told from its file: it is flushed before the file is read. *)
Record DiskSpillStream := mkSpill {
  ds_threshold_bytes : Z;
  ds_temp_dir : string;
  ds_temp_path : option string;
  ds_file : option handle;
  ds_memory_buffer : list byte
}.

Definition spill_new (temp_dir : string) (threshold_mb : Z) : DiskSpillStream :=
  mkSpill (Z.max threshold_mb 1 * 1024 * 1024) temp_dir None None [].

Definition threshold_mb (s : DiskSpillStream) : Z := ds_threshold_bytes s / (1024 * 1024).

Definition spill_to_disk (s : DiskSpillStream) (fs : Fs) : Result (DiskSpillStream * Fs) :=
  let name := "odbc_spill_" +:+ fmt_Z (fs_clock fs) +:+ ".bin" in
  let path := ds_temp_dir s +:+ "/" +:+ name in
  let? '(f, fs) := create_file "spill create" path fs in
  let? '(w, fs) := write_file "spill write" f (ds_memory_buffer s) fs in
  Ok (mkSpill (ds_threshold_bytes s) (ds_temp_dir s) (Some path) (Some w) [], fs).

Definition write_to_file (s : DiskSpillStream) (chunk : list byte) (fs : Fs) : Result (DiskSpillStream * Fs) :=
  let? f := ok_or (ds_file s) (InternalError "spill file missing") in
  let? '(f, fs) := write_file "spill write" f chunk fs in
  Ok (mkSpill (ds_threshold_bytes s) (ds_temp_dir s) (ds_temp_path s) (Some f) (ds_memory_buffer s), fs).

Definition write_chunk (s : DiskSpillStream) (chunk : list byte) (fs : Fs) : Result (DiskSpillStream * Fs) :=
  match ds_file s with
  | Some _ => write_to_file s chunk fs
  | None =>
      let would_exceed := ds_threshold_bytes s <? saturating_add (len (ds_memory_buffer s)) (len chunk) in
      if would_exceed && negb (len (ds_memory_buffer s) =? 0) then
        let? '(s, fs) := spill_to_disk s fs in
        write_to_file s chunk fs
      else
        Ok (mkSpill (ds_threshold_bytes s) (ds_temp_dir s) (ds_temp_path s) (ds_file s) (ds_memory_buffer s ++ chunk), fs)
  end.

Inductive SpillReadSource := SpillFile (path : string) | SpillMemory (data : list byte).

(** The flush at the end of writing. *)
Definition flush_file (s : DiskSpillStream) (fs : Fs) : Result Fs :=
  match ds_file s with
  | Some _ => let? '(_, fs) := io "spill flush" fs (λ files, (tt, files)) in Ok fs
  | None => Ok fs
  end.

Definition finish_for_streaming_read (s : DiskSpillStream) (fs : Fs) : Result (SpillReadSource * Fs) :=
  let? fs := flush_file s fs in
  match ds_temp_path s with
  | Some path => Ok (SpillFile path, fs)
  | None => Ok (SpillMemory (ds_memory_buffer s), fs)
  end.

Definition read_back (s : DiskSpillStream) (fs : Fs) : Result (list byte * Fs) :=
  let? fs := flush_file s fs in
  match ds_temp_path s with
  | Some path => let? '(data, fs) := read_file "spill read" path fs in Ok (data, remove_file path fs)
  | None => Ok (ds_memory_buffer s, fs)
  end.

(** [Drop]: a file that was not handed out is removed. *)
Definition drop_spill (s : DiskSpillStream) (fs : Fs) : Fs :=
  match ds_temp_path s with Some path => remove_file path fs | None => fs end.

(** * The writer *)

Record DiskSpillWriter := mkSpillWriter { dw_spill : DiskSpillStream; dw_buffer : list byte }.

Definition writer_new (s : DiskSpillStream) : DiskSpillWriter := mkSpillWriter s [].

(** The loop of [write]; the fuel bounds the number of full chunks. *)
Fixpoint drain_chunks (fuel : nat) (w : DiskSpillWriter) (fs : Fs) : Result (DiskSpillWriter * Fs) :=
  match fuel with
  | O => Ok (w, fs)
  | S fuel =>
      if WRITE_CHUNK_SIZE <=? len (dw_buffer w) then
        let n := Z.to_nat WRITE_CHUNK_SIZE in
        let? '(s, fs) := write_chunk (dw_spill w) (take n (dw_buffer w)) fs in
        drain_chunks fuel (mkSpillWriter s (drop n (dw_buffer w))) fs
      else Ok (w, fs)
  end.

(** [write]: it always takes the whole buffer, so [write_all] is one call of it. *)
Definition spill_write (w : DiskSpillWriter) (buf : list byte) (fs : Fs) : Result (DiskSpillWriter * Fs) :=
  let buffer := dw_buffer w ++ buf in
  drain_chunks (length buffer) (mkSpillWriter (dw_spill w) buffer) fs.

Definition spill_flush (w : DiskSpillWriter) (fs : Fs) : Result (DiskSpillWriter * Fs) :=
  if len (dw_buffer w) =? 0 then Ok (w, fs)
  else
    let? '(s, fs) := write_chunk (dw_spill w) (dw_buffer w) fs in
    Ok (mkSpillWriter s [], fs).

(** The writer as a sink of the encoder: the error goes through [io::Error::other]. *)
Definition spill_write_all (w : DiskSpillWriter * Fs) (buf : list byte) : outcome EncodeError (DiskSpillWriter * Fs) :=
  omap_err (λ e, Io (to_string e)) (spill_write w.1 buf w.2).

(** * Runs against a file system *)

(** No call will fail. *)
Definition calm (fs : Fs) : Prop := fs_faults fs = [].

(** [m], started with [fs], ends with an error that a failing call caused, or with
    what [Q] says; calm weather stays calm. *)
Definition ends {A : Type} (fs : Fs) (m : Result (A * Fs)) (Q : A → Fs → Prop) : Prop :=
  (¬ calm fs ∧ ∃ e, m = Err (InternalError e)) ∨
  ∃ a fs', m = Ok (a, fs') ∧ (calm fs → calm fs') ∧ Q a fs'.

Lemma ends_ok {A : Type} fs fs' (a : A) (Q : A → Fs → Prop) : (calm fs → calm fs') → Q a fs' → ends fs (Ok (a, fs')) Q.
Proof. right. by exists a, fs'. Qed.

Lemma ends_bind {A B : Type} fs (m : Result (A * Fs)) (k : A * Fs → Result (B * Fs)) (Q : A → Fs → Prop) (Q' : B → Fs → Prop) :
  ends fs m Q → (∀ a fs', Q a fs' → ends fs' (k (a, fs')) Q') → ends fs (obind m k) Q'.
Proof.
  intros [[Hc [e ->]]|(a & fs' & -> & Hc & HQ)] Hk; [left; split; [done|by exists e]|]. cbn [obind].
  destruct (Hk a fs' HQ) as [[Hc' He]|(b & fs2 & He & Hc' & HQ')]; [left; split; [by auto|done]|right].
  exists b, fs2. auto.
Qed.

Lemma ends_io {A : Type} e fs (op : gmap string (list byte) → A * gmap string (list byte)) (Q : A → Fs → Prop) :
  (∀ rest, Q (op (fs_files fs)).1 (mkFs (op (fs_files fs)).2 (fs_clock fs) rest)) → ends fs (io e fs op) Q.
Proof.
  intros HQ. unfold io, ends, calm. destruct (op (fs_files fs)) as [a files]. cbn in HQ.
  destruct (fs_faults fs) as [|[m|] faults]; [right|left|right].
  - by eexists _, _.
  - split; [done|by eexists].
  - eexists _, _. split; [done|]. by split.
Qed.

(** * What a stream holds *)

(** The bytes written so far: in the file once there is one, else in memory. *)
Definition holds (bytes : list byte) (s : DiskSpillStream) (fs : Fs) : Prop :=
  match ds_file s with
  | Some (path, pos) =>
      ds_temp_path s = Some path ∧ ds_memory_buffer s = [] ∧
      fs_files fs !! path = Some bytes ∧ pos = length bytes
  | None => ds_temp_path s = None ∧ ds_memory_buffer s = bytes
  end.

Lemma write_at_end bs content : write_at (length content) bs content = content ++ bs.
Proof.
  unfold write_at. rewrite take_ge, Nat.sub_diag by lia. cbn [replicate app].
  rewrite drop_ge, app_nil_r by lia. done.
Qed.

Lemma write_to_file_ok s chunk fs bytes h :
  ds_file s = Some h → holds bytes s fs → ends fs (write_to_file s chunk fs) (holds (bytes ++ chunk)).
Proof.
  intros Hf Hh. unfold holds in Hh. rewrite Hf in Hh. destruct h as [path pos]. destruct Hh as (Hp & Hm & Hc & ->).
  unfold write_to_file. rewrite Hf. cbn [ok_or obind]. unfold write_file.
  eapply ends_bind; [apply (ends_io _ _ _ (λ h' fs', h' = (path, (length bytes + length chunk)%nat) ∧ fs_files fs' !! path = Some (bytes ++ chunk)))|].
  - intros rest. split; [done|]. cbn. by rewrite lookup_alter_eq, Hc; cbn; rewrite write_at_end.
  - intros h' fs' [-> Hl]. apply ends_ok; [done|]. unfold holds. cbn. by rewrite length_app.
Qed.

Lemma spill_to_disk_ok s fs bytes :
  ds_file s = None → holds bytes s fs →
  ends fs (spill_to_disk s fs) (λ s' fs', (∃ h, ds_file s' = Some h) ∧ holds bytes s' fs').
Proof.
  intros Hf Hh. unfold holds in Hh. rewrite Hf in Hh. destruct Hh as [_ Hm]. unfold spill_to_disk, create_file, write_file. cbv zeta.
  set (path := ds_temp_dir s +:+ _).
  eapply ends_bind; [apply (ends_io _ _ _ (λ h fs1, h = (path, 0%nat) ∧ fs_files fs1 !! path = Some []))|].
  { intros rest. split; [done|]. cbn. by rewrite lookup_insert_eq. }
  intros h fs1 [-> Hl]. eapply ends_bind; [apply (ends_io _ _ _ (λ h fs2, h = (path, length bytes) ∧ fs_files fs2 !! path = Some bytes))|].
  { intros rest. cbn. rewrite Hm, lookup_alter_eq, Hl. split; [done|]. cbn. f_equal. apply (write_at_end bytes []). }
  intros h fs2 [-> Hl2]. apply ends_ok; [done|]. split; [by eexists|]. by split.
Qed.

Lemma write_chunk_ok s chunk fs bytes : holds bytes s fs → ends fs (write_chunk s chunk fs) (holds (bytes ++ chunk)).
Proof.
  intros Hh. unfold write_chunk. destruct (ds_file s) as [h|] eqn:Hf; [by apply (write_to_file_ok _ _ _ _ h)|].
  cbv zeta. case_if.
  - eapply ends_bind; [by apply (spill_to_disk_ok s fs bytes)|]. cbn beta. intros s' fs' [[h Hf'] Hh'].
    by apply (write_to_file_ok _ _ _ _ h).
  - apply ends_ok; [done|]. unfold holds in *. cbn. rewrite Hf in *. destruct Hh as [Hp <-]. by rewrite Hp.
Qed.

(** The bytes of a writer: what its stream holds and what it still buffers. *)
Definition writer_holds (bytes : list byte) (w : DiskSpillWriter) (fs : Fs) : Prop :=
  ∃ written, holds written (dw_spill w) fs ∧ bytes = written ++ dw_buffer w.

Lemma drain_chunks_ok fuel w fs bytes : writer_holds bytes w fs → ends fs (drain_chunks fuel w fs) (writer_holds bytes).
Proof.
  revert w fs. induction fuel as [|fuel IH]; intros w fs Hw; cbn [drain_chunks]; [by apply ends_ok|].
  case_if; [|by apply ends_ok]. destruct Hw as (written & Hh & ->). cbv zeta.
  eapply ends_bind; [by apply write_chunk_ok|]. cbn beta. intros s' fs' Hh'. apply IH. eexists. split; [exact Hh'|].
  cbn [dw_buffer]. by rewrite <- app_assoc, take_drop.
Qed.

(** The fuel of [write] is enough: it leaves less than one chunk in the buffer. *)
Lemma drain_chunks_short fuel w fs w' fs' :
  (length (dw_buffer w) ≤ fuel)%nat → drain_chunks fuel w fs = Ok (w', fs') → len (dw_buffer w') < WRITE_CHUNK_SIZE.
Proof.
  revert w fs. induction fuel as [|fuel IH]; intros w fs Hl H; cbn [drain_chunks] in H.
  - injection H as <- <-. unfold len, WRITE_CHUNK_SIZE. lia.
  - destruct (Z.leb_spec WRITE_CHUNK_SIZE (len (dw_buffer w))) as [Hle|Hlt]; [|by injection H as <- <-].
    inv_bind H. eapply IH; [|exact H]. cbn [dw_buffer]. rewrite length_drop. unfold len, WRITE_CHUNK_SIZE in *. lia.
Qed.

Lemma spill_write_ok w fs bytes buf : writer_holds bytes w fs → ends fs (spill_write w buf fs) (writer_holds (bytes ++ buf)).
Proof.
  intros (written & Hh & ->). unfold spill_write. apply drain_chunks_ok. exists written. split; [done|]. cbn. by rewrite app_assoc.
Qed.

Lemma spill_flush_ok w fs bytes : writer_holds bytes w fs → ends fs (spill_flush w fs) (λ w', holds bytes (dw_spill w')).
Proof.
  intros (written & Hh & ->). unfold spill_flush. destruct (Z.eqb_spec (len (dw_buffer w)) 0) as [Hz|_].
  - apply ends_ok; [done|]. destruct (dw_buffer w) as [|x b]; [by rewrite app_nil_r|].
    rewrite len_cons in Hz. pose proof (len_nonneg b). lia.
  - eapply ends_bind; [by apply write_chunk_ok|]. intros s fs' Hh'. by apply ends_ok.
Qed.

(** What a finished stream gives: the bytes, or the path of a file with them. *)
Definition source_holds (bytes : list byte) (src : SpillReadSource) (fs : Fs) : Prop :=
  match src with
  | SpillMemory data => data = bytes
  | SpillFile path => fs_files fs !! path = Some bytes
  end.

Lemma flush_file_ok s fs bytes (k : Fs → Result (SpillReadSource * Fs)) Q :
  holds bytes s fs → (∀ fs', holds bytes s fs' → ends fs' (k fs') Q) → ends fs (obind (flush_file s fs) k) Q.
Proof.
  intros Hh Hk. unfold flush_file. destruct (ds_file s) as [h|] eqn:Hf; [|by apply Hk].
  rewrite obind_assoc. eapply ends_bind; [apply (ends_io _ _ _ (λ _ fs', holds bytes s fs'))|].
  - intros rest. unfold holds in *. by rewrite Hf in *.
  - intros u fs' Hh'. by apply Hk.
Qed.

Lemma finish_ok s fs bytes : holds bytes s fs → ends fs (finish_for_streaming_read s fs) (source_holds bytes).
Proof.
  intros Hh. unfold finish_for_streaming_read. apply (flush_file_ok _ _ bytes); [done|]. intros fs' Hh'. unfold holds in Hh'.
  destruct (ds_file s) as [[path pos]|]; [destruct Hh' as (-> & _ & Hc & _)|destruct Hh' as [-> Hm]]; by apply ends_ok.
Qed.

Lemma spill_new_holds dir mb fs : holds [] (spill_new dir mb) fs.
Proof. by split. Qed.
