(* ===== verification/BulkInsert.v ===== *)
(** Bulk-insert payloads (protocol/bulk_insert.rs): the columnar request a client
    sends for an array insert, its parser with all its limits, and its writer. *)

From S2P Require Import Prelude Wire Errors.

Definition MAX_BULK_COLUMNS : Z := 4096.
Definition MAX_BULK_ROWS : Z := 10000000.
Definition MAX_BULK_CELL_LEN : Z := 16 * 1024 * 1024.

Inductive BulkColumnType := BtI32 | BtI64 | BtText | BtDecimal | BtBinary | BtTimestamp.

#[export] Instance BulkColumnType_eq_dec : EqDecision BulkColumnType.
Proof. solve_decision. Defined.

Definition bulk_from_tag (tag : Z) : Result BulkColumnType :=
  match tag with
  | 0 => Ok BtI32
  | 1 => Ok BtI64
  | 2 => Ok BtText
  | 3 => Ok BtDecimal
  | 4 => Ok BtBinary
  | 5 => Ok BtTimestamp
  | _ => Err (ValidationError ("Unknown bulk column type tag: " +:+ fmt_Z tag))
  end.

Definition bulk_to_tag (t : BulkColumnType) : Z :=
  match t with
  | BtI32 => 0 | BtI64 => 1 | BtText => 2 | BtDecimal => 3 | BtBinary => 4 | BtTimestamp => 5
  end.

Record BulkColumnSpec := mkSpec {
  bs_name : string;
  bs_type : BulkColumnType;
  bs_nullable : bool;
  bs_max_len : Z
}.

Record BulkTimestamp := mkTimestamp {
  ts_year : Z; ts_month : Z; ts_day : Z; ts_hour : Z; ts_minute : Z; ts_second : Z; ts_fraction : Z
}.

(** The cells of a column, without the null bitmap every case carries. *)
Inductive BulkCells :=
| CI32 (values : list Z)
| CI64 (values : list Z)
| CText (rows : list (list byte)) (max_len : Z)
| CBinary (rows : list (list byte)) (max_len : Z)
| CTimestamp (values : list BulkTimestamp).

(** [BulkColumnData] *)
Record BulkColumnData := mkColData { bc_cells : BulkCells; bc_null_bitmap : option (list byte) }.

Record BulkInsertPayload := mkPayload {
  bp_table : string;
  bp_columns : list BulkColumnSpec;
  bp_row_count : Z;
  bp_column_data : list BulkColumnData
}.

#[export] Instance BulkColumnSpec_eq_dec : EqDecision BulkColumnSpec.
Proof. solve_decision. Defined.
#[export] Instance BulkTimestamp_eq_dec : EqDecision BulkTimestamp.
Proof. solve_decision. Defined.
#[export] Instance BulkCells_eq_dec : EqDecision BulkCells.
Proof. solve_decision. Defined.
#[export] Instance BulkColumnData_eq_dec : EqDecision BulkColumnData.
Proof. solve_decision. Defined.
#[export] Instance BulkInsertPayload_eq_dec : EqDecision BulkInsertPayload.
Proof. solve_decision. Defined.

(** * Reading *)

Definition read_u32_le (data : list byte) (offset : nat) : Result (Z * nat) :=
  if saturating_sub (len data) (Z.of_nat offset) <? 4 then
    Err (ValidationError "Bulk insert payload truncated (u32)")
  else let? v := le_at 4 data offset in Ok (v, (offset + 4)%nat).

Definition read_bytes (data : list byte) (offset : nat) (n : Z) : Result (list byte * nat) :=
  if saturating_sub (len data) (Z.of_nat offset) <? n then
    Err (ValidationError "Bulk insert payload truncated (bytes)")
  else
    let n := Z.to_nat n in
    let? s := slice data offset (offset + n) in Ok (s, (offset + n)%nat).

Definition null_bitmap_size (n : Z) : Z := div_ceil n 8.

(** [(bitmap[row / 8] & (1u8 << (row % 8))) != 0] *)
Definition bit_set (b : byte) (row : Z) : bool := negb (Z.land (b2z b) (Z.shiftl 1 (row mod 8)) =? 0).

Definition is_null (bitmap : list byte) (row : Z) : Result bool :=
  if len bitmap <=? row / 8 then Ok false
  else let? b := index bitmap (Z.to_nat (row / 8)) in Ok (bit_set b row).

Definition is_null_strict (bitmap : list byte) (row row_count : Z) : Result bool :=
  if row_count <=? row then
    Err (MalformedPayload ("row index " +:+ fmt_Z row +:+ " out of range (row_count=" +:+ fmt_Z row_count +:+ ")"))
  else if len bitmap <=? row / 8 then
    Err (MalformedPayload ("null bitmap truncated: byte index " +:+ fmt_Z (row / 8) +:+ " out of range (len=" +:+ fmt_Z (len bitmap) +:+ ")"))
  else let? b := index bitmap (Z.to_nat (row / 8)) in Ok (bit_set b row).

(** One turn of the column-spec loop. *)
Definition parse_spec (data : list byte) (o : nat) : Result (BulkColumnSpec * nat) :=
  let? '(name_len, o) := read_u32_le data o in
  let? '(name_bytes, o) := read_bytes data o name_len in
  let? name := ok_or (from_utf8 name_bytes) (ValidationError "Bulk insert column name invalid UTF-8") in
  if (length data <=? o)%nat then Err (ValidationError "Bulk insert payload truncated (column spec)")
  else
    let? type_tag := index data o in
    let o := (o + 1)%nat in
    if (length data <=? o)%nat then Err (ValidationError "Bulk insert payload truncated (nullable)")
    else
      let? nb := index data o in
      let nullable := negb (b2z nb =? 0) in
      let o := (o + 1)%nat in
      let? '(max_len, o) := read_u32_le data o in
      if MAX_BULK_CELL_LEN <? max_len then
        Err (ResourceLimitReached ("max_len " +:+ fmt_Z max_len +:+ " exceeds MAX_BULK_CELL_LEN=" +:+ fmt_Z MAX_BULK_CELL_LEN))
      else
        let? col_type := bulk_from_tag (b2z type_tag) in
        Ok (mkSpec name col_type nullable max_len, o).

Definition read_null_bitmap (data : list byte) (o : nat) (nullable : bool) (row_count : Z) :
    Result (option (list byte) * nat) :=
  if negb nullable then Ok (None, o)
  else
    let expected := null_bitmap_size row_count in
    let? '(bytes, o) := read_bytes data o expected in
    if negb (len bytes =? expected) then
      Err (MalformedPayload ("null bitmap length mismatch: expected " +:+ fmt_Z expected +:+ ", got " +:+ fmt_Z (len bytes)))
    else Ok (Some bytes, o).

(** The turns of the value loops, by column type. *)
Definition read_i32 (data : list byte) (o : nat) : Result (Z * nat) :=
  let? '(v, o) := read_u32_le data o in Ok (to_signed 32 v, o).

Definition read_i64 (data : list byte) (o : nat) : Result (Z * nat) :=
  if saturating_sub (len data) (Z.of_nat o) <? 8 then
    Err (ValidationError "Bulk insert payload truncated (i64)")
  else let? v := le_at 8 data o in Ok (to_signed 64 v, (o + 8)%nat).

(** [v.truncate] at the first zero byte. *)
Fixpoint truncate_at_nul (v : list byte) : list byte :=
  match v with
  | [] => []
  | b :: v => if b2z b =? 0 then [] else b :: truncate_at_nul v
  end.

Definition read_padded (data : list byte) (max_len : Z) (o : nat) : Result (list byte * nat) :=
  let? '(raw, o) := read_bytes data o max_len in Ok (truncate_at_nul raw, o).

Definition read_timestamp (data : list byte) (o : nat) : Result (BulkTimestamp * nat) :=
  if saturating_sub (len data) (Z.of_nat o) <? 16 then
    Err (ValidationError "Bulk insert payload truncated (timestamp)")
  else
    let? year := le_at 2 data o in
    let? month := le_at 2 data (o + 2) in
    let? day := le_at 2 data (o + 4) in
    let? hour := le_at 2 data (o + 6) in
    let? minute := le_at 2 data (o + 8) in
    let? second := le_at 2 data (o + 10) in
    let? fraction := le_at 4 data (o + 12) in
    Ok (mkTimestamp (to_signed 16 year) month day hour minute second fraction, (o + 16)%nat).

Definition parse_column_data (data : list byte) (start : nat) (spec : BulkColumnSpec) (row_count : Z) :
    Result (BulkColumnData * nat) :=
  let n := Z.to_nat row_count in
  let? '(null_bitmap, o) := read_null_bitmap data start (bs_nullable spec) row_count in
  let? '(cells, o) :=
    match bs_type spec with
    | BtI32 => let? '(values, o) := read_n (read_i32 data) n o in Ok (CI32 values, o)
    | BtI64 => let? '(values, o) := read_n (read_i64 data) n o in Ok (CI64 values, o)
    | BtText | BtDecimal =>
        let max_len := Z.max (bs_max_len spec) 1 in
        let? '(rows, o) := read_n (read_padded data max_len) n o in Ok (CText rows max_len, o)
    | BtBinary =>
        let max_len := Z.max (bs_max_len spec) 1 in
        let? '(rows, o) := read_n (read_padded data max_len) n o in Ok (CBinary rows max_len, o)
    | BtTimestamp => let? '(values, o) := read_n (read_timestamp data) n o in Ok (CTimestamp values, o)
    end in
  Ok (mkColData cells null_bitmap, (o - start)%nat).

(** The loop over the column data. *)
Fixpoint parse_columns (data : list byte) (row_count : Z) (specs : list BulkColumnSpec) (o : nat) :
    Result (list BulkColumnData * nat) :=
  match specs with
  | [] => Ok ([], o)
  | spec :: specs =>
      let? '(col, consumed) := parse_column_data data o spec row_count in
      let? '(cols, o) := parse_columns data row_count specs (o + consumed)%nat in
      Ok (col :: cols, o)
  end.

Definition parse_bulk_insert_payload (data : list byte) : Result BulkInsertPayload :=
  let? '(table_len, o) := read_u32_le data 0 in
  let? '(table_bytes, o) := read_bytes data o table_len in
  let? table := ok_or (from_utf8 table_bytes) (ValidationError "Bulk insert table name invalid UTF-8") in
  let? '(col_count, o) := read_u32_le data o in
  if MAX_BULK_COLUMNS <? col_count then
    Err (ResourceLimitReached ("column count " +:+ fmt_Z col_count +:+ " exceeds MAX_BULK_COLUMNS=" +:+ fmt_Z MAX_BULK_COLUMNS))
  else
    let? '(columns, o) := read_n (parse_spec data) (Z.to_nat col_count) o in
    let? '(row_count, o) := read_u32_le data o in
    if MAX_BULK_ROWS <? row_count then
      Err (ResourceLimitReached ("row count " +:+ fmt_Z row_count +:+ " exceeds MAX_BULK_ROWS=" +:+ fmt_Z MAX_BULK_ROWS))
    else
      let? '(column_data, o) := parse_columns data row_count columns o in
      if negb (Nat.eqb o (length data)) then Err (ValidationError "Bulk insert payload length mismatch")
      else Ok (mkPayload table columns row_count column_data).

(** * Writing *)

Definition len_to_u32 (n : Z) (what : string) : Result Z :=
  if n <=? 2 ^ 32 - 1 then Ok n
  else Err (MalformedPayload (what +:+ " length " +:+ fmt_Z n +:+ " does not fit in u32 (max " +:+ fmt_Z (2 ^ 32 - 1) +:+ ")")).

(** One turn of the column-spec loop of the writer. *)
Definition serialize_spec (out : list byte) (spec : BulkColumnSpec) : Result (list byte) :=
  let name_b := as_bytes (bs_name spec) in
  let? n := len_to_u32 (len name_b) "column name" in
  let out := out ++ le_bytes 4 n ++ name_b ++ [z2b (bulk_to_tag (bs_type spec))]
             ++ [if bs_nullable spec then z2b 1 else z2b 0] in
  if MAX_BULK_CELL_LEN <? bs_max_len spec then
    Err (ResourceLimitReached ("max_len " +:+ fmt_Z (bs_max_len spec) +:+ " exceeds MAX_BULK_CELL_LEN=" +:+ fmt_Z MAX_BULK_CELL_LEN))
  else
    let? m := len_to_u32 (bs_max_len spec) "max_len" in
    Ok (out ++ le_bytes 4 m).

(** A cell cut or zero-padded to [max_len] bytes. *)
Definition pad_cell (max_len : Z) (row : list byte) : list byte :=
  let n := Z.to_nat max_len in
  take n row ++ replicate (n - length row) x00.

Definition enc_timestamp (t : BulkTimestamp) : list byte :=
  le_bytes 2 (ts_year t) ++ le_bytes 2 (ts_month t) ++ le_bytes 2 (ts_day t) ++ le_bytes 2 (ts_hour t)
    ++ le_bytes 2 (ts_minute t) ++ le_bytes 2 (ts_second t) ++ le_bytes 4 (ts_fraction t).

Definition bitmap_bytes (bm : option (list byte)) : list byte := match bm with Some b => b | None => [] end.

Definition enc_cells (c : BulkCells) : list byte :=
  match c with
  | CI32 values => encode_list (le_bytes 4) values
  | CI64 values => encode_list (le_bytes 8) values
  | CText rows max_len | CBinary rows max_len => encode_list (pad_cell max_len) rows
  | CTimestamp values => encode_list enc_timestamp values
  end.

(** The data of a column and the type of its spec agree. *)
Definition cells_match (c : BulkCells) (t : BulkColumnType) : bool :=
  match c, t with
  | CI32 _, BtI32 | CI64 _, BtI64 | CText _ _, BtText | CText _ _, BtDecimal
  | CBinary _ _, BtBinary | CTimestamp _, BtTimestamp => true
  | _, _ => false
  end.

Definition serialize_column_data (out : list byte) (spec : BulkColumnSpec) (data : BulkColumnData) : Result (list byte) :=
  if cells_match (bc_cells data) (bs_type spec) then
    Ok (out ++ bitmap_bytes (bc_null_bitmap data) ++ enc_cells (bc_cells data))
  else Err (ValidationError "Bulk column data does not match spec").

Definition serialize_bulk_insert_payload (p : BulkInsertPayload) : Result (list byte) :=
  if MAX_BULK_COLUMNS <? len (bp_columns p) then
    Err (ResourceLimitReached ("column count " +:+ fmt_Z (len (bp_columns p)) +:+ " exceeds MAX_BULK_COLUMNS=" +:+ fmt_Z MAX_BULK_COLUMNS))
  else if MAX_BULK_ROWS <? bp_row_count p then
    Err (ResourceLimitReached ("row count " +:+ fmt_Z (bp_row_count p) +:+ " exceeds MAX_BULK_ROWS=" +:+ fmt_Z MAX_BULK_ROWS))
  else
    let table_b := as_bytes (bp_table p) in
    let? n := len_to_u32 (len table_b) "table name" in
    let out := le_bytes 4 n ++ table_b in
    let? c := len_to_u32 (len (bp_columns p)) "column count" in
    let? out := ofold serialize_spec (bp_columns p) (out ++ le_bytes 4 c) in
    let out := out ++ le_bytes 4 (bp_row_count p) in
    ofold (λ out '(spec, data), serialize_column_data out spec data)
      (combine (bp_columns p) (bp_column_data p)) out.

(** * What a parsed payload satisfies *)

Definition spec_wf (s : BulkColumnSpec) : Prop :=
  str_wf (bs_name s) ∧ len (as_bytes (bs_name s)) < 2 ^ 32 ∧ 0 ≤ bs_max_len s ≤ MAX_BULK_CELL_LEN.

Definition timestamp_wf (t : BulkTimestamp) : Prop :=
  i16_range (ts_year t) ∧ u16_range (ts_month t) ∧ u16_range (ts_day t) ∧ u16_range (ts_hour t) ∧
  u16_range (ts_minute t) ∧ u16_range (ts_second t) ∧ u32_range (ts_fraction t).

(** The cells have the type, the number and the widths the spec announces. *)
Definition cells_fit (s : BulkColumnSpec) (n : nat) (c : BulkCells) : Prop :=
  cells_match c (bs_type s) = true ∧
  match c with
  | CI32 vs => length vs = n ∧ Forall i32_range vs
  | CI64 vs => length vs = n ∧ Forall i64_range vs
  | CText rows m | CBinary rows m =>
      length rows = n ∧ m = Z.max (bs_max_len s) 1 ∧ Forall (λ r : list byte, len r ≤ m) rows
  | CTimestamp vs => length vs = n ∧ Forall timestamp_wf vs
  end.

(** A bitmap is there exactly for nullable columns, one bit per row. *)
Definition bitmap_fit (s : BulkColumnSpec) (row_count : Z) (bm : option (list byte)) : Prop :=
  match bm with
  | Some b => bs_nullable s = true ∧ len b = null_bitmap_size row_count
  | None => bs_nullable s = false
  end.

Definition col_fit (row_count : Z) (s : BulkColumnSpec) (d : BulkColumnData) : Prop :=
  cells_fit s (Z.to_nat row_count) (bc_cells d) ∧ bitmap_fit s row_count (bc_null_bitmap d).

Record payload_fit (p : BulkInsertPayload) : Prop := {
  pf_table : str_wf (bp_table p);
  pf_table_len : len (as_bytes (bp_table p)) < 2 ^ 32;
  pf_cols : len (bp_columns p) ≤ MAX_BULK_COLUMNS;
  pf_specs : Forall spec_wf (bp_columns p);
  pf_rows : 0 ≤ bp_row_count p ≤ MAX_BULK_ROWS;
  pf_data : Forall2 (col_fit (bp_row_count p)) (bp_columns p) (bp_column_data p)
}.

(** No variable-length cell holds a zero byte. *)
Definition no_nul (r : list byte) : Prop := Forall (λ b, b2z b ≠ 0) r.

Definition cells_no_nul (c : BulkCells) : Prop :=
  match c with CText rows _ | CBinary rows _ => Forall no_nul rows | _ => True end.

Definition payload_no_nul (p : BulkInsertPayload) : Prop :=
  Forall (λ d, cells_no_nul (bc_cells d)) (bp_column_data p).

(** ** Readers on arbitrary bytes *)

Lemma read_u32_le_no_panic data o : read_u32_le data o ≠ Panic.
Proof.
  unfold read_u32_le, saturating_sub, len. destruct (Z.ltb_spec (Z.max 0 (Z.of_nat (length data) - Z.of_nat o)) 4); [done|].
  apply obind_no_panic; [auto with odbc|done].
Qed.

Lemma read_u32_le_inv data o v o' :
  read_u32_le data o = Ok (v, o') → u32_range v ∧ o' = (o + 4)%nat ∧ (o' ≤ length data)%nat.
Proof.
  unfold read_u32_le. intros H. case_if_in H; [done|]. inv_bind H. injection H as <- <-.
  by apply le_at_inv in Ha as [? ?].
Qed.

Lemma read_bytes_no_panic data o n : (o ≤ length data)%nat → read_bytes data o n ≠ Panic.
Proof.
  intros Ho. unfold read_bytes, saturating_sub, len.
  destruct (Z.ltb_spec (Z.max 0 (Z.of_nat (length data) - Z.of_nat o)) n); [done|].
  apply obind_no_panic; [auto with odbc|done].
Qed.

Lemma read_bytes_inv data o n x o' :
  0 ≤ n → read_bytes data o n = Ok (x, o') → len x = n ∧ o' = (o + Z.to_nat n)%nat ∧ (o' ≤ length data)%nat.
Proof.
  intros Hn. unfold read_bytes. intros H. case_if_in H; [done|]. inv_bind H. injection H as <- <-.
  pose proof (slice_length _ _ _ _ Ha) as Hl. apply slice_inv in Ha as [? _]. unfold len. lia.
Qed.

#[local] Hint Resolve read_u32_le_no_panic : odbc.
#[local] Hint Extern 1 (read_bytes _ _ _ ≠ Panic) => (apply read_bytes_no_panic; lia) : odbc.

(** Peel a read off a "no panic" goal, or off a successful run. *)
Ltac np_step tac := apply obind_no_panic; [solve [auto with odbc]|]; tac.

Lemma parse_spec_no_panic data o : parse_spec data o ≠ Panic.
Proof.
  unfold parse_spec. np_step ltac:(intros [n o1] (? & ? & ?)%read_u32_le_inv).
  np_step ltac:(intros [nb o2] Hb). np_step ltac:(intros name _).
  destruct (Nat.leb_spec (length data) o2); [done|]. np_step ltac:(intros tag _).
  destruct (Nat.leb_spec (length data) (o2 + 1)); [done|]. np_step ltac:(intros b _).
  np_step ltac:(intros [m o3] _). case_if; [done|].
  apply obind_no_panic; [|done]. unfold bulk_from_tag. destruct (b2z tag) as [|[[[]|[]|]|[[]|[]|]|]|]; done.
Qed.

Lemma parse_spec_inv data o s o' : parse_spec data o = Ok (s, o') → spec_wf s ∧ (o' ≤ length data)%nat.
Proof.
  unfold parse_spec. intros H. inv_bind H. inv_bind H. inv_bind H.
  destruct (Nat.leb_spec (length data) o1); [done|]. inv_bind H.
  destruct (Nat.leb_spec (length data) (o1 + 1)); [done|]. inv_bind H. inv_bind H.
  case_if_in H; [done|]. inv_bind H. injection H as <- <-.
  apply read_u32_le_inv in Ha as (Hx & -> & ?). unfold u32_range in Hx.
  apply read_bytes_inv in Ha0 as (Hl & _ & _); [|lia].
  destruct (from_utf8 x0) as [nm|] eqn:Hu; [|done]. injection Ha1 as <-.
  apply from_utf8_Some in Hu as [Hu ?]. apply read_u32_le_inv in Ha4 as (? & -> & ?).
  split; [|lia]. unfold spec_wf. cbn [bs_name bs_max_len]. rewrite Hu. bool_to_prop.
  unfold u32_range in *. repeat split; (done || lia).
Qed.

Lemma read_null_bitmap_no_panic data o nl n : (o ≤ length data)%nat → read_null_bitmap data o nl n ≠ Panic.
Proof.
  intros Ho. unfold read_null_bitmap. case_if; [done|]. np_step ltac:(intros [b o1] _). by case_if.
Qed.

Lemma null_bitmap_size_nonneg n : 0 ≤ n → 0 ≤ null_bitmap_size n.
Proof. intros H. unfold null_bitmap_size, div_ceil. apply Z.div_pos; lia. Qed.

Lemma read_null_bitmap_inv data o s n bm o' :
  0 ≤ n → (o ≤ length data)%nat → read_null_bitmap data o (bs_nullable s) n = Ok (bm, o') →
  bitmap_fit s n bm ∧ (o ≤ o' ≤ length data)%nat.
Proof.
  intros Hn Ho. unfold read_null_bitmap. destruct (bs_nullable s) eqn:Hnl; cbn [negb]; intros H.
  - inv_bind H. case_if_in H; [done|]. injection H as <- <-.
    apply read_bytes_inv in Ha as (Hl & -> & ?); [|by apply null_bitmap_size_nonneg].
    split; [done|lia].
  - injection H as <- <-. split; [done|lia].
Qed.

(** ** Value readers: each gives a value within its type and moves forward *)

Lemma truncate_at_nul_no_nul v : no_nul (truncate_at_nul v).
Proof.
  unfold no_nul. induction v as [|b v IH]; cbn [truncate_at_nul]; [done|].
  destruct (Z.eqb_spec (b2z b) 0); [done|]. by constructor.
Qed.

Lemma truncate_at_nul_len v : (length (truncate_at_nul v) ≤ length v)%nat.
Proof. induction v as [|b v IH]; cbn [truncate_at_nul]; [lia|]. case_if; simpl; lia. Qed.

Lemma truncate_at_nul_id v k : no_nul v → truncate_at_nul (v ++ replicate k x00) = v.
Proof.
  unfold no_nul. induction 1 as [|b v Hb _ IH]; cbn [app truncate_at_nul].
  - by destruct k.
  - destruct (Z.eqb_spec (b2z b) 0); [done|]. by rewrite IH.
Qed.

Lemma read_i32_inv data o v o' : read_i32 data o = Ok (v, o') → i32_range v ∧ (o' ≤ length data)%nat.
Proof.
  unfold read_i32. intros H. inv_bind H. injection H as <- <-.
  apply read_u32_le_inv in Ha as (? & -> & ?). split; [by apply (to_signed_range 32)|done].
Qed.

Lemma read_i64_inv data o v o' : read_i64 data o = Ok (v, o') → i64_range v ∧ (o' ≤ length data)%nat.
Proof.
  unfold read_i64. intros H. case_if_in H; [done|]. inv_bind H. injection H as <- <-.
  apply le_at_inv in Ha as [? ?]. split; [by apply (to_signed_range 64)|done].
Qed.

Lemma read_padded_inv data m o v o' :
  0 ≤ m → read_padded data m o = Ok (v, o') → len v ≤ m ∧ no_nul v ∧ (o' ≤ length data)%nat.
Proof.
  intros Hm. unfold read_padded. intros H. inv_bind H. injection H as <- <-.
  apply read_bytes_inv in Ha as (Hl & -> & ?); [|done]. pose proof (truncate_at_nul_len x).
  unfold len in *. split; [lia|]. split; [apply truncate_at_nul_no_nul|done].
Qed.

Lemma read_timestamp_inv data o v o' :
  read_timestamp data o = Ok (v, o') → timestamp_wf v ∧ (o' ≤ length data)%nat.
Proof.
  unfold read_timestamp. intros H. case_if_in H; [done|].
  do 7 inv_bind H. injection H as <- <-.
  apply le_at_inv in Ha as [_ ?], Ha0 as [_ ?], Ha1 as [_ ?], Ha2 as [_ ?], Ha3 as [_ ?], Ha4 as [_ ?], Ha5 as [? ?].
  split; [|lia]. unfold timestamp_wf; cbn [ts_year ts_month ts_day ts_hour ts_minute ts_second ts_fraction].
  split; [by apply (to_signed_range 16)|]. unfold u16_range, u32_range in *. simpl in *. repeat split; lia.
Qed.

(** ** A value loop, whatever its type *)

Lemma read_values {A : Type} (step : nat → Result (A * nat)) (P : A → Prop) (L : nat) n o :
  (∀ o, (o ≤ L)%nat → step o ≠ Panic) →
  (∀ o v o', step o = Ok (v, o') → P v ∧ (o' ≤ L)%nat) → (o ≤ L)%nat →
  read_n step n o ≠ Panic ∧
  (∀ xs o', read_n step n o = Ok (xs, o') → length xs = n ∧ Forall P xs ∧ (o' ≤ L)%nat).
Proof.
  intros Hnp Hv Ho. split.
  - apply (read_n_no_panic_inv _ (λ o, o ≤ L)%nat); [done| |done]. intros o1 x o2 H. by apply Hv in H as [_ ?].
  - intros xs o' H. split; [by eapply read_n_length|]. split.
    + revert H. apply read_n_Forall. intros o1 x o2 H. by apply Hv in H as [? _].
    + revert H. apply (read_n_bound _ (λ o, o ≤ L)%nat); [|done]. intros o1 x o2 _ H. by apply Hv in H as [_ ?].
Qed.

Lemma read_i32_no_panic data o : read_i32 data o ≠ Panic.
Proof. unfold read_i32. np_step ltac:(intros [v o1] _). done. Qed.

Lemma read_i64_no_panic data o : read_i64 data o ≠ Panic.
Proof.
  unfold read_i64, saturating_sub, len.
  destruct (Z.ltb_spec (Z.max 0 (Z.of_nat (length data) - Z.of_nat o)) 8); [done|].
  apply obind_no_panic; [auto with odbc|done].
Qed.

Lemma read_padded_no_panic data m o : (o ≤ length data)%nat → read_padded data m o ≠ Panic.
Proof. intros Ho. unfold read_padded. np_step ltac:(intros [v o1] _). done. Qed.

Lemma read_timestamp_no_panic data o : read_timestamp data o ≠ Panic.
Proof.
  unfold read_timestamp, saturating_sub, len.
  destruct (Z.ltb_spec (Z.max 0 (Z.of_nat (length data) - Z.of_nat o)) 16); [done|].
  do 7 (apply obind_no_panic; [solve [auto with odbc]|intros ? _]). done.
Qed.

Lemma parse_column_data_spec data o s n :
  0 ≤ n → (o ≤ length data)%nat →
  parse_column_data data o s n ≠ Panic ∧
  ∀ d k, parse_column_data data o s n = Ok (d, k) → col_fit n s d ∧ (o + k ≤ length data)%nat.
Proof.
  intros Hn Ho. unfold parse_column_data.
  destruct (read_null_bitmap data o (bs_nullable s) n) as [[bm o1]|e|] eqn:Hb; cbn [obind]; [|by split|].
  2: { by destruct (read_null_bitmap_no_panic data o (bs_nullable s) n Ho). }
  apply read_null_bitmap_inv in Hb as (Hbm & Ho1 & Ho1'); [|done..].
  pose proof (read_values (read_i32 data) i32_range (length data) (Z.to_nat n) o1
    (λ o _, read_i32_no_panic data o) (λ o v o', read_i32_inv data o v o') Ho1') as H32.
  pose proof (read_values (read_i64 data) i64_range (length data) (Z.to_nat n) o1
    (λ o _, read_i64_no_panic data o) (λ o v o', read_i64_inv data o v o') Ho1') as H64.
  pose proof (read_values (read_padded data (Z.max (bs_max_len s) 1)) (λ r, len r ≤ Z.max (bs_max_len s) 1)
    (length data) (Z.to_nat n) o1 (λ o, read_padded_no_panic data _ o)
    ltac:(intros o2 v o3 (? & _ & ?)%read_padded_inv; [done|lia]) Ho1') as Hpad.
  pose proof (read_values (read_timestamp data) timestamp_wf (length data) (Z.to_nat n) o1
    (λ o _, read_timestamp_no_panic data o) (λ o v o', read_timestamp_inv data o v o') Ho1') as Hts.
  unfold col_fit, cells_fit.
  destruct (bs_type s);
    match goal with |- context [read_n ?f _ o1] =>
      match goal with H : read_n f _ o1 ≠ Panic ∧ _ |- _ =>
        destruct H as [Hnp Hinv]; destruct (read_n f (Z.to_nat n) o1) as [[xs o2]|e|]; cbn [obind]; [|by split|done];
        destruct (Hinv xs o2 eq_refl) as (? & ? & ?)
      end
    end; (split; [done|]); intros d k [= <- <-]; cbn [bc_cells bc_null_bitmap];
    (split; [|lia]); split; try done; split; try done.
Qed.

Lemma parse_columns_spec data n specs o :
  0 ≤ n → (o ≤ length data)%nat →
  parse_columns data n specs o ≠ Panic ∧
  ∀ cols o', parse_columns data n specs o = Ok (cols, o') → Forall2 (col_fit n) specs cols ∧ (o' ≤ length data)%nat.
Proof.
  intros Hn. revert o. induction specs as [|s specs IH]; intros o Ho; cbn [parse_columns].
  - split; [done|]. intros cols o' [= <- <-]. split; [constructor|done].
  - destruct (parse_column_data_spec data o s n Hn Ho) as [Hnp Hinv].
    destruct (parse_column_data data o s n) as [[d k]|e|]; cbn [obind]; [|by split|done].
    destruct (Hinv d k eq_refl) as [Hd Hk]. destruct (IH (o + k)%nat Hk) as [Hnp' Hinv'].
    destruct (parse_columns data n specs (o + k)) as [[cs o2]|e|]; cbn [obind]; [|by split|done].
    destruct (Hinv' cs o2 eq_refl). split; [done|]. intros cols o' [= <- <-]. by split; [constructor|].
Qed.

(** On any bytes the parser returns without a panic, and a payload it accepts
    is within every limit, has one column of data per column spec, of the spec's
    type, width and row count, and a bitmap of one bit per row exactly for the
    nullable columns. *)
Theorem parse_bulk_total (data : list byte) :
  (∃ e, parse_bulk_insert_payload data = Err e) ∨
  (∃ p, parse_bulk_insert_payload data = Ok p ∧ payload_fit p).
Proof.
  destruct (parse_bulk_insert_payload data) as [p|e|] eqn:H; [right|left; by eexists|exfalso].
  - exists p. split; [done|]. unfold parse_bulk_insert_payload in H.
    inv_bind H. inv_bind H. inv_bind H. inv_bind H. case_if_in H; [done|].
    inv_bind H. inv_bind H. case_if_in H; [done|]. inv_bind H. case_if_in H; [done|]. injection H as <-.
    apply read_u32_le_inv in Ha as (Hx & -> & ?). unfold u32_range in *.
    apply read_bytes_inv in Ha0 as (Hl & -> & ?); [|lia].
    destruct (from_utf8 x0) as [t|] eqn:Hu; [|done]. injection Ha1 as <-. apply from_utf8_Some in Hu as [Hu ?].
    apply read_u32_le_inv in Ha2 as (Hx1 & -> & ?), Ha4 as (Hx3 & -> & ?). unfold u32_range in *. bool_to_prop.
    pose proof (read_n_length _ _ _ _ _ Ha3) as Hcl.
    apply (read_n_Forall _ spec_wf) in Ha3; [|intros o s o' Hs; by apply parse_spec_inv in Hs as [? _]].
    edestruct (parse_columns_spec data x3 x2) as [_ Hcols]; [| |apply Hcols in Ha5 as [? _]]; [lia|eassumption|].
    split; cbn [bp_table bp_columns bp_row_count bp_column_data]; rewrite ?Hu; try done; unfold len in *; lia.
  - revert H. unfold parse_bulk_insert_payload.
    np_step ltac:(intros [n o1] (? & -> & ?)%read_u32_le_inv). unfold u32_range in *.
    np_step ltac:(intros [tb o2] (? & -> & ?)%read_bytes_inv; [|lia]). np_step ltac:(intros t _).
    np_step ltac:(intros [c o3] (? & -> & ?)%read_u32_le_inv). case_if; [done|].
    apply obind_no_panic; [apply read_n_no_panic, parse_spec_no_panic|]. intros [specs o4] _.
    np_step ltac:(intros [r o5] (Hr & -> & ?)%read_u32_le_inv). case_if; [done|]. unfold u32_range in Hr.
    apply obind_no_panic; [apply parse_columns_spec; lia|]. intros [cols o6] _. by case_if.
Qed.

(** ** Null bits *)

Lemma bit_set_testbit b row : 0 ≤ row → bit_set b row = Z.testbit (b2z b) (row mod 8).
Proof.
  intros Hr. pose proof (Z.mod_pos_bound row 8 ltac:(lia)) as Hm. unfold bit_set.
  destruct (Z.testbit (b2z b) (row mod 8)) eqn:Ht.
  - apply negb_true_iff, Z.eqb_neq. intros H0. apply (f_equal (λ z, Z.testbit z (row mod 8))) in H0.
    rewrite Z.land_spec, Ht, Z.shiftl_spec, Z.sub_diag, Z.bits_0 in H0 by lia. done.
  - apply negb_false_iff, Z.eqb_eq, Z.bits_inj'. intros i Hi. rewrite Z.land_spec, Z.bits_0.
    destruct (Z.eqb_spec i (row mod 8)) as [->|Hne]; [by rewrite Ht|].
    rewrite Z.shiftl_spec by lia. rewrite andb_comm.
    destruct (Z.ltb_spec i (row mod 8)); [by rewrite Z.testbit_neg_r by lia|].
    replace (i - row mod 8) with (Z.succ (i - row mod 8 - 1)) by lia.
    change 1 with (2 * 0 + 1). rewrite Z.testbit_odd_succ by lia. by rewrite Z.bits_0.
Qed.

(** The bitmap read as one little-endian number: bit [row] is the byte the code
    picks, at the position it picks. *)
Lemma le_val_testbit bs row :
  0 ≤ row < 8 * len bs →
  ∃ b, bs !! Z.to_nat (row / 8) = Some b ∧ Z.testbit (le_val bs) row = Z.testbit (b2z b) (row mod 8).
Proof.
  revert row. induction bs as [|b bs IH]; intros row Hr; [unfold len in Hr; simpl in Hr; lia|].
  rewrite len_cons in Hr. rewrite le_val_cons. pose proof (b2z_range b) as Hb.
  destruct (Z.ltb_spec row 8) as [Hlt|Hge].
  - exists b. rewrite Z.div_small, Z.mod_small by lia. split; [done|].
    rewrite <- (Z.mod_pow2_bits_low _ 8) by lia. change 256 with (2 ^ 8).
    rewrite (Z.mul_comm (2 ^ 8)), Z.mod_add, Z.mod_small by lia. done.
  - destruct (IH (row - 8) ltac:(lia)) as (b' & Hl & Ht). exists b'.
    pose proof (Z.div_add (row - 8) 1 8 ltac:(lia)) as Hd. pose proof (Z.mod_add (row - 8) 1 8 ltac:(lia)) as Hm.
    replace (row - 8 + 1 * 8) with row in Hd, Hm by lia. rewrite Hd, Hm.
    split.
    + replace (Z.to_nat ((row - 8) / 8 + 1)) with (S (Z.to_nat ((row - 8) / 8))); [done|].
      pose proof (Z.div_pos (row - 8) 8). lia.
    + rewrite <- Ht. replace row with ((row - 8) + 8) at 1 by lia.
      rewrite <- Z.shiftr_spec by lia. rewrite Z.shiftr_div_pow2 by lia. f_equal.
      change (2 ^ 8) with 256. rewrite (Z.mul_comm 256), Z.div_add, (Z.div_small (b2z b)) by lia. lia.
Qed.

(** Within the rows a bitmap has room for, the accessor gives its bit. *)
Lemma is_null_bit bm n row :
  len bm = null_bitmap_size n → 0 ≤ row < n → row / 8 < len bm ∧ is_null bm row = Ok (Z.testbit (le_val bm) row).
Proof.
  intros Hl Hr. unfold is_null.
  assert (row < 8 * len bm) as Hb.
  { rewrite Hl. unfold null_bitmap_size, div_ceil.
    pose proof (Z.div_mod (n + 8 - 1) 8 ltac:(lia)). pose proof (Z.mod_pos_bound (n + 8 - 1) 8 ltac:(lia)). lia. }
  assert (row / 8 < len bm) by (apply Z.div_lt_upper_bound; lia). split; [done|].
  destruct (Z.leb_spec (len bm) (row / 8)); [lia|].
  destruct (le_val_testbit bm row) as (b & Hi & Ht); [lia|].
  rewrite (index_lookup _ _ _ Hi). cbn [obind]. by rewrite bit_set_testbit, Ht by lia.
Qed.

(** On the bitmap of a parsed payload, the lenient and the strict accessor agree
    on every row, neither panics, and both give bit [row] of the bitmap; outside
    the rows only the strict one is an error. *)
Theorem is_null_of_payload (s : BulkColumnSpec) (n row : Z) (bm : list byte) :
  bitmap_fit s n (Some bm) → 0 ≤ n → 0 ≤ row →
  (row < n → is_null bm row = Ok (Z.testbit (le_val bm) row) ∧ is_null_strict bm row n = is_null bm row) ∧
  (n ≤ row → ∃ m, is_null_strict bm row n = Err (MalformedPayload m)).
Proof.
  intros [_ Hl] Hn Hr. split.
  - intros Hlt. destruct (is_null_bit bm n row) as [Hb He]; [done|lia|]. split; [done|].
    rewrite He. unfold is_null_strict. destruct (Z.leb_spec n row); [lia|].
    unfold is_null in He. destruct (Z.leb_spec (len bm) (row / 8)); [lia|done].
  - intros Hge. unfold is_null_strict. destruct (Z.leb_spec n row); [|lia]. by eexists.
Qed.

Lemma is_null_of_payload_witness :
  is_null [x05; x02] 9 = Ok true ∧ is_null_strict [x05; x02] 9 10 = is_null [x05; x02] 9.
Proof.
  destruct (is_null_of_payload (mkSpec "a" BtI32 true 0) 10 9 [x05; x02]) as [H _]; [split; reflexivity|lia|lia|].
  destruct H as [H1 H2]; [lia|]. split; [|exact H2]. rewrite H1. vm_compute. reflexivity.
Defined.

(** * Round trip *)

(** What the parser makes of the cells written: padding is cut off at the first
    zero byte. *)
Definition trim_cells (c : BulkCells) : BulkCells :=
  match c with
  | CText rows m => CText (map truncate_at_nul rows) m
  | CBinary rows m => CBinary (map truncate_at_nul rows) m
  | c => c
  end.

Definition trim_column (d : BulkColumnData) : BulkColumnData :=
  mkColData (trim_cells (bc_cells d)) (bc_null_bitmap d).

Definition trim_payload (p : BulkInsertPayload) : BulkInsertPayload :=
  mkPayload (bp_table p) (bp_columns p) (bp_row_count p) (map trim_column (bp_column_data p)).

Lemma truncate_at_nul_noop v : no_nul v → truncate_at_nul v = v.
Proof. intros H. pose proof (truncate_at_nul_id v 0 H) as Hi. simpl in Hi. by rewrite app_nil_r in Hi. Qed.

Lemma map_truncate_noop rows : Forall no_nul rows → map truncate_at_nul rows = rows.
Proof. induction 1 as [|r rows Hr _ IH]; simpl; [done|]. by rewrite IH, truncate_at_nul_noop. Qed.

Lemma trim_payload_noop p : payload_no_nul p → trim_payload p = p.
Proof.
  destruct p as [t cols n data]. unfold payload_no_nul, trim_payload. cbn. intros H. f_equal.
  induction H as [|d ds Hd _ IH]; simpl; [done|]. rewrite IH. f_equal.
  destruct d as [c bm]. unfold trim_column. cbn in *. f_equal.
  destruct c; simpl in *; try done; by rewrite map_truncate_noop.
Qed.

Lemma truncate_replicate k : truncate_at_nul (replicate k x00) = [].
Proof. by destruct k. Qed.

Lemma truncate_at_nul_pad v k : truncate_at_nul (v ++ replicate k x00) = truncate_at_nul v.
Proof.
  induction v as [|b v IH]; cbn [app truncate_at_nul]; [apply truncate_replicate|]. by rewrite IH.
Qed.

Lemma read_u32_le_at data o z rest :
  u32_range z → at_pos data o (le_bytes 4 z ++ rest) → read_u32_le data o = Ok (z, (o + 4)%nat).
Proof.
  intros Hz P. pose proof (at_pos_length _ _ _ P) as Hl. rewrite length_app, length_le_bytes in Hl.
  unfold read_u32_le, saturating_sub, len.
  destruct (Z.ltb_spec (Z.max 0 (Z.of_nat (length data) - Z.of_nat o)) 4); [lia|].
  by rewrite (at_pos_u32 _ _ _ _ Hz P).
Qed.

Lemma read_bytes_at data o x n rest :
  n = len x → at_pos data o (x ++ rest) → read_bytes data o n = Ok (x, (o + length x)%nat).
Proof.
  intros -> P. pose proof (at_pos_length _ _ _ P) as Hl. rewrite length_app in Hl.
  unfold read_bytes, saturating_sub, len.
  destruct (Z.ltb_spec (Z.max 0 (Z.of_nat (length data) - Z.of_nat o)) (Z.of_nat (length x))); [lia|].
  rewrite Nat2Z.id. by rewrite (at_pos_slice _ _ _ _ P).
Qed.

(** ** Values *)

Lemma read_i32_at data z o rest :
  i32_range z → at_pos data o (le_bytes 4 z ++ rest) → read_i32 data o = Ok (z, (o + length (le_bytes 4 z))%nat).
Proof.
  intros Hz P. unfold read_i32, read_u32_le, saturating_sub, len. rewrite length_le_bytes.
  pose proof (at_pos_length _ _ _ P) as Hl. rewrite length_app, length_le_bytes in Hl.
  destruct (Z.ltb_spec (Z.max 0 (Z.of_nat (length data) - Z.of_nat o)) 4); [lia|].
  rewrite (at_pos_le _ _ _ _ _ P). cbn [obind]. by rewrite (to_signed_unsigned 32).
Qed.

Lemma read_i64_at data z o rest :
  i64_range z → at_pos data o (le_bytes 8 z ++ rest) → read_i64 data o = Ok (z, (o + length (le_bytes 8 z))%nat).
Proof.
  intros Hz P. unfold read_i64, saturating_sub, len. rewrite length_le_bytes.
  pose proof (at_pos_length _ _ _ P) as Hl. rewrite length_app, length_le_bytes in Hl.
  destruct (Z.ltb_spec (Z.max 0 (Z.of_nat (length data) - Z.of_nat o)) 8); [lia|].
  rewrite (at_pos_le _ _ _ _ _ P). cbn [obind]. by rewrite (to_signed_unsigned 64).
Qed.

Lemma pad_cell_fits m r : 0 ≤ m → len r ≤ m → pad_cell m r = r ++ replicate (Z.to_nat m - length r) x00.
Proof. unfold len, pad_cell. intros ? ?. by rewrite take_ge by lia. Qed.

Lemma read_padded_at data m r o rest :
  0 ≤ m → len r ≤ m → at_pos data o (pad_cell m r ++ rest) →
  read_padded data m o = Ok (truncate_at_nul r, (o + length (pad_cell m r))%nat).
Proof.
  intros Hm Hr P. unfold read_padded. rewrite (read_bytes_at _ _ (pad_cell m r) m rest); [| |done].
  - cbn [obind]. rewrite pad_cell_fits by done. by rewrite truncate_at_nul_pad.
  - rewrite pad_cell_fits, len_app by done. unfold len in *. rewrite length_replicate. lia.
Qed.

Lemma read_timestamp_at data t o rest :
  timestamp_wf t → at_pos data o (enc_timestamp t ++ rest) →
  read_timestamp data o = Ok (t, (o + length (enc_timestamp t))%nat).
Proof.
  intros (Hy & Hmo & Hd & Hh & Hmi & Hs & Hf) P. pose proof (at_pos_length _ _ _ P) as Hl.
  rewrite length_app in Hl. unfold enc_timestamp in *. rewrite !length_app, !length_le_bytes in *.
  rewrite <- !app_assoc in P.
  pose proof (at_pos_le_step _ _ _ _ _ P) as P1.
  pose proof (at_pos_le_step _ _ _ _ _ P1) as P2. replace (o + 2 + 2)%nat with (o + 4)%nat in P2 by lia.
  pose proof (at_pos_le_step _ _ _ _ _ P2) as P3. replace (o + 4 + 2)%nat with (o + 6)%nat in P3 by lia.
  pose proof (at_pos_le_step _ _ _ _ _ P3) as P4. replace (o + 6 + 2)%nat with (o + 8)%nat in P4 by lia.
  pose proof (at_pos_le_step _ _ _ _ _ P4) as P5. replace (o + 8 + 2)%nat with (o + 10)%nat in P5 by lia.
  pose proof (at_pos_le_step _ _ _ _ _ P5) as P6. replace (o + 10 + 2)%nat with (o + 12)%nat in P6 by lia.
  unfold read_timestamp, saturating_sub, len.
  destruct (Z.ltb_spec (Z.max 0 (Z.of_nat (length data) - Z.of_nat o)) 16); [lia|].
  rewrite (at_pos_le _ _ _ _ _ P). cbn [obind]. rewrite (to_signed_unsigned 16) by (done || lia).
  rewrite (at_pos_u16 _ _ _ _ Hmo P1). cbn [obind]. rewrite (at_pos_u16 _ _ _ _ Hd P2). cbn [obind].
  rewrite (at_pos_u16 _ _ _ _ Hh P3). cbn [obind]. rewrite (at_pos_u16 _ _ _ _ Hmi P4). cbn [obind].
  rewrite (at_pos_u16 _ _ _ _ Hs P5). cbn [obind]. rewrite (at_pos_u32 _ _ _ _ Hf P6). cbn [obind].
  by destruct t.
Qed.

(** ** Columns *)

Lemma enc_cells_nonneg_max s : 0 ≤ Z.max (bs_max_len s) 1.
Proof. lia. Qed.

(** One value loop over encoded values. *)
Lemma parse_column_data_at data o s n d rest :
  0 ≤ n → col_fit n s d →
  at_pos data o (bitmap_bytes (bc_null_bitmap d) ++ enc_cells (bc_cells d) ++ rest) →
  parse_column_data data o s n
  = Ok (trim_column d, (length (bitmap_bytes (bc_null_bitmap d)) + length (enc_cells (bc_cells d)))%nat).
Proof.
  destruct d as [c bm]. unfold col_fit, cells_fit, trim_column. cbn [bc_cells bc_null_bitmap].
  intros Hn [[Hm Hc] Hb] P. unfold parse_column_data.
  assert (read_null_bitmap data o (bs_nullable s) n = Ok (bm, (o + length (bitmap_bytes bm))%nat)) as ->.
  { unfold read_null_bitmap. destruct bm as [b|]; cbn [bitmap_fit bitmap_bytes] in *.
    - destruct Hb as [-> Hbl]. cbn [negb]. rewrite (read_bytes_at _ _ b _ _ ltac:(done) P). cbn [obind].
      by rewrite Hbl, Z.eqb_refl.
    - rewrite Hb. cbn. by rewrite Nat.add_0_r. }
  cbn [obind]. apply at_pos_step in P. set (o1 := (o + length (bitmap_bytes bm))%nat) in *.
  destruct c as [vs|vs|rows m|rows m|vs], (bs_type s) eqn:Ht; try discriminate Hm; cbn [enc_cells trim_cells] in *.
  all: try (destruct Hc as [<- Hc]).
  - rewrite (read_n_encoded _ (le_bytes 4) i32_range data vs o1 rest (λ x o r, read_i32_at data x o r) Hc P).
    cbn [obind]. do 2 f_equal. lia.
  - rewrite (read_n_encoded _ (le_bytes 8) i64_range data vs o1 rest (λ x o r, read_i64_at data x o r) Hc P).
    cbn [obind]. do 2 f_equal. lia.
  - destruct Hc as [-> Hc].
    rewrite (read_n_encoded_map _ truncate_at_nul (pad_cell _) _ data rows o1 rest
      (λ x o r, read_padded_at data _ x o r (enc_cells_nonneg_max s)) Hc P). cbn [obind]. do 2 f_equal. lia.
  - destruct Hc as [-> Hc].
    rewrite (read_n_encoded_map _ truncate_at_nul (pad_cell _) _ data rows o1 rest
      (λ x o r, read_padded_at data _ x o r (enc_cells_nonneg_max s)) Hc P). cbn [obind]. do 2 f_equal. lia.
  - destruct Hc as [-> Hc].
    rewrite (read_n_encoded_map _ truncate_at_nul (pad_cell _) _ data rows o1 rest
      (λ x o r, read_padded_at data _ x o r (enc_cells_nonneg_max s)) Hc P). cbn [obind]. do 2 f_equal. lia.
  - rewrite (read_n_encoded _ enc_timestamp timestamp_wf data vs o1 rest (λ x o r, read_timestamp_at data x o r) Hc P).
    cbn [obind]. do 2 f_equal. lia.
Qed.

Definition enc_column_data (d : BulkColumnData) : list byte :=
  bitmap_bytes (bc_null_bitmap d) ++ enc_cells (bc_cells d).

Lemma parse_columns_at data n specs cols o rest :
  0 ≤ n → Forall2 (col_fit n) specs cols → at_pos data o (encode_list enc_column_data cols ++ rest) →
  parse_columns data n specs o = Ok (map trim_column cols, (o + length (encode_list enc_column_data cols))%nat).
Proof.
  intros Hn Hf. revert o. induction Hf as [|s d specs cols Hd _ IH]; intros o P; cbn [parse_columns].
  - simpl. by rewrite Nat.add_0_r.
  - rewrite encode_list_cons in P |- *. unfold enc_column_data at 1 in P. rewrite <- !app_assoc in P.
    rewrite (parse_column_data_at _ _ _ _ _ _ Hn Hd P). cbn [obind].
    apply at_pos_step in P. apply at_pos_step in P. rewrite Nat.add_assoc.
    rewrite (IH _ P). cbn [obind map]. do 2 f_equal. unfold enc_column_data. rewrite !length_app. lia.
Qed.

Definition enc_spec (s : BulkColumnSpec) : list byte :=
  le_bytes 4 (len (as_bytes (bs_name s))) ++ as_bytes (bs_name s) ++
  z2b (bulk_to_tag (bs_type s)) :: (if bs_nullable s then z2b 1 else z2b 0) :: le_bytes 4 (bs_max_len s).

Lemma len_to_u32_ok n w : n < 2 ^ 32 → len_to_u32 n w = Ok n.
Proof. intros H. unfold len_to_u32. by destruct (Z.leb_spec n (2 ^ 32 - 1)); [|lia]. Qed.

Lemma serialize_spec_ok out s : spec_wf s → serialize_spec out s = Ok (out ++ enc_spec s).
Proof.
  intros (_ & Hl & Hm). unfold serialize_spec. rewrite len_to_u32_ok by done. cbn [obind].
  destruct (Z.ltb_spec MAX_BULK_CELL_LEN (bs_max_len s)); [lia|].
  rewrite len_to_u32_ok by (unfold MAX_BULK_CELL_LEN in *; lia). cbn [obind].
  unfold enc_spec. by rewrite <- !app_assoc.
Qed.

Lemma parse_spec_at data s o rest :
  spec_wf s → at_pos data o (enc_spec s ++ rest) → parse_spec data o = Ok (s, (o + length (enc_spec s))%nat).
Proof.
  intros (Hn & Hl & Hm) P. unfold enc_spec in *. rewrite <- !app_assoc in P.
  rewrite !length_app, !length_cons, !length_le_bytes.
  assert (u32_range (len (as_bytes (bs_name s)))) as Hr by (split; [apply len_nonneg|done]).
  unfold parse_spec. rewrite (read_u32_le_at _ _ _ _ Hr P). cbn [obind].
  apply at_pos_le_step in P. rewrite (read_bytes_at _ _ _ _ _ eq_refl P). cbn [obind].
  rewrite from_utf8_as_bytes by done. cbn [ok_or obind].
  apply at_pos_step in P. rewrite <- !app_comm_cons in P. pose proof (at_pos_length _ _ _ P) as Hlen.
  rewrite !length_cons in Hlen.
  destruct (Nat.leb_spec (length data) (o + 4 + length (as_bytes (bs_name s)))); [lia|].
  rewrite (at_pos_index _ _ _ _ P). cbn [obind]. apply at_pos_step1 in P.
  destruct (Nat.leb_spec (length data) (o + 4 + length (as_bytes (bs_name s)) + 1)); [lia|].
  rewrite (at_pos_index _ _ _ _ P). cbn [obind]. apply at_pos_step1 in P.
  assert (u32_range (bs_max_len s)) as Hr' by (unfold u32_range, MAX_BULK_CELL_LEN in *; lia).
  rewrite (read_u32_le_at _ _ _ _ Hr' P). cbn [obind].
  destruct (Z.ltb_spec MAX_BULK_CELL_LEN (bs_max_len s)); [lia|].
  assert (bulk_from_tag (b2z (z2b (bulk_to_tag (bs_type s)))) = Ok (bs_type s)) as -> by by destruct (bs_type s).
  cbn [obind]. do 2 f_equal; [|lia]. destruct s as [nm t nl m]; cbn. by destruct nl.
Qed.

Definition enc_payload (p : BulkInsertPayload) : list byte :=
  le_bytes 4 (len (as_bytes (bp_table p))) ++ as_bytes (bp_table p) ++ le_bytes 4 (len (bp_columns p)) ++
  encode_list enc_spec (bp_columns p) ++ le_bytes 4 (bp_row_count p) ++ encode_list enc_column_data (bp_column_data p).

Lemma serialize_columns_ok n specs cols out :
  Forall2 (col_fit n) specs cols →
  ofold (λ out '(spec, data), serialize_column_data out spec data) (combine specs cols) out
  = Ok (out ++ encode_list enc_column_data cols).
Proof.
  intros Hf. revert out. induction Hf as [|s d specs cols [[Hm _] _] _ IH]; intros out; cbn [combine ofold].
  - by rewrite app_nil_r.
  - unfold serialize_column_data at 1. rewrite Hm. cbn [obind]. rewrite IH, encode_list_cons.
    unfold enc_column_data at 2. by rewrite <- !app_assoc.
Qed.

Lemma serialize_bulk_ok p : payload_fit p → serialize_bulk_insert_payload p = Ok (enc_payload p).
Proof.
  intros [Ht Htl Hc Hs Hr Hd]. unfold serialize_bulk_insert_payload.
  destruct (Z.ltb_spec MAX_BULK_COLUMNS (len (bp_columns p))); [lia|].
  destruct (Z.ltb_spec MAX_BULK_ROWS (bp_row_count p)); [lia|].
  rewrite !len_to_u32_ok by (unfold MAX_BULK_COLUMNS in *; lia). cbn [obind].
  rewrite (ofold_emit _ enc_spec spec_wf) by (done || intros; by apply serialize_spec_ok). cbn [obind].
  rewrite (serialize_columns_ok (bp_row_count p)) by done. unfold enc_payload. by rewrite <- !app_assoc.
Qed.

Lemma parse_bulk_enc p : payload_fit p → parse_bulk_insert_payload (enc_payload p) = Ok (trim_payload p).
Proof.
  intros [Ht Htl Hc Hs Hr Hd]. unfold parse_bulk_insert_payload. set (data := enc_payload p).
  assert (at_pos data 0 (enc_payload p)) as P by apply at_pos_start. unfold enc_payload in P.
  assert (u32_range (len (as_bytes (bp_table p)))) as H1 by (split; [apply len_nonneg|done]).
  assert (u32_range (len (bp_columns p))) as H2.
  { unfold u32_range, MAX_BULK_COLUMNS in *. pose proof (len_nonneg (bp_columns p)). lia. }
  assert (u32_range (bp_row_count p)) as H3 by (unfold u32_range, MAX_BULK_ROWS in *; lia).
  rewrite (read_u32_le_at _ _ _ _ H1 P). cbn [obind]. apply at_pos_le_step in P.
  rewrite (read_bytes_at _ _ _ _ _ eq_refl P). cbn [obind]. apply at_pos_step in P.
  rewrite from_utf8_as_bytes by done. cbn [ok_or obind].
  rewrite (read_u32_le_at _ _ _ _ H2 P). cbn [obind]. apply at_pos_le_step in P.
  destruct (Z.ltb_spec MAX_BULK_COLUMNS (len (bp_columns p))); [lia|].
  replace (Z.to_nat (len (bp_columns p))) with (length (bp_columns p)) by (unfold len; lia).
  rewrite (read_n_encoded _ enc_spec spec_wf data _ _ _ (λ s o r, parse_spec_at data s o r) Hs P). cbn [obind].
  apply at_pos_step in P. rewrite (read_u32_le_at _ _ _ _ H3 P). cbn [obind]. apply at_pos_le_step in P.
  destruct (Z.ltb_spec MAX_BULK_ROWS (bp_row_count p)); [lia|].
  rewrite <- (app_nil_r (encode_list enc_column_data (bp_column_data p))) in P.
  rewrite (parse_columns_at _ _ _ _ _ _ (proj1 Hr) Hd P). cbn [obind].
  apply at_pos_step in P. apply at_pos_nil in P. by rewrite P, Nat.eqb_refl.
Qed.

(** A well-formed payload without zero bytes in its text and binary cells is
    serialised and parsed back to itself. *)
Theorem parse_serialize_bulk (p : BulkInsertPayload) :
  payload_fit p → payload_no_nul p →
  ∃ bytes, serialize_bulk_insert_payload p = Ok bytes ∧ parse_bulk_insert_payload bytes = Ok p.
Proof.
  intros Hf Hn. exists (enc_payload p). split; [by apply serialize_bulk_ok|].
  by rewrite parse_bulk_enc, trim_payload_noop.
Qed.

Definition sample_payload (cell : list byte) : BulkInsertPayload :=
  mkPayload "t" [mkSpec "a" BtI32 true 0; mkSpec "b" BtBinary false 4] 2
    [mkColData (CI32 [-1; 7]) (Some [x02]); mkColData (CBinary [cell; [xff]] 4) None].

Lemma parse_serialize_bulk_witness :
  ∃ bytes, serialize_bulk_insert_payload (sample_payload [x01; x02]) = Ok bytes ∧
    parse_bulk_insert_payload bytes = Ok (sample_payload [x01; x02]).
Proof.
  apply parse_serialize_bulk.
  - split; repeat constructor; vm_compute; (reflexivity || discriminate).
  - repeat constructor; vm_compute; discriminate.
Defined.

(** In general the transfer cuts every text and binary cell at its first zero
    byte, so a binary value with a zero byte inside does not survive it. *)
Theorem parse_serialize_truncates (p : BulkInsertPayload) :
  payload_fit p →
  ∃ bytes, serialize_bulk_insert_payload p = Ok bytes ∧ parse_bulk_insert_payload bytes = Ok (trim_payload p).
Proof. intros Hf. exists (enc_payload p). by split; [apply serialize_bulk_ok | apply parse_bulk_enc]. Qed.

Lemma parse_serialize_truncates_witness :
  ∃ bytes, serialize_bulk_insert_payload (sample_payload [x41; x00; x42]) = Ok bytes ∧
    parse_bulk_insert_payload bytes = Ok (sample_payload [x41]).
Proof.
  apply (parse_serialize_truncates (sample_payload [x41; x00; x42])).
  split; repeat constructor; vm_compute; (reflexivity || discriminate).
Defined.
