(* ===== verification/Memory.v ===== *)
(** Memory that is handed out (protocol/arena.rs, engine/core/memory_engine.rs): the arena of the protocol
    and the pool of buffers.

    A chunk of the arena is its number, in the order of allocation, and a pointer a chunk and an offset
    in it; [base] says at which address the allocator put a chunk.  Sums that do not fit [usize] panic. *)

From Stdlib Require Import Sorted.
From S2P Require Import Prelude Wire Errors.

Record Pointer := mkPointer { pt_chunk : Z; pt_offset : Z }.

Record Arena := mkArena { ar_chunks : list Z; ar_current_chunk : Z; ar_chunk_size : Z; ar_current_offset : Z }.

Definition arena_new (chunk_size : Z) : Arena := mkArena [] 0 chunk_size 0.

Definition arena_default : Arena := arena_new (64 * 1024).

Definition allocate_new_chunk (a : Arena) : Arena :=
  mkArena (ar_chunks a ++ [ar_current_chunk a]) (ar_current_chunk a + 1) (ar_chunk_size a) 0.

Definition allocate (size : Z) (a : Arena) : Result Pointer * Arena :=
  if usize_max <? ar_current_offset a + size then (Panic, a)
  else
    let a := if ar_chunk_size a <? ar_current_offset a + size then allocate_new_chunk a else a in
    (Ok (mkPointer (ar_current_chunk a) (ar_current_offset a)),
     mkArena (ar_chunks a) (ar_current_chunk a) (ar_chunk_size a) (ar_current_offset a + size)).

Definition align_up (offset align : Z) : Z := Z.land (offset + align - 1) (Z.lnot (align - 1)).

(** The recursive call has its own fuel; [None] when it is used up. *)
Fixpoint allocate_aligned (fuel : nat) (size align : Z) (a : Arena) : option (Result Pointer * Arena) :=
  match fuel with
  | O => None
  | S fuel =>
      if (align =? 0) || (usize_max <? ar_current_offset a + align) || (usize_max <? align_up (ar_current_offset a) align + size) then Some (Panic, a)
      else
        let aligned_offset := align_up (ar_current_offset a) align in
        if ar_chunk_size a <? aligned_offset + size then allocate_aligned fuel size align (allocate_new_chunk a)
        else
          Some (Ok (mkPointer (ar_current_chunk a) aligned_offset),
                mkArena (ar_chunks a) (ar_current_chunk a) (ar_chunk_size a) (aligned_offset + size))
  end.

Definition address (base : Z → Z) (p : Pointer) : Z := base (pt_chunk p) + pt_offset p.

(** * The regions handed out *)

Lemma align_up_pow2 offset k : 0 ≤ k → align_up offset (2 ^ k) = (offset + 2 ^ k - 1) / 2 ^ k * 2 ^ k.
Proof.
  intros Hk. unfold align_up. replace (2 ^ k - 1) with (Z.ones k) by (rewrite Z.ones_equiv; lia).
  rewrite <- Z.ldiff_land, Z.ldiff_ones_r by done. by rewrite Z.shiftl_mul_pow2, Z.shiftr_div_pow2 by done.
Qed.

Lemma align_up_bounds offset k : 0 ≤ k → 0 ≤ offset → offset ≤ align_up offset (2 ^ k) < offset + 2 ^ k ∧ (2 ^ k | align_up offset (2 ^ k)).
Proof.
  intros Hk Ho. rewrite align_up_pow2 by done. assert (0 < 2 ^ k) as Hp by (apply Z.pow_pos_nonneg; lia).
  split; [|by exists ((offset + 2 ^ k - 1) / 2 ^ k)]. pose proof (Z.div_mod (offset + 2 ^ k - 1) (2 ^ k) ltac:(lia)) as Hd.
  pose proof (Z.mod_pos_bound (offset + 2 ^ k - 1) (2 ^ k) Hp). nia.
Qed.

(** A request, with or without an alignment (given by its exponent), and a region: a pointer and a size. *)
Inductive Request := Plain (size : Z) | Aligned (size k : Z).

Definition request_size (r : Request) : Z := match r with Plain n | Aligned n _ => n end.

(** The requests that a chunk can serve. *)
Definition request_ok (chunk_size : Z) (r : Request) : Prop :=
  0 ≤ request_size r ≤ chunk_size ∧ match r with Plain _ => True | Aligned _ k => 0 ≤ k < 32 end.

Definition serve (r : Request) (a : Arena) : option (Result Pointer * Arena) :=
  match r with
  | Plain n => Some (allocate n a)
  | Aligned n k => allocate_aligned 2 n (2 ^ k) a
  end.

Record Region := mkRegion { rg_pointer : Pointer; rg_size : Z }.

Fixpoint serve_all (rs : list Request) (a : Arena) : option (list Region * Arena) :=
  match rs with
  | [] => Some ([], a)
  | r :: rs =>
      match serve r a with
      | Some (Ok p, a) => match serve_all rs a with Some (out, a) => Some (mkRegion p (request_size r) :: out, a) | None => None end
      | _ => None
      end
  end.

(** A region lies in a chunk, at or after a point of the arena and before another. *)
Definition between (a b : Arena) (g : Region) : Prop :=
  let p := rg_pointer g in
  0 ≤ pt_offset p ∧ pt_offset p + rg_size g ≤ ar_chunk_size a ∧
  (ar_current_chunk a < pt_chunk p ∨ ar_current_chunk a = pt_chunk p ∧ ar_current_offset a ≤ pt_offset p) ∧
  (pt_chunk p < ar_current_chunk b ∨ pt_chunk p = ar_current_chunk b ∧ pt_offset p + rg_size g ≤ ar_current_offset b).

Definition arena_ok (a : Arena) : Prop :=
  0 ≤ ar_current_offset a ≤ ar_chunk_size a ∧ ar_chunk_size a < 2 ^ 62 ∧ ar_chunks a = seqZ 0 (ar_current_chunk a) ∧ 0 ≤ ar_current_chunk a.

Definition later (a b : Arena) : Prop :=
  ar_chunk_size a = ar_chunk_size b ∧
  (ar_current_chunk a < ar_current_chunk b ∨ ar_current_chunk a = ar_current_chunk b ∧ ar_current_offset a ≤ ar_current_offset b).

Lemma new_chunk_ok a : arena_ok a → arena_ok (allocate_new_chunk a) ∧ later a (allocate_new_chunk a).
Proof.
  intros (Ho & Hs & Hc & Hn). split; [|split; [done|left; cbn; lia]]. unfold arena_ok, allocate_new_chunk. cbn. split_and!; [lia..| |lia].
  rewrite Hc. by rewrite seqZ_app by lia.
Qed.

Lemma serve_ok r a : arena_ok a → request_ok (ar_chunk_size a) r →
  ∃ p b, serve r a = Some (Ok p, b) ∧ arena_ok b ∧ later a b ∧ between a b (mkRegion p (request_size r)) ∧
    match r with Plain _ => True | Aligned _ k => (2 ^ k | pt_offset p) end.
Proof.
  intros Ha [Hn Hk]. pose proof Ha as (Ho & Hs & Hc & Hcc). destruct (new_chunk_ok a Ha) as [Hb Hlater].
  assert (usize_max = 2 ^ 64 - 1) as Hmax by reflexivity. destruct r as [n|n k]; cbn [serve request_size] in *.
  - unfold allocate. destruct (Z.ltb_spec usize_max (ar_current_offset a + n)); [lia|].
    destruct (Z.ltb_spec (ar_chunk_size a) (ar_current_offset a + n)); eexists _, _; (split; [reflexivity|]);
      unfold arena_ok, later, between, allocate_new_chunk in *; cbn in *; split_and!; try lia; try tauto.
  - pose proof (Z.pow_le_mono_r 2 k 31 ltac:(lia) ltac:(lia)) as Hp31. assert (0 < 2 ^ k) as Hp by (apply Z.pow_pos_nonneg; lia).
    pose proof (align_up_bounds (ar_current_offset a) k ltac:(lia) ltac:(lia)) as [Hup Hdiv].
    cbn [allocate_aligned]. destruct (Z.eqb_spec (2 ^ k) 0); [lia|]. destruct (Z.ltb_spec usize_max (ar_current_offset a + 2 ^ k)); [lia|].
    destruct (Z.ltb_spec usize_max (align_up (ar_current_offset a) (2 ^ k) + n)); [lia|]. cbn [orb].
    destruct (Z.ltb_spec (ar_chunk_size a) (align_up (ar_current_offset a) (2 ^ k) + n)).
    + assert (align_up 0 (2 ^ k) = 0) as Hz.
      { rewrite align_up_pow2, Z.div_small by lia. lia. }
      cbn [ar_current_offset ar_chunk_size allocate_new_chunk]. rewrite Hz.
      destruct (Z.ltb_spec usize_max (0 + 2 ^ k)); [lia|]. destruct (Z.ltb_spec usize_max (0 + n)); [lia|]. cbn [orb].
      destruct (Z.ltb_spec (ar_chunk_size a) (0 + n)); [lia|]. eexists _, _. split; [reflexivity|].
      unfold arena_ok, later, between, allocate_new_chunk in *; cbn in *. split_and!; try lia; try tauto. apply Z.divide_0_r.
    + eexists _, _. split; [reflexivity|]. unfold arena_ok, later, between in *; cbn in *. split_and!; try lia; try tauto.
Qed.

#[local] Instance later_trans : Transitive later.
Proof. intros a b c [? ?] [? ?]. split; [congruence|lia]. Qed.

Lemma between_later a b c g : between a b g → later b c → between a c g.
Proof. unfold between, later. intros (? & ? & ? & ?) [? ?]. split_and!; try done. lia. Qed.

Lemma later_between a b c g : later a b → between b c g → between a c g.
Proof. unfold between, later. intros [? ?] (? & ? & ? & ?). split_and!; try done; lia. Qed.

(** One region ends before the other begins, or they lie in different chunks. *)
Definition precedes (g h : Region) : Prop :=
  pt_chunk (rg_pointer g) < pt_chunk (rg_pointer h) ∨
  pt_chunk (rg_pointer g) = pt_chunk (rg_pointer h) ∧ pt_offset (rg_pointer g) + rg_size g ≤ pt_offset (rg_pointer h).

Lemma between_precedes a b c g h : between a b g → between b c h → precedes g h.
Proof. unfold between, precedes. intros (? & ? & ? & ?) (? & ? & ? & ?). lia. Qed.

Lemma serve_all_ok rs a : arena_ok a → Forall (request_ok (ar_chunk_size a)) rs →
  ∃ out b, serve_all rs a = Some (out, b) ∧ arena_ok b ∧ later a b ∧ Forall (between a b) out ∧ StronglySorted precedes out ∧
    Forall2 (λ r g, rg_size g = request_size r ∧ match r with Plain _ => True | Aligned _ k => (2 ^ k | pt_offset (rg_pointer g)) end) rs out.
Proof.
  intros Ha Hrs. revert a Ha Hrs. induction rs as [|r rs IH]; intros a Ha Hrs.
  { exists [], a. split_and!; try done; [split; [done|lia]|constructor..]. }
  apply Forall_cons in Hrs as [Hr Hrs]. destruct (serve_ok r a Ha Hr) as (p & b & Hs & Hb & Hab & Hg & Hal).
  assert (ar_chunk_size b = ar_chunk_size a) as Hsz by (by destruct Hab).
  destruct (IH b Hb ltac:(by rewrite Hsz)) as (out & c & Ho & Hc & Hbc & Hout & Hsort & Hshape).
  exists (mkRegion p (request_size r) :: out), c. cbn [serve_all]. rewrite Hs, Ho. split; [done|]. split; [done|]. split; [by etrans|].
  split; [|split].
  - constructor; [by eapply between_later|]. eapply Forall_impl; [exact Hout|]. intros g Hgb. by eapply later_between.
  - constructor; [exact Hsort|]. eapply Forall_impl; [exact Hout|]. intros g Hgb. by eapply between_precedes.
  - by constructor.
Qed.

(** The memory the arena gives out is there and is nobody else's.  For every sequence of requests that a chunk can
    serve: each is answered, the aligned ones without recursing more than once; every region has the
    size asked for and lies within a chunk that the arena still holds; no two regions overlap; and the
    offset of an aligned one is a multiple of the alignment. *)
Theorem arena_regions (chunk_size : Z) (rs : list Request) :
  0 ≤ chunk_size < 2 ^ 62 → Forall (request_ok chunk_size) rs →
  ∃ out a, serve_all rs (arena_new chunk_size) = Some (out, a) ∧
    Forall2 (λ r g, rg_size g = request_size r ∧ match r with Plain _ => True | Aligned _ k => (2 ^ k | pt_offset (rg_pointer g)) end) rs out ∧
    Forall (λ g, 0 ≤ pt_offset (rg_pointer g) ∧ pt_offset (rg_pointer g) + rg_size g ≤ chunk_size ∧
      pt_chunk (rg_pointer g) ∈ ar_chunks a ++ [ar_current_chunk a]) out ∧
    StronglySorted precedes out.
Proof.
  intros Hc Hrs. assert (arena_ok (arena_new chunk_size)) as Ha by (unfold arena_ok; cbn; split_and!; (lia || done)).
  destruct (serve_all_ok rs (arena_new chunk_size) Ha Hrs) as (out & a & Hs & (Hoa & Hsa & Hca & Hna) & _ & Hb & Hsort & Hshape).
  exists out, a. split; [done|]. split; [done|]. split; [|done]. eapply Forall_impl; [exact Hb|]. intros g (H1 & H2 & H3 & H4). cbn in H2, H3.
  split_and!; try lia. rewrite Hca. apply elem_of_app. destruct H4 as [H4|[H4 _]]; [left; apply elem_of_seqZ; lia|right; by apply list_elem_of_singleton].
Qed.

Lemma arena_regions_witness :
  serve_all [Plain 50; Plain 60; Aligned 20 4] (arena_new 100) =
    Some ([mkRegion (mkPointer 0 0) 50; mkRegion (mkPointer 1 0) 60; mkRegion (mkPointer 1 64) 20], mkArena [0] 1 100 84) ∧
  StronglySorted precedes [mkRegion (mkPointer 0 0) 50; mkRegion (mkPointer 1 0) 60; mkRegion (mkPointer 1 64) 20].
Proof.
  split; [reflexivity|].
  destruct (arena_regions 100 [Plain 50; Plain 60; Aligned 20 4] ltac:(lia) ltac:(repeat constructor; cbn; lia)) as (out & a & Hs & _ & _ & Hsort).
  assert (out = [mkRegion (mkPointer 0 0) 50; mkRegion (mkPointer 1 0) 60; mkRegion (mkPointer 1 64) 20]) as Ho.
  { assert (Some (out, a) = Some ([mkRegion (mkPointer 0 0) 50; mkRegion (mkPointer 1 0) 60; mkRegion (mkPointer 1 64) 20], mkArena [0] 1 100 84)) as H
      by (rewrite <- Hs; reflexivity). by injection H. }
  rewrite <- Ho. exact Hsort.
Defined.

(** A request that is larger than a chunk: [allocate] answers with a pointer whose region leaves the chunk;
    [allocate_aligned] takes a new chunk for ever. *)
Example too_large : allocate 200 (arena_new 100) = (Ok (mkPointer 1 0), mkArena [0] 1 100 200).
Proof. reflexivity. Qed.

Theorem aligned_never_ends (fuel : nat) (size k : Z) (a : Arena) :
  arena_ok a → 0 ≤ k < 32 → ar_chunk_size a < size < 2 ^ 62 → allocate_aligned fuel size (2 ^ k) a = None.
Proof.
  intros Ha Hk Hs. revert a Ha Hs. induction fuel as [|fuel IH]; intros a Ha Hs; [done|]. pose proof Ha as (Ho & Hc & _).
  assert (usize_max = 2 ^ 64 - 1) as Hmax by reflexivity. destruct (new_chunk_ok a Ha) as [Hb _].
  pose proof (Z.pow_le_mono_r 2 k 31 ltac:(lia) ltac:(lia)) as Hp31. assert (0 < 2 ^ k) as Hp by (apply Z.pow_pos_nonneg; lia).
  pose proof (align_up_bounds (ar_current_offset a) k ltac:(lia) ltac:(lia)) as [Hup _].
  cbn [allocate_aligned]. destruct (Z.eqb_spec (2 ^ k) 0); [lia|]. destruct (Z.ltb_spec usize_max (ar_current_offset a + 2 ^ k)); [lia|].
  destruct (Z.ltb_spec usize_max (align_up (ar_current_offset a) (2 ^ k) + size)); [lia|]. cbn [orb].
  destruct (Z.ltb_spec (ar_chunk_size a) (align_up (ar_current_offset a) (2 ^ k) + size)); [|lia]. by apply IH.
Qed.

(** The offset is aligned, the address only where the chunk is: the chunks are [Vec<u8>], whose alignment is 1. *)
Example misaligned :
  let '(r, _) := default (Panic, arena_new 0) (serve (Aligned 8 3) (arena_new 1024)) in
  (match r with Ok p => address (λ _, 4097) p mod 8 | _ => 0 end) = 1.
Proof. reflexivity. Qed.

(** * The pool of buffers *)

Record BufferPool := mkBufferPool { bp_buffers : list (list byte); bp_buffer_size : Z; bp_max_buffers : Z }.

Definition buffer_pool_new (buffer_size max_buffers : Z) : BufferPool := mkBufferPool [] buffer_size max_buffers.

Definition zeroed (n : Z) : list byte := replicate (Z.to_nat n) x00.

Definition acquire (p : BufferPool) : list byte * BufferPool :=
  match bp_buffers p with
  | b :: bs => (b, mkBufferPool bs (bp_buffer_size p) (bp_max_buffers p))
  | [] => (zeroed (bp_buffer_size p), p)
  end.

Definition release (buffer : list byte) (p : BufferPool) : BufferPool :=
  if len (bp_buffers p) <? bp_max_buffers p then
    mkBufferPool (bp_buffers p ++ [zeroed (bp_buffer_size p)]) (bp_buffer_size p) (bp_max_buffers p)
  else p.

(** [MemoryEngine] is its pool. *)
Definition memory_engine_new (buffer_size max_buffers : Z) : BufferPool := buffer_pool_new buffer_size max_buffers.
Definition memory_engine_default : BufferPool := memory_engine_new (64 * 1024) 10.
Definition acquire_buffer : BufferPool → list byte * BufferPool := acquire.
Definition release_buffer : list byte → BufferPool → BufferPool := release.

Inductive PoolStep : BufferPool → BufferPool → Prop :=
| pool_acquire p : PoolStep p (acquire p).2
| pool_release b p : PoolStep p (release b p).

Definition blank (buffer_size max_buffers : Z) (p : BufferPool) : Prop :=
  bp_buffer_size p = buffer_size ∧ bp_max_buffers p = max_buffers ∧ Forall (eq (zeroed buffer_size)) (bp_buffers p) ∧
  len (bp_buffers p) ≤ max_buffers.

Lemma pool_step_blank n m p q : PoolStep p q → blank n m p → blank n m q.
Proof.
  unfold blank. intros [p'|b p'] (<- & <- & Hf & Hl).
  - unfold acquire. destruct (bp_buffers p') as [|b bs] eqn:E; cbn; [by rewrite E|]. apply Forall_cons in Hf as [_ Hf].
    rewrite len_cons in Hl. split_and!; try done. lia.
  - unfold release. destruct (Z.ltb_spec (len (bp_buffers p')) (bp_max_buffers p')); [|done]. cbn. split_and!; try done.
    + apply Forall_app. split; [done|by constructor].
    + rewrite len_app. change (len [zeroed (bp_buffer_size p')]) with 1. lia.
Qed.

(** A buffer never carries what it held before: whatever was acquired and released, a buffer that the pool gives is
    all zeros and of the pool's size, and the pool keeps at most its maximum. *)
Theorem buffers_are_blank (buffer_size max_buffers : Z) (p : BufferPool) :
  0 ≤ max_buffers → rtc PoolStep (buffer_pool_new buffer_size max_buffers) p →
  (acquire p).1 = zeroed buffer_size ∧ len (bp_buffers p) ≤ max_buffers.
Proof.
  intros Hm Hr. assert (blank buffer_size max_buffers (buffer_pool_new buffer_size max_buffers)) as H0 by (by split_and!).
  assert (blank buffer_size max_buffers p) as (H1 & _ & H3 & H4).
  { clear Hm. revert H0. induction Hr as [|p q r Hs _ IH]; [done|]. intros Hp. apply IH. by eapply pool_step_blank. }
  split; [|done]. unfold acquire. destruct (bp_buffers p) as [|b bs]; cbn; [by rewrite H1|]. by apply Forall_cons in H3 as [<- _].
Qed.
