(* ===== verification/Text.v ===== *)
(** The string operations of the Rust standard library the engine uses: [Debug]
    rendering, splitting and joining, trimming, lower-casing, parsing of integers. *)

From Stdlib Require Import DecimalString DecimalZ DecimalPos.
From S2P Require Import Prelude Wire.

(** * Rust's [Debug] rendering *)

Definition code (c : ascii) : Z := Z.of_N (N_of_ascii c).

Definition chr (z : Z) : ascii := ascii_of_N (Z.to_N z).

(** [{:x}] of a byte. *)
Definition hex_byte (z : Z) : string :=
  if z <? 16 then String (hex_digit_of 97 z) EmptyString
  else String (hex_digit_of 97 (z / 16)) (String (hex_digit_of 97 (z mod 16)) EmptyString).

Definition unicode_escape (z : Z) : string := "\u{" +:+ hex_byte z +:+ "}".

(** The character of an ASCII byte within a [Debug]-formatted string or
    character; [q] is the delimiter, which is escaped. *)
Definition debug_ascii (q : Z) (z : Z) : string :=
  if z =? 0 then "\0"
  else if z =? 9 then "\t"
  else if z =? 10 then "\n"
  else if z =? 13 then "\r"
  else if (z =? q) || (z =? 92) then "\" +:+ String (chr z) EmptyString
  else if (z <? 32) || (z =? 127) then unicode_escape z
  else String (chr z) EmptyString.

(** [{:?}] of a string: ASCII is escaped as Rust does, characters above it are
    kept as they are (Rust also escapes the unprintable ones among them). *)
Fixpoint debug_chars (s : string) : string :=
  match s with
  | EmptyString => EmptyString
  | String c s =>
      (if code c <? 128 then debug_ascii 34 (code c) else String c EmptyString) +:+ debug_chars s
  end.

Definition dquote : string := String (chr 34) EmptyString.
Definition debug_str (s : string) : string := dquote +:+ debug_chars s +:+ dquote.

(** [{:?}] of [b as char], the character U+0000 to U+00FF of a byte. *)
Definition debug_byte_char (b : byte) : string :=
  let z := b2z b in
  "'" +:+ (if z <? 128 then debug_ascii 39 z
           else if (z <=? 0xA0) || (z =? 0xAD) then unicode_escape z
           else String (chr (0xC0 + z / 64)) (String (chr (0x80 + z mod 64)) EmptyString)) +:+ "'".

(** * Splitting and joining *)

(** [str::split] on one character: the first part and the others. *)
Fixpoint split_char (c : ascii) (s : string) : string * list string :=
  match s with
  | EmptyString => (EmptyString, [])
  | String d s =>
      let '(p, ps) := split_char c s in
      if Ascii.eqb c d then (EmptyString, p :: ps) else (String d p, ps)
  end.

Definition split (c : ascii) (s : string) : list string := let '(p, ps) := split_char c s in p :: ps.

(** [parts.join(sep)] *)
Fixpoint join (sep : string) (parts : list string) : string :=
  match parts with
  | [] => EmptyString
  | [p] => p
  | p :: ps => p +:+ sep +:+ join sep ps
  end.

Lemma split_nonempty c s : split c s ≠ [].
Proof. unfold split. by destruct (split_char c s). Qed.

Lemma split_app c a b : split c (a +:+ String c b) = split c a ++ split c b.
Proof.
  unfold split. induction a as [|d a IH].
  - rewrite string_app_nil_l. cbn. rewrite Ascii.eqb_refl. by destruct (split_char c b).
  - rewrite string_app_cons. cbn [split_char]. destruct (split_char c (a +:+ String c b)) as [p ps], (split_char c a) as [q qs].
    destruct (Ascii.eqb c d); [cbn; by rewrite IH|]. cbn in *. by injection IH as -> ->.
Qed.

(** The character [c] does not occur. *)
Fixpoint no_char (c : ascii) (s : string) : Prop :=
  match s with EmptyString => True | String d s => d ≠ c ∧ no_char c s end.

Lemma split_no_char c s : no_char c s → split c s = [s].
Proof.
  unfold split. induction s as [|d s IH]; [done|]. intros [Hd Hs]. specialize (IH Hs). cbn [split_char]. destruct (split_char c s) as [p ps].
  injection IH as -> ->. by destruct (Ascii.eqb_spec c d) as [->|].
Qed.

(** A printed integer has digits and a minus sign. *)
Lemma uint_no_char c d : c ∉ ["0"; "1"; "2"; "3"; "4"; "5"; "6"; "7"; "8"; "9"]%char → no_char c (NilEmpty.string_of_uint d).
Proof. intros Hc. induction d; cbn; try done; (split; [|done]); intros <-; apply Hc; set_solver. Qed.

Lemma fmt_Z_no_char c z : c ∉ ["-"; "0"; "1"; "2"; "3"; "4"; "5"; "6"; "7"; "8"; "9"]%char → no_char c (fmt_Z z).
Proof.
  intros [Hm Hc]%not_elem_of_cons. unfold fmt_Z, NilEmpty.string_of_int. destruct (Z.to_int z) as [d|d]; [by apply uint_no_char|].
  cbn. split; [congruence|by apply uint_no_char].
Qed.

(** * Trimming *)

(** The length of the white-space character (Unicode [White_Space]) a byte
    sequence starts with, 0 if it starts with none. *)
Definition ws_len (bs : list byte) : nat :=
  match map b2z bs with
  | a :: r =>
      if (a =? 32) || ((9 <=? a) && (a <=? 13)) then 1%nat
      else match r with
      | b :: r =>
          if (a =? 0xC2) && ((b =? 0x85) || (b =? 0xA0)) then 2%nat
          else match r with
          | c :: _ =>
              if (a =? 0xE1) && (b =? 0x9A) && (c =? 0x80) then 3%nat
              else if (a =? 0xE2) && (b =? 0x80) && (((0x80 <=? c) && (c <=? 0x8A)) || (c =? 0xA8) || (c =? 0xA9) || (c =? 0xAF)) then 3%nat
              else if (a =? 0xE2) && (b =? 0x81) && (c =? 0x9F) then 3%nat
              else if (a =? 0xE3) && (b =? 0x80) && (c =? 0x80) then 3%nat
              else 0%nat
          | [] => 0%nat
          end
      | [] => 0%nat
      end
  | [] => 0%nat
  end.

(** [trim_start]; the fuel bounds the number of characters. *)
Fixpoint trim_start_bytes (fuel : nat) (bs : list byte) : list byte :=
  match fuel with
  | O => bs
  | S fuel => match ws_len bs with O => bs | n => trim_start_bytes fuel (drop n bs) end
  end.

(** [trim_end]: the longest suffix made of white-space characters is dropped; the
    last [k] bytes are one for [k] at most 3. *)
Fixpoint trim_end_bytes (fuel : nat) (bs : list byte) : list byte :=
  match fuel with
  | O => bs
  | S fuel =>
      let n := length bs in
      if Nat.eqb (ws_len (drop (n - 1) bs)) 1 then trim_end_bytes fuel (take (n - 1) bs)
      else if Nat.eqb (ws_len (drop (n - 2) bs)) 2 then trim_end_bytes fuel (take (n - 2) bs)
      else if Nat.eqb (ws_len (drop (n - 3) bs)) 3 then trim_end_bytes fuel (take (n - 3) bs)
      else bs
  end.

Definition string_of_bytes (bs : list byte) : string := string_of_list_byte bs.

Definition trim_start (s : string) : string :=
  string_of_bytes (trim_start_bytes (length (as_bytes s)) (as_bytes s)).

Definition trim_end (s : string) : string :=
  string_of_bytes (trim_end_bytes (length (as_bytes s)) (as_bytes s)).

Definition trim (s : string) : string := trim_end (trim_start s).

(** * Case *)

(** [to_lowercase].  Of the characters outside ASCII only two have a lower-case
    form that contains an ASCII letter, U+0130 and U+212A; the others map to
    characters outside ASCII and are kept as they are, which no comparison of
    the engine with an ASCII pattern can tell. *)
Fixpoint lower_bytes (bs : list byte) : list byte :=
  match bs with
  | xc4 :: xb0 :: bs => x69 :: xcc :: x87 :: lower_bytes bs
  | xe2 :: x84 :: xaa :: bs => x6b :: lower_bytes bs
  | b :: bs => (if in_range 65 90 b then z2b (b2z b + 32) else b) :: lower_bytes bs
  | [] => []
  end.

Definition to_lowercase (s : string) : string := string_of_bytes (lower_bytes (as_bytes s)).

(** [to_ascii_lowercase], [to_ascii_uppercase] and [eq_ignore_ascii_case]. *)
Definition ascii_lower (c : ascii) : ascii :=
  if (65 <=? code c) && (code c <=? 90) then chr (code c + 32) else c.

Definition ascii_upper (c : ascii) : ascii :=
  if (97 <=? code c) && (code c <=? 122) then chr (code c - 32) else c.

Fixpoint string_map (f : ascii → ascii) (s : string) : string :=
  match s with EmptyString => EmptyString | String c s => String (f c) (string_map f s) end.

Definition to_ascii_lowercase (s : string) : string := string_map ascii_lower s.
Definition to_ascii_uppercase (s : string) : string := string_map ascii_upper s.

Definition eq_ignore_ascii_case (a b : string) : bool :=
  String.eqb (to_ascii_lowercase a) (to_ascii_lowercase b).

(** [starts_with] and [strip_prefix] on strings. *)
Fixpoint strip_prefix (p s : string) : option string :=
  match p, s with
  | EmptyString, _ => Some s
  | String a p, String b s => if Ascii.eqb a b then strip_prefix p s else None
  | _, _ => None
  end.

Definition str_starts_with (s p : string) : bool :=
  match strip_prefix p s with Some _ => true | None => false end.

(** * Integers in text *)

(** [str::parse] of an integer between [lo] and [hi]: an optional sign (a minus
    only where negative numbers exist), then one or more digits. *)
Definition parse_digits (s : string) : option Z :=
  match s with
  | EmptyString => None
  | _ => Z.of_uint <$> NilEmpty.uint_of_string s
  end.

Definition parse_int (lo hi : Z) (s : string) : option Z :=
  let v :=
    match s with
    | String "+" r => parse_digits r
    | String "-" r => if lo <? 0 then Z.opp <$> parse_digits r else None
    | _ => parse_digits s
    end in
  match v with
  | Some z => if (lo <=? z) && (z <=? hi) then Some z else None
  | None => None
  end.

Definition parse_i32 (s : string) : option Z := parse_int (- 2 ^ 31) (2 ^ 31 - 1) s.

Lemma uint_first d : d ≠ Decimal.Nil → ∃ c s, NilEmpty.string_of_uint d = String c s ∧ c ≠ "+"%char ∧ c ≠ "-"%char.
Proof. destruct d; [done|intros _; eexists _, _; (split; [reflexivity|]); split; discriminate..]. Qed.

Lemma to_int_nonnil z : match Z.to_int z with Decimal.Pos d | Decimal.Neg d => d ≠ Decimal.Nil end.
Proof. destruct z; cbn; [discriminate|apply Unsigned.to_uint_nonnil..]. Qed.

Lemma parse_digits_uint d : d ≠ Decimal.Nil → parse_digits (NilEmpty.string_of_uint d) = Some (Z.of_uint d).
Proof.
  intros Hd. unfold parse_digits. destruct (uint_first d Hd) as (c & s & Hs & _). rewrite Hs, <- Hs.
  by rewrite NilEmpty.usu.
Qed.

Lemma parse_signed_fmt lo z : lo < 0 ∨ 0 ≤ z →
  match fmt_Z z with
  | String "+" r => parse_digits r
  | String "-" r => if lo <? 0 then Z.opp <$> parse_digits r else None
  | _ => parse_digits (fmt_Z z)
  end = Some z.
Proof.
  intros Hz. pose proof (DecimalZ.of_to z) as Hot. pose proof (to_int_nonnil z) as Hnil.
  unfold fmt_Z, NilEmpty.string_of_int. destruct (Z.to_int z) as [d|d] eqn:Hti; cbn [Z.of_int] in Hot.
  - transitivity (Some (Z.of_uint d)); [|by f_equal]. destruct (uint_first d Hnil) as (c & s & Hs & Hp & Hm). rewrite <- parse_digits_uint by done.
    rewrite Hs. destruct c as [[] [] [] [] [] [] [] []]; try done; by (destruct Hp || destruct Hm).
  - destruct (Z.ltb_spec lo 0) as [_|Hlo].
    + rewrite parse_digits_uint by done. cbn. by f_equal.
    + exfalso. destruct z as [|q|q]; [discriminate Hti..|lia].
Qed.

Lemma parse_int_fmt lo hi z : lo ≤ z ≤ hi → parse_int lo hi (fmt_Z z) = Some z.
Proof.
  intros Hz. unfold parse_int. rewrite parse_signed_fmt by lia.
  destruct (Z.leb_spec lo z), (Z.leb_spec z hi); (done || lia).
Qed.

Lemma parse_int_fmt_out lo hi z : lo < 0 → ¬ lo ≤ z ≤ hi → parse_int lo hi (fmt_Z z) = None.
Proof.
  intros Hlo Hz. unfold parse_int. rewrite parse_signed_fmt by lia.
  destruct (Z.leb_spec lo z), (Z.leb_spec z hi); (done || lia).
Qed.

(** * Lossy decoding *)

(** [String::from_utf8_lossy]: every maximal invalid sequence becomes U+FFFD; the
    fuel bounds the number of sequences by the number of bytes. *)
Fixpoint utf8_lossy (fuel : nat) (bs : list byte) : list byte :=
  match fuel with
  | O => []
  | S fuel =>
      match utf8_error 0 bs with
      | None => bs
      | Some (i, None) => take (Z.to_nat i) bs ++ [xef; xbf; xbd]
      | Some (i, Some n) => take (Z.to_nat i) bs ++ [xef; xbf; xbd] ++ utf8_lossy fuel (drop (Z.to_nat (i + n)) bs)
      end
  end.

Definition from_utf8_lossy (bs : list byte) : string := string_of_bytes (utf8_lossy (S (length bs)) bs).

Lemma utf8_error_valid i bs : utf8_valid bs = true → utf8_error i bs = None.
Proof.
  revert i. induction bs as [bs IH] using (induction_ltof1 _ (@length byte)); unfold ltof in IH. intros i.
  destruct bs as [|b0 r0]; [done|]. cbn [utf8_valid utf8_error].
  destruct (b2z b0 <? 0x80); [intros H; apply IH; [cbn; lia|done]|].
  destruct (in_range 0xC2 0xDF b0).
  { destruct r0 as [|b1 r1]; [done|]. intros [-> H]%andb_prop. apply IH; [cbn; lia|done]. }
  destruct (in_range 0xE0 0xEF b0).
  { destruct r0 as [|b1 [|b2 r2]]; [done|done|]. intros [[-> ->]%andb_prop H]%andb_prop. apply IH; [cbn; lia|done]. }
  destruct (in_range 0xF0 0xF4 b0); [|done].
  destruct r0 as [|b1 [|b2 [|b3 r3]]]; [done|done|done|].
  intros [[[-> ->]%andb_prop ->]%andb_prop H]%andb_prop. apply IH; [cbn; lia|done].
Qed.

(** Valid text is kept as it is. *)
Lemma from_utf8_lossy_valid s : str_wf s → from_utf8_lossy (as_bytes s) = s.
Proof.
  intros H. unfold from_utf8_lossy. cbn [utf8_lossy]. rewrite utf8_error_valid by exact H.
  unfold string_of_bytes, as_bytes. apply string_of_list_byte_of_string.
Qed.
