(* ===== verification/ApiErrors.v ===== *)
(** From an error of odbc_api to an error of the engine (error/mod.rs, [From<odbc_api::Error>]).

    What the driver reports is a diagnostic record: a state of five bytes, a number of its own and a text.
    Every error that carries one keeps all three; of any other only its text remains. *)

From S2P Require Import Prelude Wire Errors Text.

(** [OdbcRecord] and [odbc_api::Error], as far as the conversion tells its constructors apart. *)
Record OdbcRecord := mkRecord { rec_state : list byte; rec_native_error : Z; rec_message : string }.

Inductive ApiError :=
| Diagnostics (record : OdbcRecord) (function : string)
| UnsupportedOdbcApiVersion (record : OdbcRecord)
| InvalidRowArraySize (record : OdbcRecord) (size : Z)
| UnableToRepresentNull (record : OdbcRecord)
| OracleOdbcDriverDoesNotSupport64Bit (record : OdbcRecord)
| OtherApiError (kind : string).

Section Conversion.
(** The [Display] of the two types. *)
Context (show_record : OdbcRecord → string) (show_error : ApiError → string).

Definition structured_from_odbc_record (record : OdbcRecord) : OdbcError :=
  Structured (rec_state record) (rec_native_error record) (show_record record).

Definition api_record (err : ApiError) : option OdbcRecord :=
  match err with
  | Diagnostics record _ => Some record
  | UnsupportedOdbcApiVersion record => Some record
  | InvalidRowArraySize record _ => Some record
  | UnableToRepresentNull record => Some record
  | OracleOdbcDriverDoesNotSupport64Bit record => Some record
  | OtherApiError _ => None
  end.

Definition try_extract_structured (err : ApiError) : option OdbcError :=
  structured_from_odbc_record <$> api_record err.

Definition from_api_error (err : ApiError) : OdbcError :=
  match try_extract_structured err with
  | Some structured => structured
  | None => OdbcApi (show_error err)
  end.

(** * What reaches the client *)

(** The class 08 of the standard: the connection is gone. *)
Definition class_08 (s : list byte) : Prop := ∃ rest, s = x30 :: x38 :: rest.

Lemma sqlstate_is_08_spec s : sqlstate_is_08 s = true ↔ class_08 s.
Proof.
  unfold sqlstate_is_08, class_08. split; [|by intros [rest ->]].
  destruct s as [|a [|b rest]]; try done. intros [Ha Hb]%andb_true_iff. exists rest.
  apply Z.eqb_eq in Ha, Hb. f_equal; [|f_equal]; by apply b2z_inj.
Qed.

(** The bytes of the client: state and number of the record, zeros without one, and the text. *)
Definition client_view (err : ApiError) : StructuredError :=
  match api_record err with
  | Some record => mkStructuredError (rec_state record) (rec_native_error record) (show_record record)
  | None => mkStructuredError (replicate 5 x00) 0 ("ODBC error: " +:+ show_error err)
  end.

(** An error of the driver loses nothing on its way to the client: its state, its number and its text are
    what the client decodes; it is a lost connection exactly for the states of class 08, which are also
    those worth a retry, and fatal otherwise. *)
Theorem driver_error_kept (err : ApiError) (rest : list byte) :
  structured_wf (client_view err) →
  let e := from_api_error err in
  se_deserialize (se_serialize (to_structured e) ++ rest) = Ok (Some (client_view err)) ∧
  (is_retryable e = true ↔ class_08 (se_sqlstate (client_view err))) ∧
  error_category e = if sqlstate_is_08 (se_sqlstate (client_view err)) then ConnectionLost else Fatal.
Proof.
  intros Hwf e.
  assert (to_structured e = client_view err) as ->.
  { unfold e, client_view, from_api_error, try_extract_structured. by destruct (api_record err). }
  split; [by apply structured_roundtrip|].
  rewrite <- sqlstate_is_08_spec. unfold e, client_view, from_api_error, try_extract_structured.
  destruct (api_record err) as [record|]; cbn; [|done].
  unfold error_category. cbn. by destruct (sqlstate_is_08 (rec_state record)).
Qed.
End Conversion.

(** The texts as odbc_api writes them, for a record and for an error that has one. *)
Definition record_text (r : OdbcRecord) : string :=
  "State: " +:+ from_utf8_lossy (rec_state r) +:+ ", Native error: " +:+ fmt_Z (rec_native_error r) +:+ ", Message: " +:+ rec_message r.

Definition lost : OdbcRecord := mkRecord (as_bytes "08S01") 10054 "Communication link failure".

Lemma driver_error_kept_witness :
  error_category (from_api_error record_text (λ _, "") (Diagnostics lost "SQLExecDirect")) = ConnectionLost.
Proof.
  refine (proj2 (proj2 (driver_error_kept record_text (λ _, "") (Diagnostics lost "SQLExecDirect") [] _))).
  split; vm_compute; first [reflexivity|split; first [reflexivity|discriminate]].
Defined.
