(* ===== verification/Versions.v ===== *)
(** Versions (versioning/abi_version.rs, api_version.rs, protocol_version.rs) and the negotiation of the
    protocol (engine/core/protocol_engine.rs). *)

From S2P Require Import Prelude Wire Errors Text.

(** A major and a minor number: [AbiVersion], and [ProtocolVersion] of both modules. *)
Record Version := mkVersion { v_major : Z; v_minor : Z }.

#[global] Instance version_eq_dec : EqDecision Version.
Proof. solve_decision. Defined.

Definition u16_version (v : Version) : Prop := 0 ≤ v_major v < 2 ^ 16 ∧ 0 ≤ v_minor v < 2 ^ 16.

Definition is_compatible_with (v other : Version) : bool := (v_major v =? v_major other) && (v_minor other <=? v_minor v).

Definition is_breaking_change (v other : Version) : bool := negb (v_major v =? v_major other).

Definition version_display (v : Version) : string := fmt_Z (v_major v) +:+ "." +:+ fmt_Z (v_minor v).

Definition abi_current : Version := mkVersion 1 0.
Definition protocol_v1 : Version := mkVersion 1 0.
Definition protocol_v2 : Version := mkVersion 2 0.
Definition protocol_current : Version := protocol_v2.

(** [ApiVersion] *)
Record ApiVersion := mkApiVersion { av_major : Z; av_minor : Z; av_patch : Z }.

Definition parse_u16 (s : string) : option Z := parse_int 0 (2 ^ 16 - 1) s.

(** [current], for the version of the package. *)
Definition api_current (pkg_version : string) : ApiVersion :=
  let parts := split "." pkg_version in
  let part i := default 0 (parts !! i ≫= parse_u16) in
  mkApiVersion (part 0%nat) (part 1%nat) (part 2%nat).

Definition api_is_compatible_with (v other : ApiVersion) : bool := (av_major v =? av_major other) && (av_minor other <=? av_minor v).

Definition api_is_breaking_change (v other : ApiVersion) : bool := negb (av_major v =? av_major other).

Definition api_display (v : ApiVersion) : string := fmt_Z (av_major v) +:+ "." +:+ fmt_Z (av_minor v) +:+ "." +:+ fmt_Z (av_patch v).

(** The derived order: major, minor, patch. *)
Definition api_lt (v w : ApiVersion) : bool :=
  (av_major v <? av_major w) || (av_major v =? av_major w) && ((av_minor v <? av_minor w) || (av_minor v =? av_minor w) && (av_patch v <? av_patch w)).

(** ** The protocol engine *)

Definition supports (v other : Version) : bool := (v_major v =? v_major other) && (v_minor other <=? v_minor v).

Record ProtocolEngine := mkProtocolEngine { pe_version : Version }.

Definition engine_protocol_current : Version := mkVersion 1 0.

Definition negotiate (e : ProtocolEngine) (client_version : Version) : outcome string Version :=
  if supports (pe_version e) client_version then Ok client_version
  else if supports client_version (pe_version e) then Ok (pe_version e)
  else Err ("Version mismatch: engine=" +:+ fmt_Z (v_major (pe_version e)) +:+ "." +:+ fmt_Z (v_minor (pe_version e))
    +:+ ", client=" +:+ fmt_Z (v_major client_version) +:+ "." +:+ fmt_Z (v_minor client_version)).

(** * Compatibility is an order *)

Lemma supports_spec v w : supports v w = true ↔ v_major v = v_major w ∧ v_minor w ≤ v_minor v.
Proof. unfold supports. rewrite andb_true_iff, Z.eqb_eq, Z.leb_le. done. Qed.

#[global] Instance supports_preorder : PreOrder (λ v w, supports v w = true).
Proof. split; [intros v|intros u v w]; rewrite !supports_spec; lia. Qed.

#[global] Instance supports_antisymm : AntiSymm (=) (λ v w, supports v w = true).
Proof. intros [a b] [c d] Hv%supports_spec Hw%supports_spec. cbn in *. f_equal; lia. Qed.

(** The change is breaking exactly when neither version serves the other. *)
Theorem breaking_iff_incompatible (v w : Version) :
  is_breaking_change v w = true ↔ is_compatible_with v w = false ∧ is_compatible_with w v = false.
Proof.
  unfold is_breaking_change, is_compatible_with. destruct (Z.eqb_spec (v_major v) (v_major w)) as [->|Hne]; cbn.
  - rewrite Z.eqb_refl. cbn. rewrite !Z.leb_gt. split; [done|lia].
  - destruct (Z.eqb_spec (v_major w) (v_major v)); [congruence|done].
Qed.

(** Negotiation finds the greatest version that both sides support: it fails exactly when there is none, and then
    the major numbers differ; and it does not matter which side is the engine. *)
Theorem negotiate_greatest (e : ProtocolEngine) (c : Version) :
  match negotiate e c with
  | Ok v => (v = c ∨ v = pe_version e) ∧ supports (pe_version e) v = true ∧ supports c v = true ∧
      (∀ u, supports (pe_version e) u = true → supports c u = true → supports v u = true)
  | Err _ => ∀ u, ¬ (supports (pe_version e) u = true ∧ supports c u = true)
  | Panic => False
  end ∧
  omap_err (λ _, tt) (negotiate e c) = omap_err (λ _, tt) (negotiate (mkProtocolEngine c) (pe_version e)).
Proof.
  destruct e as [v]. unfold negotiate. cbn [pe_version].
  destruct (supports v c) eqn:Evc, (supports c v) eqn:Ecv; cbn [omap_err].
  - assert (c = v) as -> by (by apply (anti_symm (λ v w, supports v w = true))). split; [|done]. split_and!; [by left|done|done|done].
  - split; [|done]. split_and!; [by left|done|apply supports_spec; lia|done].
  - split; [|done]. split_and!; [by right|apply supports_spec; lia|done|done].
  - split; [|done]. intros u [Hv Hc]. rewrite supports_spec in Hv, Hc.
    assert (¬ (v_minor c ≤ v_minor v)) as H1 by (intros ?; assert (supports v c = true) by (apply supports_spec; lia); congruence).
    assert (¬ (v_minor v ≤ v_minor c)) as H2 by (intros ?; assert (supports c v = true) by (apply supports_spec; lia); congruence). lia.
Qed.

(** The version of the package is read back from its text, for numbers of 16 bits. *)
Theorem api_version_roundtrip (v : ApiVersion) :
  0 ≤ av_major v < 2 ^ 16 → 0 ≤ av_minor v < 2 ^ 16 → 0 ≤ av_patch v < 2 ^ 16 → api_current (api_display v) = v.
Proof.
  intros Ha Hb Hc. assert (∀ z, split "." (fmt_Z z) = [fmt_Z z]) as Hs by (intros z; apply split_no_char, fmt_Z_no_char; set_solver).
  unfold api_current, api_display.
  assert (split "." (fmt_Z (av_major v) +:+ "." +:+ fmt_Z (av_minor v) +:+ "." +:+ fmt_Z (av_patch v))
    = [fmt_Z (av_major v); fmt_Z (av_minor v); fmt_Z (av_patch v)]) as ->.
  { change ("." +:+ fmt_Z (av_minor v) +:+ "." +:+ fmt_Z (av_patch v)) with (String "." (fmt_Z (av_minor v) +:+ String "." (fmt_Z (av_patch v)))).
    by rewrite !split_app, !Hs. }
  cbn [lookup list_lookup mbind option_bind]. unfold parse_u16. rewrite !parse_int_fmt by lia. by destruct v.
Qed.

Lemma api_version_roundtrip_witness : api_current (api_display (mkApiVersion 3 5 4)) = mkApiVersion 3 5 4.
Proof. apply api_version_roundtrip; vm_compute; split; congruence. Defined.

(** A pre-release suffix is no number: its part counts as zero. *)
Example prerelease : api_current "3.5.4-beta.2" = mkApiVersion 3 5 0.
Proof. reflexivity. Qed.

(** The two modules disagree about the current protocol, and neither of the two would serve the other. *)
Example two_currents :
  negotiate (mkProtocolEngine engine_protocol_current) protocol_current = Err "Version mismatch: engine=1.0, client=2.0".
Proof. reflexivity. Qed.
