(* ===== verification/Identifier.v ===== *)
(** SQL identifiers (engine/identifier.rs): the grammar every caller-supplied
    name must satisfy and its quoting, against a lexer of quoted identifiers. *)

From S2P Require Import Prelude Wire Errors Text.

(** * Validation *)

Definition MAX_IDENTIFIER_LEN : Z := 128.

Inductive IdentifierQuoting := DoubleQuote | Brackets | Backtick.

#[export] Instance IdentifierQuoting_eq_dec : EqDecision IdentifierQuoting.
Proof. solve_decision. Defined.

Definition is_ascii_alphabetic (b : byte) : bool := in_range 65 90 b || in_range 97 122 b.
Definition is_ascii_alphanumeric (b : byte) : bool := is_ascii_alphabetic b || in_range 48 57 b.
Definition is_underscore (b : byte) : bool := b2z b =? 95.

(** The loop over [&bytes[1..]]. *)
Fixpoint check_tail (name : string) (bs : list byte) : Result unit :=
  match bs with
  | [] => Ok tt
  | b :: bs =>
      if negb (is_ascii_alphanumeric b || is_underscore b) then
        Err (ValidationError ("Identifier " +:+ debug_str name +:+ " contains invalid character " +:+ debug_byte_char b))
      else check_tail name bs
  end.

Definition validate_identifier (name : string) : Result unit :=
  let bytes := as_bytes name in
  if len bytes =? 0 then Err (ValidationError "Identifier must not be empty")
  else if MAX_IDENTIFIER_LEN <? len bytes then
    Err (ValidationError ("Identifier exceeds " +:+ fmt_Z MAX_IDENTIFIER_LEN +:+ " characters"))
  else
    let? first := index bytes 0 in
    if negb (is_ascii_alphabetic first || is_underscore first) then
      Err (ValidationError ("Identifier " +:+ debug_str name +:+ " must start with ASCII letter or underscore"))
    else
      let? tail := slice_from bytes 1 in
      check_tail name tail.

(** * Quoting *)

Definition open_quote (q : IdentifierQuoting) : ascii :=
  match q with DoubleQuote => chr 34 | Brackets => chr 91 | Backtick => chr 96 end.

Definition close_quote (q : IdentifierQuoting) : ascii :=
  match q with DoubleQuote => chr 34 | Brackets => chr 93 | Backtick => chr 96 end.

(** [IdentifierQuoting::wrap] *)
Definition wrap (q : IdentifierQuoting) (validated : string) : string :=
  String (open_quote q) validated +:+ String (close_quote q) EmptyString.

Definition quote_identifier (name : string) (style : IdentifierQuoting) : Result string :=
  let? _ := validate_identifier name in
  Ok (wrap style name).

Definition quote_identifier_default (name : string) : Result string := quote_identifier name DoubleQuote.

Definition quote_qualified_default (qualified : string) : Result string :=
  let parts := split "." qualified in
  if len parts =? 0 then Err (ValidationError "Qualified identifier must not be empty")
  else
    let? quoted_parts := omap_list quote_identifier_default parts in
    Ok (join "." quoted_parts).

(** * The grammar *)

(** A letter or underscore, then letters, digits and underscores, at most 128 in all. *)
Definition ident_byte (b : byte) : bool := is_ascii_alphanumeric b || is_underscore b.

Definition is_identifier (name : string) : Prop :=
  ∃ first tail, as_bytes name = first :: tail ∧
    is_ascii_alphabetic first || is_underscore first = true ∧
    Forall (λ b, ident_byte b = true) tail ∧ 1 + len tail ≤ MAX_IDENTIFIER_LEN.

Lemma check_tail_spec name bs :
  (check_tail name bs = Ok tt ∧ Forall (λ b, ident_byte b = true) bs) ∨
  ((∃ m, check_tail name bs = Err (ValidationError m)) ∧ ¬ Forall (λ b, ident_byte b = true) bs).
Proof.
  induction bs as [|b bs IH]; cbn [check_tail]; [by left|]. fold (ident_byte b).
  destruct (ident_byte b) eqn:Hb; cbn [negb].
  - destruct IH as [[-> H]|[H Hn]]; [left|right]; split; try done; [by constructor|by rewrite Forall_cons; intros []].
  - right. split; [by eexists|]. rewrite Forall_cons. intros [Hc _]. congruence.
Qed.

Lemma validate_identifier_cases name :
  (validate_identifier name = Ok tt ∧ is_identifier name) ∨
  ((∃ m, validate_identifier name = Err (ValidationError m)) ∧ ¬ is_identifier name).
Proof.
  unfold validate_identifier, is_identifier.
  destruct (as_bytes name) as [|b bs] eqn:Hn.
  { right. split; [by eexists|]. by intros (f & t & ? & _). }
  destruct (Z.eqb_spec (len (b :: bs)) 0) as [H0|_]; [rewrite len_cons in H0; pose proof (len_nonneg bs); lia|].
  destruct (Z.ltb_spec MAX_IDENTIFIER_LEN (len (b :: bs))) as [Hlt|Hle]; rewrite len_cons in *.
  { right. split; [by eexists|]. intros (f & t & [= <- <-] & _ & _ & ?). lia. }
  rewrite (index_lookup (E := OdbcError) (b :: bs) 0 b eq_refl). cbn [obind].
  destruct (is_ascii_alphabetic b || is_underscore b) eqn:Hb; cbn [negb].
  2: { right. split; [by eexists|]. intros (f & t & [= <- <-] & ? & _). congruence. }
  rewrite slice_from_Ok by (simpl; lia). cbn [obind drop]; rewrite drop_0.
  destruct (check_tail_spec name bs) as [[-> Hf]|[He Hf]].
  - left. split; [done|]. by exists b, bs.
  - right. split; [done|]. intros (f & t & [= <- <-] & _ & ? & _). done.
Qed.

(** The validator accepts exactly the identifiers of the grammar, and refuses
    everything else with a validation error (never a panic). *)
Theorem validate_identifier_spec (name : string) :
  (validate_identifier name = Ok tt ↔ is_identifier name) ∧
  (¬ is_identifier name → ∃ m, validate_identifier name = Err (ValidationError m)).
Proof.
  destruct (validate_identifier_cases name) as [[He Hi]|[[m He] Hi]]; rewrite He; split; try done.
  by intros _; exists m.
Qed.

Lemma validate_identifier_spec_witness : ∃ m, validate_identifier "a; DROP" = Err (ValidationError m).
Proof.
  apply validate_identifier_spec. intros (f & t & Ht & _ & Hf & _).
  vm_compute in Ht. injection Ht as <- <-. inversion Hf as [|? ? H _]. vm_compute in H. discriminate H.
Defined.

(** * Quoting is injective for a lexer of quoted identifiers *)

(** A SQL lexer on a quoted identifier, after the opening quote: a doubled closing
    quote stands for the quote itself. *)
Fixpoint lex_body (close : ascii) (s : string) : option (string * string) :=
  match s with
  | EmptyString => None
  | String c s' =>
      if Ascii.eqb c close then
        match s' with
        | String d s'' =>
            if Ascii.eqb d close then
              match lex_body close s'' with Some (n, r) => Some (String c n, r) | None => None end
            else Some (EmptyString, s')
        | EmptyString => Some (EmptyString, s')
        end
      else match lex_body close s' with Some (n, r) => Some (String c n, r) | None => None end
  end.

Definition lex_quoted (q : IdentifierQuoting) (s : string) : option (string * string) :=
  match s with
  | String c s => if Ascii.eqb c (open_quote q) then lex_body (close_quote q) s else None
  | EmptyString => None
  end.

(** [rest] does not go on with the closing quote. *)
Definition starts_otherwise (q : IdentifierQuoting) (rest : string) : Prop :=
  match rest with EmptyString => True | String c _ => c ≠ close_quote q end.

Definition ident_char (c : ascii) : Prop := ident_byte (byte_of_ascii c) = true.

Lemma as_bytes_cons c s : as_bytes (String c s) = byte_of_ascii c :: as_bytes s.
Proof. reflexivity. Qed.

(** No identifier character is a quote, a dot or anything else with a meaning in SQL. *)
Lemma ident_char_not_special c :
  ident_char c → (∀ q, c ≠ close_quote q) ∧ c ≠ "."%char.
Proof.
  unfold ident_char. intros H. split; [intros q ->; by destruct q|]. by intros ->.
Qed.

Lemma first_ident_byte b : is_ascii_alphabetic b || is_underscore b = true → ident_byte b = true.
Proof. unfold ident_byte, is_ascii_alphanumeric. destruct (is_ascii_alphabetic b), (is_underscore b), (in_range 48 57 b); done. Qed.

Fixpoint all_chars (P : ascii → Prop) (s : string) : Prop :=
  match s with EmptyString => True | String c s => P c ∧ all_chars P s end.

Lemma all_chars_bytes s : Forall (λ b, ident_byte b = true) (as_bytes s) → all_chars ident_char s.
Proof.
  induction s as [|c s IH]; [done|]. rewrite as_bytes_cons, Forall_cons. intros [Hc Hs]. split; [done|auto].
Qed.

Lemma identifier_chars name : is_identifier name → all_chars ident_char name.
Proof.
  intros (f & t & Hn & Hf & Ht & _). apply all_chars_bytes. rewrite Hn. constructor; [by apply first_ident_byte|done].
Qed.

Lemma lex_body_ident q name rest :
  all_chars ident_char name → starts_otherwise q rest →
  lex_body (close_quote q) (name +:+ String (close_quote q) rest) = Some (name, rest).
Proof.
  intros Hn Hr. induction name as [|c name IH].
  - rewrite string_app_nil_l. simpl. rewrite Ascii.eqb_refl. destruct rest as [|d rest]; [done|]. simpl in Hr.
    destruct (Ascii.eqb_spec d (close_quote q)); done.
  - destruct Hn as [Hc Hn]. rewrite string_app_cons. simpl. destruct (Ascii.eqb_spec c (close_quote q)) as [He|_].
    { by destruct (proj1 (ident_char_not_special c Hc) q). }
    by rewrite IH.
Qed.

Lemma lex_wrap q name rest :
  is_identifier name → starts_otherwise q rest → lex_quoted q (wrap q name +:+ rest) = Some (name, rest).
Proof.
  intros Hn Hr. unfold lex_quoted, wrap. rewrite !string_app_cons, Ascii.eqb_refl, string_app_assoc.
  by apply lex_body_ident; [apply identifier_chars|].
Qed.

Lemma quote_identifier_cases name style :
  (is_identifier name ∧ quote_identifier name style = Ok (wrap style name)) ∨
  (¬ is_identifier name ∧ ∃ m, quote_identifier name style = Err (ValidationError m)).
Proof.
  unfold quote_identifier.
  destruct (validate_identifier_cases name) as [[-> ?]|[[m ->] ?]]; [by left|right; split; [done|by exists m]].
Qed.

Lemma quote_identifier_inv name style q :
  quote_identifier name style = Ok q → is_identifier name ∧ q = wrap style name.
Proof.
  destruct (quote_identifier_cases name style) as [[? ->]|[? [m ->]]]; [|done]. by intros [= ->].
Qed.

(** Quoting is injection-safe: whatever name was supplied, if quoting succeeds
    then a SQL lexer reads back exactly that name and leaves exactly the text the
    engine put after it. *)
Theorem quote_identifier_safe (name : string) (style : IdentifierQuoting) (quoted rest : string) :
  quote_identifier name style = Ok quoted → starts_otherwise style rest →
  lex_quoted style (quoted +:+ rest) = Some (name, rest).
Proof. intros [Hn ->]%quote_identifier_inv Hr. by apply lex_wrap. Qed.

Lemma quote_identifier_safe_witness :
  lex_quoted Brackets ("[sp_1]" +:+ "; COMMIT") = Some ("sp_1", "; COMMIT").
Proof. apply quote_identifier_safe; [vm_compute; reflexivity | vm_compute; discriminate]. Defined.

(** ** Qualified names *)

(** A lexer of dotted quoted names; the fuel bounds the number of parts. *)
Fixpoint lex_qualified (fuel : nat) (s : string) : option (list string) :=
  match fuel with
  | O => None
  | S fuel =>
      match lex_quoted DoubleQuote s with
      | Some (n, EmptyString) => Some [n]
      | Some (n, String c s) => if Ascii.eqb c "." then cons n <$> lex_qualified fuel s else None
      | None => None
      end
  end.

Lemma lex_qualified_join parts fuel :
  parts ≠ [] → Forall is_identifier parts → (length parts ≤ fuel)%nat →
  lex_qualified fuel (join "." (map (wrap DoubleQuote) parts)) = Some parts.
Proof.
  intros Hne Hp. revert fuel Hne. induction Hp as [|p ps Hp Hps IH]; intros fuel Hne Hf; [done|].
  destruct fuel as [|fuel]; [simpl in Hf; lia|]. destruct ps as [|p' ps].
  - cbn [map join lex_qualified]. rewrite <- (string_app_nil_r (wrap _ _)). by rewrite lex_wrap.
  - change (join "." (map (wrap DoubleQuote) (p :: p' :: ps)))
      with (wrap DoubleQuote p +:+ ("." +:+ join "." (map (wrap DoubleQuote) (p' :: ps)))).
    cbn [lex_qualified]. rewrite lex_wrap by done. rewrite string_app_cons, Ascii.eqb_refl, string_app_nil_l.
    rewrite IH; [done|done|simpl in *; lia].
Qed.

Lemma quote_all_cases parts :
  (Forall is_identifier parts ∧ omap_list quote_identifier_default parts = Ok (map (wrap DoubleQuote) parts)) ∨
  (¬ Forall is_identifier parts ∧ ∃ m, omap_list quote_identifier_default parts = Err (ValidationError m)).
Proof.
  induction parts as [|p ps IH]; [by left|]. cbn [omap_list]. unfold quote_identifier_default at 1 3.
  destruct (quote_identifier_cases p DoubleQuote) as [[Hp ->]|[Hp [m ->]]]; cbn [obind].
  - destruct IH as [[Hps ->]|[Hps [m ->]]]; cbn [obind]; [left|right].
    + split; [by constructor|done].
    + split; [by rewrite Forall_cons; intros []|by exists m].
  - right. split; [by rewrite Forall_cons; intros []|by exists m].
Qed.

Lemma quote_identifier_no_panic name style : quote_identifier name style ≠ Panic.
Proof. by destruct (quote_identifier_cases name style) as [[_ ->]|[_ [m ->]]]. Qed.

Lemma quote_all_no_panic parts : omap_list quote_identifier_default parts ≠ Panic.
Proof. by destruct (quote_all_cases parts) as [[_ ->]|[_ [m ->]]]. Qed.

Lemma quote_qualified_no_panic q : quote_qualified_default q ≠ Panic.
Proof.
  unfold quote_qualified_default. case_if; [done|]. apply obind_no_panic; [apply quote_all_no_panic|done].
Qed.

(** A qualified name is quoted exactly when each of its dot-separated segments
    is an identifier, and then a SQL lexer reads back those segments. *)
Theorem quote_qualified_spec (qualified : string) :
  (Forall is_identifier (split "." qualified) ∧
   ∃ q, quote_qualified_default qualified = Ok q ∧
     lex_qualified (length (split "." qualified)) q = Some (split "." qualified)) ∨
  (¬ Forall is_identifier (split "." qualified) ∧ ∃ m, quote_qualified_default qualified = Err (ValidationError m)).
Proof.
  pose proof (split_nonempty "." qualified) as Hne. unfold quote_qualified_default.
  destruct (Z.eqb_spec (len (split "." qualified)) 0) as [H0|_].
  { destruct (split "." qualified); [done|]. rewrite len_cons in H0. pose proof (len_nonneg l). lia. }
  destruct (quote_all_cases (split "." qualified)) as [[Hp ->]|[Hp [m ->]]]; [left|right]; (split; [done|]).
  - eexists; split; [reflexivity|]. by apply lex_qualified_join.
  - by exists m.
Qed.
