(* ===== verification/Capabilities.v ===== *)
(** Driver capabilities (engine/core/driver_capabilities.rs): which engine a driver
    name or connection string stands for. *)

From S2P Require Import Prelude Wire Errors Text.

Definition ENGINE_SQLSERVER : string := "sqlserver".
Definition ENGINE_POSTGRES : string := "postgres".
Definition ENGINE_MYSQL : string := "mysql".
Definition ENGINE_MARIADB : string := "mariadb".
Definition ENGINE_ORACLE : string := "oracle".
Definition ENGINE_SYBASE_ASE : string := "sybase_ase".
Definition ENGINE_SYBASE_ASA : string := "sybase_asa".
Definition ENGINE_SQLITE : string := "sqlite".
Definition ENGINE_DB2 : string := "db2".
Definition ENGINE_SNOWFLAKE : string := "snowflake".
Definition ENGINE_REDSHIFT : string := "redshift".
Definition ENGINE_BIGQUERY : string := "bigquery".
Definition ENGINE_MONGODB : string := "mongodb".
Definition ENGINE_UNKNOWN : string := "unknown".

Record DriverCapabilities := mkCaps {
  supports_prepared_statements : bool;
  supports_batch_operations : bool;
  supports_streaming : bool;
  max_row_array_size : Z;
  driver_name : string;
  driver_version : string;
  engine : string
}.

#[export] Instance DriverCapabilities_eq_dec : EqDecision DriverCapabilities.
Proof. solve_decision. Defined.

Definition caps_default : DriverCapabilities := mkCaps true true true 1000 "Unknown" "Unknown" ENGINE_UNKNOWN.

Definition canonical (engine display : string) (max_array : Z) : DriverCapabilities :=
  mkCaps true true true max_array display "Unknown" engine.

Definition contains (hay needle : string) : bool := str_contains needle hay.

Definition engine_from_name (lower : string) : string :=
  if contains lower "sql anywhere" || contains lower "adaptive server anywhere"
     || contains lower "asa" && (contains lower "sybase" || contains lower "sql anywhere") then ENGINE_SYBASE_ASA
  else if contains lower "adaptive server enterprise"
     || contains lower "ase" && (contains lower "sybase" || contains lower "adaptive") then ENGINE_SYBASE_ASE
  else if contains lower "sybase" then ENGINE_SYBASE_ASE
  else if contains lower "mariadb" then ENGINE_MARIADB
  else if contains lower "microsoft sql server" || contains lower "sql server" || contains lower "mssql"
     || String.eqb lower "sqlserver" || contains lower "sqlsrv32" then ENGINE_SQLSERVER
  else if contains lower "postgresql" || contains lower "postgres" then ENGINE_POSTGRES
  else if contains lower "mysql" then ENGINE_MYSQL
  else if contains lower "oracle" then ENGINE_ORACLE
  else if contains lower "sqlite" then ENGINE_SQLITE
  else if String.eqb lower "db2" || contains lower " db2" || contains lower "ibm db2" || contains lower "db2/" then ENGINE_DB2
  else if contains lower "snowflake" then ENGINE_SNOWFLAKE
  else if contains lower "redshift" then ENGINE_REDSHIFT
  else if contains lower "bigquery" then ENGINE_BIGQUERY
  else if contains lower "mongodb" then ENGINE_MONGODB
  else ENGINE_UNKNOWN.

Definition from_driver_name (name : string) : DriverCapabilities :=
  let normalized := to_lowercase (trim name) in
  let e := engine_from_name normalized in
  if String.eqb e ENGINE_SQLSERVER then canonical ENGINE_SQLSERVER "SQL Server" 2000
  else if String.eqb e ENGINE_POSTGRES then canonical ENGINE_POSTGRES "PostgreSQL" 2000
  else if String.eqb e ENGINE_MYSQL then canonical ENGINE_MYSQL "MySQL" 1500
  else if String.eqb e ENGINE_MARIADB then canonical ENGINE_MARIADB "MariaDB" 1500
  else if String.eqb e ENGINE_ORACLE then canonical ENGINE_ORACLE "Oracle" 5000
  else if String.eqb e ENGINE_SYBASE_ASE then canonical ENGINE_SYBASE_ASE "Adaptive Server Enterprise" 1000
  else if String.eqb e ENGINE_SYBASE_ASA then canonical ENGINE_SYBASE_ASA "SQL Anywhere" 1000
  else if String.eqb e ENGINE_SQLITE then canonical ENGINE_SQLITE "SQLite" 1000
  else if String.eqb e ENGINE_DB2 then canonical ENGINE_DB2 "IBM Db2" 1000
  else if String.eqb e ENGINE_SNOWFLAKE then canonical ENGINE_SNOWFLAKE "Snowflake" 1000
  else if String.eqb e ENGINE_REDSHIFT then canonical ENGINE_REDSHIFT "Amazon Redshift" 1000
  else if String.eqb e ENGINE_BIGQUERY then canonical ENGINE_BIGQUERY "Google BigQuery" 1000
  else if String.eqb e ENGINE_MONGODB then canonical ENGINE_MONGODB "MongoDB" 1000
  else caps_default.

Definition detect_from_connection_string (connection_string : string) : DriverCapabilities :=
  let lower := to_lowercase connection_string in
  let engine := engine_from_name lower in
  if String.eqb engine ENGINE_UNKNOWN then caps_default else from_driver_name engine.

(** * Canonical ids *)

Definition known_engines : list string :=
  [ENGINE_SQLSERVER; ENGINE_POSTGRES; ENGINE_MYSQL; ENGINE_MARIADB; ENGINE_ORACLE; ENGINE_SYBASE_ASE;
   ENGINE_SYBASE_ASA; ENGINE_SQLITE; ENGINE_DB2; ENGINE_SNOWFLAKE; ENGINE_REDSHIFT; ENGINE_BIGQUERY; ENGINE_MONGODB].

Lemma engine_from_name_known s : In (engine_from_name s) (ENGINE_UNKNOWN :: known_engines).
Proof.
  unfold engine_from_name.
  repeat match goal with |- context [if ?b then _ else _] => destruct b end; simpl; tauto.
Qed.

Lemma from_driver_name_engine name : engine (from_driver_name name) = engine_from_name (to_lowercase (trim name)).
Proof.
  unfold from_driver_name. pose proof (engine_from_name_known (to_lowercase (trim name))) as Hk.
  set (e := engine_from_name _) in *. clearbody e. simpl in Hk.
  repeat (destruct Hk as [<-|Hk]; [reflexivity|]). done.
Qed.

(** Detection is canonical: the engine id found in any driver name, or in any
    connection string, is one of the fourteen ids, and looking an id up again
    gives the same engine and the same capabilities. *)
Theorem from_driver_name_canonical (name : string) :
  In (engine (from_driver_name name)) (ENGINE_UNKNOWN :: known_engines) ∧
  from_driver_name (engine (from_driver_name name)) = from_driver_name name ∧
  engine (detect_from_connection_string name) = engine_from_name (to_lowercase name).
Proof.
  rewrite from_driver_name_engine. split; [apply engine_from_name_known|]. split.
  - unfold from_driver_name at 2. pose proof (engine_from_name_known (to_lowercase (trim name))) as Hk.
    set (e := engine_from_name _) in *. clearbody e. simpl in Hk.
    repeat (destruct Hk as [<-|Hk]; [vm_compute; reflexivity|]). done.
  - unfold detect_from_connection_string. pose proof (engine_from_name_known (to_lowercase name)) as Hk.
    set (e := engine_from_name _) in *. clearbody e. simpl in Hk.
    repeat (destruct Hk as [<-|Hk]; [vm_compute; reflexivity|]). done.
Qed.
