(* ===== verification/SqlText.v ===== *)
(** SQL as text: searching and splicing as Rust does it on byte positions, and a lexer that
    tells what stands inside quotes from what the engine will read as SQL.

    The lexer is a machine over single characters, so that it runs over a text put together
    from parts by running over the parts one after another. *)

From S2P Require Import Prelude Wire Errors Text Identifier.

(** * Positions *)

Fixpoint str_take (n : nat) (s : string) : string :=
  match n, s with S n, String c s => String c (str_take n s) | _, _ => EmptyString end.

Fixpoint str_drop (n : nat) (s : string) : string :=
  match n, s with S n, String _ s => str_drop n s | _, _ => s end.

(** [find] and [rfind] with a string pattern. *)
Fixpoint find (p s : string) : option nat :=
  if str_starts_with s p then Some O
  else match s with EmptyString => None | String _ s' => S <$> find p s' end.

Fixpoint rfind (p s : string) : option nat :=
  match s with
  | EmptyString => if str_starts_with s p then Some O else None
  | String _ s' =>
      match rfind p s' with
      | Some n => Some (S n)
      | None => if str_starts_with s p then Some O else None
      end
  end.

(** [is_char_boundary]: the end of the text, or a byte that does not continue a character. *)
Definition is_char_boundary (n : nat) (s : string) : bool :=
  match str_drop n s with
  | EmptyString => (n <=? String.length s)%nat
  | String c _ => negb (is_cont (byte_of_ascii c))
  end.

(** [split_at] panics inside a character. *)
Definition split_at {E : Type} (n : nat) (s : string) : outcome E (string * string) :=
  if is_char_boundary n s then Ok (str_take n s, str_drop n s) else Panic.

(** [trim_end_matches] with a character. *)
Fixpoint trim_end_matches (c : ascii) (s : string) : string :=
  match s with
  | EmptyString => EmptyString
  | String d s' =>
      match trim_end_matches c s' with
      | EmptyString => if Ascii.eqb d c then EmptyString else String d EmptyString
      | t => String d t
      end
  end.

(** [replace] of a character by a text. *)
Fixpoint replace_char (c : ascii) (by_ : string) (s : string) : string :=
  match s with
  | EmptyString => EmptyString
  | String d s => if Ascii.eqb d c then by_ +:+ replace_char c by_ s else String d (replace_char c by_ s)
  end.

(** [to_uppercase].  These are the characters outside ASCII whose upper-case form holds an
    ASCII letter; the others are kept, as in [to_lowercase]. *)
Fixpoint upper_bytes (bs : list byte) : list byte :=
  match bs with
  | xc3 :: x9f :: bs => x53 :: x53 :: upper_bytes bs
  | xc4 :: xb1 :: bs => x49 :: upper_bytes bs
  | xc5 :: x89 :: bs => xca :: xbc :: x4e :: upper_bytes bs
  | xc5 :: xbf :: bs => x53 :: upper_bytes bs
  | xc7 :: xb0 :: bs => x4a :: xcc :: x8c :: upper_bytes bs
  | xe1 :: xba :: x96 :: bs => x48 :: xcc :: xb1 :: upper_bytes bs
  | xe1 :: xba :: x97 :: bs => x54 :: xcc :: x88 :: upper_bytes bs
  | xe1 :: xba :: x98 :: bs => x57 :: xcc :: x8a :: upper_bytes bs
  | xe1 :: xba :: x99 :: bs => x59 :: xcc :: x8a :: upper_bytes bs
  | xe1 :: xba :: x9a :: bs => x41 :: xca :: xbe :: upper_bytes bs
  | xef :: xac :: x80 :: bs => x46 :: x46 :: upper_bytes bs
  | xef :: xac :: x81 :: bs => x46 :: x49 :: upper_bytes bs
  | xef :: xac :: x82 :: bs => x46 :: x4c :: upper_bytes bs
  | xef :: xac :: x83 :: bs => x46 :: x46 :: x49 :: upper_bytes bs
  | xef :: xac :: x84 :: bs => x46 :: x46 :: x4c :: upper_bytes bs
  | xef :: xac :: x85 :: bs => x53 :: x54 :: upper_bytes bs
  | xef :: xac :: x86 :: bs => x53 :: x54 :: upper_bytes bs
  | b :: bs => (if in_range 97 122 b then z2b (b2z b - 32) else b) :: upper_bytes bs
  | [] => []
  end.

Definition to_uppercase (s : string) : string := string_of_bytes (upper_bytes (as_bytes s)).

(** How often a character occurs. *)
Fixpoint count (c : ascii) (s : string) : nat :=
  match s with EmptyString => O | String d s => ((if Ascii.eqb d c then 1 else 0) + count c s)%nat end.

(** ** Lemmas on positions *)

Lemma take_drop_str n s : str_take n s +:+ str_drop n s = s.
Proof.
  revert s. induction n as [|n IH]; intros [|c s]; try done. cbn [str_take str_drop]. by rewrite string_app_cons, IH.
Qed.

Lemma take_app_str a b : str_take (String.length a) (a +:+ b) = a.
Proof. induction a as [|c a IH]; [by destruct b|]. rewrite string_app_cons. cbn. by rewrite IH. Qed.

Lemma drop_app_str a b : str_drop (String.length a) (a +:+ b) = b.
Proof. induction a as [|c a IH]; [by destruct b|]. rewrite string_app_cons. cbn. by rewrite IH. Qed.

Lemma strip_prefix_Some p s r : strip_prefix p s = Some r ↔ s = p +:+ r.
Proof.
  revert s. induction p as [|c p IH]; intros s.
  - rewrite string_app_nil_l. destruct s; cbn; split; congruence.
  - rewrite string_app_cons. destruct s as [|d s]; [done|]. cbn.
    destruct (Ascii.eqb_spec c d) as [<-|Hn]; [|split; [done|congruence]]. rewrite IH. split; congruence.
Qed.

Lemma starts_with_spec s p : str_starts_with s p = true ↔ ∃ r, s = p +:+ r.
Proof.
  unfold str_starts_with. destruct (strip_prefix p s) as [r|] eqn:E.
  - apply strip_prefix_Some in E. split; [by exists r|done].
  - split; [done|]. intros [r Hr%strip_prefix_Some]. congruence.
Qed.

(** What a search finds is where the pattern stands. *)
Lemma find_Some p s n : find p s = Some n → ∃ a b, s = a +:+ p +:+ b ∧ String.length a = n.
Proof.
  revert n. induction s as [|c s IH]; intros n; cbn [find].
  - case_match eqn:E; [|done]. intros [= <-]. apply starts_with_spec in E as [r ->]. by exists EmptyString, r.
  - case_match eqn:E.
    + intros [= <-]. apply starts_with_spec in E as [r ->]. by exists EmptyString, r.
    + intros (m & Hm & ->)%fmap_Some. destruct (IH m Hm) as (a & b & -> & <-). by exists (String c a), b.
Qed.

Lemma rfind_Some p s n : rfind p s = Some n → ∃ a b, s = a +:+ p +:+ b ∧ String.length a = n.
Proof.
  revert n. induction s as [|c s IH]; intros n; cbn [rfind].
  - case_match eqn:E; [|done]. intros [= <-]. apply starts_with_spec in E as [r ->]. by exists EmptyString, r.
  - destruct (rfind p s) as [m|] eqn:Hm.
    + intros [= <-]. destruct (IH m eq_refl) as (a & b & -> & <-). by exists (String c a), b.
    + case_match eqn:E; [|done]. intros [= <-]. apply starts_with_spec in E as [r ->]. by exists EmptyString, r.
Qed.

Lemma length_string_map f s : String.length (string_map f s) = String.length s.
Proof. induction s as [|c s IH]; cbn; [done|by rewrite IH]. Qed.

Lemma drop_string_map f n s : str_drop n (string_map f s) = string_map f (str_drop n s).
Proof. revert s. induction n as [|n IH]; intros [|c s]; cbn; try done. Qed.

Lemma trim_end_matches_prefix c s : ∃ t, s = trim_end_matches c s +:+ t.
Proof.
  induction s as [|d s [t IH]]; [by exists EmptyString|]. cbn [trim_end_matches].
  destruct (trim_end_matches c s) as [|e u] eqn:E.
  - destruct (Ascii.eqb d c); [by exists (String d s)|]. exists s. reflexivity.
  - exists t. rewrite string_app_cons. by rewrite <- IH.
Qed.

(** * The lexer *)

(** What a quote holds: a string literal, or a name. *)
Inductive Quote := Literal (c : ascii) | Named (q : IdentifierQuoting).

Definition closing (q : Quote) : ascii := match q with Literal c => c | Named q => close_quote q end.

(** Which characters open a quote depends on the engine. *)
Definition Dialect := ascii → option Quote.

Definition apostrophe : ascii := chr 39.

Definition ansi : Dialect := λ c,
  if Ascii.eqb c apostrophe then Some (Literal apostrophe) else if Ascii.eqb c (chr 34) then Some (Named DoubleQuote) else None.
Definition tsql : Dialect := λ c, if Ascii.eqb c (chr 91) then Some (Named Brackets) else ansi c.

(** MySQL and MariaDB, with the mode ANSI_QUOTES and without it, which is the default: a text
    between double quotes is a string. *)
Definition mysql_ansi : Dialect := λ c, if Ascii.eqb c (chr 96) then Some (Named Backtick) else ansi c.
Definition mysql_default : Dialect := λ c,
  if Ascii.eqb c (chr 34) then Some (Literal (chr 34)) else mysql_ansi c.

Inductive Tok := Plain (c : ascii) | Quoted (q : Quote) (s : string).

(** Outside quotes; inside one, with what has been read; or after its closing character,
    which a second one makes a character of the text. *)
Inductive Mode := Outside | Inside (q : Quote) (acc : string) | Shut (q : Quote) (acc : string).

Definition snoc (s : string) (c : ascii) : string := s +:+ String c EmptyString.

Definition out_step (d : Dialect) (c : ascii) : list Tok * Mode :=
  match d c with Some q => ([], Inside q EmptyString) | None => ([Plain c], Outside) end.

Definition lex_step (d : Dialect) (m : Mode) (c : ascii) : list Tok * Mode :=
  match m with
  | Outside => out_step d c
  | Inside q acc => if Ascii.eqb c (closing q) then ([], Shut q acc) else ([], Inside q (snoc acc c))
  | Shut q acc =>
      if Ascii.eqb c (closing q) then ([], Inside q (snoc acc c))
      else let '(t, m) := out_step d c in (Quoted q acc :: t, m)
  end.

Fixpoint lex_run (d : Dialect) (m : Mode) (s : string) : list Tok * Mode :=
  match s with
  | EmptyString => ([], m)
  | String c s => let '(t, m) := lex_step d m c in let '(u, m) := lex_run d m s in (t ++ u, m)
  end.

(** An unclosed quote is an error. *)
Definition lex (d : Dialect) (s : string) : option (list Tok) :=
  match lex_run d Outside s with
  | (t, Outside) => Some t
  | (t, Shut q acc) => Some (t ++ [Quoted q acc])
  | (_, Inside _ _) => None
  end.

(** The text outside quotes and what the quotes hold. *)
Fixpoint plain (ts : list Tok) : string :=
  match ts with [] => EmptyString | Plain c :: ts => String c (plain ts) | Quoted _ _ :: ts => plain ts end.

Fixpoint quotes (ts : list Tok) : list (Quote * string) :=
  match ts with [] => [] | Plain _ :: ts => quotes ts | Quoted q s :: ts => (q, s) :: quotes ts end.

Lemma plain_app a b : plain (a ++ b) = plain a +:+ plain b.
Proof. induction a as [|[c|q s] a IH]; cbn; [done|by rewrite IH|done]. Qed.

Lemma quotes_app a b : quotes (a ++ b) = quotes a ++ quotes b.
Proof. induction a as [|[c|q s] a IH]; cbn; [done|done|by rewrite IH]. Qed.

Lemma lex_run_app d m a b :
  lex_run d m (a +:+ b) = let '(t, m') := lex_run d m a in let '(u, m'') := lex_run d m' b in (t ++ u, m'').
Proof.
  revert m. induction a as [|c a IH]; intros m; cbn [lex_run].
  - rewrite string_app_nil_l. by destruct (lex_run d m b).
  - rewrite string_app_cons. cbn [lex_run]. destruct (lex_step d m c) as [t m']. rewrite IH.
    destruct (lex_run d m' a) as [u m'']. destruct (lex_run d m'' b) as [v m3]. by rewrite app_assoc.
Qed.

(** * Texts put together from parts *)

(** A text without quotes, a quoted name, or a literal with its apostrophes doubled. *)
Inductive Piece := Txt (s : string) | Name (q : IdentifierQuoting) (n : string) | Lit (s : string).

Definition doubled (c : ascii) (s : string) : string := replace_char c (String c (String c EmptyString)) s.

Definition render_piece (p : Piece) : string :=
  match p with
  | Txt s => s
  | Name q n => wrap q n
  | Lit s => String apostrophe (doubled apostrophe s) +:+ String apostrophe EmptyString
  end.

Fixpoint render (ps : list Piece) : string :=
  match ps with [] => EmptyString | p :: ps => render_piece p +:+ render ps end.

Definition chars (s : string) : list Tok := map Plain (list_ascii_of_string s).

Definition piece_toks (p : Piece) : list Tok :=
  match p with Txt s => chars s | Name q n => [Quoted (Named q) n] | Lit s => [Quoted (Literal apostrophe) s] end.

Definition toks (ps : list Piece) : list Tok := concat (map piece_toks ps).

Lemma render_app a b : render (a ++ b) = render a +:+ render b.
Proof. induction a as [|p a IH]; cbn; [by rewrite string_app_nil_l|]. by rewrite IH, string_app_assoc. Qed.

Lemma toks_app a b : toks (a ++ b) = toks a ++ toks b.
Proof. unfold toks. by rewrite map_app, concat_app. Qed.

(** ** When the lexer reads the parts back *)

(** A character that neither opens nor closes anything. *)
Definition plain_char (d : Dialect) (c : ascii) : bool :=
  match d c with None => negb (Ascii.eqb c (chr 93)) | Some _ => false end.

Fixpoint forall_chars (p : ascii → bool) (s : string) : bool :=
  match s with EmptyString => true | String c s => p c && forall_chars p s end.

Definition opened_by (d : Dialect) (q : Quote) (c : ascii) : bool :=
  match d c, q with
  | Some (Named q'), Named q => bool_decide (q' = q)
  | Some (Literal a), Literal b => Ascii.eqb a b
  | _, _ => false
  end.

(** Two quoted parts do not stand side by side; [prev] says that a quoted part stands before. *)
Fixpoint readable (d : Dialect) (prev : bool) (ps : list Piece) : bool :=
  match ps with
  | [] => true
  | Txt s :: ps => forall_chars (plain_char d) s && readable d (prev && String.eqb s EmptyString) ps
  | Name q n :: ps =>
      negb prev && opened_by d (Named q) (open_quote q)
      && forall_chars (λ c, negb (Ascii.eqb c (close_quote q))) n && readable d true ps
  | Lit s :: ps => negb prev && opened_by d (Literal apostrophe) apostrophe && readable d true ps
  end.

Fixpoint ends_quoted (prev : bool) (ps : list Piece) : bool :=
  match ps with
  | [] => prev
  | Txt s :: ps => ends_quoted (prev && String.eqb s EmptyString) ps
  | _ :: ps => ends_quoted true ps
  end.

Lemma readable_app d prev a b : readable d prev (a ++ b) = readable d prev a && readable d (ends_quoted prev a) b.
Proof.
  revert prev. induction a as [|[s|q n|s] a IH]; intros prev; cbn; [done|..]; rewrite IH; by rewrite !andb_assoc.
Qed.

Lemma ends_app prev a b : ends_quoted prev (a ++ b) = ends_quoted (ends_quoted prev a) b.
Proof. revert prev. induction a as [|[s|q n|s] a IH]; intros prev; cbn; [done|..]; apply IH. Qed.

(** What the lexer still holds back. *)
Definition pending (m : Mode) : list Tok := match m with Shut q acc => [Quoted q acc] | _ => [] end.

Definition settled (d : Dialect) (prev : bool) (m : Mode) : Prop :=
  match m with Outside => True | Shut q _ => prev = true ∧ ∃ c, d c = Some q | Inside _ _ => False end.

Lemma opened_by_spec d q c : opened_by d q c = true → d c = Some q.
Proof.
  unfold opened_by. destruct (d c) as [[a|q']|], q as [b|q]; try done.
  - by intros ->%Ascii.eqb_eq.
  - by intros ->%bool_decide_eq_true.
Qed.

Lemma plain_char_spec d c : plain_char d c = true → d c = None ∧ c ≠ chr 93.
Proof.
  unfold plain_char. destruct (d c); [done|]. intros H%negb_true_iff%Ascii.eqb_neq. done.
Qed.

(** A dialect opens every quote with the character it is closed with, brackets apart. *)
Class Regular (d : Dialect) := regular q c : d c = Some q → q = Named Brackets ∨ closing q = c.

Ltac regular := intros q c; unfold mysql_default, mysql_ansi, tsql, ansi;
  repeat (case_match; [intros [= <-]; match goal with H : Ascii.eqb _ _ = true |- _ => apply Ascii.eqb_eq in H; subst end; by (left + right)|]); done.

#[export] Instance ansi_regular : Regular ansi.
Proof. regular. Qed.
#[export] Instance tsql_regular : Regular tsql.
Proof. regular. Qed.
#[export] Instance mysql_ansi_regular : Regular mysql_ansi.
Proof. regular. Qed.
#[export] Instance mysql_default_regular : Regular mysql_default.
Proof. regular. Qed.

Section Reading.
Context (d : Dialect) `{!Regular d}.

Lemma plain_not_closing c q c' : plain_char d c = true → d c' = Some q → c ≠ closing q.
Proof.
  intros [Hc Hb]%plain_char_spec Hq ->. destruct (regular q c' Hq) as [->|<-]; [done|congruence].
Qed.

Lemma run_chars prev m s :
  settled d prev m → forall_chars (plain_char d) s = true →
  let '(t, m') := lex_run d m s in
  t ++ pending m' = pending m ++ chars s ∧ settled d (prev && String.eqb s EmptyString) m'.
Proof.
  intros Hm Hs. destruct s as [|c s].
  { cbn. rewrite andb_true_r, app_nil_r. done. }
  assert (∀ s, forall_chars (plain_char d) s = true → lex_run d Outside s = (chars s, Outside)) as Hout.
  { clear. induction s as [|c s IH]; cbn; [done|]. intros [Hc Hs]%andb_true_iff.
    apply plain_char_spec in Hc as [Hc _]. unfold out_step. rewrite Hc, IH by done. reflexivity. }
  rewrite andb_false_r. cbn [forall_chars] in Hs. apply andb_true_iff in Hs as [Hc Hs]. cbn [lex_run lex_step].
  pose proof (plain_char_spec _ _ Hc) as [Hd _]. destruct m as [|q acc|q acc]; [|done|].
  - cbn [lex_step]. unfold out_step. rewrite Hd, Hout by done. cbn. by rewrite app_nil_r.
  - destruct Hm as [_ [c' Hq]]. apply plain_not_closing with (c := c), Ascii.eqb_neq in Hq; [|done]. cbn [lex_step].
    rewrite Hq. unfold out_step. rewrite Hd, Hout by done. cbn. by rewrite app_nil_r.
Qed.

Lemma run_inside q acc s rest :
  forall_chars (λ c, negb (Ascii.eqb c (closing q))) s = true →
  lex_run d (Inside q acc) (s +:+ rest) = lex_run d (Inside q (acc +:+ s)) rest.
Proof.
  revert acc. induction s as [|c s IH]; intros acc; cbn [forall_chars].
  - by rewrite string_app_nil_l, string_app_nil_r.
  - intros [Hc%negb_true_iff Hs]%andb_true_iff. rewrite string_app_cons. cbn [lex_run lex_step]. rewrite Hc, IH by done.
    unfold snoc. rewrite string_app_assoc, string_app_cons, string_app_nil_l. cbn. by destruct (lex_run d _ rest).
Qed.

Lemma run_doubled acc s rest :
  lex_run d (Inside (Literal apostrophe) acc) (doubled apostrophe s +:+ rest) = lex_run d (Inside (Literal apostrophe) (acc +:+ s)) rest.
Proof.
  revert acc. induction s as [|c s IH]; intros acc.
  - by rewrite string_app_nil_l, string_app_nil_r.
  - unfold doubled in *. cbn [replace_char].
    assert (acc +:+ String c s = snoc acc c +:+ s) as -> by (unfold snoc; by rewrite string_app_assoc, string_app_cons, string_app_nil_l).
    destruct (Ascii.eqb_spec c apostrophe) as [->|Hn].
    + rewrite !string_app_cons, string_app_nil_l. cbn [lex_run lex_step closing]. rewrite Ascii.eqb_refl.
      cbn [lex_step closing]. rewrite Ascii.eqb_refl, IH.
      by destruct (lex_run d _ rest).
    + rewrite string_app_cons. cbn [lex_run lex_step closing]. apply Ascii.eqb_neq in Hn. rewrite Hn, IH. by destruct (lex_run d _ rest).
Qed.

(** A quoted part, opened where nothing is open. *)
Lemma run_open m c q s :
  settled d false m → d c = Some q →
  lex_run d m (String c s) = lex_run d (Inside q EmptyString) s.
Proof.
  intros Hm Hc. destruct m as [|q' acc|q' acc]; [|done|by destruct Hm]. cbn [lex_run lex_step]. unfold out_step. rewrite Hc.
  by destruct (lex_run d _ s).
Qed.

Lemma run_close q acc : lex_run d (Inside q acc) (String (closing q) EmptyString) = ([], Shut q acc).
Proof. cbn. by rewrite Ascii.eqb_refl. Qed.

Lemma run_pieces prev m ps :
  settled d prev m → readable d prev ps = true →
  let '(t, m') := lex_run d m (render ps) in
  t ++ pending m' = pending m ++ toks ps ∧ settled d (ends_quoted prev ps) m'.
Proof.
  revert prev m. induction ps as [|p ps IH]; intros prev m Hm Hr.
  { cbn. by rewrite app_nil_r. }
  assert (∃ t m', lex_run d m (render_piece p) = (t, m') ∧ t ++ pending m' = pending m ++ piece_toks p ∧
    settled d (ends_quoted prev [p]) m' ∧ readable d (ends_quoted prev [p]) ps = true) as (t & m1 & Hp & Ht & Hm1 & Hr1).
  { destruct p as [s|q n|s]; cbn in Hr; cbn [ends_quoted render_piece piece_toks].
    - apply andb_true_iff in Hr as [Hs Hr]. pose proof (run_chars prev m s Hm Hs) as Hc.
      destruct (lex_run d m s) as [t m'] eqn:E. exists t, m'. by destruct Hc.
    - apply andb_true_iff in Hr as [[[->%negb_true_iff Ho]%andb_true_iff Hn]%andb_true_iff Hr].
      apply opened_by_spec in Ho. exists [], (Shut (Named q) n). unfold wrap. rewrite string_app_cons, (run_open m _ (Named q)) by done.
      rewrite run_inside, string_app_nil_l, run_close by done. split; [done|].
      destruct m as [|q' a|q' a]; [|done|by destruct Hm]. split; [done|]. split; [split; [done|eauto]|done].
    - apply andb_true_iff in Hr as [[->%negb_true_iff Ho]%andb_true_iff Hr].
      apply opened_by_spec in Ho. exists [], (Shut (Literal apostrophe) s). rewrite string_app_cons, (run_open m _ (Literal apostrophe)) by done.
      rewrite run_doubled, string_app_nil_l. change apostrophe with (closing (Literal apostrophe)) at 3. rewrite run_close. split; [done|].
      destruct m as [|q' a|q' a]; [|done|by destruct Hm]. split; [done|]. split; [split; [done|eauto]|done]. }
  cbn [render]. rewrite lex_run_app, Hp. specialize (IH _ _ Hm1 Hr1). destruct (lex_run d m1 (render ps)) as [u m2].
  destruct IH as [Hu Hm2]. split.
  - rewrite <- app_assoc, Hu, app_assoc, Ht, <- app_assoc. reflexivity.
  - change (p :: ps) with ([p] ++ ps). by rewrite ends_app.
Qed.

(** A text put together from readable parts is read back as these parts. *)
Lemma lex_render ps : readable d false ps = true → lex d (render ps) = Some (toks ps).
Proof.
  intros Hr. pose proof (run_pieces false Outside ps I Hr) as H. unfold lex. destruct (lex_run d Outside (render ps)) as [t [|q acc|q acc]].
  - destruct H as [H _]. cbn in H. by rewrite app_nil_r in H; subst.
  - by destruct H.
  - destruct H as [H _]. cbn in H. by rewrite H.
Qed.
End Reading.

(** ** What the parts hold *)

Lemma quotes_chars s : quotes (chars s) = [].
Proof. unfold chars. induction s as [|c s IH]; [done|exact IH]. Qed.

Lemma plain_chars s : plain (chars s) = s.
Proof. unfold chars. induction s as [|c s IH]; [done|]. cbn. by rewrite IH. Qed.

Lemma quotes_cons p ps :
  quotes (toks (p :: ps)) = match p with Txt _ => [] | Name q n => [(Named q, n)] | Lit s => [(Literal apostrophe, s)] end ++ quotes (toks ps).
Proof. change (p :: ps) with ([p] ++ ps). rewrite toks_app, quotes_app. f_equal. destruct p; [|done..]. unfold toks. cbn. by rewrite app_nil_r, quotes_chars. Qed.

Lemma plain_cons p ps :
  plain (toks (p :: ps)) = match p with Txt s => s | _ => EmptyString end +:+ plain (toks ps).
Proof. change (p :: ps) with ([p] ++ ps). rewrite toks_app, plain_app. f_equal. destruct p; [|done..]. unfold toks. cbn. by rewrite app_nil_r, plain_chars. Qed.

Lemma quotes_toks_app a b : quotes (toks (a ++ b)) = quotes (toks a) ++ quotes (toks b).
Proof. by rewrite toks_app, quotes_app. Qed.

Lemma plain_toks_app a b : plain (toks (a ++ b)) = plain (toks a) +:+ plain (toks b).
Proof. by rewrite toks_app, plain_app. Qed.

(** [join] on parts. *)
Fixpoint joined (sep : string) (xs : list (list Piece)) : list Piece :=
  match xs with [] => [] | [x] => x | x :: xs => x ++ Txt sep :: joined sep xs end.

Lemma render_joined sep xs : render (joined sep xs) = join sep (map render xs).
Proof.
  induction xs as [|x [|y xs] IH]; [done|done|].
  change (joined sep (x :: y :: xs)) with (x ++ Txt sep :: joined sep (y :: xs)).
  rewrite render_app. cbn [render render_piece]. rewrite IH. reflexivity.
Qed.

Lemma quotes_joined sep xs : quotes (toks (joined sep xs)) = concat (map (λ x, quotes (toks x)) xs).
Proof.
  induction xs as [|x [|y xs] IH]; [done|cbn; by rewrite app_nil_r|].
  change (joined sep (x :: y :: xs)) with (x ++ Txt sep :: joined sep (y :: xs)).
  by rewrite quotes_toks_app, quotes_cons, IH.
Qed.

Lemma plain_joined sep xs : plain (toks (joined sep xs)) = join sep (map (λ x, plain (toks x)) xs).
Proof.
  induction xs as [|x [|y xs] IH]; [done|done|].
  change (joined sep (x :: y :: xs)) with (x ++ Txt sep :: joined sep (y :: xs)).
  by rewrite plain_toks_app, plain_cons, IH.
Qed.

Lemma readable_joined d sep xs :
  sep ≠ EmptyString → forall_chars (plain_char d) sep = true → Forall (λ x, readable d false x = true) xs →
  readable d false (joined sep xs) = true.
Proof.
  intros Hne Hs Hx. induction Hx as [|x [|y xs] Hx Hxs IH]; [done|done|].
  change (joined sep (x :: y :: xs)) with (x ++ Txt sep :: joined sep (y :: xs)).
  rewrite readable_app, Hx. cbn [readable andb]. rewrite Hs. apply String.eqb_neq in Hne. by rewrite Hne, andb_false_r.
Qed.

(** A text in front of the rest. *)
Lemma readable_txt d prev s ps :
  s ≠ EmptyString → forall_chars (plain_char d) s = true → readable d false ps = true → readable d prev (Txt s :: ps) = true.
Proof. intros Hne Hs Hr. cbn [readable]. apply String.eqb_neq in Hne. by rewrite Hs, Hne, andb_false_r. Qed.

Lemma count_app c a b : count c (a +:+ b) = (count c a + count c b)%nat.
Proof. induction a as [|x a IH]; [done|]. rewrite string_app_cons. cbn. rewrite IH. destruct (Ascii.eqb x c); lia. Qed.

(** ** Character boundaries *)

Lemma ascii_not_cont b : b2z b < 128 → is_cont b = false ∧ (∀ lo hi, 128 ≤ lo → in_range lo hi b = false).
Proof. intros Hb. unfold is_cont, in_range. split; [|intros lo hi Hlo]; rewrite andb_false_iff, !Z.leb_gt; lia. Qed.

Lemma utf8_after_ascii x b y : b2z b < 128 → utf8_valid (x ++ b :: y) = true → utf8_valid y = true.
Proof.
  intros Hb. destruct (ascii_not_cont b Hb) as [Hc Hr].
  remember (length x) as n eqn:Hn. assert (length x ≤ n)%nat as Hle by lia. clear Hn. revert x Hle.
  induction n as [|n IH]; intros x Hle.
  { destruct x; [|cbn in Hle; lia]. cbn [app utf8_valid]. destruct (Z.ltb_spec (b2z b) 0x80); [done|lia]. }
  destruct x as [|b0 x]; [apply (IH []); cbn; lia|]. cbn [app utf8_valid].
  assert (∀ x', (length x' ≤ n)%nat → utf8_valid (x' ++ b :: y) = true → utf8_valid y = true) as IH' by exact IH. cbn in Hle.
  assert (Hr' : ∀ (u v : bool) lo hi lo' hi', 128 ≤ lo → 128 ≤ lo' →
    (if u then in_range lo hi b else if v then in_range lo' hi' b else is_cont b) = false).
  { intros u v lo hi lo' hi' H1 H2. rewrite Hc, !Hr by done. by destruct u, v. }
  destruct (b2z b0 <? 0x80); [apply IH'; lia|].
  destruct (in_range 0xC2 0xDF b0).
  { destruct x as [|b1 x]; cbn [app]; [by rewrite Hc|]. intros [_ H]%andb_true_iff. apply (IH' x); [cbn in Hle; lia|done]. }
  destruct (in_range 0xE0 0xEF b0).
  { destruct x as [|b1 [|b2 x]]; cbn [app].
    - destruct y; [done|]. by rewrite Hr'.
    - by rewrite Hc, andb_false_r.
    - intros [_ H]%andb_true_iff. apply (IH' x); [cbn in Hle; lia|done]. }
  destruct (in_range 0xF0 0xF4 b0); [|done].
  destruct x as [|b1 [|b2 [|b3 x]]]; cbn [app].
  - destruct y as [|? [|? ?]]; [done..|]. by rewrite Hr'.
  - destruct y; [done|]. by rewrite Hc, andb_false_r.
  - by rewrite Hc, !andb_false_r.
  - intros [_ H]%andb_true_iff. apply (IH' x); [cbn in Hle; lia|done].
Qed.

Lemma utf8_first_not_cont b y : utf8_valid (b :: y) = true → is_cont b = false.
Proof.
  cbn [utf8_valid]. unfold is_cont, in_range. intros H. apply not_true_iff_false. rewrite andb_true_iff, !Z.leb_le. intros [H1 H2].
  destruct (Z.ltb_spec (b2z b) 0x80); [lia|].
  repeat match type of H with context [(?lo <=? ?x) && (?y <=? ?hi)] =>
    destruct (Z.leb_spec lo x), (Z.leb_spec y hi); cbn [andb] in H; try lia end; done.
Qed.

Lemma code_byte c : b2z (byte_of_ascii c) = code c.
Proof. by destruct c as [[] [] [] [] [] [] [] []]. Qed.

Lemma boundary_before a c b : code c < 128 → is_char_boundary (String.length a) (a +:+ String c b) = true.
Proof. intros Hc. unfold is_char_boundary. rewrite drop_app_str. rewrite <- code_byte in Hc. by destruct (ascii_not_cont _ Hc) as [-> _]. Qed.

Lemma length_app_str a b : String.length (a +:+ b) = (String.length a + String.length b)%nat.
Proof. induction a as [|c a IH]; [done|]. rewrite string_app_cons. cbn. by rewrite IH. Qed.

Lemma boundary_after a c b : str_wf (a +:+ String c b) → code c < 128 →
  is_char_boundary (S (String.length a)) (a +:+ String c b) = true.
Proof.
  intros Hwf Hc. assert (a +:+ String c b = snoc a c +:+ b) as Heq by (unfold snoc; by rewrite string_app_assoc, string_app_cons, string_app_nil_l).
  assert (S (String.length a) = String.length (snoc a c)) as Hl by (unfold snoc; rewrite length_app_str; cbn; lia).
  unfold is_char_boundary. rewrite Heq, Hl, drop_app_str. destruct b as [|e b].
  - rewrite length_app_str. apply Nat.leb_le. cbn. lia.
  - unfold str_wf in Hwf. rewrite as_bytes_app in Hwf. rewrite <- code_byte in Hc.
    apply utf8_after_ascii in Hwf; [|exact Hc]. by apply utf8_first_not_cont in Hwf as ->.
Qed.

(** ** Lists of items *)

Section Items.
Context {A : Type} (sep : string) (g : A → list Piece).

Definition items (xs : list A) : list Piece := joined sep (map g xs).

Lemma render_items xs : join sep (map (λ x, render (g x)) xs) = render (items xs).
Proof. unfold items. by rewrite render_joined, map_map. Qed.

Lemma quotes_items (h : A → list (Quote * string)) xs :
  (∀ x, quotes (toks (g x)) = h x) → quotes (toks (items xs)) = flat_map h xs.
Proof.
  intros Hg. unfold items. rewrite quotes_joined, map_map, flat_map_concat_map. f_equal. by apply map_ext.
Qed.

Lemma plain_items k xs : (∀ x, plain (toks (g x)) = k) → plain (toks (items xs)) = join sep (repeat k (length xs)).
Proof.
  intros Hg. unfold items. rewrite plain_joined, map_map. f_equal. induction xs as [|x xs IH]; [done|]. cbn. by rewrite Hg, IH.
Qed.

Lemma readable_items d (P : A → Prop) xs :
  sep ≠ EmptyString → forall_chars (plain_char d) sep = true → (∀ x, P x → readable d false (g x) = true) → Forall P xs →
  readable d false (items xs) = true.
Proof. intros ? ? Hg Hx. apply readable_joined; [done..|]. apply Forall_map. by eapply Forall_impl; [exact Hx|]. Qed.
End Items.

Lemma readable_mid d prev a s ps :
  readable d prev a = true → s ≠ EmptyString → forall_chars (plain_char d) s = true → readable d false ps = true →
  readable d prev (a ++ Txt s :: ps) = true.
Proof. intros Ha ? ? ?. by rewrite readable_app, Ha, readable_txt. Qed.

Lemma count_join c sep k n : count c sep = O → count c (join sep (repeat k n)) = (n * count c k)%nat.
Proof.
  intros Hs. destruct n as [|n]; [done|]. induction n as [|n IH]; [cbn; lia|].
  change (join sep (repeat k (S (S n)))) with (k +:+ sep +:+ join sep (repeat k (S n))). rewrite !count_app, IH, Hs. lia.
Qed.

Lemma identifier_not_closing q n : is_identifier n → forall_chars (λ c, negb (Ascii.eqb c (close_quote q))) n = true.
Proof.
  intros Hn%identifier_chars. induction n as [|c n IH]; [done|]. destruct Hn as [Hc Hn]. cbn [forall_chars]. rewrite IH by done.
  apply ident_char_not_special in Hc as [Hc _]. rewrite andb_true_r. by apply negb_true_iff, Ascii.eqb_neq.
Qed.

Lemma forall_chars_app p a b : forall_chars p (a +:+ b) = forall_chars p a && forall_chars p b.
Proof. induction a as [|c a IH]; [done|]. rewrite string_app_cons. cbn. by rewrite IH, andb_assoc. Qed.

Lemma forall_chars_join p sep k n :
  forall_chars p sep = true → forall_chars p k = true → forall_chars p (join sep (repeat k n)) = true.
Proof.
  intros Hs Hk. induction n as [|[|n] IH]; [done|done|].
  change (join sep (repeat k (S (S n)))) with (k +:+ sep +:+ join sep (repeat k (S n))). by rewrite !forall_chars_app, Hk, Hs, IH.
Qed.
