(* ===== verification/Plugins.v ===== *)
(** Driver plugins (plugins/driver_plugin.rs, the nine files of plugins/ and
    capabilities/type_catalog.rs, capabilities/quoter.rs): what each engine's plugin says of its
    driver, how it maps types and how it rewrites queries. *)

From S2P Require Import Prelude Wire Errors RowCodec Text Identifier Capabilities SqlText.

(** * The plugins *)

Inductive PluginId := SqlServer | Oracle | Postgres | MySql | MariaDb | Sybase | Sqlite | Db2 | Snowflake.

#[export] Instance PluginId_eq_dec : EqDecision PluginId.
Proof. solve_decision. Defined.

Definition plugin_name (p : PluginId) : string :=
  match p with
  | SqlServer => "sqlserver" | Oracle => "oracle" | Postgres => "postgres" | MySql => "mysql" | MariaDb => "mariadb"
  | Sybase => "sybase" | Sqlite => "sqlite" | Db2 => "db2" | Snowflake => "snowflake"
  end.

Record PluginCapabilities := mkPluginCaps {
  pc_prepared_statements : bool;
  pc_batch_operations : bool;
  pc_streaming : bool;
  pc_array_fetch : bool;
  pc_max_row_array_size : Z;
  pc_driver_name : string;
  pc_driver_version : string
}.

(** [From<CoreDriverCapabilities>] *)
Definition caps_from_core (core : DriverCapabilities) : PluginCapabilities :=
  mkPluginCaps (supports_prepared_statements core) (supports_batch_operations core) (supports_streaming core) false
    (max_row_array_size core) (driver_name core) (driver_version core).

Inductive OptimizationRule :=
| UsePreparedStatements
| UseBatchOperations
| UseArrayFetch (size : Z)
| RewriteQuery (pattern replacement : string)
| EnableStreaming.

Definition full_caps (size : Z) (name : string) : PluginCapabilities := mkPluginCaps true true true true size name "Unknown".

Definition sqlserver_capabilities : PluginCapabilities := full_caps 1000 "SQL Server".
Definition oracle_capabilities : PluginCapabilities := full_caps 5000 "Oracle".
Definition postgres_capabilities : PluginCapabilities := full_caps 1000 "PostgreSQL".
Definition mysql_capabilities : PluginCapabilities := full_caps 1000 "MySQL".
Definition mariadb_capabilities : PluginCapabilities := full_caps 1500 "MariaDB".
Definition sybase_capabilities : PluginCapabilities := full_caps 500 "Sybase".
Definition sqlite_capabilities : PluginCapabilities := full_caps 1000 "SQLite".
Definition db2_capabilities : PluginCapabilities := full_caps 2000 "IBM Db2".
Definition snowflake_capabilities : PluginCapabilities := full_caps 10000 "Snowflake".

Definition get_capabilities (p : PluginId) : PluginCapabilities :=
  match p with
  | SqlServer => sqlserver_capabilities
  | Oracle => oracle_capabilities
  | Postgres => postgres_capabilities
  | MySql => mysql_capabilities
  | MariaDb => mariadb_capabilities
  | Sybase => sybase_capabilities
  | Sqlite => sqlite_capabilities
  | Db2 => db2_capabilities
  | Snowflake => snowflake_capabilities
  end.

Definition all_rules (size : Z) : list OptimizationRule :=
  [UsePreparedStatements; UseBatchOperations; UseArrayFetch size; EnableStreaming].

Definition sqlserver_rules : list OptimizationRule := all_rules 1000.
Definition oracle_rules : list OptimizationRule := all_rules 5000.
Definition postgres_rules : list OptimizationRule := all_rules 1000.
Definition mysql_rules : list OptimizationRule := all_rules 1000.
Definition mariadb_rules : list OptimizationRule := all_rules 1500.
Definition sybase_rules : list OptimizationRule := all_rules 500.
Definition sqlite_rules : list OptimizationRule := [UsePreparedStatements; UseBatchOperations; UseArrayFetch 1000].
Definition db2_rules : list OptimizationRule := all_rules 2000.
Definition snowflake_rules : list OptimizationRule := all_rules 10000.

Definition get_optimization_rules (p : PluginId) : list OptimizationRule :=
  match p with
  | SqlServer => sqlserver_rules
  | Oracle => oracle_rules
  | Postgres => postgres_rules
  | MySql => mysql_rules
  | MariaDb => mariadb_rules
  | Sybase => sybase_rules
  | Sqlite => sqlite_rules
  | Db2 => db2_rules
  | Snowflake => snowflake_rules
  end.

(** * Types *)

Definition sqlserver_map_type (odbc_type : Z) : OdbcType :=
  match odbc_type with
  | 1 => Varchar | 4 => Integer | -5 => BigInt | 3 => Decimal | 9 => Date | 11 => Timestamp | -2 => Binary
  | _ => Varchar
  end.

(** Three plugins repeat the table. *)
Definition postgres_map_type : Z → OdbcType := sqlserver_map_type.
Definition mysql_map_type : Z → OdbcType := sqlserver_map_type.
Definition sybase_map_type : Z → OdbcType := sqlserver_map_type.

Definition oracle_map_type (odbc_type : Z) : OdbcType :=
  match odbc_type with
  | 1 => Varchar | 2 | 4 => Integer | -5 => BigInt | 3 => Decimal | 9 => Date | 11 => Timestamp | -2 => Binary
  | _ => Varchar
  end.

Definition plugin_map_type (p : PluginId) : Z → OdbcType :=
  match p with
  | SqlServer => sqlserver_map_type
  | Postgres => postgres_map_type
  | MySql => mysql_map_type
  | Sybase => sybase_map_type
  | Oracle => oracle_map_type
  | MariaDb | Sqlite | Db2 | Snowflake => from_odbc_sql_type
  end.

(** The names a driver gives to its own types, as each plugin lists them. *)
Definition sqlserver_types : list (list string * OdbcType) :=
  [(["nvarchar"; "nchar"; "ntext"], NVarchar);
   (["datetimeoffset"], DatetimeOffset);
   (["uniqueidentifier"], Uuid);
   (["money"; "smallmoney"], Money);
   (["bit"], Boolean);
   (["smallint"; "tinyint"], SmallInt);
   (["real"], Float);
   (["float"], Double);
   (["varbinary"; "binary"; "image"], Binary);
   (["json"], Json);
   (["time"], Time)].

Definition oracle_types : list (list string * OdbcType) :=
  [(["timestamp with time zone"; "timestamp with local time zone"], TimestampWithTz);
   (["interval day to second"; "interval year to month"], Interval);
   (["raw"; "long raw"; "blob"], Binary);
   (["clob"; "nclob"], Varchar);
   (["nvarchar2"; "nchar"], NVarchar);
   (["binary_float"], Float);
   (["binary_double"], Double)].

Definition postgres_types : list (list string * OdbcType) :=
  [(["json"; "jsonb"], Json);
   (["uuid"], Uuid);
   (["timestamptz"; "timestamp with time zone"], TimestampWithTz);
   (["bool"; "boolean"], Boolean);
   (["int2"; "smallint"], SmallInt);
   (["float4"; "real"], Float);
   (["float8"; "double precision"], Double);
   (["bytea"], Binary);
   (["interval"], Interval);
   (["time"; "timetz"], Time)].

Definition mysql_types : list (list string * OdbcType) :=
  [(["json"], Json);
   (["tinyint(1)"; "boolean"; "bool"], Boolean);
   (["smallint"; "smallint unsigned"], SmallInt);
   (["float"], Float);
   (["double"; "double precision"; "real"], Double);
   (["blob"; "tinyblob"; "mediumblob"; "longblob"; "varbinary"], Binary);
   (["time"], Time)].

Definition mariadb_types : list (list string * OdbcType) :=
  [(["json"], Json);
   (["tinyint(1)"; "boolean"; "bool"], Boolean);
   (["uuid"], Uuid);
   (["double"; "double precision"; "real"], Double);
   (["blob"; "tinyblob"; "mediumblob"; "longblob"; "varbinary"], Binary)].

Definition sybase_types : list (list string * OdbcType) :=
  [(["money"; "smallmoney"], Money);
   (["bit"], Boolean);
   (["tinyint"; "smallint"], SmallInt);
   (["real"], Float);
   (["float"; "double precision"], Double);
   (["image"; "varbinary"; "binary"], Binary);
   (["nvarchar"; "nchar"; "univarchar"; "unichar"], NVarchar);
   (["time"], Time)].

Definition db2_types : list (list string * OdbcType) :=
  [(["graphic"; "vargraphic"; "long vargraphic"], NVarchar);
   (["clob"; "dbclob"], Varchar);
   (["blob"], Binary);
   (["xml"], Json);
   (["real"], Float);
   (["double"; "double precision"], Double);
   (["smallint"], SmallInt)].

Definition snowflake_types : list (list string * OdbcType) :=
  [(["variant"; "object"; "array"], Json);
   (["timestamp_tz"; "timestamp_ltz"], TimestampWithTz);
   (["timestamp_ntz"], Timestamp);
   (["boolean"], Boolean);
   (["binary"; "varbinary"], Binary);
   (["real"; "float"; "float4"], Float);
   (["double"; "float8"; "float64"], Double);
   (["geography"; "geometry"], Json)].

(** A [match] on names: the first line that lists the name. *)
Fixpoint type_in (rows : list (list string * OdbcType)) (name : string) : option OdbcType :=
  match rows with
  | [] => None
  | (names, t) :: rows => if existsb (String.eqb name) names then Some t else type_in rows name
  end.

(** SQLite looks for parts of the declared type. *)
Definition sqlite_affinity (lower : string) : OdbcType :=
  if contains lower "int" then Integer
  else if contains lower "char" || contains lower "text" || contains lower "clob" then Varchar
  else if contains lower "blob" then Binary
  else if contains lower "real" || contains lower "floa" || contains lower "doub" then Double
  else if String.eqb lower "boolean" || String.eqb lower "bool" then Boolean
  else Decimal.

(** MariaDB has one more line, for "json" and "longtext", taken when the name holds "json". *)
Definition type_name_match (p : PluginId) (lower : string) : option OdbcType :=
  match p with
  | SqlServer => type_in sqlserver_types lower
  | Oracle => type_in oracle_types lower
  | Postgres => type_in postgres_types lower
  | MySql => type_in mysql_types lower
  | MariaDb =>
      if existsb (String.eqb lower) ["json"; "longtext"] && contains lower "json" then Some Json
      else type_in mariadb_types lower
  | Sybase => type_in sybase_types lower
  | Sqlite => Some (sqlite_affinity lower)
  | Db2 => type_in db2_types lower
  | Snowflake => type_in snowflake_types lower
  end.

Definition map_type_extended (p : PluginId) (sql_type : Z) (type_name : option string) : OdbcType :=
  match type_name with
  | Some name =>
      match type_name_match p (to_ascii_lowercase (trim name)) with
      | Some t => t
      | None => plugin_map_type p sql_type
      end
  | None => plugin_map_type p sql_type
  end.

(** * Quoting *)

Definition quoting_style (p : PluginId) : IdentifierQuoting :=
  match p with
  | SqlServer | Sybase => Brackets
  | MySql | MariaDb => Backtick
  | _ => DoubleQuote
  end.

Definition plugin_quote (p : PluginId) (identifier : string) : Result string := quote_identifier identifier (quoting_style p).

(** What the engine itself takes for a quote.  SQLite takes all of them. *)
Definition any_quotes : Dialect := λ c, if Ascii.eqb c (chr 91) then Some (Named Brackets) else mysql_ansi c.

Definition dialect (p : PluginId) : Dialect :=
  match p with
  | SqlServer | Sybase => tsql
  | MySql | MariaDb => mysql_ansi
  | Sqlite => any_quotes
  | _ => ansi
  end.

#[export] Instance dialect_regular p : Regular (dialect p).
Proof. destruct p; cbn; try apply _. unfold any_quotes. regular. Qed.

(** * Rewriting queries *)

(** A limit before the last semicolon; without one, at the end of a query that is [bare] of conditions
    and order. *)
Definition limited (clause : string) (bare : bool) (sql : string) : string :=
  match rfind ";" sql with
  | Some pos => str_take pos sql +:+ clause +:+ str_drop pos sql
  | None => if bare then sql +:+ clause else sql
  end.

Definition limit_1000 : string := " LIMIT 1000".
Definition fetch_1000 : string := " FETCH FIRST 1000 ROWS ONLY".

Definition bare_of (where_ order : string) (sql : string) : bool := negb (contains sql where_) && negb (contains sql order).

Definition sqlserver_optimize (sql : string) : string :=
  if contains sql "SELECT *" && negb (contains sql "TOP") then
    match find "SELECT *" sql with
    | Some pos => str_take pos sql +:+ "SELECT TOP 1000 *" +:+ str_drop (pos + 8) sql
    | None => sql
    end
  else sql.

Definition oracle_optimize (sql : string) : string :=
  if contains sql "SELECT" && negb (contains sql "ROWNUM") && negb (contains sql "FETCH") then
    limited fetch_1000 (bare_of "WHERE" "ORDER BY" sql) sql
  else sql.

Definition postgres_optimize (sql : string) : string :=
  if contains sql "SELECT" && negb (contains sql "LIMIT") then limited limit_1000 (bare_of "WHERE" "ORDER BY" sql) sql else sql.

Definition mysql_optimize : string → string := postgres_optimize.

Definition mariadb_optimize (sql : string) : string :=
  if contains sql "SELECT" && negb (contains (to_uppercase sql) " LIMIT") then
    limited limit_1000 (bare_of " WHERE" " ORDER BY" (to_uppercase sql)) sql
  else sql.

Definition snowflake_optimize : string → string := mariadb_optimize.

Definition db2_optimize (sql : string) : string :=
  if contains sql "SELECT" && negb (contains (to_uppercase sql) "FETCH FIRST") then
    limited fetch_1000 (bare_of " WHERE" " ORDER BY" (to_uppercase sql)) sql
  else sql.

Definition optimize_query (p : PluginId) : string → string :=
  match p with
  | SqlServer => sqlserver_optimize
  | Oracle => oracle_optimize
  | Postgres => postgres_optimize
  | MySql => mysql_optimize
  | MariaDb => mariadb_optimize
  | Snowflake => snowflake_optimize
  | Db2 => db2_optimize
  | Sybase | Sqlite => λ sql, sql
  end.

(** The trait object the engine works with. *)
Record DriverPlugin := mkPlugin {
  dp_name : string;
  dp_map_type : Z → OdbcType;
  dp_optimize_query : string → string
}.

Definition driver_plugin (p : PluginId) : DriverPlugin := mkPlugin (plugin_name p) (plugin_map_type p) (optimize_query p).

(** * What the rewriting does *)

Definition inserted_texts : list string := [EmptyString; limit_1000; fetch_1000; "TOP 1000 "].

Definition inserts (sql sql' : string) : Prop :=
  ∃ a b text, sql = a +:+ b ∧ sql' = a +:+ text +:+ b ∧ In text inserted_texts ∧
    (str_wf sql → is_char_boundary (String.length a) sql = true).

Lemma inserts_nothing sql : inserts sql sql.
Proof. exists EmptyString, sql, EmptyString. repeat split; [by left|]. intros Hwf. destruct sql as [|c s]; [done|]. unfold is_char_boundary. cbn. by rewrite (utf8_first_not_cont _ _ Hwf). Qed.

Lemma boundary_end sql : is_char_boundary (String.length sql) sql = true.
Proof.
  unfold is_char_boundary. rewrite <- (string_app_nil_r sql) at 2. rewrite drop_app_str. by apply Nat.leb_le.
Qed.

Lemma limited_inserts clause bare sql : In clause inserted_texts → inserts sql (limited clause bare sql).
Proof.
  intros Hin. unfold limited. destruct (rfind ";" sql) as [pos|] eqn:E.
  - apply rfind_Some in E as (a & b & -> & <-). exists a, (";" +:+ b), clause. rewrite take_app_str, drop_app_str.
    repeat split; [done|]. intros _. by apply boundary_before.
  - destruct bare; [|apply inserts_nothing]. exists sql, EmptyString, clause. rewrite !string_app_nil_r. repeat split; [done|].
    intros _. apply boundary_end.
Qed.

Lemma top_inserts a b : inserts (a +:+ "SELECT *" +:+ b) (a +:+ "SELECT TOP 1000 *" +:+ b).
Proof.
  exists (a +:+ "SELECT "), ("*" +:+ b), "TOP 1000 ". rewrite !string_app_assoc. repeat split; [right; right; right; by left|].
  intros _. replace (a +:+ "SELECT *" +:+ b) with ((a +:+ "SELECT ") +:+ String "*" b) by by rewrite string_app_assoc.
  by apply boundary_before.
Qed.

(** The rewriting of a query never takes anything away: the query sent is the query given with
    one of three clauses put in at one place, or unchanged, and the place is between two
    characters, so that no plugin panics on text that is not ASCII. *)
Theorem optimize_query_inserts (p : PluginId) (sql : string) : inserts sql (optimize_query p sql).
Proof.
  assert (In limit_1000 inserted_texts) as Hl by (right; by left).
  assert (In fetch_1000 inserted_texts) as Hf by (right; right; by left).
  destruct p; cbn [optimize_query]; try apply inserts_nothing;
    unfold oracle_optimize, mysql_optimize, postgres_optimize, snowflake_optimize, mariadb_optimize, db2_optimize;
    try (case_match; [by apply limited_inserts|apply inserts_nothing]).
  unfold sqlserver_optimize. case_match; [|apply inserts_nothing].
  destruct (find "SELECT *" sql) as [pos|] eqn:E; [|apply inserts_nothing].
  apply find_Some in E as (a & b & -> & <-).
  replace (str_drop (String.length a + 8) (a +:+ "SELECT *" +:+ b)) with b; [rewrite take_app_str; apply top_inserts|].
  replace (String.length a + 8)%nat with (String.length (a +:+ "SELECT *")) by (rewrite length_app_str; done).
  by rewrite <- string_app_assoc, drop_app_str.
Qed.

(** The place is the last semicolon of the text, also when that one stands inside a string
    literal: the literal is what changes. *)
Example limit_inside_literal :
  optimize_query Postgres "SELECT id FROM t WHERE tag = 'a;b'" = "SELECT id FROM t WHERE tag = 'a LIMIT 1000;b'".
Proof. vm_compute. reflexivity. Qed.

(** Rows that an [INSERT .. SELECT] would have copied are left out. *)
Example insert_select_limited :
  optimize_query MySql "INSERT INTO archive SELECT id FROM t;" = "INSERT INTO archive SELECT id FROM t LIMIT 1000;".
Proof. vm_compute. reflexivity. Qed.

(** The codes that ODBC 3 drivers use for dates and timestamps are text for four of the plugins. *)
Example odbc3_dates :
  (map (λ p, plugin_map_type p 91) [SqlServer; Postgres; MySql; Sybase], map (λ p, plugin_map_type p 93) [MariaDb; Sqlite; Db2])
  = ([Varchar; Varchar; Varchar; Varchar], [Timestamp; Timestamp; Timestamp]).
Proof. reflexivity. Qed.

(** A name of the driver decides before the code: the extended mapping of a name that a plugin
    lists does not depend on the code, and of one it does not list is the plain mapping. *)
Lemma map_type_extended_named p code name :
  map_type_extended p code (Some name) = default (plugin_map_type p code) (type_name_match p (to_ascii_lowercase (trim name))).
Proof. unfold map_type_extended. by destruct (type_name_match _ _). Qed.
