(* ===== verification/Upsert.v ===== *)
(** Insert-or-update statements (plugins/capabilities/upsert.rs and the [Upsertable] of each
    plugin): the text sent to each engine, read back by a lexer of that engine. *)

From S2P Require Import Prelude Wire Errors Text Identifier SqlText Plugins.

(** * Shared helpers *)

Definition listed (c : string) (cs : list string) : bool := existsb (String.eqb c) cs.

Definition quote_columns (columns : list string) : Result string :=
  match columns with
  | [] => Err (ValidationError "Upsert requires at least one column")
  | _ => let? out := omap_list quote_identifier_default columns in Ok (join ", " out)
  end.

Definition effective_update_columns (columns conflict_columns : list string) (update_columns : option (list string)) : list string :=
  match update_columns with
  | Some explicit => explicit
  | None => List.filter (λ c, negb (listed c conflict_columns)) columns
  end.

(** [for x in xs { check(x)? }] *)
Definition each (check : string → Result unit) (xs : list string) : Result unit :=
  let? _ := omap_list check xs in Ok tt.

Definition validate_upsert_inputs (table : string) (columns conflict_columns : list string) (update_columns : option (list string)) : Result unit :=
  if String.eqb (trim table) EmptyString then Err (ValidationError "Upsert table must not be empty")
  else
    let? _ := each validate_identifier (split "." table) in
    match columns, conflict_columns with
    | [], _ => Err (ValidationError "Upsert requires at least one column")
    | _, [] => Err (ValidationError "Upsert requires at least one conflict column")
    | _, _ =>
        let? _ := each validate_identifier (columns ++ conflict_columns) in
        let? _ := match update_columns with Some update => each validate_identifier update | None => Ok tt end in
        each (λ cc, if listed cc columns then Ok tt
                    else Err (ValidationError ("Conflict column " +:+ debug_str cc +:+ " must also appear in `columns`"))) conflict_columns
    end.

Definition placeholder_list (n : nat) : string := join ", " (repeat "?" n).

(** [.map(|c| { let q = quote_identifier(c, style)?; Ok(f(q)) }).collect()] *)
Definition collect_quoted (style : IdentifierQuoting) (f : string → string) (columns : list string) : Result (list string) :=
  omap_list (λ c, let? q := quote_identifier c style in Ok (f q)) columns.

(** ** The statement of each engine *)

Definition Upserter : Type := string → list string → list string → option (list string) → Result string.

Definition quote_cols_brackets (columns : list string) : Result string :=
  let? out := collect_quoted Brackets id columns in Ok (join ", " out).

Definition quote_table_brackets (table : string) : Result string :=
  let? parts := omap_list (λ seg, let? _ := validate_identifier seg in quote_identifier seg Brackets) (split "." table) in
  Ok (join "." parts).

Definition t_is_s (q : string) : string := "t." +:+ q +:+ " = s." +:+ q.
Definition of_source (q : string) : string := "s." +:+ q.

Definition sqlserver_upsert : Upserter := λ table columns conflict_columns update_columns,
  let? _ := validate_upsert_inputs table columns conflict_columns update_columns in
  let? qtable := quote_table_brackets table in
  let? qcols := quote_cols_brackets columns in
  let? alias_list := collect_quoted Brackets (λ q, "? AS " +:+ q) columns in
  let? on_clause := collect_quoted Brackets t_is_s conflict_columns in
  let updates := effective_update_columns columns conflict_columns update_columns in
  let? set_clause := collect_quoted Brackets t_is_s updates in
  let? insert_vals := collect_quoted Brackets of_source columns in
  let when_matched :=
    if String.eqb (join ", " set_clause) EmptyString then EmptyString else " WHEN MATCHED THEN UPDATE SET " +:+ join ", " set_clause in
  Ok ("MERGE INTO " +:+ qtable +:+ " AS t USING (SELECT " +:+ join ", " alias_list +:+ ") AS s ON " +:+ join " AND " on_clause
      +:+ when_matched +:+ " WHEN NOT MATCHED THEN INSERT (" +:+ qcols +:+ ") VALUES (" +:+ join ", " insert_vals +:+ ");").

(** [when_matched] of Oracle, Snowflake and Db2. *)
Definition when_matched_of (f : string → string) (updates : list string) : Result string :=
  match updates with
  | [] => Ok EmptyString
  | _ => let? set := collect_quoted DoubleQuote f updates in Ok (" WHEN MATCHED THEN UPDATE SET " +:+ join ", " set)
  end.

Definition oracle_upsert : Upserter := λ table columns conflict_columns update_columns,
  let? _ := validate_upsert_inputs table columns conflict_columns update_columns in
  let? qtable := quote_qualified_default table in
  let? source := collect_quoted DoubleQuote (λ q, "? " +:+ q) columns in
  let? on_clause := collect_quoted DoubleQuote t_is_s conflict_columns in
  let? when_matched := when_matched_of t_is_s (effective_update_columns columns conflict_columns update_columns) in
  let? insert_cols := omap_list quote_identifier_default columns in
  let? insert_vals := collect_quoted DoubleQuote of_source columns in
  Ok ("MERGE INTO " +:+ qtable +:+ " t USING (SELECT " +:+ join ", " source +:+ " FROM dual) s ON (" +:+ join " AND " on_clause +:+ ")"
      +:+ when_matched +:+ " WHEN NOT MATCHED THEN INSERT (" +:+ join ", " insert_cols +:+ ") VALUES (" +:+ join ", " insert_vals +:+ ")").

Definition snowflake_upsert : Upserter := λ table columns conflict_columns update_columns,
  let? _ := validate_upsert_inputs table columns conflict_columns update_columns in
  let? qtable := quote_qualified_default table in
  let? source := collect_quoted DoubleQuote (λ q, "? AS " +:+ q) columns in
  let? on_clause := collect_quoted DoubleQuote t_is_s conflict_columns in
  let? when_matched := when_matched_of t_is_s (effective_update_columns columns conflict_columns update_columns) in
  let? insert_cols := omap_list quote_identifier_default columns in
  let? insert_vals := collect_quoted DoubleQuote of_source columns in
  Ok ("MERGE INTO " +:+ qtable +:+ " t USING (SELECT " +:+ join ", " source +:+ ") s ON " +:+ join " AND " on_clause
      +:+ when_matched +:+ " WHEN NOT MATCHED THEN INSERT (" +:+ join ", " insert_cols +:+ ") VALUES (" +:+ join ", " insert_vals +:+ ")").

Definition db2_upsert : Upserter := λ table columns conflict_columns update_columns,
  let? _ := validate_upsert_inputs table columns conflict_columns update_columns in
  let? qtable := quote_qualified_default table in
  let? alias_cols := omap_list quote_identifier_default columns in
  let? on_clause := collect_quoted DoubleQuote t_is_s conflict_columns in
  let? when_matched := when_matched_of (λ q, q +:+ " = s." +:+ q) (effective_update_columns columns conflict_columns update_columns) in
  let? insert_vals := collect_quoted DoubleQuote of_source columns in
  Ok ("MERGE INTO " +:+ qtable +:+ " t USING (VALUES (" +:+ placeholder_list (length columns) +:+ ")) AS s(" +:+ join ", " alias_cols +:+ ") ON "
      +:+ join " AND " on_clause +:+ when_matched +:+ " WHEN NOT MATCHED THEN INSERT (" +:+ join ", " alias_cols +:+ ") VALUES ("
      +:+ join ", " insert_vals +:+ ")").

(** PostgreSQL and SQLite, which differ in how they write the row that was not inserted. *)
Definition on_conflict_upsert (excluded : string) : Upserter := λ table columns conflict_columns update_columns,
  let? _ := validate_upsert_inputs table columns conflict_columns update_columns in
  let? qtable := quote_qualified_default table in
  let? qcols := quote_columns columns in
  let? qconflict := quote_columns conflict_columns in
  let updates := effective_update_columns columns conflict_columns update_columns in
  let insert := "INSERT INTO " +:+ qtable +:+ " (" +:+ qcols +:+ ") VALUES (" +:+ placeholder_list (length columns) +:+ ") ON CONFLICT (" +:+ qconflict in
  match updates with
  | [] => Ok (insert +:+ ") DO NOTHING")
  | _ =>
      let? set_parts := collect_quoted DoubleQuote (λ q, q +:+ " = " +:+ excluded +:+ q) updates in
      Ok (insert +:+ ") DO UPDATE SET " +:+ join ", " set_parts)
  end.

Definition postgres_upsert : Upserter := on_conflict_upsert "EXCLUDED.".
Definition sqlite_upsert : Upserter := on_conflict_upsert "excluded.".

Definition values_of (q : string) : string := q +:+ " = VALUES(" +:+ q +:+ ")".

Definition mysql_upsert : Upserter := λ table columns conflict_columns update_columns,
  let? _ := validate_upsert_inputs table columns conflict_columns update_columns in
  let? qtable := quote_qualified_default table in
  let? qcols := quote_columns columns in
  let updates := effective_update_columns columns conflict_columns update_columns in
  match updates with
  | [] => Err (ValidationError "MySQL ON DUPLICATE KEY UPDATE requires at least one column to update")
  | _ =>
      let? set_parts := collect_quoted Backtick values_of updates in
      Ok ("INSERT INTO " +:+ qtable +:+ " (" +:+ qcols +:+ ") VALUES (" +:+ placeholder_list (length columns)
          +:+ ") ON DUPLICATE KEY UPDATE " +:+ join ", " set_parts)
  end.

Definition mariadb_upsert : Upserter := λ table columns conflict_columns update_columns,
  let? _ := validate_upsert_inputs table columns conflict_columns update_columns in
  let? qtable := quote_qualified_default table in
  let? qcols := quote_columns columns in
  let? set_parts := collect_quoted Backtick values_of (effective_update_columns columns conflict_columns update_columns) in
  let set_clause := match set_parts with [] => "id = id" | _ => join ", " set_parts end in
  Ok ("INSERT INTO " +:+ qtable +:+ " (" +:+ qcols +:+ ") VALUES (" +:+ placeholder_list (length columns)
      +:+ ") ON DUPLICATE KEY UPDATE " +:+ set_clause).

Definition sybase_upsert : Upserter := λ _ _ _ _,
  Err (UnsupportedFeature "Generic Sybase plugin does not implement UPSERT; use SybaseAsaPlugin (MERGE-capable) when targeting SQL Anywhere").

Definition build_upsert_sql (p : PluginId) : Upserter :=
  match p with
  | SqlServer => sqlserver_upsert
  | Oracle => oracle_upsert
  | Postgres => postgres_upsert
  | Sqlite => sqlite_upsert
  | MySql => mysql_upsert
  | MariaDb => mariadb_upsert
  | Db2 => db2_upsert
  | Snowflake => snowflake_upsert
  | Sybase => sybase_upsert
  end.

(** * The statements as parts *)

Section Parts.
Context (q : IdentifierQuoting).

Definition name_part (n : string) : list Piece := [Name q n].
Definition before_name (s : string) (n : string) : list Piece := [Txt s; Name q n].
Definition assign_part (l r : string) (n : string) : list Piece := [Txt l; Name q n; Txt r; Name q n].
Definition values_part (n : string) : list Piece := [Name q n; Txt " = VALUES("; Name q n; Txt ")"].
Definition set_part (r : string) (n : string) : list Piece := [Name q n; Txt r; Name q n].

Definition table_parts (parts : list string) : list Piece := items "." name_part parts.
Definition column_parts (cs : list string) : list Piece := items ", " name_part cs.

(** The statements that merge; [source], [on] and [set] are how an engine writes the rows, the
    condition and the update. *)
Definition merge_parts (as_t : string) (source : list Piece) (on on_end : string) (set : string → list Piece) (stop : string)
    (parts columns conflict updates : list string) : list Piece :=
  Txt "MERGE INTO " :: table_parts parts ++ Txt as_t :: source ++ Txt on :: items " AND " (assign_part "t." " = s.") conflict ++
  match updates with
  | [] => [] | _ => Txt (on_end +:+ " WHEN MATCHED THEN UPDATE SET ") :: items ", " set updates
  end ++
  Txt (match updates with [] => on_end | _ => EmptyString end +:+ " WHEN NOT MATCHED THEN INSERT (") :: column_parts columns ++
  Txt ") VALUES (" :: items ", " (before_name "s.") columns ++ [Txt stop].

Definition insert_parts (parts columns : list string) (rest : list Piece) : list Piece :=
  Txt "INSERT INTO " :: table_parts parts ++ Txt " (" :: column_parts columns ++
  Txt (") VALUES (" +:+ placeholder_list (length columns) +:+ ")") :: rest.
End Parts.

Definition conflict_parts (excluded : string) (parts columns conflict updates : list string) : list Piece :=
  insert_parts DoubleQuote parts columns
    (Txt " ON CONFLICT (" :: column_parts DoubleQuote conflict ++
     match updates with
     | [] => [Txt ") DO NOTHING"]
     | _ => Txt ") DO UPDATE SET " :: items ", " (set_part DoubleQuote (" = " +:+ excluded)) updates
     end).

Definition duplicate_parts (parts columns updates : list string) : list Piece :=
  insert_parts DoubleQuote parts columns
    [Txt " ON DUPLICATE KEY UPDATE "] ++
  match updates with [] => [Txt "id = id"] | _ => items ", " (values_part Backtick) updates end.

Definition upsert_parts (p : PluginId) (parts columns conflict updates : list string) : list Piece :=
  match p with
  | SqlServer =>
      merge_parts Brackets " AS t USING (SELECT " (items ", " (before_name Brackets "? AS ") columns) ") AS s ON " EmptyString
        (assign_part Brackets "t." " = s.") ");" parts columns conflict updates
  | Oracle =>
      merge_parts DoubleQuote " t USING (SELECT " (items ", " (before_name DoubleQuote "? ") columns) " FROM dual) s ON (" ")"
        (assign_part DoubleQuote "t." " = s.") ")" parts columns conflict updates
  | Snowflake =>
      merge_parts DoubleQuote " t USING (SELECT " (items ", " (before_name DoubleQuote "? AS ") columns) ") s ON " EmptyString
        (assign_part DoubleQuote "t." " = s.") ")" parts columns conflict updates
  | Db2 =>
      merge_parts DoubleQuote " t USING (VALUES ("
        (Txt (placeholder_list (length columns)) :: Txt ")) AS s(" :: column_parts DoubleQuote columns) ") ON " EmptyString
        (set_part DoubleQuote " = s.") ")" parts columns conflict updates
  | Postgres => conflict_parts "EXCLUDED." parts columns conflict updates
  | Sqlite => conflict_parts "excluded." parts columns conflict updates
  | MySql | MariaDb => duplicate_parts parts columns updates
  | Sybase => []
  end.

(** * Correctness of the parts *)

Record valid_upsert (table : string) (columns conflict updates : list string) : Prop := {
  vu_table : Forall is_identifier (split "." table);
  vu_columns : Forall is_identifier columns;
  vu_conflict : Forall is_identifier conflict;
  vu_updates : Forall is_identifier updates;
  vu_some : columns ≠ [] ∧ conflict ≠ []
}.

Lemma each_inv check xs : each check xs = Ok tt → Forall (λ x, check x = Ok tt) xs.
Proof.
  unfold each. induction xs as [|x xs IH]; [by constructor|]. cbn [omap_list].
  destruct (check x) as [[]| |] eqn:E; cbn [obind]; [|done..]. destruct (omap_list check xs) eqn:F; cbn [obind] in *; [|done..].
  intros _. constructor; [done|by apply IH].
Qed.

Lemma each_identifiers xs : each validate_identifier xs = Ok tt → Forall is_identifier xs.
Proof.
  intros H%each_inv. eapply Forall_impl; [exact H|]. intros x Hx.
  destruct (validate_identifier_cases x) as [[_ ?]|[[m E] _]]; [done|congruence].
Qed.

Lemma validate_upsert_inv table columns conflict update :
  validate_upsert_inputs table columns conflict update = Ok tt →
  valid_upsert table columns conflict (effective_update_columns columns conflict update).
Proof.
  unfold validate_upsert_inputs. case_if; [done|]. intros ([] & Ht%each_identifiers & H)%obind_Ok_inv.
  destruct columns as [|c cs]; [done|]. destruct conflict as [|k ks]; [done|].
  apply obind_Ok_inv in H as ([] & [Hc Hk]%each_identifiers%Forall_app & ([] & Hu & _)%obind_Ok_inv). split; [done..| |done].
  destruct update as [u|]; [by apply each_identifiers|]. cbn [effective_update_columns].
  apply Forall_forall. intros x Hx%list_elem_of_In%filter_In. rewrite Forall_forall in Hc. apply Hc, list_elem_of_In, Hx.
Qed.

Lemma collect_ok style f g cs :
  Forall is_identifier cs → (∀ c, f (wrap style c) = render (g c)) → collect_quoted style f cs = Ok (map (λ c, render (g c)) cs).
Proof.
  intros Hc Hf. unfold collect_quoted. induction Hc as [|c cs Hc _ IH]; [done|]. cbn [omap_list map].
  destruct (quote_identifier_cases c style) as [[_ ->]|[Hn _]]; [|done]. cbn [obind]. rewrite IH. cbn [obind]. by rewrite Hf.
Qed.

Lemma default_quoted cs : Forall is_identifier cs → omap_list quote_identifier_default cs = Ok (map (λ c, render (name_part DoubleQuote c)) cs).
Proof.
  intros Hc. destruct (quote_all_cases cs) as [[_ ->]|[Hn _]]; [|done]. f_equal. apply map_ext. intros c. cbn. by rewrite string_app_nil_r.
Qed.

Lemma quoted_columns cs : Forall is_identifier cs → cs ≠ [] → quote_columns cs = Ok (render (column_parts DoubleQuote cs)).
Proof.
  intros Hc Hne. destruct cs as [|c cs]; [done|]. unfold quote_columns. rewrite default_quoted by done. cbn [obind].
  unfold column_parts. by rewrite <- render_items.
Qed.

Lemma qualified_table table : Forall is_identifier (split "." table) →
  quote_qualified_default table = Ok (render (table_parts DoubleQuote (split "." table))).
Proof.
  intros Ht. unfold quote_qualified_default. pose proof (split_nonempty "." table) as Hne. destruct (split "." table) as [|x xs]; [done|].
  rewrite default_quoted by done. unfold table_parts. rewrite <- render_items. reflexivity.
Qed.

Lemma bracketed_table table : Forall is_identifier (split "." table) →
  quote_table_brackets table = Ok (render (table_parts Brackets (split "." table))).
Proof.
  intros Ht. unfold quote_table_brackets, table_parts. rewrite <- render_items.
  assert (omap_list (λ seg, let? _ := validate_identifier seg in quote_identifier seg Brackets) (split "." table)
    = Ok (map (λ x, render (name_part Brackets x)) (split "." table))) as ->; [|done].
  induction Ht as [|c cs Hc _ IH]; [done|]. cbn [omap_list map].
  destruct (validate_identifier_cases c) as [[-> _]|[_ Hn]]; [|done]. cbn [obind].
  destruct (quote_identifier_cases c Brackets) as [[_ ->]|[Hn _]]; [|done]. cbn [obind]. rewrite IH. cbn. by rewrite string_app_nil_r.
Qed.

Lemma when_matched_ok f g updates : Forall is_identifier updates → (∀ c, f (wrap DoubleQuote c) = render (g c)) →
  when_matched_of f updates = Ok (match updates with [] => EmptyString | _ => " WHEN MATCHED THEN UPDATE SET " +:+ render (items ", " g updates) end).
Proof.
  intros Hu Hf. unfold when_matched_of. destruct updates as [|u us]; [done|]. rewrite (collect_ok _ _ g) by done. cbn [obind].
  by rewrite render_items.
Qed.

Ltac text := intros; cbn [render render_piece name_part before_name assign_part values_part set_part];
  unfold t_is_s, of_source, values_of; repeat rewrite ?string_app_nil_r, ?string_app_assoc; reflexivity.

Ltac flatten :=
  unfold conflict_parts, duplicate_parts, merge_parts, insert_parts, table_parts, column_parts;
  repeat progress (cbn [render render_piece app]; rewrite ?render_app, ?string_app_assoc, ?string_app_nil_l, ?string_app_nil_r).

Lemma items_nonempty sep (g : string → list Piece) x xs : render (g x) ≠ EmptyString → render (items sep g (x :: xs)) ≠ EmptyString.
Proof. unfold items. rewrite render_joined. cbn [map]. destruct xs; cbn; [done|]. destruct (render (g x)); done. Qed.

(** The text that is built is the text of the parts. *)
Lemma build_parts p table columns conflict update :
  let updates := effective_update_columns columns conflict update in
  validate_upsert_inputs table columns conflict update = Ok tt → p ≠ Sybase → (p = MySql → updates ≠ []) →
  build_upsert_sql p table columns conflict update = Ok (render (upsert_parts p (split "." table) columns conflict updates)).
Proof.
  intros updates Hv Hs Hm. pose proof (validate_upsert_inv _ _ _ _ Hv) as [Ht Hc Hk Hu [Hne Hkne]]. fold updates in Hu.
  destruct p; [| | | | |done|..]; cbn [build_upsert_sql upsert_parts];
    unfold sqlserver_upsert, oracle_upsert, snowflake_upsert, db2_upsert, postgres_upsert, sqlite_upsert, on_conflict_upsert, mysql_upsert, mariadb_upsert, quote_cols_brackets;
    rewrite Hv; cbn [obind]; fold updates;
    rewrite ?qualified_table, ?bracketed_table, ?quoted_columns, ?default_quoted by done; cbn [obind].
  - rewrite (collect_ok Brackets id (name_part Brackets)) by (done || text). cbn [obind].
    rewrite (collect_ok Brackets _ (before_name Brackets "? AS ")) by (done || text). cbn [obind].
    rewrite (collect_ok Brackets t_is_s (assign_part Brackets "t." " = s.") conflict) by (done || text). cbn [obind].
    rewrite (collect_ok Brackets t_is_s (assign_part Brackets "t." " = s.") updates) by (done || text). cbn [obind].
    rewrite (collect_ok Brackets of_source (before_name Brackets "s.")) by (done || text). cbn [obind].
    rewrite !render_items. f_equal. destruct updates as [|u us]; [by flatten|].
    replace (String.eqb _ EmptyString) with false; [by flatten|]. symmetry. by apply String.eqb_neq, items_nonempty.
  - rewrite (collect_ok _ _ (before_name DoubleQuote "? ")), (collect_ok _ t_is_s (assign_part DoubleQuote "t." " = s.")),
      (when_matched_ok t_is_s (assign_part DoubleQuote "t." " = s.")), (collect_ok _ of_source (before_name DoubleQuote "s.")) by (done || text).
    cbn [obind]. rewrite !render_items. f_equal. destruct updates; by flatten.
  - destruct updates as [|u us]; [by flatten|]. rewrite (collect_ok _ _ (set_part DoubleQuote (" = " +:+ "EXCLUDED."))) by (done || text).
    cbn [obind]. rewrite !render_items. by flatten.
  - destruct updates as [|u us]; [by destruct Hm|]. rewrite (collect_ok _ _ (values_part Backtick)) by (done || text).
    cbn [obind]. rewrite !render_items. by flatten.
  - rewrite (collect_ok _ _ (values_part Backtick)) by (done || text). cbn [obind]. destruct updates as [|u us]; [by flatten|].
    cbn [map]. change (render (values_part Backtick u) :: _) with (map (λ c, render (values_part Backtick c)) (u :: us)).
    rewrite !render_items. by flatten.
  - destruct updates as [|u us]; [by flatten|]. rewrite (collect_ok _ _ (set_part DoubleQuote (" = " +:+ "excluded."))) by (done || text).
    cbn [obind]. rewrite !render_items. by flatten.
  - rewrite (collect_ok _ t_is_s (assign_part DoubleQuote "t." " = s.")),
      (when_matched_ok _ (set_part DoubleQuote " = s.")), (collect_ok _ of_source (before_name DoubleQuote "s.")) by (done || text).
    cbn [obind]. rewrite !render_items. f_equal. destruct updates; by flatten.
  - rewrite (collect_ok _ _ (before_name DoubleQuote "? AS ")), (collect_ok _ t_is_s (assign_part DoubleQuote "t." " = s.")),
      (when_matched_ok t_is_s (assign_part DoubleQuote "t." " = s.")), (collect_ok _ of_source (before_name DoubleQuote "s.")) by (done || text).
    cbn [obind]. rewrite !render_items. f_equal. destruct updates; by flatten.
Qed.

(** * What the engine reads *)

Ltac part := intros; cbn [readable name_part before_name assign_part values_part set_part];
  rewrite ?identifier_not_closing by done; vm_compute; reflexivity.

Lemma placeholder_nonempty {A} (xs : list A) : xs ≠ [] → placeholder_list (length xs) ≠ EmptyString.
Proof. destruct xs as [|x [|y xs]]; done. Qed.

Ltac plain_text :=
  lazymatch goal with
  | |- placeholder_list _ ≠ EmptyString => apply placeholder_nonempty; assumption
  | |- _ ≠ EmptyString => discriminate
  | |- forall_chars _ _ = true =>
      rewrite ?forall_chars_app; unfold placeholder_list; rewrite ?forall_chars_join by reflexivity; vm_compute; reflexivity
  end.

Ltac readable_step :=
  lazymatch goal with
  | |- readable _ _ [] = true => reflexivity
  | |- readable _ _ (Txt _ :: _) = true => apply readable_txt; [plain_text|plain_text|]
  | |- readable _ _ (items _ _ _ ++ Txt _ :: _) = true => apply readable_mid; [|plain_text|plain_text|]
  | |- readable _ _ (items _ _ _) = true => apply (readable_items _ _ _ is_identifier); [plain_text|plain_text|part|assumption]
  end.

Lemma upsert_readable p parts columns conflict updates :
  Forall is_identifier parts → Forall is_identifier columns → Forall is_identifier conflict → Forall is_identifier updates → columns ≠ [] →
  readable (dialect p) false (upsert_parts p parts columns conflict updates) = true.
Proof.
  intros Hp Hc Hk Hu Hne. destruct p; cbn [upsert_parts]; [| | | | |reflexivity|..];
    unfold conflict_parts, duplicate_parts, merge_parts, insert_parts, table_parts, column_parts;
    destruct updates as [|u us]; repeat rewrite <- ?app_comm_cons, <- ?app_assoc; cbn [app String.append]; repeat readable_step.
Qed.

(** What the quotes hold, in order: the table, the columns, and the columns of the condition and of the
    update twice where they are compared. *)
Definition twice (xs : list string) : list string := flat_map (λ x, [x; x]) xs.

Definition upsert_names (p : PluginId) (parts columns conflict updates : list string) : list string :=
  match p with
  | SqlServer | Oracle | Snowflake | Db2 => parts ++ columns ++ twice conflict ++ twice updates ++ columns ++ columns
  | Postgres | Sqlite => parts ++ columns ++ conflict ++ twice updates
  | MySql | MariaDb => parts ++ columns ++ twice updates
  | Sybase => []
  end.

Definition upsert_skeleton (p : PluginId) (parts columns conflict updates : nat) : string :=
  plain (toks (upsert_parts p (repeat EmptyString parts) (repeat EmptyString columns) (repeat EmptyString conflict) (repeat EmptyString updates))).

Lemma flat_map_single {A} (xs : list A) : flat_map (λ x, [x]) xs = xs.
Proof. induction xs; [done|]. cbn. by f_equal. Qed.

Lemma map_flat_map {A B C} (f : B → C) (g : A → list B) xs : map f (flat_map g xs) = flat_map (λ x, map f (g x)) xs.
Proof. induction xs as [|x xs IH]; [done|]. cbn. by rewrite map_app, IH. Qed.

Definition named (q : IdentifierQuoting) (n : string) : Quote * string := (Named q, n).

Lemma upsert_quotes p parts columns conflict updates :
  map snd (quotes (toks (upsert_parts p parts columns conflict updates))) = upsert_names p parts columns conflict updates ∧
  Forall (λ x, ∃ q, x.1 = Named q) (quotes (toks (upsert_parts p parts columns conflict updates))).
Proof.
  assert (∀ sep q xs, quotes (toks (items sep (name_part q) xs)) = flat_map (λ n, [named q n]) xs) as Hn.
  { intros. by apply quotes_items. }
  assert (∀ sep s q xs, quotes (toks (items sep (before_name q s) xs)) = flat_map (λ n, [named q n]) xs) as Hb.
  { intros. apply quotes_items. intros x. unfold before_name. by rewrite !quotes_cons. }
  assert (∀ sep l r q xs, quotes (toks (items sep (assign_part q l r) xs)) = flat_map (λ n, [named q n; named q n]) xs) as Ha.
  { intros. apply quotes_items. intros x. unfold assign_part. by rewrite !quotes_cons. }
  assert (∀ sep r q xs, quotes (toks (items sep (set_part q r) xs)) = flat_map (λ n, [named q n; named q n]) xs) as Hs.
  { intros. apply quotes_items. intros x. unfold set_part. by rewrite !quotes_cons. }
  assert (∀ sep q xs, quotes (toks (items sep (values_part q) xs)) = flat_map (λ n, [named q n; named q n]) xs) as Hv.
  { intros. apply quotes_items. intros x. unfold values_part. by rewrite !quotes_cons. }
  assert (∀ q xs, Forall (λ x, ∃ q, x.1 = Named q) (flat_map (λ n, [named q n]) xs)) as F1.
  { intros q xs. induction xs; cbn; [done|]. constructor; [by eexists|done]. }
  assert (∀ q xs, Forall (λ x, ∃ q, x.1 = Named q) (flat_map (λ n, [named q n; named q n]) xs)) as F2.
  { intros q xs. induction xs; cbn; [done|]. repeat constructor; [by eexists..|done]. }
  destruct p; cbn [upsert_parts]; [| | | | |by split|..];
    unfold conflict_parts, duplicate_parts, merge_parts, insert_parts, table_parts, column_parts, upsert_names, twice;
    (destruct updates as [|u us]; [|set (us' := u :: us)]);
    repeat rewrite ?quotes_cons, ?quotes_toks_app, ?Hn, ?Hb, ?Ha, ?Hs, ?Hv, ?app_nil_l, ?app_nil_r, ?map_app, ?map_flat_map;
    cbn [map snd named]; rewrite ?flat_map_single; cbn [flat_map app]; rewrite ?app_nil_r;
    (split; [by rewrite <- ?app_assoc|repeat first [apply Forall_app; split | apply F1 | apply F2 | apply Forall_nil; exact I | apply Forall_cons; split; [by eexists|]]]).
Qed.

Section ItemLemmas.
Context (sep : string) (q : IdentifierQuoting).

Lemma plain_names xs : plain (toks (items sep (name_part q) xs)) = join sep (repeat EmptyString (length xs)).
Proof. by apply plain_items. Qed.

Lemma plain_before s xs : plain (toks (items sep (before_name q s) xs)) = join sep (repeat s (length xs)).
Proof. apply plain_items. intros x. unfold before_name. rewrite !plain_cons. by rewrite string_app_nil_l, string_app_nil_r. Qed.

Lemma plain_assign l r xs : plain (toks (items sep (assign_part q l r) xs)) = join sep (repeat (l +:+ r) (length xs)).
Proof. apply plain_items. intros x. unfold assign_part. rewrite !plain_cons. by rewrite !string_app_nil_l, string_app_nil_r. Qed.

Lemma plain_set r xs : plain (toks (items sep (set_part q r) xs)) = join sep (repeat r (length xs)).
Proof. apply plain_items. intros x. unfold set_part. rewrite !plain_cons. by rewrite !string_app_nil_l, string_app_nil_r. Qed.

Lemma plain_values xs : plain (toks (items sep (values_part q) xs)) = join sep (repeat " = VALUES()" (length xs)).
Proof. apply plain_items. intros x. unfold values_part. by rewrite !plain_cons. Qed.
End ItemLemmas.

Ltac plain_parts := repeat rewrite ?plain_cons, ?plain_toks_app, ?plain_names, ?plain_before, ?plain_assign, ?plain_set, ?plain_values.

Ltac unfold_parts :=
  unfold conflict_parts, duplicate_parts, merge_parts, insert_parts, table_parts, column_parts.

(** The text outside quotes depends on how many names there are, and on nothing in them. *)
Lemma upsert_plain p parts columns conflict updates :
  plain (toks (upsert_parts p parts columns conflict updates))
  = upsert_skeleton p (length parts) (length columns) (length conflict) (length updates).
Proof.
  unfold upsert_skeleton.
  destruct p; cbn [upsert_parts]; [| | | | |done|..]; unfold_parts; destruct updates as [|u us];
    cbn [length repeat]; plain_parts; rewrite ?repeat_length; cbn [length]; by rewrite ?repeat_length.
Qed.

Ltac count_parts :=
  repeat first [rewrite count_app|rewrite count_join by reflexivity];
  repeat match goal with |- context [count "?" ?s] => let n := eval vm_compute in (count "?" s) in change (count "?" s) with n end.

Lemma skeleton_placeholders p parts columns conflict updates :
  p ≠ Sybase → count "?" (upsert_skeleton p parts columns conflict updates) = columns.
Proof.
  intros Hp. unfold upsert_skeleton, upsert_parts.
  destruct p; [| | | | |done|..]; unfold_parts; destruct updates as [|u]; cbn [repeat]; plain_parts; unfold placeholder_list;
    rewrite ?repeat_length; count_parts; lia.
Qed.



(** Every request that passes the checks gets its statement, on each engine but Sybase, and but a MySQL
    request that leaves nothing to update. *)
Theorem upsert_accepts (p : PluginId) (table : string) (columns conflict : list string) (update : option (list string)) :
  validate_upsert_inputs table columns conflict update = Ok tt →
  is_ok (build_upsert_sql p table columns conflict update) =
    negb (bool_decide (p = Sybase) ||
          bool_decide (p = MySql) && bool_decide (effective_update_columns columns conflict update = [])).
Proof.
  intros Hv. destruct (decide (p = Sybase)) as [->|Hs]; [done|]. rewrite (bool_decide_eq_false_2 _ Hs). cbn [orb].
  destruct (decide (p = MySql ∧ effective_update_columns columns conflict update = [])) as [[-> Hu]|Hn].
  - pose proof (validate_upsert_inv _ _ _ _ Hv) as [Ht Hc _ _ [Hne _]]. rewrite Hu. cbn. unfold mysql_upsert.
    rewrite Hv. cbn [obind]. rewrite qualified_table, quoted_columns by done. cbn [obind]. by rewrite Hu.
  - rewrite build_parts by (done || (intros -> Hu; by apply Hn)). symmetry. apply negb_true_iff. rewrite andb_false_iff, !bool_decide_eq_false.
    destruct (decide (p = MySql)); [right|by left]. intros Hu. by apply Hn.
Qed.

(** MySQL reads a text between double quotes as a string unless the mode ANSI_QUOTES is set, but the table and
    the columns of the insert are written so: with the default mode they are literals. *)
Example mysql_names_are_literals :
  let sql := "INSERT INTO " +:+ wrap DoubleQuote "t" +:+ " (" +:+ wrap DoubleQuote "id" +:+ ", " +:+ wrap DoubleQuote "v"
             +:+ ") VALUES (?, ?) ON DUPLICATE KEY UPDATE `v` = VALUES(`v`)" in
  build_upsert_sql MySql "t" ["id"; "v"] ["id"] None = Ok sql ∧
  quotes <$> lex mysql_default sql
  = Some [(Literal (chr 34), "t"); (Literal (chr 34), "id"); (Literal (chr 34), "v"); (Named Backtick, "v"); (Named Backtick, "v")].
Proof. split; vm_compute; reflexivity. Qed.

(** When there is nothing to update MariaDB is told to set a column [id], which the table may not have. *)
Example mariadb_updates_id :
  build_upsert_sql MariaDb "t" ["code"] ["code"] None
  = Ok ("INSERT INTO " +:+ wrap DoubleQuote "t" +:+ " (" +:+ wrap DoubleQuote "code" +:+ ") VALUES (?) ON DUPLICATE KEY UPDATE id = id").
Proof. vm_compute. reflexivity. Qed.
