(* ===== verification/Returning.v ===== *)
(** RETURNING and OUTPUT clauses (plugins/capabilities/returning.rs and the [Returnable] of each plugin):
    where the clause goes into the caller's statement. *)

From Stdlib Require Import DecimalString.
From S2P Require Import Prelude Wire Errors Text Identifier SqlText Plugins Upsert.

Inductive DmlVerb := Insert | Update | Delete.

#[export] Instance DmlVerb_eq_dec : EqDecision DmlVerb.
Proof. solve_decision. Defined.

Definition supports_returning (p : PluginId) : bool := match p with MySql | Sybase => false | _ => true end.

(** Oracle hands the values to bound variables. *)
Definition returns_resultset (p : PluginId) : bool := match p with Oracle => false | _ => true end.

Definition quote_returning_columns (columns : list string) : Result string :=
  match columns with
  | [] => Err (ValidationError "RETURNING requires at least one column")
  | _ =>
      let? out := omap_list (λ c, let? _ := validate_identifier c in quote_identifier_default c) columns in
      Ok (join ", " out)
  end.

Definition output_prefix (verb : DmlVerb) : string := match verb with Delete => "DELETED" | _ => "INSERTED" end.

(** [let (head, tail) = trimmed.split_at(pos); format!("{head} OUTPUT {cols}{tail}")] *)
Definition output_at (trimmed cols : string) (pos : nat) : Result string :=
  let? '(head, tail) := split_at pos trimmed in
  Ok (head +:+ " OUTPUT " +:+ cols +:+ tail).

(** After the first SET, the condition. *)
Definition where_after_set (upper : string) (set_pos : nat) : option nat :=
  (λ where_pos, (set_pos + where_pos)%nat) <$> find " WHERE" (str_drop set_pos upper).

Definition output_place (upper : string) : option nat :=
  match rfind " VALUES" upper with
  | Some values_pos => Some values_pos
  | None =>
      match rfind " SELECT" upper with
      | Some select_pos => Some select_pos
      | None =>
          match find " SET" upper with
          | Some set_pos => where_after_set upper set_pos
          | None => if str_starts_with upper "DELETE" then find " WHERE" upper else None
          end
      end
  end.

Definition sqlserver_returning (sql : string) (verb : DmlVerb) (columns : list string) : Result string :=
  let prefix := output_prefix verb in
  let? cols := collect_quoted Brackets (λ q, prefix +:+ "." +:+ q) columns in
  let cols := join ", " cols in
  let trimmed := trim_end (trim_end_matches ";" sql) in
  match output_place (to_ascii_uppercase trimmed) with
  | Some pos => output_at trimmed cols pos
  | None => Ok (trimmed +:+ " OUTPUT " +:+ cols)
  end.

Definition into_vars (n : nat) : string := join ", " (map (λ i, ":ret_" +:+ fmt_Z (Z.of_nat i)) (seq 0 n)).

Definition oracle_returning (sql : string) (verb : DmlVerb) (columns : list string) : Result string :=
  let? proj := quote_returning_columns columns in
  Ok (trim_end_matches ";" sql +:+ " RETURNING " +:+ proj +:+ " INTO " +:+ into_vars (length columns)).

Definition postgres_returning (sql : string) (verb : DmlVerb) (columns : list string) : Result string :=
  let? proj := quote_returning_columns columns in
  Ok (trim_end_matches ";" sql +:+ " RETURNING " +:+ proj).

(** Three plugins do the same. *)
Definition mariadb_returning : string → DmlVerb → list string → Result string := postgres_returning.
Definition sqlite_returning : string → DmlVerb → list string → Result string := postgres_returning.
Definition snowflake_returning : string → DmlVerb → list string → Result string := postgres_returning.

Definition db2_returning (sql : string) (verb : DmlVerb) (columns : list string) : Result string :=
  match verb with
  | Delete => Err (UnsupportedFeature "Db2 FROM FINAL TABLE works for INSERT and UPDATE only")
  | _ =>
      let? proj := omap_list quote_identifier_default columns in
      Ok ("SELECT " +:+ join ", " proj +:+ " FROM FINAL TABLE (" +:+ trim_end_matches ";" sql +:+ ")")
  end.

Definition append_returning_clause (p : PluginId) : string → DmlVerb → list string → Result string :=
  match p with
  | SqlServer => sqlserver_returning
  | Oracle => oracle_returning
  | Postgres => postgres_returning
  | MariaDb => mariadb_returning
  | Sqlite => sqlite_returning
  | Snowflake => snowflake_returning
  | MySql => λ _ _ _, Err (UnsupportedFeature "MySQL does not support RETURNING; use SELECT LAST_INSERT_ID() instead")
  | Sybase => λ _ _ _, Err (UnsupportedFeature "Sybase does not support RETURNING; use SELECT @@IDENTITY (ASE) instead")
  | Db2 => db2_returning
  end.

(** * Where the clause goes *)

(** What is sent of the caller's statement. *)
Definition statement_of (p : PluginId) (sql : string) : string :=
  match p with SqlServer => trim_end (trim_end_matches ";" sql) | _ => trim_end_matches ";" sql end.

(** What is put before it, into it and after it. *)
Definition added_parts (p : PluginId) (verb : DmlVerb) (columns : list string) : list Piece * list Piece * list Piece :=
  match p with
  | SqlServer => ([], Txt " OUTPUT " :: items ", " (before_name Brackets (output_prefix verb +:+ ".")) columns, [])
  | Oracle => ([], Txt " RETURNING " :: column_parts DoubleQuote columns ++ [Txt (" INTO " +:+ into_vars (length columns))], [])
  | Db2 => (Txt "SELECT " :: column_parts DoubleQuote columns ++ [Txt " FROM FINAL TABLE ("], [], [Txt ")"])
  | _ => ([], Txt " RETURNING " :: column_parts DoubleQuote columns, [])
  end.

Lemma returning_columns_cases columns :
  (Forall is_identifier columns ∧ columns ≠ [] ∧ quote_returning_columns columns = Ok (render (column_parts DoubleQuote columns))) ∨
  ∃ m, quote_returning_columns columns = Err (ValidationError m).
Proof.
  unfold quote_returning_columns. destruct columns as [|c cs]; [right; by eexists|]. set (xs := c :: cs).
  assert (omap_list (λ c, let? _ := validate_identifier c in quote_identifier_default c) xs = omap_list quote_identifier_default xs) as ->.
  { clearbody xs. induction xs as [|x xs IH]; [done|]. cbn [omap_list]. rewrite IH. f_equal.
    unfold quote_identifier_default, quote_identifier. by destruct (validate_identifier x) as [[]| |]. }
  destruct (quote_all_cases xs) as [[Hx _]|[_ [m ->]]]; [left|right; by eexists].
  split; [done|]. split; [done|]. rewrite default_quoted by done. cbn [obind]. unfold column_parts. by rewrite <- render_items.
Qed.

Lemma collect_cases style f g cs : (∀ c, f (wrap style c) = render (g c)) →
  (Forall is_identifier cs ∧ collect_quoted style f cs = Ok (map (λ c, render (g c)) cs)) ∨
  ∃ m, collect_quoted style f cs = Err (ValidationError m).
Proof.
  intros Hf. unfold collect_quoted. induction cs as [|c cs IH]; [by left|]. cbn [omap_list map].
  destruct (quote_identifier_cases c style) as [[Hc ->]|[_ [m ->]]]; cbn [obind]; [|right; by eexists].
  destruct IH as [[Hcs ->]|[m ->]]; cbn [obind]; [left|right; by eexists]. rewrite Hf. by split; [constructor|].
Qed.

(** A place found in the upper-case text is a blank of the text itself. *)
Lemma output_place_boundary s pos : output_place (to_ascii_uppercase s) = Some pos → is_char_boundary pos s = true.
Proof.
  assert (∀ p pos, (∃ a b, to_ascii_uppercase s = a +:+ String " " p +:+ b ∧ String.length a = pos) → is_char_boundary pos s = true) as Hp.
  { intros p n (a & b & Hs & <-). unfold is_char_boundary.
    pose proof (drop_string_map ascii_upper (String.length a) s) as Hd. fold (to_ascii_uppercase s) in Hd. rewrite Hs, drop_app_str in Hd.
    destruct (str_drop (String.length a) s) as [|c r] eqn:E; [done|]. rewrite string_app_cons in Hd. cbn in Hd. injection Hd as Hc _.
    destruct c as [[] [] [] [] [] [] [] []]; try discriminate Hc; reflexivity. }
  unfold output_place, where_after_set.
  destruct (rfind " VALUES" _) eqn:E1; [intros [= <-]; eapply (Hp "VALUES"), rfind_Some, E1|].
  destruct (rfind " SELECT" _) eqn:E2; [intros [= <-]; eapply (Hp "SELECT"), rfind_Some, E2|].
  destruct (find " SET" _) as [k|] eqn:E3.
  - intros (w & Hw & ->)%fmap_Some. apply find_Some in Hw as (a & b & Hd & <-). apply find_Some in E3 as (x & y & Hx & <-).
    apply (Hp "WHERE"). exists (x +:+ a), b. split; [|apply length_app_str]. rewrite Hx in Hd |- *. rewrite drop_app_str in Hd.
    rewrite string_app_assoc. by rewrite <- Hd.
  - case_match; [|done]. intros (a & b & Hf)%find_Some. apply (Hp "WHERE"). eauto.
Qed.

Lemma output_at_ok trimmed cols pos : is_char_boundary pos trimmed = true →
  output_at trimmed cols pos = Ok (str_take pos trimmed +:+ " OUTPUT " +:+ cols +:+ str_drop pos trimmed).
Proof. intros Hb. unfold output_at, split_at. by rewrite Hb. Qed.

Lemma fmt_plain z : forall_chars (plain_char ansi) (fmt_Z z) = true.
Proof.
  assert (∀ u, forall_chars (plain_char ansi) (NilEmpty.string_of_uint u) = true) as Hu.
  { induction u as [|u IH|u IH|u IH|u IH|u IH|u IH|u IH|u IH|u IH|u IH]; [done|..]; cbn [NilEmpty.string_of_uint forall_chars]; by rewrite IH. }
  unfold fmt_Z. destruct (Z.to_int z) as [u|u]; cbn [NilEmpty.string_of_int]; [apply Hu|]. cbn [forall_chars]. by rewrite Hu.
Qed.

Lemma into_vars_plain n : forall_chars (plain_char ansi) (" INTO " +:+ into_vars n) = true.
Proof.
  rewrite forall_chars_app. unfold into_vars. generalize (seq 0 n) as ks. intros ks. change (forall_chars (plain_char ansi) " INTO ") with true. cbn [andb].
  induction ks as [|i [|j ks] IH]; [done| |].
  - cbn [map join]. by rewrite forall_chars_app, fmt_plain.
  - change (join ", " (map (λ i, ":ret_" +:+ fmt_Z (Z.of_nat i)) (i :: j :: ks)))
      with ((":ret_" +:+ fmt_Z (Z.of_nat i)) +:+ ", " +:+ join ", " (map (λ i, ":ret_" +:+ fmt_Z (Z.of_nat i)) (j :: ks))).
    rewrite !forall_chars_app, fmt_plain, IH. reflexivity.
Qed.

Definition all_added (p : PluginId) (verb : DmlVerb) (columns : list string) : list Piece :=
  let '(before, clause, after) := added_parts p verb columns in before ++ clause ++ after.

Lemma added_readable p verb columns : Forall is_identifier columns → readable (dialect p) false (all_added p verb columns) = true.
Proof.
  intros Hc. destruct p; unfold all_added, added_parts, column_parts; rewrite ?app_nil_r; cbn [app];
    repeat rewrite <- ?app_comm_cons, <- ?app_assoc; cbn [app].
  1: destruct verb.
  all: try (repeat readable_step; fail).
  all: try (apply readable_txt; [done|reflexivity|]; apply readable_mid; [readable_step|discriminate|apply into_vars_plain|done]).
  all: repeat readable_step.
Qed.

Lemma added_names p verb columns : map snd (quotes (toks (all_added p verb columns))) = columns.
Proof.
  assert (∀ q, quotes (toks (items ", " (name_part q) columns)) = flat_map (λ n, [named q n]) columns) as Hn by (intros; by apply quotes_items).
  assert (∀ s q, quotes (toks (items ", " (before_name q s) columns)) = flat_map (λ n, [named q n]) columns) as Hb.
  { intros. apply quotes_items. intros x. unfold before_name. by rewrite !quotes_cons. }
  destruct p; unfold all_added, added_parts, column_parts; cbn [app]; rewrite ?app_nil_r;
    repeat rewrite ?quotes_cons, ?quotes_toks_app, ?Hn, ?Hb; cbn [app quotes toks]; rewrite ?app_nil_r, ?map_flat_map; apply flat_map_single.
Qed.

Ltac plain_case :=
  match goal with Hlex : Forall is_identifier ?columns → _ |- context [trim_end_matches ";" ?sql] =>
    let Hc := fresh "Hc" in let m := fresh "m" in
    destruct (returning_columns_cases columns) as [(Hc & _ & ->)|[m ->]]; [|by eexists; left]; cbn [obind]; specialize (Hlex Hc);
    cbn [added_parts statement_of] in *; (split; [|done]); exists (trim_end_matches ";" sql), EmptyString; rewrite !string_app_nil_r;
    (split; [done|]); cbn [render render_piece]; by rewrite string_app_nil_l
  end.


(** The place is looked for in the text, also inside string literals: the clause then becomes part of a value. *)
Example output_inside_literal :
  append_returning_clause SqlServer "INSERT INTO t (a) VALUES ('no VALUES here')" Insert ["id"]
  = Ok "INSERT INTO t (a) VALUES ('no OUTPUT INSERTED.[id] VALUES here')".
Proof. vm_compute. reflexivity. Qed.

(** An update whose new value is a subquery gets the clause inside the subquery. *)
Example output_inside_subquery :
  append_returning_clause SqlServer "UPDATE t SET a = ( SELECT max(b) FROM u) WHERE id = 1" Update ["a"]
  = Ok "UPDATE t SET a = ( OUTPUT INSERTED.[a] SELECT max(b) FROM u) WHERE id = 1".
Proof. vm_compute. reflexivity. Qed.

(** Without columns SQL Server and Db2 build a clause that holds nothing; the others refuse. *)
Example output_of_nothing :
  (append_returning_clause SqlServer "DELETE FROM t" Delete [], append_returning_clause Db2 "INSERT INTO t VALUES (1);" Insert [],
   append_returning_clause Postgres "DELETE FROM t" Delete [])
  = (Ok "DELETE FROM t OUTPUT ", Ok "SELECT  FROM FINAL TABLE (INSERT INTO t VALUES (1))", Err (ValidationError "RETURNING requires at least one column")).
Proof. vm_compute. reflexivity. Qed.
