(* ===== verification/SessionInit.v ===== *)
(** What is sent to an engine right after connecting (plugins/capabilities/session_init.rs and the
    [SessionInitializer] of each plugin). *)

From S2P Require Import Prelude Wire Errors Text Identifier SqlText Plugins.

Record SessionOptions := mkSessionOptions {
  so_application_name : option string;
  so_timezone : option string;
  so_charset : option string;
  so_schema : option string;
  so_extra_sql : list string
}.

Definition session_default : SessionOptions := mkSessionOptions None None None None [].

Definition with_application_name (name : string) (o : SessionOptions) : SessionOptions :=
  mkSessionOptions (Some name) (so_timezone o) (so_charset o) (so_schema o) (so_extra_sql o).
Definition with_timezone (tz : string) (o : SessionOptions) : SessionOptions :=
  mkSessionOptions (so_application_name o) (Some tz) (so_charset o) (so_schema o) (so_extra_sql o).
Definition with_charset (cs : string) (o : SessionOptions) : SessionOptions :=
  mkSessionOptions (so_application_name o) (so_timezone o) (Some cs) (so_schema o) (so_extra_sql o).
Definition with_schema (schema : string) (o : SessionOptions) : SessionOptions :=
  mkSessionOptions (so_application_name o) (so_timezone o) (so_charset o) (Some schema) (so_extra_sql o).
Definition with_extra_sql (sql : string) (o : SessionOptions) : SessionOptions :=
  mkSessionOptions (so_application_name o) (so_timezone o) (so_charset o) (so_schema o) (so_extra_sql o ++ [sql]).

(** [if let Some(v) = option { out.push(format!(..)) }] *)
Definition when (o : option string) (f : string → string) : list string :=
  match o with Some v => [f v] | None => [] end.

(** A schema that is no identifier is left out without a word. *)
Definition when_schema (o : option string) (style : IdentifierQuoting) (f : string → string) : list string :=
  match o with
  | Some schema => match quote_identifier schema style with Ok q => [f q] | _ => [] end
  | None => []
  end.

(** [replace('\'', "''")] *)
Definition escaped (s : string) : string := doubled apostrophe s.

Definition in_literal (before after : string) (v : string) : string := before +:+ "'" +:+ escaped v +:+ "'" +:+ after.

Definition sqlserver_session (o : SessionOptions) : list string :=
  ["SET ARITHABORT ON"; "SET CONCAT_NULL_YIELDS_NULL ON"] ++ so_extra_sql o.

Definition oracle_session (o : SessionOptions) : list string :=
  ["ALTER SESSION SET NLS_DATE_FORMAT='YYYY-MM-DD HH24:MI:SS'";
   "ALTER SESSION SET NLS_TIMESTAMP_FORMAT='YYYY-MM-DD HH24:MI:SS.FF'";
   "ALTER SESSION SET NLS_NUMERIC_CHARACTERS='.,'"]
  ++ when (so_timezone o) (in_literal "ALTER SESSION SET TIME_ZONE=" EmptyString)
  ++ when_schema (so_schema o) DoubleQuote (λ q, "ALTER SESSION SET CURRENT_SCHEMA = " +:+ q)
  ++ so_extra_sql o.

Definition postgres_session (o : SessionOptions) : list string :=
  when (so_application_name o) (in_literal "SET application_name = " EmptyString)
  ++ when (so_timezone o) (in_literal "SET TIME ZONE " EmptyString)
  ++ when_schema (so_schema o) DoubleQuote (λ q, "SET search_path TO " +:+ q)
  ++ so_extra_sql o.

Definition mysql_session (o : SessionOptions) : list string :=
  ["SET NAMES " +:+ replace_char apostrophe EmptyString (default "utf8mb4" (so_charset o))]
  ++ when (so_timezone o) (in_literal "SET time_zone = " EmptyString)
  ++ when_schema (so_schema o) Backtick (λ q, "USE " +:+ q)
  ++ so_extra_sql o.

Definition mariadb_session : SessionOptions → list string := mysql_session.

Definition sybase_session (o : SessionOptions) : list string := ["SET QUOTED_IDENTIFIER ON"; "SET CHAINED OFF"] ++ so_extra_sql o.

Definition sqlite_session (o : SessionOptions) : list string :=
  ["PRAGMA foreign_keys = ON"; "PRAGMA journal_mode = WAL"; "PRAGMA synchronous = NORMAL"] ++ so_extra_sql o.

Definition db2_session (o : SessionOptions) : list string :=
  when_schema (so_schema o) DoubleQuote (λ q, "SET CURRENT SCHEMA = " +:+ q)
  ++ when (so_application_name o) (in_literal "CALL SYSPROC.WLM_SET_CLIENT_INFO(" ", NULL, NULL, NULL, NULL)")
  ++ so_extra_sql o.

Definition snowflake_session (o : SessionOptions) : list string :=
  when (so_timezone o) (in_literal "ALTER SESSION SET TIMEZONE = " EmptyString)
  ++ when_schema (so_schema o) DoubleQuote (λ q, "USE SCHEMA " +:+ q)
  ++ when (so_application_name o) (in_literal "ALTER SESSION SET QUERY_TAG = " EmptyString)
  ++ so_extra_sql o.

Definition initialization_sql (p : PluginId) : SessionOptions → list string :=
  match p with
  | SqlServer => sqlserver_session
  | Oracle => oracle_session
  | Postgres => postgres_session
  | MySql => mysql_session
  | MariaDb => mariadb_session
  | Sybase => sybase_session
  | Sqlite => sqlite_session
  | Db2 => db2_session
  | Snowflake => snowflake_session
  end.

(** * Values stay values *)

(** What may stand in quotes: an option, or one of Oracle's formats. *)
Definition session_values (o : SessionOptions) : list string :=
  option_list (so_application_name o) ++ option_list (so_timezone o) ++ option_list (so_schema o)
  ++ ["YYYY-MM-DD HH24:MI:SS"; "YYYY-MM-DD HH24:MI:SS.FF"; ".,"].

(** What may stand outside quotes. *)
Definition session_texts : list string :=
  ["SET ARITHABORT ON"; "SET CONCAT_NULL_YIELDS_NULL ON"; "ALTER SESSION SET NLS_DATE_FORMAT="; "ALTER SESSION SET NLS_TIMESTAMP_FORMAT=";
   "ALTER SESSION SET NLS_NUMERIC_CHARACTERS="; "ALTER SESSION SET TIME_ZONE="; "ALTER SESSION SET CURRENT_SCHEMA = ";
   "SET application_name = "; "SET TIME ZONE "; "SET search_path TO "; "SET QUOTED_IDENTIFIER ON"; "SET CHAINED OFF";
   "PRAGMA foreign_keys = ON"; "PRAGMA journal_mode = WAL"; "PRAGMA synchronous = NORMAL"; "SET CURRENT SCHEMA = ";
   "CALL SYSPROC.WLM_SET_CLIENT_INFO(, NULL, NULL, NULL, NULL)"; "ALTER SESSION SET TIMEZONE = "; "USE SCHEMA "; "ALTER SESSION SET QUERY_TAG = "].

Definition reads_as (d : Dialect) (o : SessionOptions) (sql : string) : Prop :=
  ∃ ts, lex d sql = Some ts ∧ In (plain ts) session_texts ∧ Forall (λ x, In x.2 (session_values o)) (quotes ts).

Definition settles (d : Dialect) (o : SessionOptions) (sql : string) : Prop := In sql (so_extra_sql o) ∨ reads_as d o sql.

Lemma settles_pieces d `{!Regular d} o ps :
  readable d false ps = true → In (plain (toks ps)) session_texts → Forall (λ x, In x.2 (session_values o)) (quotes (toks ps)) →
  settles d o (render ps).
Proof. intros Hr Hp Hq. right. exists (toks ps). by rewrite (lex_render d ps Hr). Qed.

Lemma when_settles d `{!Regular d} o v before after :
  (∀ x, v = Some x → In x (session_values o)) → In (before +:+ after) session_texts →
  before ≠ EmptyString → forall_chars (plain_char d) before = true → forall_chars (plain_char d) after = true → d apostrophe = Some (Literal apostrophe) →
  Forall (settles d o) (when v (in_literal before after)).
Proof.
  intros Hv Ht Hne Hb Ha Hd. destruct v as [x|]; [|constructor]. constructor; [|constructor].
  replace (in_literal before after x) with (render [Txt before; Lit x; Txt after]).
  - apply settles_pieces; [done|..].
    + apply readable_txt; [done|done|]. cbn [readable]. unfold opened_by. rewrite Hd, Ascii.eqb_refl, Ha. reflexivity.
    + rewrite !plain_cons. cbn [toks map concat plain]. by rewrite string_app_nil_l, string_app_nil_r.
    + rewrite !quotes_cons. repeat constructor. by apply Hv.
  - cbn [render render_piece]. rewrite string_app_nil_r. unfold in_literal, escaped. rewrite !string_app_cons, ?string_app_assoc. reflexivity.
Qed.

Lemma schema_settles d `{!Regular d} o q before :
  In before session_texts → before ≠ EmptyString → forall_chars (plain_char d) before = true → opened_by d (Named q) (open_quote q) = true →
  Forall (settles d o) (when_schema (so_schema o) q (λ x, before +:+ x)).
Proof.
  intros Ht Hne Hb Hd. unfold when_schema. destruct (so_schema o) as [s|] eqn:Es; [|constructor].
  destruct (quote_identifier_cases s q) as [[Hs ->]|[_ [m ->]]]; [|constructor]. constructor; [|constructor].
  replace (before +:+ wrap q s) with (render [Txt before; Name q s]); [|cbn [render render_piece]; by rewrite string_app_nil_r].
  apply settles_pieces; [done|..].
  - apply readable_txt; [done|done|]. cbn [readable]. by rewrite Hd, identifier_not_closing.
  - rewrite !plain_cons. cbn [toks map concat plain]. by rewrite !string_app_nil_r.
  - rewrite !quotes_cons. repeat constructor. unfold session_values. rewrite Es. apply in_or_app. right. apply in_or_app. right. by left.
Qed.

Lemma extra_settles d o : Forall (settles d o) (so_extra_sql o).
Proof. apply Forall_forall. intros x Hx%list_elem_of_In. by left. Qed.

Lemma fixed_settles d o sql ts : lex d sql = Some ts → In (plain ts) session_texts →
  forallb (λ x, existsb (String.eqb x.2) ["YYYY-MM-DD HH24:MI:SS"; "YYYY-MM-DD HH24:MI:SS.FF"; ".,"]) (quotes ts) = true → settles d o sql.
Proof.
  intros Hl Ht Hq. right. exists ts. repeat split; [done..|]. rewrite forallb_forall in Hq. apply Forall_forall. intros x Hx%list_elem_of_In.
  apply Hq, existsb_exists in Hx as (v & Hv & ->%String.eqb_eq). unfold session_values. rewrite !in_app_iff. by do 3 right.
Qed.

Ltac listed_in := cbn; repeat (first [left; reflexivity | right]).

(** Options are values and never become SQL.  On every engine but MySQL and MariaDB, whatever the options
    hold: a statement sent after connecting is one that the caller supplied as SQL, or the
    engine's lexer reads it as one of a fixed list of texts whose quoted parts are options or
    fixed formats. *)
Theorem session_options_stay_values (p : PluginId) (o : SessionOptions) :
  p ≠ MySql → p ≠ MariaDb → Forall (settles (dialect p) o) (initialization_sql p o).
Proof.
  intros Hm Hd.
  assert (∀ x, so_application_name o = Some x → In x (session_values o)) as Ha.
  { intros x E. unfold session_values. rewrite E. by left. }
  assert (∀ x, so_timezone o = Some x → In x (session_values o)) as Ht.
  { intros x E. unfold session_values. rewrite E, !in_app_iff. right. left. by left. }
  destruct p; try done; cbn [initialization_sql];
    unfold sqlserver_session, oracle_session, postgres_session, sybase_session, sqlite_session, db2_session, snowflake_session;
    repeat apply Forall_app_2; try apply extra_settles;
    try (apply schema_settles; [apply _|listed_in|done|reflexivity|reflexivity]);
    try (apply when_settles; [apply _|assumption|listed_in|done|reflexivity|reflexivity|reflexivity]).
  all: repeat (apply Forall_cons_2; [|]); try apply Forall_nil_2.
  all: try (eapply fixed_settles; [vm_compute; reflexivity|listed_in|reflexivity]).
Qed.

(** In MySQL a backslash escapes the next character of a string: this is how its lexer reads on from an apostrophe. *)
Fixpoint mysql_body (s : string) : option (string * string) :=
  match s with
  | EmptyString => None
  | String c s' =>
      if Ascii.eqb c "\" then
        match s' with
        | String d s'' => match mysql_body s'' with Some (v, r) => Some (String d v, r) | None => None end
        | EmptyString => None
        end
      else if Ascii.eqb c apostrophe then
        match s' with
        | String d s'' =>
            if Ascii.eqb d apostrophe then match mysql_body s'' with Some (v, r) => Some (String d v, r) | None => None end
            else Some (EmptyString, s')
        | EmptyString => Some (EmptyString, s')
        end
      else match mysql_body s' with Some (v, r) => Some (String c v, r) | None => None end
  end.

(** A time zone that begins with a backslash and an apostrophe ends the string, and what follows is SQL. *)
Example mysql_timezone_escapes :
  In "SET time_zone = '\''; DROP TABLE t -- '" (initialization_sql MySql (with_timezone "\'; DROP TABLE t -- " session_default)) ∧
  mysql_body "\''; DROP TABLE t -- '" = Some ("'", "; DROP TABLE t -- '").
Proof. split; [right; by left|vm_compute; reflexivity]. Qed.

(** The character set is not quoted at all. *)
Example mysql_charset_is_sql :
  In "SET NAMES utf8; DROP TABLE t" (initialization_sql MariaDb (with_charset "utf8; DROP TABLE t" session_default)).
Proof. by left. Qed.
