(* ===== verification/CatalogSql.v ===== *)
(** Catalog queries of each engine (plugins/capabilities/catalog_provider.rs and the [CatalogProvider] of
    each plugin): the text and the parameters, which are bound and not put into the text. *)

From S2P Require Import Prelude Wire Errors ParamValue Text Identifier SqlText Plugins.

Record CatalogQuery := mkCatalogQuery { cq_sql : string; cq_params : list ParamValue }.

(** [match schema { Some(s) if !s.trim().is_empty() => .., _ => .. }] *)
Definition by_schema (schema : option string) (some : string → CatalogQuery) (none : CatalogQuery) : Result CatalogQuery :=
  match schema with
  | Some s => if negb (String.eqb (trim s) EmptyString) then Ok (some (trim s)) else Ok none
  | None => Ok none
  end.

Definition default_list_tables (catalog schema : option string) : Result CatalogQuery :=
  let cat := trim (default EmptyString catalog) in
  let sch := trim (default EmptyString schema) in
  match String.eqb cat EmptyString, String.eqb sch EmptyString with
  | true, true => Ok (mkCatalogQuery
    ("SELECT TABLE_CATALOG, TABLE_SCHEMA, TABLE_NAME, TABLE_TYPE " +:+
     "FROM INFORMATION_SCHEMA.TABLES " +:+
     "WHERE TABLE_TYPE IN ('BASE TABLE','VIEW') " +:+
     "ORDER BY TABLE_CATALOG, TABLE_SCHEMA, TABLE_NAME")
    [])
  | false, true => Ok (mkCatalogQuery
    ("SELECT TABLE_CATALOG, TABLE_SCHEMA, TABLE_NAME, TABLE_TYPE " +:+
     "FROM INFORMATION_SCHEMA.TABLES " +:+
     "WHERE TABLE_TYPE IN ('BASE TABLE','VIEW') AND TABLE_CATALOG = ? " +:+
     "ORDER BY TABLE_SCHEMA, TABLE_NAME")
    [PString cat])
  | true, false => Ok (mkCatalogQuery
    ("SELECT TABLE_CATALOG, TABLE_SCHEMA, TABLE_NAME, TABLE_TYPE " +:+
     "FROM INFORMATION_SCHEMA.TABLES " +:+
     "WHERE TABLE_TYPE IN ('BASE TABLE','VIEW') AND TABLE_SCHEMA = ? " +:+
     "ORDER BY TABLE_NAME")
    [PString sch])
  | false, false => Ok (mkCatalogQuery
    ("SELECT TABLE_CATALOG, TABLE_SCHEMA, TABLE_NAME, TABLE_TYPE " +:+
     "FROM INFORMATION_SCHEMA.TABLES " +:+
     "WHERE TABLE_TYPE IN ('BASE TABLE','VIEW') " +:+
     "AND TABLE_CATALOG = ? AND TABLE_SCHEMA = ? " +:+
     "ORDER BY TABLE_NAME")
    [PString cat; PString sch])
  end.

Definition default_list_columns (table : string) (schema : option string) : Result CatalogQuery :=
  let table := trim table in
  if String.eqb table EmptyString then Err (ValidationError "Table name cannot be empty") else
  by_schema schema
    (λ s, mkCatalogQuery
    ("SELECT TABLE_CATALOG, TABLE_SCHEMA, TABLE_NAME, COLUMN_NAME, " +:+
     "ORDINAL_POSITION, DATA_TYPE, IS_NULLABLE, COLUMN_DEFAULT " +:+
     "FROM INFORMATION_SCHEMA.COLUMNS " +:+
     "WHERE TABLE_NAME = ? AND TABLE_SCHEMA = ? " +:+
     "ORDER BY ORDINAL_POSITION")
    [PString table; PString s])
    (mkCatalogQuery
    ("SELECT TABLE_CATALOG, TABLE_SCHEMA, TABLE_NAME, COLUMN_NAME, " +:+
     "ORDINAL_POSITION, DATA_TYPE, IS_NULLABLE, COLUMN_DEFAULT " +:+
     "FROM INFORMATION_SCHEMA.COLUMNS " +:+
     "WHERE TABLE_NAME = ? " +:+
     "ORDER BY ORDINAL_POSITION")
    [PString table]).

Definition sqlserver_list_primary_keys (table : string) (schema : option string) : Result CatalogQuery :=
  Ok (mkCatalogQuery
    ("SELECT s.name AS TABLE_SCHEMA, t.name AS TABLE_NAME, c.name AS COLUMN_NAME, " +:+
     "ic.key_ordinal AS POSITION " +:+
     "FROM sys.indexes i " +:+
     "JOIN sys.tables t ON i.object_id = t.object_id " +:+
     "JOIN sys.schemas s ON t.schema_id = s.schema_id " +:+
     "JOIN sys.index_columns ic ON i.object_id = ic.object_id AND i.index_id = ic.index_id " +:+
     "JOIN sys.columns c ON ic.object_id = c.object_id AND ic.column_id = c.column_id " +:+
     "WHERE i.is_primary_key = 1 AND t.name = ? " +:+
     "ORDER BY ic.key_ordinal")
    [PString table]).

Definition sqlserver_list_foreign_keys (table : string) (schema : option string) : Result CatalogQuery :=
  Ok (mkCatalogQuery
    ("SELECT sch.name AS TABLE_SCHEMA, t.name AS TABLE_NAME, fc.name AS COLUMN_NAME, " +:+
     "rsch.name AS REFERENCED_SCHEMA, rt.name AS REFERENCED_TABLE, " +:+
     "rc.name AS REFERENCED_COLUMN, fkc.constraint_column_id AS POSITION " +:+
     "FROM sys.foreign_keys fk " +:+
     "JOIN sys.foreign_key_columns fkc ON fk.object_id = fkc.constraint_object_id " +:+
     "JOIN sys.tables t ON fk.parent_object_id = t.object_id " +:+
     "JOIN sys.schemas sch ON t.schema_id = sch.schema_id " +:+
     "JOIN sys.columns fc ON fkc.parent_object_id = fc.object_id " +:+
     "AND fkc.parent_column_id = fc.column_id " +:+
     "JOIN sys.tables rt ON fk.referenced_object_id = rt.object_id " +:+
     "JOIN sys.schemas rsch ON rt.schema_id = rsch.schema_id " +:+
     "JOIN sys.columns rc ON fkc.referenced_object_id = rc.object_id " +:+
     "AND fkc.referenced_column_id = rc.column_id " +:+
     "WHERE t.name = ? ORDER BY fkc.constraint_column_id")
    [PString table]).

Definition sqlserver_list_indexes (table : string) (schema : option string) : Result CatalogQuery :=
  Ok (mkCatalogQuery
    ("SELECT s.name AS TABLE_SCHEMA, t.name AS TABLE_NAME, i.name AS INDEX_NAME, " +:+
     "c.name AS COLUMN_NAME, ic.key_ordinal AS COLUMN_POSITION, " +:+
     "CASE WHEN i.is_unique = 1 THEN 'UNIQUE' ELSE 'NON-UNIQUE' END AS DESCEND " +:+
     "FROM sys.indexes i " +:+
     "JOIN sys.tables t ON i.object_id = t.object_id " +:+
     "JOIN sys.schemas s ON t.schema_id = s.schema_id " +:+
     "JOIN sys.index_columns ic ON i.object_id = ic.object_id AND i.index_id = ic.index_id " +:+
     "JOIN sys.columns c ON ic.object_id = c.object_id AND ic.column_id = c.column_id " +:+
     "WHERE t.name = ? AND i.type > 0 " +:+
     "ORDER BY i.name, ic.key_ordinal")
    [PString table]).

Definition oracle_list_tables (catalog schema : option string) : Result CatalogQuery :=
  by_schema schema
    (λ s, mkCatalogQuery
    ("SELECT NULL AS TABLE_CATALOG, OWNER AS TABLE_SCHEMA, TABLE_NAME, " +:+
     "'BASE TABLE' AS TABLE_TYPE " +:+
     "FROM ALL_TABLES " +:+
     "WHERE OWNER = ? " +:+
     "ORDER BY TABLE_NAME")
    [PString s])
    (mkCatalogQuery
    ("SELECT NULL AS TABLE_CATALOG, USER AS TABLE_SCHEMA, TABLE_NAME, " +:+
     "'BASE TABLE' AS TABLE_TYPE " +:+
     "FROM USER_TABLES ORDER BY TABLE_NAME")
    []).

Definition oracle_list_columns (table : string) (schema : option string) : Result CatalogQuery :=
  let table := trim table in
  if String.eqb table EmptyString then Err (ValidationError "Table name cannot be empty") else
  by_schema schema
    (λ s, mkCatalogQuery
    ("SELECT NULL AS TABLE_CATALOG, OWNER AS TABLE_SCHEMA, TABLE_NAME, " +:+
     "COLUMN_NAME, COLUMN_ID AS ORDINAL_POSITION, DATA_TYPE, " +:+
     "NULLABLE AS IS_NULLABLE, DATA_DEFAULT AS COLUMN_DEFAULT " +:+
     "FROM ALL_TAB_COLUMNS " +:+
     "WHERE TABLE_NAME = ? AND OWNER = ? " +:+
     "ORDER BY COLUMN_ID")
    [PString table; PString s])
    (mkCatalogQuery
    ("SELECT NULL AS TABLE_CATALOG, USER AS TABLE_SCHEMA, TABLE_NAME, " +:+
     "COLUMN_NAME, COLUMN_ID AS ORDINAL_POSITION, DATA_TYPE, " +:+
     "NULLABLE AS IS_NULLABLE, DATA_DEFAULT AS COLUMN_DEFAULT " +:+
     "FROM USER_TAB_COLUMNS WHERE TABLE_NAME = ? ORDER BY COLUMN_ID")
    [PString table]).

Definition oracle_list_primary_keys (table : string) (schema : option string) : Result CatalogQuery :=
  let table := trim table in
  by_schema schema
    (λ s, mkCatalogQuery
    ("SELECT cc.OWNER AS TABLE_SCHEMA, cc.TABLE_NAME, cc.COLUMN_NAME, cc.POSITION " +:+
     "FROM ALL_CONSTRAINTS c " +:+
     "JOIN ALL_CONS_COLUMNS cc ON c.OWNER = cc.OWNER " +:+
     "AND c.CONSTRAINT_NAME = cc.CONSTRAINT_NAME " +:+
     "WHERE c.CONSTRAINT_TYPE = 'P' AND c.TABLE_NAME = ? AND c.OWNER = ? " +:+
     "ORDER BY cc.POSITION")
    [PString table; PString s])
    (mkCatalogQuery
    ("SELECT USER AS TABLE_SCHEMA, cc.TABLE_NAME, cc.COLUMN_NAME, cc.POSITION " +:+
     "FROM USER_CONSTRAINTS c " +:+
     "JOIN USER_CONS_COLUMNS cc ON c.CONSTRAINT_NAME = cc.CONSTRAINT_NAME " +:+
     "WHERE c.CONSTRAINT_TYPE = 'P' AND c.TABLE_NAME = ? " +:+
     "ORDER BY cc.POSITION")
    [PString table]).

Definition oracle_list_foreign_keys (table : string) (schema : option string) : Result CatalogQuery :=
  Ok (mkCatalogQuery
    ("SELECT a.OWNER AS TABLE_SCHEMA, a.TABLE_NAME, a.COLUMN_NAME, " +:+
     "c_pk.OWNER AS REFERENCED_SCHEMA, c_pk.TABLE_NAME AS REFERENCED_TABLE, " +:+
     "b.COLUMN_NAME AS REFERENCED_COLUMN, a.POSITION " +:+
     "FROM ALL_CONS_COLUMNS a " +:+
     "JOIN ALL_CONSTRAINTS c ON a.OWNER = c.OWNER AND a.CONSTRAINT_NAME = c.CONSTRAINT_NAME " +:+
     "JOIN ALL_CONSTRAINTS c_pk ON c.R_OWNER = c_pk.OWNER " +:+
     "AND c.R_CONSTRAINT_NAME = c_pk.CONSTRAINT_NAME " +:+
     "JOIN ALL_CONS_COLUMNS b ON c_pk.OWNER = b.OWNER " +:+
     "AND c_pk.CONSTRAINT_NAME = b.CONSTRAINT_NAME AND a.POSITION = b.POSITION " +:+
     "WHERE c.CONSTRAINT_TYPE = 'R' AND a.TABLE_NAME = ? " +:+
     "ORDER BY a.POSITION")
    [PString table]).

Definition oracle_list_indexes (table : string) (schema : option string) : Result CatalogQuery :=
  let table := trim table in
  by_schema schema
    (λ s, mkCatalogQuery
    ("SELECT INDEX_OWNER AS TABLE_SCHEMA, TABLE_NAME, INDEX_NAME, COLUMN_NAME, " +:+
     "COLUMN_POSITION, DESCEND " +:+
     "FROM ALL_IND_COLUMNS " +:+
     "WHERE TABLE_NAME = ? AND INDEX_OWNER = ? " +:+
     "ORDER BY INDEX_NAME, COLUMN_POSITION")
    [PString table; PString s])
    (mkCatalogQuery
    ("SELECT USER AS TABLE_SCHEMA, TABLE_NAME, INDEX_NAME, COLUMN_NAME, " +:+
     "COLUMN_POSITION, DESCEND " +:+
     "FROM USER_IND_COLUMNS WHERE TABLE_NAME = ? " +:+
     "ORDER BY INDEX_NAME, COLUMN_POSITION")
    [PString table]).

Definition postgres_list_primary_keys (table : string) (schema : option string) : Result CatalogQuery :=
  Ok (mkCatalogQuery
    ("SELECT tc.table_schema AS TABLE_SCHEMA, tc.table_name AS TABLE_NAME, " +:+
     "kcu.column_name AS COLUMN_NAME, kcu.ordinal_position AS POSITION " +:+
     "FROM information_schema.table_constraints tc " +:+
     "JOIN information_schema.key_column_usage kcu " +:+
     "ON tc.constraint_name = kcu.constraint_name " +:+
     "WHERE tc.constraint_type = 'PRIMARY KEY' AND tc.table_name = ? " +:+
     "ORDER BY kcu.ordinal_position")
    [PString table]).

Definition postgres_list_foreign_keys (table : string) (schema : option string) : Result CatalogQuery :=
  Ok (mkCatalogQuery
    ("SELECT tc.table_schema AS TABLE_SCHEMA, tc.table_name AS TABLE_NAME, " +:+
     "kcu.column_name AS COLUMN_NAME, ccu.table_schema AS REFERENCED_SCHEMA, " +:+
     "ccu.table_name AS REFERENCED_TABLE, ccu.column_name AS REFERENCED_COLUMN, " +:+
     "kcu.ordinal_position AS POSITION " +:+
     "FROM information_schema.table_constraints tc " +:+
     "JOIN information_schema.key_column_usage kcu " +:+
     "ON tc.constraint_name = kcu.constraint_name " +:+
     "JOIN information_schema.constraint_column_usage ccu " +:+
     "ON ccu.constraint_name = tc.constraint_name " +:+
     "WHERE tc.constraint_type = 'FOREIGN KEY' AND tc.table_name = ? " +:+
     "ORDER BY kcu.ordinal_position")
    [PString table]).

Definition postgres_list_indexes (table : string) (schema : option string) : Result CatalogQuery :=
  Ok (mkCatalogQuery
    ("SELECT schemaname AS TABLE_SCHEMA, tablename AS TABLE_NAME, indexname AS INDEX_NAME, " +:+
     "NULL AS COLUMN_NAME, 0 AS COLUMN_POSITION, indexdef AS DESCEND " +:+
     "FROM pg_indexes WHERE tablename = ?")
    [PString table]).

Definition mysql_list_primary_keys (table : string) (schema : option string) : Result CatalogQuery :=
  Ok (mkCatalogQuery
    ("SELECT TABLE_SCHEMA, TABLE_NAME, COLUMN_NAME, ORDINAL_POSITION AS POSITION " +:+
     "FROM INFORMATION_SCHEMA.KEY_COLUMN_USAGE " +:+
     "WHERE CONSTRAINT_NAME = 'PRIMARY' AND TABLE_NAME = ? " +:+
     "ORDER BY ORDINAL_POSITION")
    [PString table]).

Definition mysql_list_foreign_keys (table : string) (schema : option string) : Result CatalogQuery :=
  Ok (mkCatalogQuery
    ("SELECT TABLE_SCHEMA, TABLE_NAME, COLUMN_NAME, REFERENCED_TABLE_SCHEMA AS REFERENCED_SCHEMA, " +:+
     "REFERENCED_TABLE_NAME AS REFERENCED_TABLE, REFERENCED_COLUMN_NAME AS REFERENCED_COLUMN, " +:+
     "ORDINAL_POSITION AS POSITION " +:+
     "FROM INFORMATION_SCHEMA.KEY_COLUMN_USAGE " +:+
     "WHERE REFERENCED_TABLE_NAME IS NOT NULL AND TABLE_NAME = ? " +:+
     "ORDER BY ORDINAL_POSITION")
    [PString table]).

Definition mysql_list_indexes (table : string) (schema : option string) : Result CatalogQuery :=
  Ok (mkCatalogQuery
    ("SELECT TABLE_SCHEMA, TABLE_NAME, INDEX_NAME, COLUMN_NAME, SEQ_IN_INDEX AS COLUMN_POSITION, " +:+
     "CASE WHEN NON_UNIQUE = 0 THEN 'UNIQUE' ELSE 'NON-UNIQUE' END AS DESCEND " +:+
     "FROM INFORMATION_SCHEMA.STATISTICS " +:+
     "WHERE TABLE_NAME = ? ORDER BY INDEX_NAME, SEQ_IN_INDEX")
    [PString table]).

Definition mariadb_list_primary_keys (table : string) (schema : option string) : Result CatalogQuery :=
  Ok (mkCatalogQuery
    ("SELECT TABLE_SCHEMA, TABLE_NAME, COLUMN_NAME, ORDINAL_POSITION AS POSITION " +:+
     "FROM INFORMATION_SCHEMA.KEY_COLUMN_USAGE " +:+
     "WHERE CONSTRAINT_NAME = 'PRIMARY' AND TABLE_NAME = ? " +:+
     "ORDER BY ORDINAL_POSITION")
    [PString table]).

Definition mariadb_list_foreign_keys (table : string) (schema : option string) : Result CatalogQuery :=
  Ok (mkCatalogQuery
    ("SELECT TABLE_SCHEMA, TABLE_NAME, COLUMN_NAME, REFERENCED_TABLE_SCHEMA AS REFERENCED_SCHEMA, " +:+
     "REFERENCED_TABLE_NAME AS REFERENCED_TABLE, REFERENCED_COLUMN_NAME AS REFERENCED_COLUMN, " +:+
     "ORDINAL_POSITION AS POSITION " +:+
     "FROM INFORMATION_SCHEMA.KEY_COLUMN_USAGE " +:+
     "WHERE REFERENCED_TABLE_NAME IS NOT NULL AND TABLE_NAME = ? " +:+
     "ORDER BY ORDINAL_POSITION")
    [PString table]).

Definition mariadb_list_indexes (table : string) (schema : option string) : Result CatalogQuery :=
  Ok (mkCatalogQuery
    ("SELECT TABLE_SCHEMA, TABLE_NAME, INDEX_NAME, COLUMN_NAME, SEQ_IN_INDEX AS COLUMN_POSITION, " +:+
     "CASE WHEN NON_UNIQUE = 0 THEN 'UNIQUE' ELSE 'NON-UNIQUE' END AS DESCEND " +:+
     "FROM INFORMATION_SCHEMA.STATISTICS WHERE TABLE_NAME = ? " +:+
     "ORDER BY INDEX_NAME, SEQ_IN_INDEX")
    [PString table]).

Definition sybase_list_tables (catalog schema : option string) : Result CatalogQuery :=
  Ok (mkCatalogQuery
    ("SELECT db_name() AS TABLE_CATALOG, user_name(uid) AS TABLE_SCHEMA, " +:+
     "name AS TABLE_NAME, " +:+
     "CASE type WHEN 'U' THEN 'BASE TABLE' WHEN 'V' THEN 'VIEW' ELSE type END AS TABLE_TYPE " +:+
     "FROM sysobjects WHERE type IN ('U','V') ORDER BY name")
    []).

Definition sybase_list_columns (table : string) (schema : option string) : Result CatalogQuery :=
  let table := trim table in
  Ok (mkCatalogQuery
    ("SELECT db_name() AS TABLE_CATALOG, user_name(o.uid) AS TABLE_SCHEMA, " +:+
     "o.name AS TABLE_NAME, c.name AS COLUMN_NAME, c.colid AS ORDINAL_POSITION, " +:+
     "type_name(c.usertype) AS DATA_TYPE, " +:+
     "CASE WHEN (c.status & 8) = 0 THEN 'NO' ELSE 'YES' END AS IS_NULLABLE, " +:+
     "NULL AS COLUMN_DEFAULT " +:+
     "FROM sysobjects o JOIN syscolumns c ON o.id = c.id " +:+
     "WHERE o.name = ? AND o.type = 'U' ORDER BY c.colid")
    [PString table]).

Definition sybase_list_primary_keys (table : string) (schema : option string) : Result CatalogQuery :=
  Ok (mkCatalogQuery
    ("SELECT user_name(o.uid) AS TABLE_SCHEMA, o.name AS TABLE_NAME, " +:+
     "c.name AS COLUMN_NAME, ik.colid AS POSITION " +:+
     "FROM sysobjects o " +:+
     "JOIN sysindexes i ON o.id = i.id AND i.status & 2048 = 2048 " +:+
     "JOIN sysindexkeys ik ON i.id = ik.id AND i.indid = ik.indid " +:+
     "JOIN syscolumns c ON ik.id = c.id AND ik.colid = c.colid " +:+
     "WHERE o.name = ? ORDER BY ik.colid")
    [PString table]).

Definition sybase_list_foreign_keys (table : string) (schema : option string) : Result CatalogQuery :=
  Ok (mkCatalogQuery
    ("SELECT user_name(o.uid) AS TABLE_SCHEMA, o.name AS TABLE_NAME, " +:+
     "fc.name AS COLUMN_NAME, user_name(po.uid) AS REFERENCED_SCHEMA, " +:+
     "po.name AS REFERENCED_TABLE, pc.name AS REFERENCED_COLUMN, " +:+
     "1 AS POSITION " +:+
     "FROM sysreferences r " +:+
     "JOIN sysobjects o ON r.tableid = o.id " +:+
     "JOIN sysobjects po ON r.reftabid = po.id " +:+
     "JOIN syscolumns fc ON r.tableid = fc.id AND r.fokey1 = fc.colid " +:+
     "JOIN syscolumns pc ON r.reftabid = pc.id AND r.refkey1 = pc.colid " +:+
     "WHERE o.name = ?")
    [PString table]).

Definition sybase_list_indexes (table : string) (schema : option string) : Result CatalogQuery :=
  Ok (mkCatalogQuery
    ("SELECT user_name(o.uid) AS TABLE_SCHEMA, o.name AS TABLE_NAME, " +:+
     "i.name AS INDEX_NAME, c.name AS COLUMN_NAME, ik.colid AS COLUMN_POSITION, " +:+
     "CASE WHEN i.status & 2 = 2 THEN 'UNIQUE' ELSE 'NON-UNIQUE' END AS DESCEND " +:+
     "FROM sysobjects o JOIN sysindexes i ON o.id = i.id " +:+
     "JOIN sysindexkeys ik ON i.id = ik.id AND i.indid = ik.indid " +:+
     "JOIN syscolumns c ON ik.id = c.id AND ik.colid = c.colid " +:+
     "WHERE o.name = ? AND i.indid > 0 ORDER BY i.name, ik.colid")
    [PString table]).

Definition sqlite_list_tables (catalog schema : option string) : Result CatalogQuery :=
  Ok (mkCatalogQuery
    ("SELECT NULL AS TABLE_CATALOG, NULL AS TABLE_SCHEMA, name AS TABLE_NAME, " +:+
     "UPPER(type) AS TABLE_TYPE " +:+
     "FROM sqlite_master WHERE type IN ('table','view') " +:+
     "ORDER BY name")
    []).

Definition sqlite_list_columns (table : string) (schema : option string) : Result CatalogQuery :=
  let table := trim table in
  if String.eqb table EmptyString then Err (ValidationError "Table name cannot be empty") else
  Ok (mkCatalogQuery
    ("SELECT NULL AS TABLE_CATALOG, NULL AS TABLE_SCHEMA, ? AS TABLE_NAME, " +:+
     "name AS COLUMN_NAME, cid + 1 AS ORDINAL_POSITION, type AS DATA_TYPE, " +:+
     "CASE WHEN [notnull] = 0 THEN 'YES' ELSE 'NO' END AS IS_NULLABLE, " +:+
     "dflt_value AS COLUMN_DEFAULT " +:+
     "FROM pragma_table_info(?) ORDER BY cid")
    [PString table; PString table]).

Definition sqlite_list_primary_keys (table : string) (schema : option string) : Result CatalogQuery :=
  let table := trim table in
  Ok (mkCatalogQuery
    ("SELECT NULL AS TABLE_SCHEMA, ? AS TABLE_NAME, name AS COLUMN_NAME, pk AS POSITION " +:+
     "FROM pragma_table_info(?) WHERE pk > 0 ORDER BY pk")
    [PString table; PString table]).

Definition sqlite_list_foreign_keys (table : string) (schema : option string) : Result CatalogQuery :=
  let table := trim table in
  Ok (mkCatalogQuery
    ("SELECT NULL AS TABLE_SCHEMA, ? AS TABLE_NAME, [from] AS COLUMN_NAME, " +:+
     "NULL AS REFERENCED_SCHEMA, [table] AS REFERENCED_TABLE, [to] AS REFERENCED_COLUMN, " +:+
     "seq AS POSITION " +:+
     "FROM pragma_foreign_key_list(?) ORDER BY id, seq")
    [PString table; PString table]).

Definition sqlite_list_indexes (table : string) (schema : option string) : Result CatalogQuery :=
  let table := trim table in
  Ok (mkCatalogQuery
    ("SELECT NULL AS TABLE_SCHEMA, ? AS TABLE_NAME, name AS INDEX_NAME, " +:+
     "NULL AS COLUMN_NAME, seq AS COLUMN_POSITION, " +:+
     "CASE WHEN [unique] = 1 THEN 'UNIQUE' ELSE 'NON-UNIQUE' END AS DESCEND " +:+
     "FROM pragma_index_list(?) ORDER BY seq")
    [PString table; PString table]).

Definition db2_list_tables (catalog schema : option string) : Result CatalogQuery :=
  by_schema schema
    (λ s, mkCatalogQuery
    ("SELECT NULL AS TABLE_CATALOG, TABSCHEMA AS TABLE_SCHEMA, " +:+
     "TABNAME AS TABLE_NAME, " +:+
     "CASE TYPE WHEN 'T' THEN 'BASE TABLE' WHEN 'V' THEN 'VIEW' " +:+
     "ELSE 'OTHER' END AS TABLE_TYPE " +:+
     "FROM SYSCAT.TABLES WHERE TABSCHEMA = UPPER(?) ORDER BY TABNAME")
    [PString s])
    (mkCatalogQuery
    ("SELECT NULL AS TABLE_CATALOG, TABSCHEMA AS TABLE_SCHEMA, " +:+
     "TABNAME AS TABLE_NAME, " +:+
     "CASE TYPE WHEN 'T' THEN 'BASE TABLE' WHEN 'V' THEN 'VIEW' " +:+
     "ELSE 'OTHER' END AS TABLE_TYPE " +:+
     "FROM SYSCAT.TABLES WHERE TABSCHEMA NOT LIKE 'SYS%' " +:+
     "ORDER BY TABSCHEMA, TABNAME")
    []).

Definition db2_list_columns (table : string) (schema : option string) : Result CatalogQuery :=
  let table := trim table in
  by_schema schema
    (λ s, mkCatalogQuery
    ("SELECT NULL AS TABLE_CATALOG, TABSCHEMA AS TABLE_SCHEMA, TABNAME AS TABLE_NAME, " +:+
     "COLNAME AS COLUMN_NAME, COLNO + 1 AS ORDINAL_POSITION, " +:+
     "TYPENAME AS DATA_TYPE, NULLS AS IS_NULLABLE, DEFAULT AS COLUMN_DEFAULT " +:+
     "FROM SYSCAT.COLUMNS " +:+
     "WHERE TABNAME = UPPER(?) AND TABSCHEMA = UPPER(?) " +:+
     "ORDER BY COLNO")
    [PString table; PString s])
    (mkCatalogQuery
    ("SELECT NULL AS TABLE_CATALOG, TABSCHEMA AS TABLE_SCHEMA, TABNAME AS TABLE_NAME, " +:+
     "COLNAME AS COLUMN_NAME, COLNO + 1 AS ORDINAL_POSITION, " +:+
     "TYPENAME AS DATA_TYPE, NULLS AS IS_NULLABLE, DEFAULT AS COLUMN_DEFAULT " +:+
     "FROM SYSCAT.COLUMNS WHERE TABNAME = UPPER(?) ORDER BY COLNO")
    [PString table]).

Definition db2_list_primary_keys (table : string) (schema : option string) : Result CatalogQuery :=
  Ok (mkCatalogQuery
    ("SELECT TABSCHEMA AS TABLE_SCHEMA, TABNAME AS TABLE_NAME, COLNAME AS COLUMN_NAME, " +:+
     "COLSEQ AS POSITION " +:+
     "FROM SYSCAT.KEYCOLUSE WHERE CONSTNAME IN (" +:+
     "SELECT CONSTNAME FROM SYSCAT.TABCONST WHERE TYPE='P' AND TABNAME=UPPER(?)" +:+
     ") ORDER BY COLSEQ")
    [PString table]).

Definition db2_list_foreign_keys (table : string) (schema : option string) : Result CatalogQuery :=
  Ok (mkCatalogQuery
    ("SELECT r.TABSCHEMA AS TABLE_SCHEMA, r.TABNAME AS TABLE_NAME, k.COLNAME AS COLUMN_NAME, " +:+
     "r.REFTABSCHEMA AS REFERENCED_SCHEMA, r.REFTABNAME AS REFERENCED_TABLE, " +:+
     "pk.COLNAME AS REFERENCED_COLUMN, k.COLSEQ AS POSITION " +:+
     "FROM SYSCAT.REFERENCES r " +:+
     "JOIN SYSCAT.KEYCOLUSE k ON r.CONSTNAME = k.CONSTNAME AND r.TABNAME = k.TABNAME " +:+
     "JOIN SYSCAT.KEYCOLUSE pk ON r.REFKEYNAME = pk.CONSTNAME AND k.COLSEQ = pk.COLSEQ " +:+
     "WHERE r.TABNAME = UPPER(?) ORDER BY k.COLSEQ")
    [PString table]).

Definition db2_list_indexes (table : string) (schema : option string) : Result CatalogQuery :=
  Ok (mkCatalogQuery
    ("SELECT i.TABSCHEMA AS TABLE_SCHEMA, i.TABNAME AS TABLE_NAME, i.INDNAME AS INDEX_NAME, " +:+
     "c.COLNAME AS COLUMN_NAME, c.COLSEQ AS COLUMN_POSITION, " +:+
     "CASE i.UNIQUERULE WHEN 'U' THEN 'UNIQUE' ELSE 'NON-UNIQUE' END AS DESCEND " +:+
     "FROM SYSCAT.INDEXES i " +:+
     "JOIN SYSCAT.INDEXCOLUSE c ON i.INDNAME = c.INDNAME " +:+
     "WHERE i.TABNAME = UPPER(?) ORDER BY i.INDNAME, c.COLSEQ")
    [PString table]).

Definition snowflake_list_primary_keys (table : string) (schema : option string) : Result CatalogQuery :=
  Ok (mkCatalogQuery
    ("SELECT table_schema AS TABLE_SCHEMA, table_name AS TABLE_NAME, " +:+
     "column_name AS COLUMN_NAME, key_sequence AS POSITION " +:+
     "FROM INFORMATION_SCHEMA.TABLE_CONSTRAINTS tc " +:+
     "JOIN INFORMATION_SCHEMA.KEY_COLUMN_USAGE kcu " +:+
     "ON tc.constraint_name = kcu.constraint_name " +:+
     "WHERE tc.constraint_type = 'PRIMARY KEY' AND tc.table_name = ? " +:+
     "ORDER BY key_sequence")
    [PString table]).

Definition snowflake_list_foreign_keys (table : string) (schema : option string) : Result CatalogQuery :=
  Ok (mkCatalogQuery
    ("SELECT table_schema AS TABLE_SCHEMA, table_name AS TABLE_NAME, " +:+
     "column_name AS COLUMN_NAME, NULL AS REFERENCED_SCHEMA, " +:+
     "NULL AS REFERENCED_TABLE, NULL AS REFERENCED_COLUMN, key_sequence AS POSITION " +:+
     "FROM INFORMATION_SCHEMA.KEY_COLUMN_USAGE " +:+
     "WHERE table_name = ? ORDER BY key_sequence")
    [PString table]).

Definition snowflake_list_indexes (table : string) (schema : option string) : Result CatalogQuery :=
  Ok (mkCatalogQuery
    ("SELECT NULL AS TABLE_SCHEMA, NULL AS TABLE_NAME, NULL AS INDEX_NAME, " +:+
     "NULL AS COLUMN_NAME, 0 AS COLUMN_POSITION, '' AS DESCEND WHERE 1 = 0")
    []).

(** The trait: two operations have a default. *)
Record CatalogProvider := mkProvider {
  list_tables_sql : option string → option string → Result CatalogQuery;
  list_columns_sql : string → option string → Result CatalogQuery;
  list_primary_keys_sql : string → option string → Result CatalogQuery;
  list_foreign_keys_sql : string → option string → Result CatalogQuery;
  list_indexes_sql : string → option string → Result CatalogQuery
}.

Definition catalog_provider (p : PluginId) : CatalogProvider :=
  match p with
  | SqlServer => mkProvider default_list_tables default_list_columns sqlserver_list_primary_keys sqlserver_list_foreign_keys sqlserver_list_indexes
  | Oracle => mkProvider oracle_list_tables oracle_list_columns oracle_list_primary_keys oracle_list_foreign_keys oracle_list_indexes
  | Postgres => mkProvider default_list_tables default_list_columns postgres_list_primary_keys postgres_list_foreign_keys postgres_list_indexes
  | MySql => mkProvider default_list_tables default_list_columns mysql_list_primary_keys mysql_list_foreign_keys mysql_list_indexes
  | MariaDb => mkProvider default_list_tables default_list_columns mariadb_list_primary_keys mariadb_list_foreign_keys mariadb_list_indexes
  | Sybase => mkProvider sybase_list_tables sybase_list_columns sybase_list_primary_keys sybase_list_foreign_keys sybase_list_indexes
  | Sqlite => mkProvider sqlite_list_tables sqlite_list_columns sqlite_list_primary_keys sqlite_list_foreign_keys sqlite_list_indexes
  | Db2 => mkProvider db2_list_tables db2_list_columns db2_list_primary_keys db2_list_foreign_keys db2_list_indexes
  | Snowflake => mkProvider default_list_tables default_list_columns snowflake_list_primary_keys snowflake_list_foreign_keys snowflake_list_indexes
  end.

(** * Requests *)

Inductive CatalogRequest :=
| RTables (catalog schema : option string)
| RColumns (table : string) (schema : option string)
| RPrimaryKeys (table : string) (schema : option string)
| RForeignKeys (table : string) (schema : option string)
| RIndexes (table : string) (schema : option string).

Definition catalog_sql (c : CatalogProvider) (r : CatalogRequest) : Result CatalogQuery :=
  match r with
  | RTables catalog schema => list_tables_sql c catalog schema
  | RColumns table schema => list_columns_sql c table schema
  | RPrimaryKeys table schema => list_primary_keys_sql c table schema
  | RForeignKeys table schema => list_foreign_keys_sql c table schema
  | RIndexes table schema => list_indexes_sql c table schema
  end.

(** The names the caller gives, as given and trimmed. *)
Definition given (o : option string) : list string := match o with Some s => [s; trim s] | None => [] end.

Definition request_names (r : CatalogRequest) : list string :=
  match r with
  | RTables catalog schema => given catalog ++ given schema
  | RColumns table schema | RPrimaryKeys table schema | RForeignKeys table schema | RIndexes table schema => given (Some table) ++ given schema
  end.

Definition blank (o : option string) : bool := String.eqb (trim (default EmptyString o)) EmptyString.

(** All that a text may depend on: what is asked, and which of the names are blank. *)
Definition same_shape (r r' : CatalogRequest) : Prop :=
  match r, r' with
  | RTables c s, RTables c' s' => blank c = blank c' ∧ blank s = blank s'
  | RColumns _ s, RColumns _ s' | RPrimaryKeys _ s, RPrimaryKeys _ s' | RForeignKeys _ s, RForeignKeys _ s' | RIndexes _ s, RIndexes _ s' => blank s = blank s'
  | _, _ => False
  end.

Lemma blank_none : trim EmptyString = EmptyString.
Proof. reflexivity. Qed.

Ltac unfold_queries :=
  unfold db2_list_columns, db2_list_foreign_keys, db2_list_indexes, db2_list_primary_keys,
    db2_list_tables, default_list_columns, default_list_tables, mariadb_list_foreign_keys,
    mariadb_list_indexes, mariadb_list_primary_keys, mysql_list_foreign_keys, mysql_list_indexes,
    mysql_list_primary_keys, oracle_list_columns, oracle_list_foreign_keys, oracle_list_indexes,
    oracle_list_primary_keys, oracle_list_tables, postgres_list_foreign_keys, postgres_list_indexes,
    postgres_list_primary_keys, snowflake_list_foreign_keys, snowflake_list_indexes, snowflake_list_primary_keys,
    sqlite_list_columns, sqlite_list_foreign_keys, sqlite_list_indexes, sqlite_list_primary_keys,
    sqlite_list_tables, sqlserver_list_foreign_keys, sqlserver_list_indexes, sqlserver_list_primary_keys,
    sybase_list_columns, sybase_list_foreign_keys, sybase_list_indexes, sybase_list_primary_keys,
    sybase_list_tables, by_schema in *.

Ltac by_cases :=
  repeat match goal with
    | H : (if ?b then _ else _) = Ok _ |- _ => destruct b eqn:?; try discriminate H
    | H : match ?b with true => _ | false => _ end = Ok _ |- _ => destruct b eqn:?; try discriminate H
    | H : match ?o with Some _ => _ | None => _ end = Ok _ |- _ => destruct o eqn:?; try discriminate H
    end.

(** The simplest request of each shape. *)
Definition canon (r : CatalogRequest) : CatalogRequest :=
  let name o := if blank o then None else Some "x" in
  match r with
  | RTables c s => RTables (name c) (name s)
  | RColumns _ s => RColumns "x" (name s)
  | RPrimaryKeys _ s => RPrimaryKeys "x" (name s)
  | RForeignKeys _ s => RForeignKeys "x" (name s)
  | RIndexes _ s => RIndexes "x" (name s)
  end.

Lemma same_shape_canon r r' : same_shape r r' → canon r = canon r'.
Proof. destruct r, r'; try done; cbn; [intros [-> ->]|intros ->..]; done. Qed.

Lemma canon_text p r q : catalog_sql (catalog_provider p) r = Ok q →
  ∃ q0, catalog_sql (catalog_provider p) (canon r) = Ok q0 ∧ cq_sql q0 = cq_sql q.
Proof.
  destruct r as [[c|] [s|]|t [s|]|t [s|]|t [s|]|t [s|]]; unfold canon, blank; cbn [default]; unfold id; rewrite ?blank_none; cbn [String.eqb]; destruct p;
    cbn [catalog_sql catalog_provider list_tables_sql list_columns_sql list_primary_keys_sql list_foreign_keys_sql list_indexes_sql];
    unfold_queries; cbn [default]; unfold id; rewrite ?blank_none; cbn [String.eqb];
    repeat match goal with |- context [String.eqb (trim ?s) EmptyString] => is_var s; destruct (String.eqb (trim s) EmptyString) end;
    cbn [negb]; intros H; try discriminate H; injection H as <-; eexists; (split; [vm_compute; reflexivity|reflexivity]).
Qed.

(** A catalog query binds what the caller names and never spells it.  Whatever the names: a query that a
    plugin builds is read through by the engine's lexer, with as many placeholders outside quotes
    as it has parameters; every parameter is a name of the request, as given or trimmed; and its
    text is that of every request of the same kind with the same names left blank. *)
Theorem catalog_query_bound (p : PluginId) (r : CatalogRequest) (q : CatalogQuery) :
  catalog_sql (catalog_provider p) r = Ok q →
  (∃ ts, lex (dialect p) (cq_sql q) = Some ts ∧ count "?" (plain ts) = length (cq_params q)) ∧
  Forall (λ v, ∃ s, v = PString s ∧ In s (request_names r)) (cq_params q) ∧
  ∀ r' q', same_shape r r' → catalog_sql (catalog_provider p) r' = Ok q' → cq_sql q' = cq_sql q.
Proof.
  intros Hq. split; [|split].
  - destruct p, r; cbn [catalog_sql catalog_provider list_tables_sql list_columns_sql list_primary_keys_sql list_foreign_keys_sql list_indexes_sql] in Hq;
      unfold_queries; by_cases; injection Hq as <-; eexists; (split; [vm_compute; reflexivity|reflexivity]).
  - destruct p, r; repeat match goal with o : option string |- _ => destruct o as [?s|] end;
      cbn [catalog_sql catalog_provider list_tables_sql list_columns_sql list_primary_keys_sql list_foreign_keys_sql list_indexes_sql] in Hq;
      unfold_queries; by_cases; try discriminate; injection Hq as <-; cbn [cq_params]; repeat apply Forall_cons_2; try apply Forall_nil_2; eexists; (split; [reflexivity|]);
      cbn [request_names given app default]; cbn; tauto.
  - intros r' q' Hs Hq'. apply canon_text in Hq as (q1 & H1 & <-). apply canon_text in Hq' as (q2 & H2 & <-).
    apply same_shape_canon in Hs. rewrite Hs in H1. congruence.
Qed.

Lemma catalog_query_bound_witness :
  (∃ ts, lex ansi "SELECT cc.OWNER AS TABLE_SCHEMA, cc.TABLE_NAME, cc.COLUMN_NAME, cc.POSITION FROM ALL_CONSTRAINTS c JOIN ALL_CONS_COLUMNS cc ON c.OWNER = cc.OWNER AND c.CONSTRAINT_NAME = cc.CONSTRAINT_NAME WHERE c.CONSTRAINT_TYPE = 'P' AND c.TABLE_NAME = ? AND c.OWNER = ? ORDER BY cc.POSITION" = Some ts
     ∧ count "?" (plain ts) = 2%nat) ∧ True.
Proof.
  pose proof (catalog_query_bound Oracle (RPrimaryKeys "EMP" (Some "HR")) _ eq_refl) as (H & _ & _). split; [exact H|done].
Defined.

(** A schema that is given is not used by most plugins: tables of that name in other schemas are listed too. *)
Example schema_ignored :
  (λ p, cq_params <$> (match catalog_sql (catalog_provider p) (RPrimaryKeys "t" (Some "s")) with Ok q => Some q | _ => None end))
    <$> [SqlServer; Postgres; MySql; Db2; Oracle]
  = [Some [PString "t"]; Some [PString "t"]; Some [PString "t"]; Some [PString "t"]; Some [PString "t"; PString "s"]].
Proof. vm_compute. reflexivity. Qed.
