(* ===== verification/Registry.v ===== *)
(** The plugin registry (plugins/registry.rs): which plugin serves a connection string or a live
    connection, and what is dispatched to it. *)

From S2P Require Import Prelude Wire Errors RowCodec ParamValue Text Identifier Capabilities SqlText Plugins.
From S2P Require Import Upsert Returning SessionInit CatalogSql.

(** * The registry *)

(** The map behind its mutex. *)
Record PluginRegistry := mkRegistry { pr_plugins : gmap string DriverPlugin; pr_poisoned : bool }.

Definition registry_new : PluginRegistry := mkRegistry ∅ false.

Definition register (plugin : DriverPlugin) (r : PluginRegistry) : Result unit * PluginRegistry :=
  if pr_poisoned r then (Err (InternalError "Lock poisoned"), r)
  else (Ok tt, mkRegistry (<[dp_name plugin := plugin]> (pr_plugins r)) (pr_poisoned r)).

Definition registry_get (driver_name : string) (r : PluginRegistry) : Result DriverPlugin :=
  if pr_poisoned r then Err (InternalError "Lock poisoned")
  else ok_or (pr_plugins r !! driver_name) (InternalError ("Plugin not found: " +:+ driver_name)).

(** The plugin of an engine id. *)
Definition plugin_of_engine (engine : string) : option PluginId :=
  if String.eqb engine ENGINE_SQLSERVER then Some SqlServer
  else if String.eqb engine ENGINE_POSTGRES then Some Postgres
  else if String.eqb engine ENGINE_MYSQL then Some MySql
  else if String.eqb engine ENGINE_MARIADB then Some MariaDb
  else if String.eqb engine ENGINE_ORACLE then Some Oracle
  else if String.eqb engine ENGINE_SYBASE_ASE || String.eqb engine ENGINE_SYBASE_ASA then Some Sybase
  else if String.eqb engine ENGINE_SQLITE then Some Sqlite
  else if String.eqb engine ENGINE_DB2 then Some Db2
  else if String.eqb engine ENGINE_SNOWFLAKE then Some Snowflake
  else None.

Definition plugin_id_for_dbms_name (dbms_name : string) : option string :=
  plugin_name <$> plugin_of_engine (engine (from_driver_name dbms_name)).

Definition detect_driver (connection_string : string) : option string :=
  let caps := detect_from_connection_string connection_string in
  if String.eqb (engine caps) ENGINE_UNKNOWN then None
  else match plugin_id_for_dbms_name (driver_name caps) with
       | Some id => Some id
       | None => Some (engine caps)
       end.

(** [.ok()] *)
Definition ok_opt {A : Type} (r : Result A) : option A := match r with Ok a => Some a | _ => None end.

Definition get_for_connection (connection_string : string) (r : PluginRegistry) : option DriverPlugin :=
  match detect_driver connection_string with
  | Some driver_name => ok_opt (registry_get driver_name r)
  | None => None
  end.

Definition is_supported (connection_string : string) (r : PluginRegistry) : bool :=
  match detect_driver connection_string with
  | Some name => is_ok (registry_get name r)
  | None => false
  end.

Definition get_for_dbms_name (dbms_name : string) (r : PluginRegistry) : option DriverPlugin :=
  match plugin_id_for_dbms_name dbms_name with
  | Some id => ok_opt (registry_get id r)
  | None => None
  end.

(** What the driver answers when a live connection is asked for its name. *)
Definition get_for_live_connection (name : Result string) (r : PluginRegistry) : option DriverPlugin :=
  match name with Ok name => get_for_dbms_name name r | _ => None end.

Definition all_plugins : list PluginId := [SqlServer; Oracle; Postgres; MySql; MariaDb; Sybase; Sqlite; Db2; Snowflake].

(** [PluginRegistry::default]: a registration that fails is logged. *)
Definition registry_default : PluginRegistry :=
  foldl (λ r p, (register (driver_plugin p) r).2) registry_new all_plugins.

(** * Dispatch *)

(** The arms [match plugin_id { "sqlserver" => .., .. }]. *)
Definition plugin_of_id (plugin_id : string) : option PluginId :=
  List.find (λ p, String.eqb (plugin_name p) plugin_id) all_plugins.

Definition dispatch_upsert (plugin_id : string) : Upserter := λ table columns conflict_columns update_columns,
  match plugin_of_id plugin_id with
  | Some p => build_upsert_sql p table columns conflict_columns update_columns
  | None => Err (UnsupportedFeature ("No UPSERT support for plugin " +:+ debug_str plugin_id))
  end.

Definition registry_upsert (connection_string table : string) (columns conflict_columns : list string) (update_columns : option (list string)) :
  option (Result string) :=
  match detect_driver connection_string with
  | Some driver => Some (dispatch_upsert driver table columns conflict_columns update_columns)
  | None => None
  end.

Definition dispatch_returning (plugin_id sql : string) (verb : DmlVerb) (columns : list string) : Result string :=
  match plugin_of_id plugin_id with
  | Some p => append_returning_clause p sql verb columns
  | None => Err (UnsupportedFeature ("No RETURNING support for plugin " +:+ debug_str plugin_id))
  end.

Definition registry_returning (connection_string sql : string) (verb : DmlVerb) (columns : list string) : option (Result string) :=
  match detect_driver connection_string with
  | Some driver => Some (dispatch_returning driver sql verb columns)
  | None => None
  end.

Definition session_init_sql (connection_string : string) (opts : SessionOptions) : option (list string) :=
  match detect_driver connection_string with
  | Some driver => Some match plugin_of_id driver with Some p => initialization_sql p opts | None => [] end
  | None => None
  end.

(** * What is registered *)

Lemma plugin_name_inj p p' : plugin_name p = plugin_name p' → p = p'.
Proof. by destruct p, p'. Qed.

Lemma plugin_of_id_name p : plugin_of_id (plugin_name p) = Some p.
Proof. by destruct p. Qed.

Lemma plugin_of_id_Some id p : plugin_of_id id = Some p → id = plugin_name p.
Proof. intros H. apply List.find_some in H as [_ H]. by apply String.eqb_eq in H. Qed.

Lemma registered_default p : registry_get (plugin_name p) registry_default = Ok (driver_plugin p).
Proof. by destruct p. Qed.

Lemma default_only name plugin : registry_get name registry_default = Ok plugin → ∃ p, name = plugin_name p ∧ plugin = driver_plugin p.
Proof.
  assert (∀ ps r, pr_poisoned r = false → pr_poisoned (foldl (λ r p, (register (driver_plugin p) r).2) r ps) = false ∧
    ∀ d, pr_plugins (foldl (λ r p, (register (driver_plugin p) r).2) r ps) !! name = Some d →
      pr_plugins r !! name = Some d ∨ ∃ p, name = plugin_name p ∧ d = driver_plugin p) as H.
  { induction ps as [|p ps IH]; intros r Hr; [by auto|]. cbn [foldl]. assert (pr_poisoned (register (driver_plugin p) r).2 = false) as Hr' by (unfold register; by rewrite Hr).
    destruct (IH _ Hr') as [Hp Hd]. split; [done|]. intros d [Hl|?]%Hd; [|by right]. unfold register in Hl. rewrite Hr in Hl. cbn in Hl.
    destruct (decide (plugin_name p = name)) as [<-|Hn]; [rewrite lookup_insert_eq in Hl; injection Hl as <-; right; by exists p|].
    rewrite lookup_insert_ne in Hl by done. by left. }
  destruct (H all_plugins registry_new eq_refl) as [Hp Hd]. unfold registry_get. fold registry_default in *. rewrite Hp.
  destruct (pr_plugins registry_default !! name) as [d|] eqn:E; [|done]. intros [= <-]. destruct (Hd d eq_refl) as [Hl|?]; [|done]. cbn in Hl; by rewrite lookup_empty in Hl.
Qed.

(** An engine with no plugin of its own. *)
Definition without_plugin : list string := [ENGINE_REDSHIFT; ENGINE_BIGQUERY; ENGINE_MONGODB].

(** The plugin of a connection string is the plugin of the engine detected in it: the name that is detected is a
    registered one, and then the plugin handed out, the dispatch of every generator and the
    plugin found from the engine's own name agree; or it is one of three engines that have no
    plugin, for which nothing is handed out and the generators refuse. *)
Theorem detection_agrees (connection_string : string) :
  match detect_driver connection_string with
  | None => engine (detect_from_connection_string connection_string) = ENGINE_UNKNOWN
  | Some name =>
      (∃ p, name = plugin_name p ∧ plugin_of_id name = Some p ∧
         plugin_of_engine (engine (detect_from_connection_string connection_string)) = Some p ∧
         get_for_connection connection_string registry_default = Some (driver_plugin p) ∧
         is_supported connection_string registry_default = true) ∨
      (In name without_plugin ∧ plugin_of_id name = None ∧
         get_for_connection connection_string registry_default = None ∧ is_supported connection_string registry_default = false)
  end.
Proof.
  pose proof (from_driver_name_canonical connection_string) as (_ & _ & He).
  assert (∀ name e p, name = plugin_name p → plugin_of_engine e = Some p →
    ∃ p, name = plugin_name p ∧ plugin_of_id name = Some p ∧ plugin_of_engine e = Some p ∧
      ok_opt (registry_get name registry_default) = Some (driver_plugin p) ∧ is_ok (registry_get name registry_default) = true) as served.
  { intros name e p -> He'. exists p. by rewrite plugin_of_id_name, registered_default. }
  assert (∀ name, In name without_plugin → plugin_of_id name = None →
    In name without_plugin ∧ plugin_of_id name = None ∧ ok_opt (registry_get name registry_default) = None ∧ is_ok (registry_get name registry_default) = false) as unserved.
  { intros name Hin Hn. destruct (registry_get name registry_default) as [d| |] eqn:E; [|done..].
    apply default_only in E as (p & -> & _). by rewrite plugin_of_id_name in Hn. }
  unfold get_for_connection, is_supported.
  destruct (detect_driver connection_string) as [name|] eqn:E; unfold detect_driver in E.
  - assert (In (engine (detect_from_connection_string connection_string)) (ENGINE_UNKNOWN :: known_engines)) as Hk by (rewrite He; apply engine_from_name_known).
    assert (driver_name (detect_from_connection_string connection_string) = driver_name (from_driver_name (engine (detect_from_connection_string connection_string)))) as Hd.
    { unfold detect_from_connection_string in *. set (e := engine_from_name _) in *. rewrite He in Hk. clearbody e. cbn in Hk.
      repeat (destruct Hk as [<-|Hk]; [vm_compute; reflexivity|]). done. }
    rewrite Hd in E. set (e := engine _) in *. clearbody e. clear He Hd.
    assert (∀ n, (let '(x, y) := (if String.eqb e ENGINE_UNKNOWN then None else
                    match plugin_id_for_dbms_name (driver_name (from_driver_name e)) with Some id => Some id | None => Some e end, plugin_of_engine e) in
                  x = Some n → (∃ p, n = plugin_name p ∧ y = Some p) ∨ In n without_plugin ∧ plugin_of_id n = None)) as Hc.
    { clear -Hk. intros n. cbn [known_engines In] in Hk.
      repeat (destruct Hk as [<-|Hk]; [clear; vm_compute; intros [= <-]; first [left; eexists; (split; [|reflexivity]); reflexivity|right; split; [tauto|reflexivity]]|]).
      destruct Hk. }
    cbn in Hc. destruct (Hc name E) as [(p & Hn & Hp)|[Hn Hp]]; [left; by eapply served|right; by apply unserved].
  - destruct (String.eqb_spec (engine (detect_from_connection_string connection_string)) ENGINE_UNKNOWN) as [Hu|]; [done|].
    by destruct (plugin_id_for_dbms_name _).
Qed.
