(* ===== verification/Security.v ===== *)
(** Credentials (security/): the redaction of connection strings before they are
    logged, the audit log, the store of secrets and the buffer that wipes itself. *)

From S2P Require Import Prelude Wire Errors Text.

(** * Redaction of connection strings *)

Definition SECRET_KEYS : list string :=
  ["pwd"; "password"; "passwd"; "secret"; "token"; "apikey"; "api_key"; "accesstoken"; "access_token";
   "authorization"; "auth"; "sas"; "sastoken"; "sas_token"; "connectionstring"; "primarykey"; "secondarykey"].

Definition is_secret_key (key : string) : bool := existsb (String.eqb (to_ascii_lowercase (trim key))) SECRET_KEYS.

(** [while i < len && !stop(bytes[i]) { i += 1 }]: what the loop passes over, and
    what is left. The stops are ASCII, so bytes and characters agree. *)
Fixpoint span_until (stop : ascii → bool) (s : string) : string * string :=
  match s with
  | EmptyString => (EmptyString, EmptyString)
  | String c s' =>
      if stop c then (EmptyString, s)
      else let '(a, b) := span_until stop s' in (String c a, b)
  end.

Definition is_char (c d : ascii) : bool := Ascii.eqb c d.
Definition key_stop (d : ascii) : bool := is_char "=" d || is_char ";" d.

(** The value after an [=]: a brace group is passed over to its first closing
    brace, then everything up to the next semicolon. *)
Definition read_value (s : string) : string * string :=
  match s with
  | String "{" s' =>
      let '(inside, rest) := span_until (is_char "}") s' in
      match rest with
      | String _ rest' =>
          let '(trailing, rest'') := span_until (is_char ";") rest' in
          (String "{" (inside +:+ String "}" trailing), rest'')
      | EmptyString => (String "{" inside, EmptyString)
      end
  | _ => span_until (is_char ";") s
  end.

Definition skip_semicolon (s : string) : string := match s with String ";" s' => s' | _ => s end.

(** The loop; every turn consumes a byte, so the length of the string is enough fuel. *)
Fixpoint sanitize_loop (fuel : nat) (first : bool) (s : string) : string :=
  match fuel, s with
  | O, _ | _, EmptyString => EmptyString
  | S fuel, _ =>
      let '(key, rest) := span_until key_stop s in
      (if first then EmptyString else ";") +:+ key +:+
      match rest with
      | String "=" rest =>
          let '(value, rest) := read_value rest in
          "=" +:+ (if is_secret_key key then "***" else value) +:+ sanitize_loop fuel false (skip_semicolon rest)
      | _ => sanitize_loop fuel false (skip_semicolon rest)
      end
  end.

Definition sanitize_connection_string (s : string) : string := sanitize_loop (String.length s) true s.

(** * The audit log *)

Record AuditEvent := mkAuditEvent {
  ae_timestamp : Z;
  ae_event_type : string;
  ae_user : option string;
  ae_connection_id : option Z;
  ae_query : option string;
  ae_metadata : gmap string string
}.

(** [None] for the events stands for a poisoned mutex. *)
Record AuditLogger := mkAudit { al_events : option (list AuditEvent); al_enabled : bool }.

Definition audit_new (enabled : bool) : AuditLogger := mkAudit (Some []) enabled.

Definition MAX_AUDIT_EVENTS : Z := 10000.

(** [events.push(event); if events.len() > 10000 { events.remove(0); }] *)
Definition push_event (l : AuditLogger) (e : AuditEvent) : AuditLogger :=
  match al_events l with
  | Some es =>
      let es := es ++ [e] in
      mkAudit (Some (if MAX_AUDIT_EVENTS <? len es then drop 1 es else es)) (al_enabled l)
  | None => l
  end.

Definition log_connection (now connection_id : Z) (connection_string : string) (l : AuditLogger) : AuditLogger :=
  if negb (al_enabled l) then l
  else push_event l (mkAuditEvent now "connection" None (Some connection_id) None
         {["connection_string" := sanitize_connection_string connection_string]}).

Definition log_query (now connection_id : Z) (query : string) (l : AuditLogger) : AuditLogger :=
  if negb (al_enabled l) then l
  else push_event l (mkAuditEvent now "query" None (Some connection_id) (Some query) ∅).

Definition log_error (now : Z) (connection_id : option Z) (error : string) (l : AuditLogger) : AuditLogger :=
  if negb (al_enabled l) then l
  else push_event l (mkAuditEvent now "error" None connection_id None {["error" := error]}).

Definition get_events (limit : nat) (l : AuditLogger) : list AuditEvent :=
  match al_events l with Some es => take limit (reverse es) | None => [] end.

Definition clear_events (l : AuditLogger) : AuditLogger :=
  match al_events l with Some _ => mkAudit (Some []) (al_enabled l) | None => l end.

Definition set_enabled (enabled : bool) (l : AuditLogger) : AuditLogger := mkAudit (al_events l) enabled.

Definition event_count (l : AuditLogger) : Z := match al_events l with Some es => len es | None => 0 end.

(** * Secrets *)

Abbreviation Secret := (list byte).

(** The store behind its mutex; [None] when the mutex is poisoned. *)
Abbreviation SecretManager := (option (gmap string Secret)).

Definition locked (m : SecretManager) : Result (gmap string Secret) := ok_or m (InternalError "Lock poisoned").

Definition store (key : string) (value : Secret) (m : SecretManager) : Result unit * SecretManager :=
  match locked m with
  | Ok secrets => (Ok tt, Some (<[key := value]> secrets))
  | Err e => (Err e, m)
  | Panic => (Panic, m)
  end.

(** [with_secret]; [retrieve] is it with the closure that copies the bytes. *)
Definition with_secret {R : Type} (key : string) (f : Secret → R) (m : SecretManager) : Result R :=
  let? secrets := locked m in
  let? secret := ok_or (secrets !! key) (InternalError ("Secret not found: " +:+ key)) in
  Ok (f secret).

Definition retrieve (key : string) (m : SecretManager) : Result Secret := with_secret key id m.

Definition remove_secret (key : string) (m : SecretManager) : Result unit * SecretManager :=
  match locked m with
  | Ok secrets => (Ok tt, Some (delete key secrets))
  | Err e => (Err e, m)
  | Panic => (Panic, m)
  end.

Definition clear_secrets (m : SecretManager) : SecretManager := (λ _, ∅) <$> m.

(** [SecureBuffer]: [zeroize] overwrites the bytes and empties the vector; the heap
    cells it leaves behind are the second component. *)
Definition zeroize (data : list byte) : list byte * list byte := ([], replicate (length data) x00).

Definition with_bytes {R : Type} (data : list byte) (f : list byte → R) : R * list byte := (f data, (zeroize data).2).

(** * The parts of a connection string

    A connection string is a sequence of parts; a value is plain (it holds no
    semicolon and does not open a brace) or a brace group followed by text. *)

Inductive Value := Plain (v : string) | Braced (inside trailing : string).

Definition value_text (v : Value) : string :=
  match v with Plain v => v | Braced i t => String "{" (i +:+ String "}" t) end.

Record Part := mkPart { p_key : string; p_value : option Value }.

Definition render_part (p : Part) : string :=
  p_key p +:+ match p_value p with Some v => String "=" (value_text v) | None => EmptyString end.

(** What the log may show of a part. *)
Definition redact_part (p : Part) : string :=
  p_key p +:+ match p_value p with
              | Some v => String "=" (if is_secret_key (p_key p) then "***" else value_text v)
              | None => EmptyString
              end.

Fixpoint free_of (stop : ascii → bool) (s : string) : bool :=
  match s with EmptyString => true | String c s => negb (stop c) && free_of stop s end.

Definition value_wf (v : Value) : Prop :=
  match v with
  | Plain v => free_of (is_char ";") v = true ∧ (∀ s, v ≠ String "{" s)
  | Braced i t => free_of (is_char "}") i = true ∧ free_of (is_char ";") t = true
  end.

Definition part_wf (p : Part) : Prop :=
  free_of key_stop (p_key p) = true ∧ match p_value p with Some v => value_wf v | None => True end.

Lemma span_free stop s c rest :
  free_of stop s = true → stop c = true → span_until stop (s +:+ String c rest) = (s, String c rest).
Proof.
  intros Hs Hc. induction s as [|d s IH].
  - rewrite string_app_nil_l. cbn. by rewrite Hc.
  - rewrite string_app_cons. cbn in Hs |- *. apply andb_prop in Hs as [Hd Hs]. apply negb_true_iff in Hd. rewrite Hd. by rewrite (IH Hs).
Qed.

Lemma span_free_end stop s : free_of stop s = true → span_until stop s = (s, EmptyString).
Proof.
  induction s as [|d s IH]; cbn; [done|]. intros [Hd Hs]%andb_prop. apply negb_true_iff in Hd. rewrite Hd.
  by rewrite (IH Hs).
Qed.

(** What follows a part: nothing, or the semicolon and the other parts. *)
Definition part_end (rest : string) : Prop := rest = EmptyString ∨ ∃ r, rest = String ";" r.

Lemma span_part stop s rest :
  stop ";"%char = true → free_of stop s = true → part_end rest → span_until stop (s +:+ rest) = (s, rest).
Proof.
  intros Hstop Hs [->|[r ->]].
  - rewrite string_app_nil_r. by apply span_free_end.
  - by apply span_free.
Qed.

Lemma span_semicolon s rest :
  free_of (is_char ";") s = true → part_end rest → span_until (is_char ";") (s +:+ rest) = (s, rest).
Proof. by apply span_part. Qed.

Lemma read_value_spec v rest : value_wf v → part_end rest → read_value (value_text v +:+ rest) = (value_text v, rest).
Proof.
  destruct v as [v|i t]; cbn [value_wf value_text].
  - intros [Hv Hb] Hr. destruct v as [|c v].
    + rewrite string_app_nil_l. by destruct Hr as [->|[r ->]].
    + assert (read_value (String c v +:+ rest) = span_until (is_char ";") (String c v +:+ rest)) as ->.
      { rewrite string_app_cons. unfold read_value. destruct c as [[] [] [] [] [] [] [] []]; try reflexivity.
        by destruct (Hb v). }
      by apply span_semicolon.
  - intros [Hi Ht] Hr. rewrite string_app_cons. cbn [read_value].
    rewrite string_app_assoc, string_app_cons, span_free by done. cbv beta iota.
    by rewrite span_semicolon by done.
Qed.

Lemma skip_semicolon_end rest : part_end rest → skip_semicolon rest = match rest with String _ r => r | EmptyString => EmptyString end.
Proof. by intros [->|[r ->]]. Qed.

(** One turn of the loop on a part. *)
Lemma sanitize_part fuel first p rest :
  part_wf p → part_end rest → render_part p +:+ rest ≠ EmptyString →
  sanitize_loop (S fuel) first (render_part p +:+ rest) =
  (if first then EmptyString else ";") +:+ redact_part p +:+
    sanitize_loop fuel false match rest with String _ r => r | EmptyString => EmptyString end.
Proof.
  intros [Hk Hv] Hr Hne. unfold redact_part, render_part in *. destruct p as [key [v|]]; cbn [p_key p_value] in *.
  - rewrite string_app_assoc, string_app_cons in Hne |- *.
    assert (sanitize_loop (S fuel) first (key +:+ String "=" (value_text v +:+ rest)) =
      let '(key', rest') := span_until key_stop (key +:+ String "=" (value_text v +:+ rest)) in
      (if first then EmptyString else ";") +:+ key' +:+
      match rest' with
      | String "=" rest' =>
          let '(value, rest') := read_value rest' in
          "=" +:+ (if is_secret_key key' then "***" else value) +:+ sanitize_loop fuel false (skip_semicolon rest')
      | _ => sanitize_loop fuel false (skip_semicolon rest')
      end) as ->.
    { cbn [sanitize_loop]. destruct (key +:+ _); [done|reflexivity]. }
    rewrite span_free by done. cbv beta iota. rewrite read_value_spec by done. cbv beta iota.
    rewrite skip_semicolon_end by done. by rewrite !string_app_assoc, !string_app_cons, string_app_nil_l.
  - rewrite string_app_nil_r in Hne |- *.
    assert (sanitize_loop (S fuel) first (key +:+ rest) =
      let '(key', rest') := span_until key_stop (key +:+ rest) in
      (if first then EmptyString else ";") +:+ key' +:+
      match rest' with
      | String "=" rest' =>
          let '(value, rest') := read_value rest' in
          "=" +:+ (if is_secret_key key' then "***" else value) +:+ sanitize_loop fuel false (skip_semicolon rest')
      | _ => sanitize_loop fuel false (skip_semicolon rest')
      end) as ->.
    { cbn [sanitize_loop]. destruct (key +:+ rest); [done|reflexivity]. }
    rewrite span_part by done. cbv beta iota.
    by destruct Hr as [->|[r ->]].
Qed.

(** * What the log shows *)

Definition render (ps : list Part) : string := join ";" (map render_part ps).

(** The string ends with its last part: a semicolon after it would be dropped. *)
Definition parts_wf (ps : list Part) : Prop := Forall part_wf ps ∧ ∀ p, last ps = Some p → render_part p ≠ EmptyString.

Lemma part_end_join ps : part_end (match ps with [] => EmptyString | _ => String ";" (render ps) end).
Proof. destruct ps; [by left|right; by eexists]. Qed.

Lemma render_cons p ps : render (p :: ps) = render_part p +:+ match ps with [] => EmptyString | _ => String ";" (render ps) end.
Proof. destruct ps; cbn; [by rewrite string_app_nil_r|done]. Qed.

Lemma app_cons_ne s c t : s +:+ String c t ≠ EmptyString.
Proof. by destruct s. Qed.

Lemma render_ne p ps : (∀ q, last (p :: ps) = Some q → render_part q ≠ EmptyString) → render (p :: ps) ≠ EmptyString.
Proof.
  intros H. rewrite render_cons. destruct ps as [|q ps].
  - rewrite string_app_nil_r. by apply H.
  - apply app_cons_ne.
Qed.

Lemma length_app_string a b : String.length (a +:+ b) = (String.length a + String.length b)%nat.
Proof. induction a as [|c a IH]; [done|]. rewrite string_app_cons. cbn. by rewrite IH. Qed.

Lemma sanitize_parts fuel first ps :
  parts_wf ps → ps ≠ [] → (length ps ≤ fuel)%nat →
  sanitize_loop fuel first (render ps) = (if first then EmptyString else ";") +:+ join ";" (map redact_part ps).
Proof.
  revert fuel first. induction ps as [|p ps IH]; intros fuel first [Hwf Hlast] Hne Hf; [done|].
  destruct fuel as [|fuel]; [cbn in Hf; lia|]. apply Forall_cons_1 in Hwf as [Hp Hps].
  pose proof (render_ne p ps Hlast) as Hr. rewrite render_cons in Hr |- *.
  rewrite sanitize_part by (try done; apply part_end_join).
  destruct ps as [|q ps].
  - cbn. f_equal. destruct fuel; by rewrite string_app_nil_r.
  - rewrite IH; [|split; [done|]|done|cbn in Hf |- *; lia].
    + cbn [map join]. done.
    + intros r Hr'. apply Hlast. done.
Qed.

Lemma render_length ps : (∀ p, last ps = Some p → render_part p ≠ EmptyString) → (length ps ≤ String.length (render ps))%nat.
Proof.
  induction ps as [|p ps IH]; intros Hl; [cbn; lia|]. rewrite render_cons, length_app_string. destruct ps as [|q ps].
  - cbn. specialize (Hl p eq_refl). destruct (render_part p); [done|cbn; lia].
  - specialize (IH (λ r Hr, Hl r Hr)). change (String.length (String ";" ?r)) with (S (String.length r)).
    change (length (p :: q :: ps)) with (S (length (q :: ps))). lia.
Qed.

(** Redaction shows every part of a well-formed connection string as it is, but for
    the values of secret keys, each replaced by three stars. *)
Lemma sanitize_render ps :
  parts_wf ps → sanitize_connection_string (render ps) = join ";" (map redact_part ps).
Proof.
  intros Hwf. unfold sanitize_connection_string. destruct ps as [|p ps]; [done|].
  rewrite sanitize_parts; [done|done|done|]. apply render_length, Hwf.
Qed.

(** Two parts that differ at most in the value of a secret key. *)
Definition same_but_secret (p q : Part) : Prop :=
  p_key p = p_key q ∧
  match p_value p, p_value q with
  | Some v, Some v' => is_secret_key (p_key p) = true ∨ v = v'
  | None, None => True
  | _, _ => False
  end.

Lemma redact_same p q : same_but_secret p q → redact_part p = redact_part q.
Proof.
  unfold same_but_secret, redact_part. intros [Hk Hv]. rewrite <- Hk.
  destruct (p_value p), (p_value q); try done. by destruct Hv as [->| ->].
Qed.


(** A password with a closing brace in a brace group, which ODBC writes doubled,
    is not redacted whole: what follows the first semicolon after the first closing
    brace is shown. *)
Theorem doubled_brace_leaks (inside tail : string) :
  free_of (is_char "}") inside = true → free_of key_stop tail = true → tail ≠ EmptyString →
  sanitize_connection_string ("PWD={" +:+ inside +:+ "}};" +:+ tail) = "PWD=***;" +:+ tail.
Proof.
  intros Hi Ht Hne.
  assert ("PWD={" +:+ inside +:+ "}};" +:+ tail = render [mkPart "PWD" (Some (Braced inside "}")); mkPart tail None]) as ->.
  { unfold render, render_part, value_text. cbn [map join p_key p_value].
    rewrite !string_app_nil_r, !string_app_assoc. rewrite !string_app_cons, !string_app_nil_l. f_equal. f_equal. f_equal. f_equal. f_equal.
    rewrite !string_app_assoc. f_equal. }
  rewrite sanitize_render.
  - unfold redact_part. cbn. by rewrite string_app_nil_r.
  - split.
    + repeat constructor; cbn; done.
    + intros p [= <-]. unfold render_part. cbn. by rewrite string_app_nil_r.
Qed.

(** ** The audit log keeps the newest events *)

Definition log_all (es : list AuditEvent) (l : AuditLogger) : AuditLogger := foldl push_event l es.

Lemma push_event_suffix l e es :
  al_events l = Some es → len es ≤ MAX_AUDIT_EVENTS →
  ∃ es', al_events (push_event l e) = Some es' ∧ len es' ≤ MAX_AUDIT_EVENTS ∧
    es' = drop (length (es ++ [e]) - Z.to_nat MAX_AUDIT_EVENTS) (es ++ [e]).
Proof.
  intros He Hl. unfold push_event. rewrite He. cbn. eexists. split; [done|].
  pose proof (len_app es [e]) as Ha. change (len [e]) with 1 in Ha.
  destruct (Z.ltb_spec MAX_AUDIT_EVENTS (len (es ++ [e]))) as [Hlt|Hge].
  - split.
    + unfold len in *. rewrite length_drop. lia.
    + f_equal. unfold len in *. lia.
  - split; [lia|]. replace (length (es ++ [e]) - Z.to_nat MAX_AUDIT_EVENTS)%nat with 0%nat; [done|].
    unfold len in *. lia.
Qed.

(** An enabled log never holds more than 10000 events and always holds the newest
    ones in order: after any events it is the longest allowed suffix of all of
    them, and what it reports first is the last event logged. *)
Theorem audit_log_window (es : list AuditEvent) (enabled : bool) :
  al_events (log_all es (audit_new enabled)) = Some (drop (length es - Z.to_nat MAX_AUDIT_EVENTS) es) ∧
  event_count (log_all es (audit_new enabled)) = Z.min (len es) MAX_AUDIT_EVENTS ∧
  ∀ n, get_events n (log_all es (audit_new enabled)) = take n (reverse (drop (length es - Z.to_nat MAX_AUDIT_EVENTS) es)).
Proof.
  assert (al_events (log_all es (audit_new enabled)) = Some (drop (length es - Z.to_nat MAX_AUDIT_EVENTS) es)) as H.
  { induction es as [|e es IH] using rev_ind; [done|]. unfold log_all in *. rewrite foldl_app. cbn [foldl].
    assert (len (drop (length es - Z.to_nat MAX_AUDIT_EVENTS) es) ≤ MAX_AUDIT_EVENTS) as Hl.
    { unfold len, MAX_AUDIT_EVENTS. rewrite length_drop. lia. }
    destruct (push_event_suffix _ e _ IH Hl) as (es' & -> & _ & ->). f_equal.
    rewrite !length_app, length_drop. cbn [length].
    destruct (decide (length es ≤ Z.to_nat MAX_AUDIT_EVENTS)%nat) as [Hs|Hs].
    - replace (length es - Z.to_nat MAX_AUDIT_EVENTS)%nat with 0%nat by lia. cbn. f_equal. lia.
    - rewrite <- (drop_app_le es [e]) by lia. rewrite drop_drop. f_equal. lia. }
  split; [done|]. unfold event_count, get_events. rewrite H. split; [|done].
  unfold len, MAX_AUDIT_EVENTS. rewrite length_drop. lia.
Qed.

(** ** Witnesses *)


Lemma doubled_brace_leaks_witness : sanitize_connection_string "PWD={my}};secret}" = "PWD=***;secret}".
Proof. apply (doubled_brace_leaks "my" "secret}"); [reflexivity|reflexivity|discriminate]. Defined.
