(* ===== verification/Caches.v ===== *)
(** The caches of the engine (engine/core/prepared_cache.rs, metadata_cache.rs) and its
    counters (observability/metrics.rs).

    The least-recently-used map is the crate [lru]: a parameter, the class [Lru],
    with its documented behaviour as laws on the list of its entries. *)

From stdpp Require Import sorting.
From Stdlib Require SpecFloat.
From S2P Require Import Prelude Wire Text.
#[local] Open Scope Z_scope.

(** * The LRU map *)

(** The entries of a list that is ordered by recency, without a key. *)
Definition without {K V : Type} `{EqDecision K} (k : K) (es : list (K * V)) : list (K * V) :=
  filter (λ e, e.1 ≠ k) es.

Fixpoint assoc {K V : Type} `{EqDecision K} (k : K) (es : list (K * V)) : option V :=
  match es with
  | [] => None
  | (k', v) :: es => if decide (k' = k) then Some v else assoc k es
  end.

(** The entries, most recent first, say everything about the map but its capacity. *)
Class Lru (K V : Type) `{EqDecision K} := {
  lru : Type;
  lru_entries : lru → list (K * V);
  lru_cap : lru → nat;
  lru_new : nat → lru;
  lru_put : K → V → lru → lru;
  lru_get : K → lru → option V * lru;
  lru_pop : K → lru → lru;
  lru_clear : lru → lru;
  lru_new_entries : ∀ n, lru_entries (lru_new n) = [];
  lru_new_cap : ∀ n, lru_cap (lru_new n) = n;
  lru_put_entries : ∀ k v l, lru_entries (lru_put k v l) = take (lru_cap l) ((k, v) :: without k (lru_entries l));
  lru_put_cap : ∀ k v l, lru_cap (lru_put k v l) = lru_cap l;
  lru_get_value : ∀ k l, (lru_get k l).1 = assoc k (lru_entries l);
  lru_get_entries : ∀ k l, lru_entries (lru_get k l).2 =
    match assoc k (lru_entries l) with Some v => (k, v) :: without k (lru_entries l) | None => lru_entries l end;
  lru_get_cap : ∀ k l, lru_cap (lru_get k l).2 = lru_cap l;
  lru_pop_entries : ∀ k l, lru_entries (lru_pop k l) = without k (lru_entries l);
  lru_pop_cap : ∀ k l, lru_cap (lru_pop k l) = lru_cap l;
  lru_clear_entries : ∀ l, lru_entries (lru_clear l) = [];
  lru_clear_cap : ∀ l, lru_cap (lru_clear l) = lru_cap l
}.

(** [contains] does not make its key recent. *)
Definition lru_contains {K V : Type} `{Lru K V} (k : K) (l : lru) : bool := bool_decide (is_Some (assoc k (lru_entries l))).

Definition lru_len {K V : Type} `{Lru K V} (l : lru) : Z := len (lru_entries l).

(** The map as a list: the laws hold of it. *)
Definition list_lru {K V : Type} `{EqDecision K} : Lru K V.
Proof.
  refine {|
    lru := nat * list (K * V);
    lru_entries := snd;
    lru_cap := fst;
    lru_new := λ n, (n, []);
    lru_put := λ k v l, (l.1, take l.1 ((k, v) :: without k l.2));
    lru_get := λ k l, (assoc k l.2, (l.1, match assoc k l.2 with Some v => (k, v) :: without k l.2 | None => l.2 end));
    lru_pop := λ k l, (l.1, without k l.2);
    lru_clear := λ l, (l.1, [])
  |}; done.
Defined.

Lemma assoc_without_eq {K V : Type} `{EqDecision K} (k : K) (es : list (K * V)) : assoc k (without k es) = None.
Proof.
  induction es as [|[k' v] es IH]; [done|]. unfold without in *. rewrite filter_cons. cbn.
  destruct (decide (k' ≠ k)) as [Hn|Hn]; cbn; [|done]. by rewrite decide_False by done.
Qed.

Lemma assoc_without_ne {K V : Type} `{EqDecision K} (k j : K) (es : list (K * V)) :
  j ≠ k → assoc j (without k es) = assoc j es.
Proof.
  intros Hj. induction es as [|[k' v] es IH]; [done|]. unfold without in *. rewrite filter_cons. cbn.
  destruct (decide (k' ≠ k)) as [Hn|Hn]; cbn.
  - destruct (decide (k' = j)); [done|apply IH].
  - destruct (decide (k' = j)); [|apply IH]. subst. by destruct Hn.
Qed.

Lemma without_absent {K V : Type} `{EqDecision K} (k : K) (es : list (K * V)) : assoc k es = None → without k es = es.
Proof.
  induction es as [|[k' v] es IH]; [done|]. unfold without in *. rewrite filter_cons. cbn.
  destruct (decide (k' = k)) as [|Hn]; [done|]. intros Ha. rewrite decide_True by done. by rewrite IH.
Qed.

Lemma without_length {K V : Type} `{EqDecision K} (k : K) (es : list (K * V)) : (length (without k es) ≤ length es)%nat.
Proof. apply length_filter. Qed.

(** * The cache of prepared statements *)

Section Prepared.
Context `{!Lru string unit}.

(** [None]: the mutex is poisoned. The counters are 64-bit atomics. *)
Record PreparedStatementCache := mkPrepCache {
  pc_cache : option lru;
  pc_max_size : Z;
  pc_cache_hits : Z;
  pc_cache_misses : Z;
  pc_total_prepares : Z;
  pc_total_executions : Z
}.

(** [AtomicU64::fetch_add(1)] wraps around. *)
Definition fetch_add1 (n : Z) : Z := (n + 1) mod 2 ^ 64.

Definition prep_capacity (max_size : Z) : nat := if (max_size =? 0)%Z then 100%nat else Z.to_nat max_size.

Definition prep_new (max_size : Z) : PreparedStatementCache :=
  mkPrepCache (Some (lru_new (prep_capacity max_size))) max_size 0 0 0 0.

Definition get_or_insert (sql : string) (c : PreparedStatementCache) : bool * PreparedStatementCache :=
  match pc_cache c with
  | None => (false, c)
  | Some cache =>
      if lru_contains sql cache then
        (true, mkPrepCache (Some cache) (pc_max_size c) (fetch_add1 (pc_cache_hits c)) (pc_cache_misses c)
                 (pc_total_prepares c) (pc_total_executions c))
      else
        (false, mkPrepCache (Some (lru_put sql tt cache)) (pc_max_size c) (pc_cache_hits c) (fetch_add1 (pc_cache_misses c))
                  (fetch_add1 (pc_total_prepares c)) (pc_total_executions c))
  end.

Definition record_execution (c : PreparedStatementCache) : PreparedStatementCache :=
  mkPrepCache (pc_cache c) (pc_max_size c) (pc_cache_hits c) (pc_cache_misses c) (pc_total_prepares c)
    (fetch_add1 (pc_total_executions c)).

Definition prep_clear (c : PreparedStatementCache) : PreparedStatementCache :=
  mkPrepCache (lru_clear <$> pc_cache c) (pc_max_size c) (pc_cache_hits c) (pc_cache_misses c) (pc_total_prepares c)
    (pc_total_executions c).

Definition prep_len (c : PreparedStatementCache) : Z := match pc_cache c with Some l => lru_len l | None => 0 end.

(** [as f64], and the bits of a double as a 64-bit number ([to_bits]). *)
Definition f64_of_u64 (n : Z) : SpecFloat.spec_float := SpecFloat.binary_normalize 53 1024 n 0 false.

Definition f64_bits (x : SpecFloat.spec_float) : Z :=
  let sign (s : bool) := if s then 2 ^ 63 else 0 in
  match x with
  | SpecFloat.S754_zero s => sign s
  | SpecFloat.S754_infinity s => sign s + 2047 * 2 ^ 52
  | SpecFloat.S754_nan => 4095 * 2 ^ 51
  | SpecFloat.S754_finite s m e =>
      sign s + if (Z.pos m <? 2 ^ 52)%Z then Z.pos m else (e + 1075) * 2 ^ 52 + (Z.pos m - 2 ^ 52)
  end.

Definition avg_executions_per_stmt (c : PreparedStatementCache) : SpecFloat.spec_float :=
  if (pc_total_prepares c =? 0)%Z then SpecFloat.S754_zero false
  else SpecFloat.SFdiv 53 1024 (f64_of_u64 (pc_total_executions c)) (f64_of_u64 (pc_total_prepares c)).

Record PreparedStatementMetrics := mkPrepMetrics {
  pm_cache_size : Z; pm_cache_max_size : Z; pm_cache_hits : Z; pm_cache_misses : Z;
  pm_total_prepares : Z; pm_total_executions : Z; pm_memory_usage_bytes : Z;
  pm_avg_executions_per_stmt : SpecFloat.spec_float
}.

Definition prep_metrics (c : PreparedStatementCache) : PreparedStatementMetrics :=
  mkPrepMetrics (prep_len c) (pc_max_size c) (pc_cache_hits c) (pc_cache_misses c) (pc_total_prepares c)
    (pc_total_executions c) (prep_len c * 64) (avg_executions_per_stmt c).

(** A run of the cache on statements, with the answers. *)
Fixpoint prep_run (sqls : list string) (c : PreparedStatementCache) : list bool * PreparedStatementCache :=
  match sqls with
  | [] => ([], c)
  | sql :: sqls => let '(b, c) := get_or_insert sql c in let '(bs, c) := prep_run sqls c in (b :: bs, c)
  end.

(** The reference: a queue of the statements that missed, the newest first, cut to
    the capacity. A hit does not move its statement. *)
Fixpoint fifo_run (cap : nat) (sqls queue : list string) : list bool * list string :=
  match sqls with
  | [] => ([], queue)
  | sql :: sqls =>
      if bool_decide (sql ∈ queue) then let '(bs, q) := fifo_run cap sqls queue in (true :: bs, q)
      else let '(bs, q) := fifo_run cap sqls (take cap (sql :: queue)) in (false :: bs, q)
  end.

Lemma contains_keys sql l : lru_contains sql l = bool_decide (sql ∈ map fst (lru_entries l)).
Proof.
  unfold lru_contains. apply bool_decide_ext. induction (lru_entries l) as [|[k v] es IH]; cbn.
  - split; [by intros [? ?]|by intros ?%not_elem_of_nil].
  - rewrite elem_of_cons. destruct (decide (k = sql)) as [->|Hn]; [split; [by left|by eexists]|].
    rewrite IH. split; [by right|]. by intros [->|?].
Qed.

Lemma absent_assoc sql l : lru_contains sql l = false → assoc sql (lru_entries l) = None.
Proof.
  unfold lru_contains. intros H. destruct (assoc sql (lru_entries l)) eqn:E; [|done].
  by rewrite bool_decide_eq_true_2 in H by (by eexists).
Qed.

Lemma prep_run_fifo sqls c l :
  pc_cache c = Some l →
  ∃ l', pc_cache (prep_run sqls c).2 = Some l' ∧ lru_cap l' = lru_cap l ∧
    ((prep_run sqls c).1, map fst (lru_entries l')) = fifo_run (lru_cap l) sqls (map fst (lru_entries l)).
Proof.
  revert c l. induction sqls as [|sql sqls IH]; intros c l Hl; cbn [prep_run fifo_run].
  { by exists l. }
  unfold get_or_insert. rewrite Hl, contains_keys. case_bool_decide as Hin.
  - set (c' := mkPrepCache _ _ _ _ _ _). destruct (IH c' l eq_refl) as (l' & H1 & H2 & H3).
    destruct (prep_run sqls c') as [bs c'']. cbn in *. destruct (fifo_run _ _ _) as [bs' q]. injection H3 as -> <-.
    by exists l'.
  - set (c' := mkPrepCache _ _ _ _ _ _). destruct (IH c' (lru_put sql tt l) eq_refl) as (l' & H1 & H2 & H3).
    rewrite lru_put_cap, lru_put_entries in H3.
    rewrite without_absent in H3.
    2: { apply absent_assoc. rewrite contains_keys. by apply bool_decide_eq_false_2. }
    rewrite <- firstn_map in H3. rewrite map_cons in H3. cbn [fst] in H3.
    destruct (prep_run sqls c') as [bs c'']. cbn in *. destruct (fifo_run _ _ _) as [bs' q]. injection H3 as -> <-.
    exists l'. by rewrite H2, lru_put_cap.
Qed.

(** The statement cache evicts in order of insertion: its answers and its contents
    after any statements are those of a queue of the capacity in which a hit moves
    nothing, for every least-recently-used map underneath. *)
Theorem prepared_cache_is_fifo (max_size : Z) (sqls : list string) :
  let cap := prep_capacity max_size in
  ∃ l, pc_cache (prep_run sqls (prep_new max_size)).2 = Some l ∧ (length (lru_entries l) ≤ cap)%nat ∧
    ((prep_run sqls (prep_new max_size)).1, map fst (lru_entries l)) = fifo_run cap sqls [].
Proof.
  cbv zeta. set (cap := prep_capacity max_size).
  destruct (prep_run_fifo sqls (prep_new max_size) (lru_new cap) eq_refl) as (l & H1 & H2 & H3).
  rewrite lru_new_cap, lru_new_entries in H3. exists l. split; [done|]. split; [|done].
  assert (∀ q, (length q ≤ cap)%nat → (length (fifo_run cap sqls q).2 ≤ cap)%nat) as Hq.
  { clear. induction sqls as [|sql sqls IH]; intros q Hq; cbn [fifo_run]; [done|].
    case_bool_decide.
    - specialize (IH q Hq). by destruct (fifo_run cap sqls q).
    - specialize (IH (take cap (sql :: q)) ltac:(rewrite length_take; lia)). by destruct (fifo_run cap sqls _). }
  specialize (Hq [] ltac:(cbn; lia)). cbn [map] in H3. rewrite <- H3 in Hq. cbn in Hq. by rewrite length_map in Hq.
Qed.
End Prepared.

(** * The metadata cache *)

Record CachedColumn := mkCachedColumn { cc_name : string; cc_odbc_type : Z; cc_nullable : bool }.
Record TableSchema := mkTableSchema { ts_table_name : string; ts_columns : list CachedColumn; ts_cached_at : Z }.
Record CachedPayload := mkCachedPayload { cp_data : list byte; cp_cached_at : Z }.

Section Metadata.
Context `{LS : !Lru string TableSchema} `{LP : !Lru string CachedPayload}.

(** Times are nanoseconds of a monotonic clock; [None] is a poisoned mutex. *)
Record MetadataCache := mkMetaCache {
  mc_schemas : option (@lru _ _ _ LS);
  mc_payloads : option (@lru _ _ _ LP);
  mc_ttl : Z;
  mc_max_size : Z
}.

Definition meta_new (max_size ttl : Z) : MetadataCache :=
  mkMetaCache (Some (lru_new (Z.to_nat (Z.max max_size 1)))) (Some (lru_new (Z.to_nat (Z.max max_size 1)))) ttl
    (Z.max max_size 1).

Definition get_schema (now : Z) (table : string) (c : MetadataCache) : option TableSchema * MetadataCache :=
  match mc_schemas c with
  | None => (None, c)
  | Some guard =>
      let '(r, guard) := lru_get table guard in
      match r with
      | None => (None, mkMetaCache (Some guard) (mc_payloads c) (mc_ttl c) (mc_max_size c))
      | Some schema =>
          if (mc_ttl c <? now - ts_cached_at schema)%Z
          then (None, mkMetaCache (Some (lru_pop table guard)) (mc_payloads c) (mc_ttl c) (mc_max_size c))
          else (Some schema, mkMetaCache (Some guard) (mc_payloads c) (mc_ttl c) (mc_max_size c))
      end
  end.

Definition cache_schema (table : string) (schema : TableSchema) (c : MetadataCache) : MetadataCache :=
  mkMetaCache (lru_put table schema <$> mc_schemas c) (mc_payloads c) (mc_ttl c) (mc_max_size c).

Definition get_payload (now : Z) (key : string) (c : MetadataCache) : option (list byte) * MetadataCache :=
  match mc_payloads c with
  | None => (None, c)
  | Some guard =>
      let '(r, guard) := lru_get key guard in
      match r with
      | None => (None, mkMetaCache (mc_schemas c) (Some guard) (mc_ttl c) (mc_max_size c))
      | Some payload =>
          if (mc_ttl c <? now - cp_cached_at payload)%Z
          then (None, mkMetaCache (mc_schemas c) (Some (lru_pop key guard)) (mc_ttl c) (mc_max_size c))
          else (Some (cp_data payload), mkMetaCache (mc_schemas c) (Some guard) (mc_ttl c) (mc_max_size c))
      end
  end.

Definition cache_payload (now : Z) (key : string) (data : list byte) (c : MetadataCache) : MetadataCache :=
  mkMetaCache (mc_schemas c) (lru_put key (mkCachedPayload data now) <$> mc_payloads c) (mc_ttl c) (mc_max_size c).

Definition meta_clear (c : MetadataCache) : MetadataCache :=
  mkMetaCache (lru_clear <$> mc_schemas c) (lru_clear <$> mc_payloads c) (mc_ttl c) (mc_max_size c).

Record MetadataCacheStats := mkMetaStats {
  ms_max_size : Z; ms_ttl_secs : Z; ms_schema_entries : Z; ms_payload_entries : Z
}.

Definition meta_stats (c : MetadataCache) : MetadataCacheStats :=
  mkMetaStats (mc_max_size c) (mc_ttl c / 1000000000)
    (match mc_schemas c with Some l => lru_len l | None => 0 end)
    (match mc_payloads c with Some l => lru_len l | None => 0 end).

(** What the cache would answer for a key, without touching it. *)
Definition payload_at (now : Z) (key : string) (c : MetadataCache) : option (list byte) :=
  match mc_payloads c with
  | None => None
  | Some l => match assoc key (lru_entries l) with
              | Some p => if (mc_ttl c <? now - cp_cached_at p)%Z then None else Some (cp_data p)
              | None => None
              end
  end.

Lemma get_payload_value now key c : (get_payload now key c).1 = payload_at now key c.
Proof.
  unfold get_payload, payload_at. destruct (mc_payloads c) as [l|]; [|done].
  pose proof (lru_get_value key l) as Hv. destruct (lru_get key l) as [r l']. cbn in Hv. subst r.
  destruct (assoc key (lru_entries l)) as [p|]; [|done]. by case_if.
Qed.

(** A lookup gives what was stored for the key within the time to live and nothing
    after it; it changes what no other key would give, now or later; storing a
    payload makes it the answer of its key until it expires and never changes the
    answer of another key that stays in the cache; and the cache never holds more
    entries than its capacity. *)
Theorem payload_cache_spec (now now' : Z) (key other : string) (data : list byte) (c : MetadataCache) (l : lru) :
  mc_payloads c = Some l → (length (lru_entries l) ≤ lru_cap l)%nat → (0 < lru_cap l)%nat → other ≠ key →
  (get_payload now key c).1 = payload_at now key c ∧
  payload_at now' other (get_payload now key c).2 = payload_at now' other c ∧
  (payload_at now key c ≠ None → payload_at now' key (get_payload now key c).2 = payload_at now' key c) ∧
  payload_at now' key (cache_payload now key data c) = (if (mc_ttl c <? now' - now)%Z then None else Some data) ∧
  (payload_at now' other (cache_payload now key data c) = payload_at now' other c ∨
   payload_at now' other (cache_payload now key data c) = None) ∧
  ∃ l', mc_payloads (cache_payload now key data c) = Some l' ∧ (length (lru_entries l') ≤ lru_cap l')%nat.
Proof.
  intros Hl Hlen Hcap Hne. split; [apply get_payload_value|].
  assert (∀ k es n, assoc other (take n ((key, k) :: without key es)) = assoc other es ∨
    assoc (V := CachedPayload) other (take n ((key, k) :: without key es)) = None) as Htake.
  { intros k es n. assert (assoc other ((key, k) :: without key es) = assoc other es) as <-.
    { cbn. rewrite decide_False by done. by apply assoc_without_ne. }
    generalize ((key, k) :: without key es) as xs. clear. intros xs. revert n.
    induction xs as [|[j v] xs IH]; intros n; [destruct n; by left|]. destruct n as [|n]; [by right|].
    cbn. destruct (decide (j = other)); [by left|apply IH]. }
  unfold get_payload, cache_payload, payload_at. rewrite Hl.
  pose proof (lru_get_value key l) as Hv. pose proof (lru_get_entries key l) as He.
  destruct (lru_get key l) as [r l']. cbn in Hv, He. subst r. cbn [mc_payloads mc_ttl fmap option_fmap option_map].
  split; [|split; [|split; [|split]]].
  - destruct (assoc key (lru_entries l)) as [p|] eqn:Hk; [|cbn; by rewrite He].
    case_if; cbn.
    + rewrite lru_pop_entries, assoc_without_ne, He by done. cbn. rewrite decide_False by done. by rewrite assoc_without_ne.
    + rewrite He. cbn. rewrite decide_False by done. by rewrite assoc_without_ne.
  - destruct (assoc key (lru_entries l)) as [p|] eqn:Hk; [|done]. case_if; [done|]. intros _. cbn. rewrite He. cbn.
    by rewrite decide_True by done.
  - rewrite lru_put_entries. destruct (lru_cap l) as [|n]; [lia|]. cbn. by rewrite decide_True by done.
  - rewrite lru_put_entries. destruct (Htake (mkCachedPayload data now) (lru_entries l) (lru_cap l)) as [-> | ->]; [by left|by right].
  - eexists. split; [done|]. rewrite lru_put_entries, lru_put_cap, length_take. lia.
Qed.
End Metadata.

Lemma payload_cache_spec_witness :
  let c := cache_payload 5 "1:t" [x01] (meta_new (LS := list_lru) (LP := list_lru) 1 100) in
  (get_payload 50 "1:t" c).1 = Some [x01] ∧
  payload_at 50 "1:u" (cache_payload 50 "1:t" [x02] c) = None.
Proof.
  cbv zeta. set (c := cache_payload 5 "1:t" [x01] _).
  destruct (payload_cache_spec (LS := list_lru) (LP := list_lru) 50 50 "1:t" "1:u" [x02] c (1%nat, [("1:t", mkCachedPayload [x01] 5)]))
    as (H1 & _ & _ & _ & H5 & _); [reflexivity|vm_compute; lia|vm_compute; lia|discriminate|].
  split; [rewrite H1; reflexivity|]. destruct H5 as [H5|H5]; rewrite H5; reflexivity.
Defined.

(** * Counters *)

Definition MAX_LATENCY_SAMPLES : Z := 1000.
Definition DURATION_MAX : Z := 2 ^ 64 * 1000000000 - 1.

(** Durations in nanoseconds. *)
Record QueryMetrics := mkQueryMetrics {
  qm_query_count : Z;
  qm_total_latency : Z;
  qm_min_latency : Z;
  qm_max_latency : Z;
  qm_samples : list Z;
  qm_sorted : list Z
}.

Definition metrics_new : QueryMetrics := mkQueryMetrics 0 0 DURATION_MAX 0 [] [].

(** [binary_search] of a sorted slice: the index of an equal element, or the one where
    the element belongs. *)
Fixpoint binary_search (x : Z) (xs : list Z) : nat * bool :=
  match xs with
  | [] => (0%nat, false)
  | y :: xs => if (y =? x)%Z then (0%nat, true) else if (x <? y)%Z then (0%nat, false)
               else let '(i, b) := binary_search x xs in (S i, b)
  end.

(** [Vec::insert] and [Vec::remove] *)
Definition vec_insert (i : nat) (x : Z) (xs : list Z) : list Z := take i xs ++ x :: drop i xs.
Definition vec_remove (i : nat) (xs : list Z) : list Z := take i xs ++ drop (S i) xs.

Definition insert_latency_sample (latency : Z) (m : QueryMetrics) : QueryMetrics :=
  mkQueryMetrics (qm_query_count m) (qm_total_latency m) (qm_min_latency m) (qm_max_latency m)
    (qm_samples m ++ [latency]) (vec_insert (binary_search latency (qm_sorted m)).1 latency (qm_sorted m)).

Definition remove_sorted_latency_sample (latency : Z) (sorted : list Z) : list Z :=
  match binary_search latency sorted with (i, true) => vec_remove i sorted | _ => sorted end.

(** The sums panic on overflow: the count as a checked [u64], the total as a [Duration]. *)
Definition record_query (latency : Z) (m : QueryMetrics) : outcome unit QueryMetrics :=
  if (2 ^ 64 <=? qm_query_count m + 1)%Z || (DURATION_MAX <? qm_total_latency m + latency)%Z then Panic
  else
    let m := mkQueryMetrics (qm_query_count m + 1) (qm_total_latency m + latency)
               (if (latency <? qm_min_latency m)%Z then latency else qm_min_latency m)
               (if (qm_max_latency m <? latency)%Z then latency else qm_max_latency m) (qm_samples m) (qm_sorted m) in
    let m := insert_latency_sample latency m in
    if (MAX_LATENCY_SAMPLES <? len (qm_samples m))%Z then
      match qm_samples m with
      | evicted :: rest =>
          Ok (mkQueryMetrics (qm_query_count m) (qm_total_latency m) (qm_min_latency m) (qm_max_latency m) rest
                (remove_sorted_latency_sample evicted (qm_sorted m)))
      | [] => Ok m
      end
    else Ok m.

(** [total_latency / query_count as u32]: the cast drops the high bits, and a
    [Duration] divided by zero panics. *)
Definition average_latency (m : QueryMetrics) : outcome unit Z :=
  if (qm_query_count m =? 0)%Z then Ok 0
  else
    let n := (qm_query_count m mod 2 ^ 32)%Z in
    if (n =? 0)%Z then Panic else Ok (qm_total_latency m / n)%Z.

(** [p] is 50, 95 or 99: the truncated quotient of floats is the one of integers. *)
Definition percentile (p : Z) (m : QueryMetrics) : outcome unit Z :=
  match qm_sorted m with
  | [] => Ok 0
  | _ => match qm_sorted m !! Z.to_nat ((len (qm_sorted m) - 1) * p / 100) with Some d => Ok d | None => Panic end
  end.

Lemma record_query_sums latency m m' : record_query latency m = Ok m' →
  (qm_query_count m' = qm_query_count m + 1 ∧ qm_total_latency m' = qm_total_latency m + latency)%Z.
Proof.
  unfold record_query. case_if; [done|]. intros H. case_if_in H; [|by injection H as <-].
  revert H. destruct (qm_samples _); by intros [= <-].
Qed.

(** The invariant of the samples. *)
Record samples_wf (m : QueryMetrics) : Prop := {
  sw_bound : len (qm_samples m) ≤ MAX_LATENCY_SAMPLES;
  sw_perm : qm_sorted m ≡ₚ qm_samples m;
  sw_sorted : Sorted Z.le (qm_sorted m)
}.

Lemma vec_insert_perm i x xs : vec_insert i x xs ≡ₚ x :: xs.
Proof. unfold vec_insert. rewrite <- Permutation_middle. by rewrite take_drop. Qed.

Lemma insert_sorted x xs : Sorted Z.le xs → Sorted Z.le (vec_insert (binary_search x xs).1 x xs).
Proof.
  unfold vec_insert. induction xs as [|y xs IH]; intros Hs; cbn [binary_search].
  { cbn. repeat constructor. }
  destruct (Z.eqb_spec y x) as [->|Hne].
  { cbn. constructor; [done|]. constructor. lia. }
  destruct (Z.ltb_spec x y) as [Hlt|Hge]; cbn.
  { constructor; [done|]. constructor. lia. }
  apply Sorted_inv in Hs as [Hs Hhd]. specialize (IH Hs).
  destruct (binary_search x xs) as [i b] eqn:E. cbn in *. constructor; [done|].
  destruct i as [|i]; cbn; [constructor; lia|]. destruct xs as [|z xs]; cbn in *; [constructor; lia|].
  inversion Hhd; subst. by constructor.
Qed.

Lemma sorted_lower x xs : Sorted Z.le (x :: xs) → Forall (Z.le x) xs.
Proof. intros Hs. apply Sorted_StronglySorted in Hs; [|intros a b c; lia]. by inversion Hs. Qed.

Lemma binary_search_found x xs : Sorted Z.le xs → x ∈ xs → ∃ i, binary_search x xs = (i, true) ∧ xs !! i = Some x.
Proof.
  induction xs as [|y xs IH]; intros Hs Hin; [by apply not_elem_of_nil in Hin|]. cbn.
  destruct (Z.eqb_spec y x) as [->|Hne]; [by exists 0%nat|].
  apply elem_of_cons in Hin as [Hin|Hin]; [done|]. pose proof (sorted_lower _ _ Hs) as Hl.
  rewrite Forall_forall in Hl. specialize (Hl x Hin). destruct (Z.ltb_spec x y); [lia|].
  apply Sorted_inv in Hs as [Hs _]. destruct (IH Hs Hin) as (i & -> & Hi). by exists (S i).
Qed.

Lemma remove_perm x xs : Sorted Z.le xs → x ∈ xs → x :: remove_sorted_latency_sample x xs ≡ₚ xs.
Proof.
  intros Hs Hin. unfold remove_sorted_latency_sample. destruct (binary_search_found x xs Hs Hin) as (i & -> & Hi).
  unfold vec_remove. rewrite <- (take_drop_middle xs i x Hi) at 3. by rewrite <- Permutation_middle.
Qed.

Lemma remove_sorted x xs : Sorted Z.le xs → Sorted Z.le (remove_sorted_latency_sample x xs).
Proof.
  intros Hs. unfold remove_sorted_latency_sample. destruct (binary_search x xs) as [i []]; [|done].
  unfold vec_remove. assert (Hss : StronglySorted Z.le xs) by (apply Sorted_StronglySorted; [intros a b c; lia|done]).
  apply StronglySorted_Sorted. clear Hs. revert i. induction Hss as [|y xs Hss IH Hf]; intros [|i]; cbn; [constructor|constructor|by rewrite drop_0|].
  constructor; [apply IH|]. apply Forall_app. split; [by apply Forall_take|by apply Forall_drop].
Qed.

(** The latency samples stay consistent: recording keeps at most 1000 of them, the
    sorted copy is a sorted permutation of the window, so that the percentiles are
    those of the last thousand queries and never fail. *)
Theorem latency_window (m m' : QueryMetrics) (latency p : Z) :
  samples_wf m → record_query latency m = Ok m' → 0 ≤ p ≤ 100 →
  samples_wf m' ∧
  qm_samples m' = drop (length (qm_samples m) + 1 - Z.to_nat MAX_LATENCY_SAMPLES) (qm_samples m ++ [latency]) ∧
  ∃ d, percentile p m' = Ok d ∧ d ∈ qm_samples m'.
Proof.
  intros [Hb Hp Hs] H Hpr. unfold record_query in H. case_if_in H; [done|].
  set (srt := vec_insert (binary_search latency (qm_sorted m)).1 latency (qm_sorted m)) in *.
  assert (Hperm : srt ≡ₚ qm_samples m ++ [latency]).
  { unfold srt. rewrite vec_insert_perm, Hp. apply Permutation_cons_append. }
  assert (Hsort : Sorted Z.le srt) by by apply insert_sorted.
  assert (samples_wf m' ∧ qm_samples m' = drop (length (qm_samples m) + 1 - Z.to_nat MAX_LATENCY_SAMPLES) (qm_samples m ++ [latency])
    ∧ qm_samples m' ≠ []) as (Hwf & Hsm & Hne).
  { cbn in H. pose proof (len_app (qm_samples m) [latency]) as Ha. change (len [latency]) with 1 in Ha.
    unfold MAX_LATENCY_SAMPLES, len in *. destruct (Z.ltb_spec 1000 (Z.of_nat (length (qm_samples m ++ [latency])))) as [Hlt|Hge].
    - destruct (qm_samples m) as [|e rest] eqn:Es; [cbn in *; lia|]. cbn in H. injection H as <-. cbn in Hb, Hlt, Ha |- *.
      assert (e ∈ srt) as Hin by (rewrite Hperm; by left).
      split; [split; cbn|split].
      + unfold MAX_LATENCY_SAMPLES, len. rewrite length_app in *. cbn in *. lia.
      + apply (Permutation_cons_inv (a := e)). rewrite remove_perm by done. exact Hperm.
      + by apply remove_sorted.
      + rewrite length_app in Hlt. cbn [length] in Hlt, Hb.
        replace (S (length rest + 1) - Z.to_nat 1000)%nat with 1%nat by lia. done.
      + by destruct rest.
    - injection H as <-. cbn. split; [split; cbn; [unfold MAX_LATENCY_SAMPLES, len; lia|done|done]|]. split.
      + rewrite length_app in Hge. cbn [length] in Hge.
        replace (length (qm_samples m) + 1 - Z.to_nat 1000)%nat with 0%nat by lia. done.
      + by destruct (qm_samples m). }
  split; [done|]. split; [done|]. destruct Hwf as [_ Hp' _]. unfold percentile.
  assert (qm_sorted m' ≠ []) as Hne'. { intros En. rewrite En in Hp'. by apply Permutation_nil_l in Hp'. }
  destruct (qm_sorted m') as [|d0 ds] eqn:Es; [done|]. rewrite <- Es in *.
  assert (∃ d, qm_sorted m' !! Z.to_nat ((len (qm_sorted m') - 1) * p / 100) = Some d) as [d Hd].
  { apply lookup_lt_is_Some. unfold len. rewrite Es. cbn [length].
    assert ((Z.of_nat (S (length ds)) - 1) * p / 100 ≤ Z.of_nat (S (length ds)) - 1); [|lia].
    apply Z.div_le_upper_bound; nia. }
  exists d. rewrite Hd. split; [done|]. rewrite <- Hp'. by eapply list_elem_of_lookup_2.
Qed.

(** The average panics when the count of queries is a positive multiple of 2^32,
    because the divisor is cut to 32 bits; up to there it is the truncated mean. *)
Theorem average_latency_cast (m : QueryMetrics) :
  0 ≤ qm_query_count m →
  (0 < qm_query_count m < 2 ^ 32 → average_latency m = Ok (qm_total_latency m / qm_query_count m)) ∧
  (average_latency m = Panic ↔ 0 < qm_query_count m ∧ qm_query_count m mod 2 ^ 32 = 0).
Proof.
  intros Hc. unfold average_latency. split.
  - intros H. destruct (Z.eqb_spec (qm_query_count m) 0); [lia|]. rewrite Z.mod_small by lia.
    by destruct (Z.eqb_spec (qm_query_count m) 0).
  - destruct (Z.eqb_spec (qm_query_count m) 0); [split; [done|lia]|].
    destruct (Z.eqb_spec (qm_query_count m mod 2 ^ 32) 0); split; try done; lia.
Qed.

(** * The metrics of an engine *)

Record PoolMetrics := mkPoolMetrics {
  pl_pool_id : Z; pl_total_connections : Z; pl_active_connections : Z; pl_idle_connections : Z;
  pl_connection_requests : Z; pl_connection_errors : Z
}.

Definition pool_metrics_new (pool_id : Z) : PoolMetrics := mkPoolMetrics pool_id 0 0 0 0 0.

(** Each part has its mutex, [None] when it is poisoned.  The statement cache of the
    metrics is the one of the engine, which they share. *)
Record Metrics := mkMetrics {
  me_query : option QueryMetrics;
  me_pools : option (gmap Z PoolMetrics);
  me_errors : option Z;
  me_start : Z
}.

Definition engine_metrics_new (now : Z) : Metrics := mkMetrics (Some metrics_new) (Some ∅) (Some 0) now.

(** A panic inside poisons the mutex of the part. *)
Definition metrics_record_query (latency : Z) (m : Metrics) : outcome unit unit * Metrics :=
  match me_query m with
  | None => (Ok tt, m)
  | Some q =>
      match record_query latency q with
      | Ok q => (Ok tt, mkMetrics (Some q) (me_pools m) (me_errors m) (me_start m))
      | _ => (Panic, mkMetrics None (me_pools m) (me_errors m) (me_start m))
      end
  end.

Definition metrics_record_error (m : Metrics) : Metrics :=
  mkMetrics (me_query m) (me_pools m) (fetch_add1 <$> me_errors m) (me_start m).

Definition update_pool_metrics (pool_id : Z) (p : PoolMetrics) (m : Metrics) : Metrics :=
  mkMetrics (me_query m) (<[pool_id := p]> <$> me_pools m) (me_errors m) (me_start m).

Definition get_query_metrics (m : Metrics) : QueryMetrics := default metrics_new (me_query m).

Definition get_pool_metrics (pool_id : Z) (m : Metrics) : option PoolMetrics :=
  match me_pools m with Some pools => pools !! pool_id | None => None end.

Definition get_error_count (m : Metrics) : Z := default 0 (me_errors m).

(** [elapsed] is not negative. *)
Definition uptime (now : Z) (m : Metrics) : Z := Z.max 0 (now - me_start m).

Lemma latency_window_witness :
  ∃ m', record_query 3 (mkQueryMetrics 2 9 2 7 [7; 2] [2; 7]) = Ok m' ∧ samples_wf m' ∧ qm_samples m' = [7; 2; 3].
Proof.
  eexists. split; [reflexivity|].
  destruct (latency_window (mkQueryMetrics 2 9 2 7 [7; 2] [2; 7]) (mkQueryMetrics 3 12 2 7 [7; 2; 3] [2; 3; 7]) 3 50) as (H1 & H2 & _).
  - split; [vm_compute; discriminate|constructor|repeat constructor; lia].
  - reflexivity.
  - lia.
  - split; [exact H1|reflexivity].
Defined.

Lemma average_latency_cast_witness : average_latency (mkQueryMetrics (2 ^ 32) 9 2 7 [7; 2] [2; 7]) = Panic.
Proof. apply (average_latency_cast (mkQueryMetrics (2 ^ 32) 9 2 7 [7; 2] [2; 7])); [cbn; lia|]. split; [reflexivity|reflexivity]. Defined.
