(* ===== verification/Columnar.v ===== *)
(** The columnar result format, version 2 (protocol/columnar.rs, columnar_v2.rs,
    columnar_encoder.rs), the transposition of a row buffer (protocol/converter.rs),
    and the C entry points that decompress a column (ffi/columnar_decompress.rs). *)

From S2P Require Import Prelude Wire Errors RowCodec Compression.

(** * Data *)

Inductive ColumnData :=
| CdVarchar (data : list cell)
| CdInteger (data : list (option Z))
| CdBigInt (data : list (option Z))
| CdBinary (data : list cell).

Record ColumnBlock := mkBlock {
  cb_metadata : ColumnMetadata;
  cb_data : ColumnData;
  cb_compressed : bool;
  cb_compression_type : CompressionType
}.

Record RowBufferV2 := mkRowBufferV2 { v2_columns : list ColumnBlock; v2_row_count : Z; v2_flags : Z }.

Definition v2_new : RowBufferV2 := mkRowBufferV2 [] 0 0.

Definition v2_add_column (b : RowBufferV2) (m : ColumnMetadata) (d : ColumnData) : RowBufferV2 :=
  mkRowBufferV2 (v2_columns b ++ [mkBlock m d false CtNone]) (v2_row_count b) (v2_flags b).

Definition v2_set_row_count (b : RowBufferV2) (n : Z) : RowBufferV2 := mkRowBufferV2 (v2_columns b) n (v2_flags b).

Definition v2_column_count (b : RowBufferV2) : Z := len (v2_columns b).

(** * From rows to columns *)

(** [row.get(col_idx).and_then(|o| o.as_ref())], then [try_into] an array of [n]
    bytes: a cell of another length becomes a null. *)
Definition fixed_cell (n : nat) (w : Z) (col_idx : nat) (row : list cell) : option Z :=
  match row !! col_idx with
  | Some (Some bytes) => if Nat.eqb (length bytes) n then Some (to_signed w (le_val bytes)) else None
  | _ => None
  end.

Definition text_cell (col_idx : nat) (row : list cell) : cell :=
  match row !! col_idx with Some c => c | None => None end.

Definition column_of (b : RowBuffer) (col_idx : nat) (t : OdbcType) : ColumnData :=
  match t with
  | Integer => CdInteger (map (fixed_cell 4 32 col_idx) (rb_rows b))
  | BigInt => CdBigInt (map (fixed_cell 8 64 col_idx) (rb_rows b))
  | _ => CdVarchar (map (text_cell col_idx) (rb_rows b))
  end.

Definition row_buffer_to_columnar (b : RowBuffer) : RowBufferV2 :=
  let v2 := v2_set_row_count v2_new (row_count b) in
  if column_count b =? 0 then v2
  else foldl (λ v2 p, v2_add_column v2 p.2 (column_of b p.1 (col_type p.2))) v2 (imap pair (rb_columns b)).

(** * The encoder *)

Definition COLUMNAR_V2_MAGIC : Z := le_val (as_bytes "ODBC").
Definition COLUMNAR_V2_VERSION : Z := 2.
Definition VERSION_V2 : Z := 2.

Definition checked_u16 (value : Z) (field : string) : Result Z :=
  if value <=? 2 ^ 16 - 1 then Ok value
  else Err (ResourceLimitReached (field +:+ " " +:+ fmt_Z value +:+ " exceeds u16 wire limit")).

Definition checked_u32 (value : Z) (field : string) : Result Z :=
  if value <=? 2 ^ 32 - 1 then Ok value
  else Err (ResourceLimitReached (field +:+ " " +:+ fmt_Z value +:+ " exceeds u32 wire limit")).

Definition checked_size_add (current added : Z) (context : string) : Result Z :=
  ok_or (checked_add current added) (ResourceLimitReached ("Columnar payload size overflow while adding " +:+ context)).

Definition estimate_var_cell (size : Z) (c : cell) : Result Z :=
  let? size := checked_size_add size 1 "cell null flag" in
  match c with
  | Some bytes =>
      let? _ := checked_u32 (len bytes) "cell length" in
      let? size := checked_size_add size 4 "cell length" in
      checked_size_add size (len bytes) "cell payload"
  | None => Ok size
  end.

Definition estimate_fixed_cell (width : Z) (context : string) (size : Z) (c : option Z) : Result Z :=
  let? size := checked_size_add size 1 "cell null flag" in
  match c with Some _ => checked_size_add size width context | None => Ok size end.

Definition estimate_column_payload_size (cb : ColumnBlock) : Result Z :=
  match cb_data cb with
  | CdVarchar data | CdBinary data => ofold estimate_var_cell data 0
  | CdInteger data => ofold (estimate_fixed_cell 4 "integer cell") data 0
  | CdBigInt data => ofold (estimate_fixed_cell 8 "bigint cell") data 0
  end.

Definition estimate_encoded_size (b : RowBufferV2) : Result Z :=
  ofold (λ size cb,
    let? size := checked_size_add size 2 "column type" in
    let? size := checked_size_add size 2 "column name length" in
    let? size := checked_size_add size (len (as_bytes (col_name (cb_metadata cb)))) "column name" in
    let? size := checked_size_add size 1 "compression flag" in
    let? size := checked_size_add size 1 "compression algorithm" in
    let? size := checked_size_add size 4 "column payload length" in
    let? payload := estimate_column_payload_size cb in
    checked_size_add size payload "column payload") (v2_columns b) 19.

Definition encode_var_cell (field : string) (raw : list byte) (c : cell) : Result (list byte) :=
  match c with
  | Some bytes => let? n := checked_u32 (len bytes) field in Ok (raw ++ z2b 0 :: le_bytes 4 n ++ bytes)
  | None => Ok (raw ++ [z2b 1])
  end.

Definition encode_fixed_cell (n : nat) (raw : list byte) (c : option Z) : Result (list byte) :=
  match c with
  | Some v => Ok (raw ++ z2b 0 :: le_bytes n v)
  | None => Ok (raw ++ [z2b 1])
  end.

Definition encode_raw (d : ColumnData) : Result (list byte) :=
  match d with
  | CdVarchar data => ofold (encode_var_cell "varchar cell length") data []
  | CdInteger data => ofold (encode_fixed_cell 4) data []
  | CdBigInt data => ofold (encode_fixed_cell 8) data []
  | CdBinary data => ofold (encode_var_cell "binary cell length") data []
  end.

(** The allocations handed to the client, by address: their length and capacity;
    [None] when the mutex is poisoned. *)
Abbreviation Allocations := (option (gmap Z (Z * Z))).

Section Encoder.
Context (ops : CodecOps).

(** Compression is used when it pays off; its failure is not an error. *)
Definition choose_compression (use_compression : bool) (raw : list byte) : list byte * CompressionType :=
  if use_compression && (100 <? len raw) then
    match compress ops raw CtZstd with
    | Ok z => if len z <? len raw then (z, CtZstd) else (raw, CtNone)
    | _ => (raw, CtNone)
    end
  else (raw, CtNone).

Definition encode_column_block (use_compression : bool) (output : list byte) (cb : ColumnBlock) : Result (list byte) :=
  let name := as_bytes (col_name (cb_metadata cb)) in
  let output := output ++ le_bytes 2 (type_code (col_type (cb_metadata cb))) in
  let? name_len := checked_u16 (len name) "column name length" in
  let output := output ++ le_bytes 2 name_len ++ name in
  let? _ := estimate_column_payload_size cb in
  let? raw := encode_raw (cb_data cb) in
  let '(data, t) := choose_compression use_compression raw in
  let output := output ++ [z2b (if bool_decide (t ≠ CtNone) then 1 else 0)] in
  let output := if bool_decide (t ≠ CtNone) then output ++ [z2b (compression_u8 t)] else output in
  let? n := checked_u32 (len data) "column payload length" in
  Ok (output ++ le_bytes 4 n ++ data).

(** The payload size is patched into the header once the columns are written. *)
Definition encode_v2 (b : RowBufferV2) (use_compression : bool) : Result (list byte) :=
  let? _ := estimate_encoded_size b in
  let? cols := checked_u16 (v2_column_count b) "column count" in
  let? rows := checked_u32 (v2_row_count b) "row count" in
  let header := le_bytes 4 MAGIC ++ le_bytes 2 VERSION_V2 ++ le_bytes 2 (v2_flags b) ++ le_bytes 2 cols
                  ++ le_bytes 4 rows ++ [z2b (if use_compression then 1 else 0)] in
  let output := header ++ le_bytes 4 0 in
  let? output := ofold (encode_column_block use_compression) (v2_columns b) output in
  let? payload_size := checked_u32 (len output - len (header ++ le_bytes 4 0)) "payload size" in
  Ok (take (length header) output ++ le_bytes 4 payload_size ++ drop (length header + 4) output).

Definition encode_for_bulk (b : RowBuffer) : Result (list byte) := encode_v2 (row_buffer_to_columnar b) true.

(** * The C entry points *)

Definition MAX_COLUMNAR_DECOMPRESSED_LEN : Z := 256 * 1024 * 1024.

(** [odbc_columnar_decompress]; [place] is the allocator's answer, the address and the
    capacity of the shrunk vector. The result is the status with the buffer the
    client now owns. *)
Definition odbc_columnar_decompress (null_arg : bool) (algorithm : Z) (data : list byte) (place : Z * Z) (al : Allocations) :
    Z * option (Z * list byte) * Allocations :=
  if null_arg then (-1, None, al)
  else
    match compression_from_u8 algorithm with
    | CtNone => (-3, None, al)
    | ct =>
        match decompress_with_limit ops data ct MAX_COLUMNAR_DECOMPRESSED_LEN with
        | Ok v =>
            if (2 ^ 32 - 1 <? len v) || (2 ^ 32 - 1 <? place.2) then (-8, None, al)
            else match al with
                 | None => (-5, None, al)
                 | Some m => (0, Some (place.1, v), Some (<[place.1 := (len v, place.2)]> m))
                 end
        | Err _ => (-3, None, al)
        | Panic => (-4, None, al)
        end
    end.
End Encoder.

(** [odbc_columnar_decompress_free]: the vector given back to the allocator, if any,
    with the recorded sizes; those of the caller are ignored. *)
Definition odbc_columnar_decompress_free (p len cap : Z) (al : Allocations) : option (Z * (Z * Z)) * Allocations :=
  if p =? 0 then (None, al)
  else match al with
       | Some m => match m !! p with Some a => (Some (p, a), Some (delete p m)) | None => (None, al) end
       | None => (None, al)
       end.

(** * The reader of the format

    The reference the encoder is checked against: a message is taken apart from the
    front, and every byte must be accounted for. *)

Definition split_at (n : nat) (bs : list byte) : option (list byte * list byte) :=
  if Nat.leb n (length bs) then Some (take n bs, drop n bs) else None.

Definition uint (n : nat) (bs : list byte) : option (Z * list byte) :=
  match split_at n bs with Some (x, r) => Some (le_val x, r) | None => None end.

Fixpoint read_many {A : Type} (step : list byte → option (A * list byte)) (n : nat) (bs : list byte) :
    option (list A * list byte) :=
  match n with
  | O => Some ([], bs)
  | S n =>
      match step bs with
      | Some (x, bs) => match read_many step n bs with Some (xs, r) => Some (x :: xs, r) | None => None end
      | None => None
      end
  end.

(** A cell: the null flag, then the value. *)
Definition read_opt {A : Type} (value : list byte → option (A * list byte)) (bs : list byte) : option (option A * list byte) :=
  match uint 1 bs with
  | Some (0, bs) => match value bs with Some (x, r) => Some (Some x, r) | None => None end
  | Some (_, bs) => Some (None, bs)
  | None => None
  end.

Definition read_var (bs : list byte) : option (list byte * list byte) :=
  match uint 4 bs with Some (n, bs) => split_at (Z.to_nat n) bs | None => None end.

Definition read_fixed (n : nat) (w : Z) (bs : list byte) : option (Z * list byte) :=
  match uint n bs with Some (z, r) => Some (to_signed w z, r) | None => None end.

Definition read_data (t : OdbcType) (rows : nat) (bs : list byte) : option (ColumnData * list byte) :=
  match t with
  | Integer => match read_many (read_opt (read_fixed 4 32)) rows bs with Some (d, r) => Some (CdInteger d, r) | None => None end
  | BigInt => match read_many (read_opt (read_fixed 8 64)) rows bs with Some (d, r) => Some (CdBigInt d, r) | None => None end
  | _ => match read_many (read_opt read_var) rows bs with Some (d, r) => Some (CdVarchar d, r) | None => None end
  end.

Section Decoder.
Context (ops : CodecOps).

Definition read_block (rows : nat) (bs : list byte) : option (ColumnMetadata * ColumnData * list byte) :=
  match uint 2 bs with
  | Some (code, bs) =>
      match uint 2 bs with
      | Some (n, bs) =>
          match split_at (Z.to_nat n) bs with
          | Some (name, bs) =>
              match uint 1 bs with
              | Some (flag, bs) =>
                  match (if flag =? 0 then Some (0, bs) else uint 1 bs) with
                  | Some (alg, bs) =>
                      match read_var bs with
                      | Some (payload, bs) =>
                          match decompress_with_limit ops payload (compression_from_u8 alg) MAX_COLUMNAR_DECOMPRESSED_LEN with
                          | Ok raw =>
                              let t := from_protocol_discriminant code in
                              match read_data t rows raw with
                              | Some (d, []) => Some (mkColumn (string_of_list_byte name) t, d, bs)
                              | _ => None
                              end
                          | _ => None
                          end
                      | None => None
                      end
                  | None => None
                  end
              | None => None
              end
          | None => None
          end
      | None => None
      end
  | None => None
  end.

(** The columns of a message, and its row count. *)
Definition decode_v2 (bs : list byte) : option (Z * list (ColumnMetadata * ColumnData)) :=
  match uint 4 bs with
  | Some (magic, bs) =>
      match uint 2 bs with
      | Some (version, bs) =>
          match uint 2 bs with
          | Some (_, bs) =>
              match uint 2 bs with
              | Some (cols, bs) =>
                  match uint 4 bs with
                  | Some (rows, bs) =>
                      match uint 1 bs with
                      | Some (_, bs) =>
                          match uint 4 bs with
                          | Some (size, bs) =>
                              if (magic =? MAGIC) && (version =? VERSION_V2) && (size =? len bs) then
                                match read_many (read_block (Z.to_nat rows)) (Z.to_nat cols) bs with
                                | Some (blocks, []) => Some (rows, blocks)
                                | _ => None
                                end
                              else None
                          | None => None
                          end
                      | None => None
                      end
                  | None => None
                  end
              | None => None
              end
          | None => None
          end
      | None => None
      end
  | None => None
  end.
End Decoder.

(** ** The combinators on what was written *)

Lemma split_at_app x rest : split_at (length x) (x ++ rest) = Some (x, rest).
Proof.
  unfold split_at. rewrite length_app. destruct (Nat.leb_spec (length x) (length x + length rest)); [|lia].
  by rewrite take_app_length, drop_app_length.
Qed.

Lemma split_at_len x rest : split_at (Z.to_nat (len x)) (x ++ rest) = Some (x, rest).
Proof. unfold len. rewrite Nat2Z.id. apply split_at_app. Qed.

Lemma uint_le n z rest : 0 ≤ z < 2 ^ (8 * Z.of_nat n) → uint n (le_bytes n z ++ rest) = Some (z, rest).
Proof.
  intros Hz. unfold uint. rewrite <- (length_le_bytes n z) at 1. rewrite split_at_app. by rewrite le_val_unsigned.
Qed.

Lemma uint_1 z rest : 0 ≤ z < 256 → uint 1 (z2b z :: rest) = Some (z, rest).
Proof. intros Hz. apply (uint_le 1 z rest). by change (2 ^ _) with 256. Qed.

Lemma read_many_encode {A : Type} (step : list byte → option (A * list byte)) (enc : A → list byte) xs rest :
  Forall (λ x, ∀ rest, step (enc x ++ rest) = Some (x, rest)) xs →
  read_many step (length xs) (encode_list enc xs ++ rest) = Some (xs, rest).
Proof.
  intros H. revert rest. induction H as [|x xs Hx Hxs IH]; intros rest; [done|].
  rewrite encode_list_cons, <- app_assoc. cbn [read_many length]. by rewrite Hx, IH.
Qed.

Definition enc_opt {A : Type} (enc : A → list byte) (c : option A) : list byte :=
  match c with Some x => z2b 0 :: enc x | None => [z2b 1] end.

Lemma read_opt_enc {A : Type} (value : list byte → option (A * list byte)) enc c rest :
  (∀ x, c = Some x → value (enc x ++ rest) = Some (x, rest)) →
  read_opt value (enc_opt enc c ++ rest) = Some (c, rest).
Proof.
  intros H. unfold read_opt. destruct c as [x|].
  - cbn [enc_opt]. rewrite <- app_comm_cons, uint_1 by lia. by rewrite H.
  - cbn [enc_opt]. change ([z2b 1] ++ rest) with (z2b 1 :: rest). by rewrite uint_1 by lia.
Qed.

Lemma read_var_enc x rest : len x < 2 ^ 32 → read_var ((le_bytes 4 (len x) ++ x) ++ rest) = Some (x, rest).
Proof.
  intros Hl. pose proof (len_nonneg x). unfold read_var. rewrite <- app_assoc, uint_le by (change (2 ^ _) with (2 ^ 32); lia).
  apply split_at_len.
Qed.

Lemma read_i32_enc z rest : i32_range z → read_fixed 4 32 (le_bytes 4 z ++ rest) = Some (z, rest).
Proof.
  intros Hz. unfold read_fixed, uint. rewrite <- (length_le_bytes 4 z) at 1. rewrite split_at_app.
  by rewrite le_val_i32.
Qed.

Lemma read_i64_enc z rest : i64_range z → read_fixed 8 64 (le_bytes 8 z ++ rest) = Some (z, rest).
Proof.
  intros Hz. unfold read_fixed, uint. rewrite <- (length_le_bytes 8 z) at 1. rewrite split_at_app.
  by rewrite le_val_i64.
Qed.

(** ** What a column says *)

Definition opt_ok {A : Type} (P : A → Prop) (c : option A) : Prop := match c with Some x => P x | None => True end.

(** The data are of the kind of the type, within the range of the wire. *)
Definition data_wf (t : OdbcType) (d : ColumnData) : Prop :=
  match t, d with
  | Integer, CdInteger data => Forall (opt_ok i32_range) data
  | BigInt, CdBigInt data => Forall (opt_ok i64_range) data
  | (Integer | BigInt), _ => False
  | _, CdVarchar data => Forall cell_fits data
  | _, _ => False
  end.

Definition data_length (d : ColumnData) : nat :=
  match d with CdVarchar d | CdBinary d => length d | CdInteger d | CdBigInt d => length d end.

Definition enc_data (d : ColumnData) : list byte :=
  match d with
  | CdVarchar d | CdBinary d => encode_list (enc_opt (λ x, le_bytes 4 (len x) ++ x)) d
  | CdInteger d => encode_list (enc_opt (le_bytes 4)) d
  | CdBigInt d => encode_list (enc_opt (le_bytes 8)) d
  end.

Lemma read_data_enc t d rest :
  data_wf t d → read_data t (data_length d) (enc_data d ++ rest) = Some (d, rest).
Proof.
  intros Hwf.
  assert (∀ data : list cell, Forall cell_fits data →
    read_many (read_opt read_var) (length data) (encode_list (enc_opt (λ x, le_bytes 4 (len x) ++ x)) data ++ rest) = Some (data, rest)) as Hv.
  { intros data Hd. apply read_many_encode. eapply Forall_impl; [exact Hd|]. intros c Hc r.
    apply read_opt_enc. intros x ->. by apply read_var_enc. }
  assert (∀ (n : nat) (w : Z) (P : Z → Prop) data, (∀ z r, P z → read_fixed n w (le_bytes n z ++ r) = Some (z, r)) →
    Forall (opt_ok P) data →
    read_many (read_opt (read_fixed n w)) (length data) (encode_list (enc_opt (le_bytes n)) data ++ rest) = Some (data, rest)) as Hf.
  { intros n w P data HP Hd. apply read_many_encode. eapply Forall_impl; [exact Hd|]. intros c Hc r.
    apply read_opt_enc. intros x ->. by apply HP. }
  destruct t, d; cbn [data_wf] in Hwf; try done; cbn [read_data enc_data data_length].
  all: first [by rewrite Hv | by rewrite (Hf 4%nat 32 i32_range _ read_i32_enc) | by rewrite (Hf 8%nat 64 i64_range _ read_i64_enc)].
Qed.

Lemma encode_raw_enc t d : data_wf t d → encode_raw d = Ok (enc_data d).
Proof.
  assert (∀ f (data : list cell), Forall cell_fits data →
    ofold (encode_var_cell f) data [] = Ok (encode_list (enc_opt (λ x, le_bytes 4 (len x) ++ x)) data)) as Hv.
  { intros f data Hd. rewrite (ofold_emit _ (enc_opt (λ x, le_bytes 4 (len x) ++ x)) cell_fits); [done| |done].
    intros s [x|] Hx; [|done]. cbn in Hx |- *. unfold checked_u32. by destruct (Z.leb_spec (len x) (2 ^ 32 - 1)); [|lia]. }
  assert (∀ n data, ofold (encode_fixed_cell n) data [] = Ok (encode_list (enc_opt (le_bytes n)) data)) as Hf.
  { intros n data. rewrite (ofold_emit _ (enc_opt (le_bytes n)) (λ _, True)); [done| |by apply Forall_true].
    by intros s [x|] _. }
  destruct t, d; cbn [data_wf encode_raw enc_data]; intros Hwf; try done; by rewrite ?Hv, ?Hf.
Qed.

(** The sizes are estimated right when they fit a [usize]. *)
Lemma estimate_data t cb :
  data_wf t (cb_data cb) → len (enc_data (cb_data cb)) ≤ usize_max →
  estimate_column_payload_size cb = Ok (len (enc_data (cb_data cb))).
Proof.
  unfold estimate_column_payload_size.
  assert (∀ a b c, a + b ≤ usize_max → checked_size_add a b c = Ok (a + b)) as Hadd.
  { intros a b c H. unfold checked_size_add, checked_add. by destruct (Z.leb_spec (a + b) usize_max); [|lia]. }
  assert (∀ data : list cell, Forall cell_fits data →
    len (encode_list (enc_opt (λ x, le_bytes 4 (len x) ++ x)) data) ≤ usize_max →
    ofold estimate_var_cell data 0 = Ok (len (encode_list (enc_opt (λ x, le_bytes 4 (len x) ++ x)) data))) as Hv.
  { intros data Hd Hl. rewrite len_encode_list in Hl |- *.
    rewrite (ofold_add _ (λ c, len (enc_opt (λ x, le_bytes 4 (len x) ++ x) c)) cell_fits usize_max);
      [done|intros; apply len_nonneg| |done|lia|lia].
    intros s [x|] Hx Hs Hm; cbn [enc_opt] in Hm |- *; unfold estimate_var_cell; rewrite len_cons in *.
    - rewrite len_app, len_le_bytes in *. pose proof (len_nonneg x). rewrite Hadd by lia. cbn [obind].
      unfold checked_u32. destruct (Z.leb_spec (len x) (2 ^ 32 - 1)) as [_|Hx']; [|cbn in Hx; lia]. cbn [obind].
      rewrite Hadd by lia. cbn [obind]. rewrite Hadd by lia. f_equal. lia.
    - rewrite Hadd by (rewrite len_nil in *; lia). done. }
  assert (∀ n ctx (data : list (option Z)), len (encode_list (enc_opt (le_bytes n)) data) ≤ usize_max →
    ofold (estimate_fixed_cell (Z.of_nat n) ctx) data 0 = Ok (len (encode_list (enc_opt (le_bytes n)) data))) as Hf.
  { intros n ctx data Hl. rewrite len_encode_list in Hl |- *.
    rewrite (ofold_add _ (λ c, len (enc_opt (le_bytes n) c)) (λ _, True) usize_max);
      [done|intros; apply len_nonneg| |by apply Forall_true|lia|lia].
    intros s [x|] _ Hs Hm; cbn [enc_opt] in Hm |- *; unfold estimate_fixed_cell; rewrite len_cons in *.
    - rewrite len_le_bytes in *. rewrite Hadd by lia. cbn [obind]. rewrite Hadd by lia. f_equal. lia.
    - rewrite Hadd by (rewrite len_nil in *; lia). done. }
  destruct t, (cb_data cb) as [d|d|d|d]; cbn [data_wf enc_data]; intros Hwf Hl; try done;
    first [by apply Hv | by apply (Hf 4%nat) | by apply (Hf 8%nat)].
Qed.

(** ** A block and a message *)

(** What a block of [rows] cells must satisfy for its client to read it back: its raw
    data are within the limit of the decompressor. *)
Record block_wf (rows : nat) (cb : ColumnBlock) : Prop := {
  bw_name : column_fits (cb_metadata cb);
  bw_data : data_wf (col_type (cb_metadata cb)) (cb_data cb);
  bw_rows : data_length (cb_data cb) = rows;
  bw_size : len (enc_data (cb_data cb)) ≤ MAX_COLUMNAR_DECOMPRESSED_LEN
}.

Section Roundtrip.
Context (ops : CodecOps) `{!Codec ops}.

Definition enc_block (use_compression : bool) (cb : ColumnBlock) : list byte :=
  let name := as_bytes (col_name (cb_metadata cb)) in
  let '(data, t) := choose_compression ops use_compression (enc_data (cb_data cb)) in
  le_bytes 2 (type_code (col_type (cb_metadata cb))) ++ le_bytes 2 (len name) ++ name ++
  [z2b (if bool_decide (t ≠ CtNone) then 1 else 0)] ++
  (if bool_decide (t ≠ CtNone) then [z2b (compression_u8 t)] else []) ++ le_bytes 4 (len data) ++ data.

Lemma choose_spec use raw data t :
  choose_compression ops use raw = (data, t) →
  len data ≤ len raw ∧ (t = CtNone ∨ t = CtZstd) ∧ compress ops raw t = Ok data.
Proof.
  unfold choose_compression. intros H.
  assert (raw = data ∧ CtNone = t → len data ≤ len raw ∧ (t = CtNone ∨ t = CtZstd) ∧ compress ops raw t = Ok data) as Hnone.
  { intros [<- <-]. split; [lia|]. split; [by left|done]. }
  destruct (use && (100 <? len raw)); [|injection H; auto].
  destruct (compress ops raw CtZstd) as [z|e|] eqn:Ez; [|injection H; auto..].
  destruct (Z.ltb_spec (len z) (len raw)); [|injection H; auto]. injection H as <- <-. split; [lia|]. split; [by right|done].
Qed.

Lemma checked_u16_ok v f : v < 2 ^ 16 → checked_u16 v f = Ok v.
Proof. intros H. unfold checked_u16. by destruct (Z.leb_spec v (2 ^ 16 - 1)); [|lia]. Qed.

Lemma checked_u32_ok v f : v < 2 ^ 32 → checked_u32 v f = Ok v.
Proof. intros H. unfold checked_u32. by destruct (Z.leb_spec v (2 ^ 32 - 1)); [|lia]. Qed.

Lemma encode_block_spec rows use cb out :
  block_wf rows cb → encode_column_block ops use out cb = Ok (out ++ enc_block use cb).
Proof.
  intros [Hn Hd Hr Hs]. unfold encode_column_block, enc_block. unfold column_fits in Hn.
  rewrite checked_u16_ok by done. cbn [obind].
  rewrite (estimate_data (col_type (cb_metadata cb))) by (done || (unfold MAX_COLUMNAR_DECOMPRESSED_LEN, usize_max in *; lia)).
  cbn [obind]. rewrite (encode_raw_enc (col_type (cb_metadata cb))) by done. cbn [obind].
  destruct (choose_compression ops use (enc_data (cb_data cb))) as [data t] eqn:Hc.
  apply choose_spec in Hc as (Hl & Ht & _).
  rewrite checked_u32_ok by (unfold MAX_COLUMNAR_DECOMPRESSED_LEN in *; lia). cbn [obind].
  destruct Ht as [->| ->]; [rewrite bool_decide_eq_false_2 by tauto|rewrite bool_decide_eq_true_2 by done];
    by rewrite <- !app_assoc.
Qed.

Lemma read_block_enc rows use cb rest :
  block_wf rows cb →
  read_block ops rows (enc_block use cb ++ rest) = Some (cb_metadata cb, cb_data cb, rest).
Proof.
  intros [Hn Hd Hr Hs]. unfold enc_block. unfold column_fits in Hn.
  destruct (choose_compression ops use (enc_data (cb_data cb))) as [data t] eqn:Hc.
  apply choose_spec in Hc as (Hl & Ht & Hc).
  pose proof (decompress_compress_eq ops _ t _ MAX_COLUMNAR_DECOMPRESSED_LEN
    ltac:(unfold MAX_COLUMNAR_DECOMPRESSED_LEN, usize_max; lia) Hc Hs) as Hdec.
  pose proof (len_nonneg (as_bytes (col_name (cb_metadata cb)))) as Hnn.
  pose proof (len_nonneg data) as Hnd.
  unfold read_block. rewrite <- !app_assoc, uint_le by apply type_code_u16.
  rewrite uint_le by (change (2 ^ _) with (2 ^ 16); lia). rewrite split_at_len.
  assert (∀ r, read_var (le_bytes 4 (len data) ++ data ++ r) = Some (data, r)) as Hv.
  { intros r. rewrite app_assoc. apply read_var_enc. unfold MAX_COLUMNAR_DECOMPRESSED_LEN in Hs. lia. }
  assert (read_data (col_type (cb_metadata cb)) rows (enc_data (cb_data cb)) = Some (cb_data cb, [])) as Hrd.
  { rewrite <- (app_nil_r (enc_data (cb_data cb))), <- Hr. by apply read_data_enc. }
  assert (mkColumn (string_of_list_byte (as_bytes (col_name (cb_metadata cb)))) (col_type (cb_metadata cb)) = cb_metadata cb) as Hm.
  { unfold as_bytes. rewrite string_of_list_byte_of_string. by destruct (cb_metadata cb). }
  destruct Ht as [->| ->].
  - rewrite bool_decide_eq_false_2 by tauto. change ([z2b 0] ++ [] ++ ?r) with (z2b 0 :: r).
    rewrite uint_1 by lia. cbn [Z.eqb]. rewrite Hv. cbn [compression_from_u8].
    rewrite Hdec, from_protocol_type_code. by rewrite Hrd, Hm.
  - rewrite bool_decide_eq_true_2 by done. change ([z2b 1] ++ [z2b (compression_u8 CtZstd)] ++ ?r) with (z2b 1 :: z2b 1 :: r).
    rewrite uint_1 by lia. cbn [Z.eqb]. rewrite uint_1 by lia. rewrite Hv. cbn [compression_from_u8].
    rewrite Hdec, from_protocol_type_code. by rewrite Hrd, Hm.
Qed.

Definition enc_blocks (use : bool) (b : RowBufferV2) : list byte := encode_list (enc_block use) (v2_columns b).

(** What the header and the usize of the encoder allow. *)
Record v2_wf (use : bool) (b : RowBufferV2) : Prop := {
  vw_cols : v2_column_count b < 2 ^ 16;
  vw_rows : 0 ≤ v2_row_count b < 2 ^ 32;
  vw_blocks : Forall (block_wf (Z.to_nat (v2_row_count b))) (v2_columns b);
  vw_size : len (enc_blocks use b) < 2 ^ 32
}.

Definition enc_header_v2 (use : bool) (b : RowBufferV2) (size : Z) : list byte :=
  le_bytes 4 MAGIC ++ le_bytes 2 VERSION_V2 ++ le_bytes 2 (v2_flags b) ++ le_bytes 2 (v2_column_count b)
    ++ le_bytes 4 (v2_row_count b) ++ [z2b (if use then 1 else 0)] ++ le_bytes 4 size.

Lemma estimate_encoded_ok use b : v2_wf use b → is_ok (estimate_encoded_size b) = true.
Proof.
  intros [Hc Hr Hb Hs]. unfold estimate_encoded_size.
  assert (∀ cbs size, Forall (block_wf (Z.to_nat (v2_row_count b))) cbs → 0 ≤ size →
    size + Z.of_nat (length cbs) * (2 ^ 30) ≤ usize_max →
    is_ok (ofold (λ size cb,
      let? size := checked_size_add size 2 "column type" in
      let? size := checked_size_add size 2 "column name length" in
      let? size := checked_size_add size (len (as_bytes (col_name (cb_metadata cb)))) "column name" in
      let? size := checked_size_add size 1 "compression flag" in
      let? size := checked_size_add size 1 "compression algorithm" in
      let? size := checked_size_add size 4 "column payload length" in
      let? payload := estimate_column_payload_size cb in
      checked_size_add size payload "column payload") cbs size) = true) as Hgo.
  { assert (∀ a b c, a + b ≤ usize_max → checked_size_add a b c = Ok (a + b)) as Hadd.
    { intros a d c H. unfold checked_size_add, checked_add. by destruct (Z.leb_spec (a + d) usize_max); [|lia]. }
    intros cbs. induction cbs as [|cb cbs IH]; intros size Hcbs H0 Hm; [done|].
    apply Forall_cons_1 in Hcbs as [[Hn Hd Hrr Hsz] Hcbs]. unfold column_fits in Hn.
    pose proof (len_nonneg (as_bytes (col_name (cb_metadata cb)))). pose proof (len_nonneg (enc_data (cb_data cb))).
    unfold MAX_COLUMNAR_DECOMPRESSED_LEN in Hsz. cbn [length] in Hm. cbn [ofold].
    assert (0 ≤ Z.of_nat (length cbs) * 2 ^ 30) by lia.
    do 6 (rewrite Hadd by lia; cbn [obind]).
    rewrite (estimate_data (col_type (cb_metadata cb))) by (done || (unfold usize_max in *; lia)). cbn [obind].
    rewrite Hadd by lia. cbn [obind]. apply IH; [done|lia|]. lia. }
  apply Hgo; [done|lia|]. unfold v2_column_count, len in Hc. unfold usize_max. lia.
Qed.

Lemma encode_v2_spec use b :
  v2_wf use b → encode_v2 ops b use = Ok (enc_header_v2 use b (len (enc_blocks use b)) ++ enc_blocks use b).
Proof.
  intros Hwf. pose proof (estimate_encoded_ok use b Hwf) as He. destruct Hwf as [Hc Hr Hb Hs].
  unfold encode_v2. destruct (estimate_encoded_size b) as [size|e|]; try done. cbn [obind].
  rewrite checked_u16_ok by done. cbn [obind]. rewrite checked_u32_ok by lia. cbn [obind].
  set (header := le_bytes 4 MAGIC ++ _).
  rewrite (ofold_emit _ (enc_block use) (block_wf (Z.to_nat (v2_row_count b)))); [|intros; by eapply encode_block_spec|done].
  cbn [obind]. fold (enc_blocks use b).
  replace (len ((header ++ le_bytes 4 0) ++ enc_blocks use b) - len (header ++ le_bytes 4 0)) with (len (enc_blocks use b))
    by (rewrite (len_app (header ++ _)); lia).
  rewrite checked_u32_ok by done. cbn [obind]. rewrite <- (app_assoc header).
  rewrite take_app_length. replace (drop (length header + 4) (header ++ le_bytes 4 0 ++ enc_blocks use b)) with (enc_blocks use b).
  2: { rewrite <- drop_drop, drop_app_length. rewrite <- (length_le_bytes 4 0) at 1. by rewrite drop_app_length. }
  unfold enc_header_v2, header. by rewrite <- !app_assoc.
Qed.

Lemma decode_encode_v2 use b bytes :
  v2_wf use b → encode_v2 ops b use = Ok bytes →
  decode_v2 ops bytes = Some (v2_row_count b, map (λ cb, (cb_metadata cb, cb_data cb)) (v2_columns b)).
Proof.
  intros Hwf. rewrite encode_v2_spec by done. intros [= <-]. destruct Hwf as [Hc Hr Hb Hs].
  pose proof (len_nonneg (enc_blocks use b)) as Hl. pose proof (len_nonneg (v2_columns b)) as Hcc.
  unfold enc_header_v2, decode_v2. unfold v2_column_count in *. rewrite <- !app_assoc.
  rewrite uint_le by (unfold MAGIC; change (2 ^ _) with (2 ^ 32); lia).
  rewrite uint_le by (unfold VERSION_V2; change (2 ^ _) with (2 ^ 16); lia).
  assert (∀ r, uint 2 (le_bytes 2 (v2_flags b) ++ r) = Some (v2_flags b mod 2 ^ 16, r)) as ->.
  { intros r. unfold uint. rewrite <- (length_le_bytes 2 (v2_flags b)) at 1. by rewrite split_at_app, le_val_le_bytes. }
  rewrite uint_le by (change (2 ^ _) with (2 ^ 16); lia).
  rewrite uint_le by (change (2 ^ _) with (2 ^ 32); lia).
  change ([z2b (if use then 1 else 0)] ++ ?r) with (z2b (if use then 1 else 0) :: r).
  rewrite uint_1 by (destruct use; lia). rewrite uint_le by (change (2 ^ _) with (2 ^ 32); lia).
  rewrite !Z.eqb_refl. cbn [andb].
  assert (∀ cbs rest, Forall (block_wf (Z.to_nat (v2_row_count b))) cbs →
    read_many (read_block ops (Z.to_nat (v2_row_count b))) (length cbs) (encode_list (enc_block use) cbs ++ rest)
    = Some (map (λ cb, (cb_metadata cb, cb_data cb)) cbs, rest)) as Hgo.
  { intros cbs. induction cbs as [|cb cbs IH]; intros rest Hcbs; [done|]. apply Forall_cons_1 in Hcbs as [H1 H2].
    rewrite encode_list_cons, <- app_assoc. cbn [read_many length map]. rewrite (read_block_enc _ _ _ _ H1).
    by rewrite IH. }
  specialize (Hgo _ [] Hb). rewrite app_nil_r in Hgo. unfold len. rewrite Nat2Z.id. fold (enc_blocks use b) in Hgo.
  by rewrite Hgo.
Qed.
End Roundtrip.

(** * The transposition loses nothing of a well-typed buffer *)

(** A cell of a fixed-width column is null or has the width. *)
Definition cell_typed (t : OdbcType) (c : cell) : Prop :=
  match t, c with
  | Integer, Some bytes => length bytes = 4%nat
  | BigInt, Some bytes => length bytes = 8%nat
  | _, _ => True
  end.

(** Every row has a cell for every column, of its type. *)
Definition typed_buffer (b : RowBuffer) : Prop :=
  Forall (λ row, Forall2 (λ c m, cell_typed (col_type m) c) row (rb_columns b)) (rb_rows b).

(** The cell of a column at a row, as the row-major format has it. *)
Definition cell_at (d : ColumnData) (j : nat) : cell :=
  match d with
  | CdVarchar d | CdBinary d => default None (d !! j)
  | CdInteger d => le_bytes 4 <$> default None (d !! j)
  | CdBigInt d => le_bytes 8 <$> default None (d !! j)
  end.

Definition rows_of (n : nat) (cols : list ColumnData) : list (list cell) :=
  map (λ j, map (λ d, cell_at d j) cols) (seq 0 n).

Lemma columnar_columns b :
  v2_columns (row_buffer_to_columnar b) = imap (λ i m, mkBlock m (column_of b i (col_type m)) false CtNone) (rb_columns b) ∧
  v2_row_count (row_buffer_to_columnar b) = row_count b.
Proof.
  unfold row_buffer_to_columnar, column_count.
  destruct (Z.eqb_spec (len (rb_columns b)) 0) as [H0|_].
  { destruct (rb_columns b); [done|]. rewrite len_cons in H0. pose proof (len_nonneg l). lia. }
  assert (∀ ps v, foldl (λ v2 p, v2_add_column v2 p.2 (column_of b p.1 (col_type p.2))) v ps =
    mkRowBufferV2 (v2_columns v ++ map (λ p, mkBlock p.2 (column_of b p.1 (col_type p.2)) false CtNone) ps) (v2_row_count v) (v2_flags v)) as Hf.
  { intros ps. induction ps as [|p ps IH]; intros [c r f]; cbn [foldl map].
    - by rewrite app_nil_r.
    - rewrite IH. cbn. by rewrite <- app_assoc. }
  rewrite Hf. cbn [v2_columns v2_row_count v2_set_row_count v2_new app]. split; [|done].
  change (map ?f ?l) with (f <$> l). rewrite fmap_imap. apply imap_ext. done.
Qed.

Lemma signed_bytes n w bytes :
  length bytes = n → w = 8 * Z.of_nat n → (0 < n)%nat → le_bytes n (to_signed w (le_val bytes)) = bytes.
Proof.
  intros Hl Hw Hn. pose proof (le_val_range bytes) as Hr.
  assert (∀ m z, le_bytes m (z + 2 ^ (8 * Z.of_nat m)) = le_bytes m z) as Hper.
  { intros m. induction m as [|m IH]; intros z; [done|]. rewrite !le_bytes_S.
    replace (8 * Z.of_nat (S m)) with (8 + 8 * Z.of_nat m) by lia. rewrite Z.pow_add_r by lia. change (2 ^ 8) with 256.
    rewrite (Z.mul_comm 256), Z.div_add by lia. f_equal; [|apply IH].
    rewrite <- z2b_mod, Z.mod_add by lia. apply z2b_mod. }
  unfold to_signed. destruct (Z.ltb_spec (le_val bytes) (2 ^ (w - 1))).
  - rewrite <- Hl. apply le_bytes_le_val.
  - rewrite <- (Hper n). rewrite <- Hw. replace (le_val bytes - 2 ^ w + 2 ^ w) with (le_val bytes) by lia.
    rewrite <- Hl. apply le_bytes_le_val.
Qed.

Lemma cell_at_column b i m j row :
  rb_rows b !! j = Some row → rb_columns b !! i = Some m → typed_buffer b →
  row !! i = Some (cell_at (column_of b i (col_type m)) j).
Proof.
  intros Hrow Hm Ht. unfold typed_buffer in Ht. rewrite Forall_lookup in Ht. specialize (Ht j row Hrow).
  destruct (Forall2_lookup_r _ _ _ _ _ Ht Hm) as (c & Hc & Hty). rewrite Hc. f_equal.
  assert (∀ {A : Type} (f : list cell → A), map f (rb_rows b) !! j = Some (f row)) as Hmap.
  { intros A f. change (map f (rb_rows b)) with (f <$> rb_rows b). by rewrite list_lookup_fmap, Hrow. }
  unfold column_of. destruct (col_type m); cbn [cell_at]; rewrite Hmap; cbn [default from_option id];
    unfold fixed_cell, text_cell; rewrite Hc; try done; destruct c as [bytes|]; try done; cbn in Hty; rewrite Hty; cbn;
    f_equal; symmetry; by apply signed_bytes; [|lia|lia].
Qed.

Lemma rows_of_columns b :
  typed_buffer b → rows_of (length (rb_rows b)) (imap (λ i m, column_of b i (col_type m)) (rb_columns b)) = rb_rows b.
Proof.
  intros Ht. apply list_eq. intros j. unfold rows_of. change (map ?f (seq ?a ?n)) with (f <$> seq a n).
  rewrite list_lookup_fmap. destruct (decide (j < length (rb_rows b))%nat) as [Hj|Hj].
  2: { rewrite lookup_seq_ge by lia. symmetry. apply lookup_ge_None_2. lia. }
  rewrite lookup_seq_lt by done. cbn [fmap option_fmap option_map Nat.add].
  destruct (lookup_lt_is_Some_2 (rb_rows b) j Hj) as [row Hrow]. rewrite Hrow. f_equal.
  apply list_eq. intros i. change (map ?f ?l) with (f <$> l). rewrite list_lookup_fmap, list_lookup_imap.
  destruct (rb_columns b !! i) as [m|] eqn:Hm; cbn.
  - symmetry. by apply cell_at_column.
  - symmetry. apply lookup_ge_None_2. unfold typed_buffer in Ht. rewrite Forall_lookup in Ht.
    rewrite (Forall2_length _ _ _ (Ht j row Hrow)). by apply lookup_ge_None_1.
Qed.


(** A cell of an integer column that is not of the width of its type, as the cell
    reader leaves a value it cannot parse, is a null in the columnar format, where
    the row-major format keeps its bytes. *)
Theorem columnar_drops_odd_cells (b : RowBuffer) (i j : nat) (m : ColumnMetadata) (row : list cell) (bytes : list byte) :
  rb_rows b !! j = Some row → row !! i = Some (Some bytes) → rb_columns b !! i = Some m →
  (col_type m = Integer ∧ length bytes ≠ 4%nat) ∨ (col_type m = BigInt ∧ length bytes ≠ 8%nat) →
  cell_at (column_of b i (col_type m)) j = None.
Proof.
  intros Hrow Hc Hm Hw.
  assert (∀ {A : Type} (f : list cell → A), map f (rb_rows b) !! j = Some (f row)) as Hmap.
  { intros A f. change (map f (rb_rows b)) with (f <$> rb_rows b). by rewrite list_lookup_fmap, Hrow. }
  unfold column_of. destruct Hw as [[-> Hl]|[-> Hl]]; cbn [cell_at]; rewrite Hmap; cbn [default from_option id];
    unfold fixed_cell; rewrite Hc; apply Nat.eqb_neq in Hl; by rewrite Hl.
Qed.

(** ** Memory given to the client *)

(** A decompressed buffer is freed at most once, with the length and capacity it was
    allocated with whatever the caller passes, and an address that was not handed
    out, or was freed, is left alone. *)
Theorem decompress_free_once (m : gmap Z (Z * Z)) (p len cap len' cap' : Z) :
  let '(freed, al) := odbc_columnar_decompress_free p len cap (Some m) in
  (p ≠ 0 → freed = (λ a, (p, a)) <$> m !! p) ∧
  (p = 0 → freed = None ∧ al = Some m) ∧
  (∀ q, q ≠ p → al ≫= (λ m, m !! q) = m !! q) ∧
  (p ≠ 0 → (odbc_columnar_decompress_free p len' cap' al).1 = None).
Proof.
  unfold odbc_columnar_decompress_free. destruct (Z.eqb_spec p 0) as [->|Hp]; [done|].
  destruct (m !! p) as [a|] eqn:Hm; cbn.
  - split; [done|]. split; [done|]. split; [intros q Hq; by rewrite lookup_delete_ne|]. by rewrite lookup_delete_eq.
  - split; [done|]. split; [done|]. split; [done|]. by rewrite Hm.
Qed.

(** ** Witnesses *)

Definition sample_typed : RowBuffer :=
  mkRowBuffer [mkColumn "n" Integer; mkColumn "t" Varchar] [[Some [x2a; x00; x00; x00]; None]; [None; Some [x61]]].

Lemma sample_typed_ok : typed_buffer sample_typed ∧ v2_wf stored_ops true (row_buffer_to_columnar sample_typed).
Proof.
  split; [repeat constructor|]. split; [reflexivity|split; [discriminate|reflexivity]| |reflexivity].
  repeat constructor; vm_compute; discriminate || reflexivity || auto.
Defined.


Lemma columnar_drops_odd_cells_witness :
  cell_at (column_of (mkRowBuffer [mkColumn "n" Integer] [[Some (as_bytes "12.50")]]) 0 Integer) 0 = None.
Proof.
  apply (columnar_drops_odd_cells (mkRowBuffer [mkColumn "n" Integer] [[Some (as_bytes "12.50")]]) 0 0
    (mkColumn "n" Integer) [Some (as_bytes "12.50")] (as_bytes "12.50")); [reflexivity..|].
  left. split; [reflexivity|discriminate].
Defined.
