(* ===== verification/CellReader.v ===== *)
(** The cells of a fetched row (engine/cell_reader.rs) and the rows of a SQL Server
    FOR JSON result (engine/sqlserver_json.rs).

    The row belongs to the driver: [CursorRow] says what it answers for a column.
    Text arrives as UTF-16 code units, which the engine turns into UTF-8 itself. *)

From S2P Require Import Prelude Wire Errors RowCodec Text.

(** * UTF-16 to UTF-8 *)

(** A Unicode scalar value: a code point that is no surrogate. *)
Definition scalar (c : Z) : Prop := 0 ≤ c < 0xD800 ∨ 0xE000 ≤ c < 0x110000.

(** [char::encode_utf8] *)
Definition encode_utf8 (c : Z) : list byte :=
  if c <? 0x80 then [z2b c]
  else if c <? 0x800 then [z2b (0xC0 + c / 64); z2b (0x80 + c mod 64)]
  else if c <? 0x10000 then [z2b (0xE0 + c / 4096); z2b (0x80 + c / 64 mod 64); z2b (0x80 + c mod 64)]
  else [z2b (0xF0 + c / 262144); z2b (0x80 + c / 4096 mod 64); z2b (0x80 + c / 64 mod 64); z2b (0x80 + c mod 64)].

Definition is_surrogate (u : Z) : bool := (0xD800 <=? u) && (u <=? 0xDFFF).
Definition is_low_surrogate (u : Z) : bool := (0xDC00 <=? u) && (u <=? 0xDFFF).

(** [String::from_utf16_lossy], as code points: an unpaired surrogate becomes
    U+FFFD, and the unit after an unpaired high surrogate is read again. *)
Fixpoint from_utf16_lossy (units : list Z) : list Z :=
  match units with
  | [] => []
  | u :: rest =>
      if negb (is_surrogate u) then u :: from_utf16_lossy rest
      else if is_low_surrogate u then 0xFFFD :: from_utf16_lossy rest
      else match rest with
           | u2 :: rest2 =>
               if is_low_surrogate u2
               then 0x10000 + (u - 0xD800) * 1024 + (u2 - 0xDC00) :: from_utf16_lossy rest2
               else 0xFFFD :: from_utf16_lossy rest
           | [] => [0xFFFD]
           end
  end.

Definition wide_text_to_utf8_bytes (wide_buf : list Z) : list byte := encode_list encode_utf8 (from_utf16_lossy wide_buf).

(** * The reader *)

(** [get_wide_text] and [get_binary] of a row: given the buffer, whether the cell has
    a value, or an error already converted, and the buffer afterwards. *)
Record CursorRow := mkRow {
  get_wide_text : Z → list Z → Result bool * list Z;
  get_binary : Z → list byte → Result bool * list byte
}.

Record CellReader := mkReader { wide_buf : list Z; binary_buf : list byte }.

Definition reader_new : CellReader := mkReader [] [].

Definition read_wide_text (row : CursorRow) (column_number : Z) (r : CellReader) : Result (option (list Z)) * CellReader :=
  let '(res, buf) := get_wide_text row column_number [] in
  (omap_ok (λ has_value : bool, if has_value then Some buf else None) res, mkReader buf (binary_buf r)).

(** The buffer of a value is taken out of the reader. *)
Definition read_binary (row : CursorRow) (column_number : Z) (r : CellReader) : Result (option (list byte)) * CellReader :=
  let '(res, buf) := get_binary row column_number [] in
  match res with
  | Ok true => (Ok (Some buf), mkReader (wide_buf r) [])
  | Ok false => (Ok None, mkReader (wide_buf r) buf)
  | Err e => (Err e, mkReader (wide_buf r) buf)
  | Panic => (Panic, mkReader (wide_buf r) buf)
  end.

Definition read_text (row : CursorRow) (column_number : Z) (r : CellReader) : Result (option (list byte)) * CellReader :=
  let '(res, r) := read_wide_text row column_number r in
  (omap_ok (option_map wide_text_to_utf8_bytes) res, r).

(** The text of an integer cell: its little-endian bytes when it parses, and the
    text itself when it does not. *)
Definition integer_bytes (n : nat) (wide : list Z) : list byte :=
  let bytes := wide_text_to_utf8_bytes wide in
  let bound := 2 ^ (8 * Z.of_nat n - 1) in
  match parse_int (- bound) (bound - 1) (trim (string_of_bytes bytes)) with
  | Some value => le_bytes n value
  | None => bytes
  end.

Definition read_i32_as_le_bytes (row : CursorRow) (column_number : Z) (r : CellReader) : Result (option (list byte)) * CellReader :=
  let '(res, r) := read_wide_text row column_number r in
  (omap_ok (option_map (integer_bytes 4)) res, r).

Definition read_i64_as_le_bytes (row : CursorRow) (column_number : Z) (r : CellReader) : Result (option (list byte)) * CellReader :=
  let '(res, r) := read_wide_text row column_number r in
  (omap_ok (option_map (integer_bytes 8)) res, r).

Definition read_cell_bytes (row : CursorRow) (column_number : Z) (t : OdbcType) (r : CellReader) :
  Result (option (list byte)) * CellReader :=
  match t with
  | Binary => read_binary row column_number r
  | Integer => read_i32_as_le_bytes row column_number r
  | BigInt => read_i64_as_le_bytes row column_number r
  | _ => read_text row column_number r
  end.

(** [for (col_idx, &odbc_type) in types: cells.push(reader.read_cell_bytes(..)?)]:
    the columns are numbered from 1. *)
Fixpoint fetch_cells_from (col : Z) (row : CursorRow) (types : list OdbcType) (r : CellReader) :
  Result (list cell) * CellReader :=
  match types with
  | [] => (Ok [], r)
  | t :: types =>
      match read_cell_bytes row col t r with
      | (Ok c, r) => let '(res, r) := fetch_cells_from (col + 1) row types r in (omap_ok (cons c) res, r)
      | (Err e, r) => (Err e, r)
      | (Panic, r) => (Panic, r)
      end
  end.

Definition fetch_cells (row : CursorRow) (types : list OdbcType) (r : CellReader) : Result (list cell) * CellReader :=
  fetch_cells_from 1 row types r.

(** * FOR JSON results *)

Definition SQLSERVER_FOR_JSON_COLUMN_NAME : string := "JSON_F52E2B61-18A1-11D1-B105-00805F49916B".

Definition is_for_json_result (b : RowBuffer) : bool :=
  (column_count b =? 1)
  && match rb_columns b with c :: _ => eq_ignore_ascii_case (col_name c) SQLSERVER_FOR_JSON_COLUMN_NAME | [] => false end.

(** The loop over the rows: whether every chunk so far was null, and their bytes. *)
Definition join_chunk (s : bool * list byte) (row : list cell) : bool * list byte :=
  match row with
  | Some chunk :: _ => (false, s.2 ++ chunk)
  | _ => s
  end.

Definition coalesce_for_json_rows (b : RowBuffer) : RowBuffer :=
  if negb (is_for_json_result b) then b
  else match rb_rows b with
  | [] => b
  | rows =>
      let '(all_null, concatenated) := foldl join_chunk (true, []) rows in
      let merged_cell := if all_null then None else Some concatenated in
      let columns := match rb_columns b with c :: cs => mkColumn (col_name c) Json :: cs | [] => [] end in
      mkRowBuffer columns [[merged_cell]]
  end.

(** * Text *)

(** The code units of a scalar value. *)
Definition encode_utf16 (c : Z) : list Z :=
  if c <? 0x10000 then [c]
  else [0xD800 + (c - 0x10000) / 1024; 0xDC00 + (c - 0x10000) mod 1024].

Lemma is_low_spec u : is_low_surrogate u = true ↔ 0xDC00 ≤ u ≤ 0xDFFF.
Proof. unfold is_low_surrogate. rewrite andb_true_iff, !Z.leb_le. done. Qed.

Lemma is_surrogate_spec u : is_surrogate u = true ↔ 0xD800 ≤ u ≤ 0xDFFF.
Proof. unfold is_surrogate. rewrite andb_true_iff, !Z.leb_le. done. Qed.

Lemma not_surrogate u : ¬ 0xD800 ≤ u ≤ 0xDFFF → is_surrogate u = false.
Proof. intros H. destruct (is_surrogate u) eqn:E; [|done]. by apply is_surrogate_spec in E. Qed.

Lemma not_low u : ¬ 0xDC00 ≤ u ≤ 0xDFFF → is_low_surrogate u = false.
Proof. intros H. destruct (is_low_surrogate u) eqn:E; [|done]. by apply is_low_spec in E. Qed.

Lemma from_utf16_app c rest : scalar c → from_utf16_lossy (encode_utf16 c ++ rest) = c :: from_utf16_lossy rest.
Proof.
  intros Hc. unfold encode_utf16. destruct (Z.ltb_spec c 0x10000) as [H|H]; cbn [app from_utf16_lossy].
  - rewrite not_surrogate by (unfold scalar in Hc; lia). done.
  - pose proof (Z.div_mod (c - 0x10000) 1024 ltac:(lia)) as Hd.
    pose proof (Z.mod_pos_bound (c - 0x10000) 1024 ltac:(lia)).
    unfold scalar in Hc.
    rewrite (proj2 (is_surrogate_spec _)) by lia. cbn [negb].
    rewrite not_low by lia. rewrite (proj2 (is_low_spec _)) by lia. f_equal. lia.
Qed.

Lemma from_utf16_roundtrip cs : Forall scalar cs → from_utf16_lossy (encode_list encode_utf16 cs) = cs.
Proof.
  induction 1 as [|c cs Hc _ IH]; [done|]. rewrite encode_list_cons, from_utf16_app by done. by rewrite IH.
Qed.

(** Decoding gives scalar values whatever the units are. *)
Lemma from_utf16_scalar units : Forall u16_range units → Forall scalar (from_utf16_lossy units).
Proof.
  assert (scalar 0xFFFD) as Hr by (unfold scalar; lia).
  induction units as [units IH] using (induction_ltof1 _ (@length Z)); unfold ltof in IH. intros Hu.
  destruct units as [|u rest]; [constructor|]. cbn [from_utf16_lossy].
  apply Forall_cons in Hu as [Hu Hrest]. unfold u16_range in Hu.
  destruct (is_surrogate u) eqn:Es; cbn [negb].
  2: { constructor; [|apply IH; [cbn; lia|done]]. unfold scalar.
       destruct (Z.le_gt_cases 0xD800 u); [|lia]. destruct (Z.le_gt_cases u 0xDFFF); [|lia].
       rewrite (proj2 (is_surrogate_spec u)) in Es by lia. done. }
  apply is_surrogate_spec in Es.
  destruct (is_low_surrogate u) eqn:El; [constructor; [done|apply IH; [cbn; lia|done]]|].
  assert (u < 0xDC00) as Hh.
  { destruct (Z.lt_ge_cases u 0xDC00); [done|]. rewrite (proj2 (is_low_spec u)) in El by lia. done. }
  destruct rest as [|u2 rest2]; [by repeat constructor|].
  destruct (is_low_surrogate u2) eqn:E2.
  - apply is_low_spec in E2. apply Forall_cons in Hrest as [_ Hrest2].
    constructor; [unfold scalar; lia|]. apply IH; [cbn; lia|done].
  - constructor; [done|]. apply IH; [cbn; lia|done].
Qed.

Lemma in_range_z2b lo hi z : 0 ≤ z < 256 → in_range lo hi (z2b z) = ((lo <=? z) && (z <=? hi)).
Proof. intros H. unfold in_range. by rewrite b2z_z2b, Z.mod_small by done. Qed.

Lemma in_range_z2b_true lo hi z : 0 ≤ z < 256 → lo ≤ z ≤ hi → in_range lo hi (z2b z) = true.
Proof. intros H1 H2. rewrite in_range_z2b by done. apply andb_true_iff. rewrite !Z.leb_le. lia. Qed.

Lemma in_range_z2b_false lo hi z : 0 ≤ z < 256 → z < lo ∨ hi < z → in_range lo hi (z2b z) = false.
Proof. intros H1 H2. rewrite in_range_z2b by done. destruct (Z.leb_spec lo z), (Z.leb_spec z hi); (done || lia). Qed.

Lemma cont_mod z : is_cont (z2b (0x80 + z mod 64)) = true.
Proof.
  pose proof (Z.mod_pos_bound z 64 ltac:(lia)).
  change (in_range 0x80 0xBF (z2b (0x80 + z mod 64)) = true). apply in_range_z2b_true; lia.
Qed.

Ltac range_tac :=
  repeat first
    [ rewrite in_range_z2b_true by lia
    | rewrite in_range_z2b_false by lia
    | rewrite cont_mod
    | match goal with |- context [ b2z (z2b ?z) ] => rewrite (b2z_z2b z), (Z.mod_small z 256) by lia end
    | match goal with |- context [ ?a <? ?b ] => destruct (Z.ltb_spec a b); try lia end
    | match goal with |- context [ ?a =? ?b ] => destruct (Z.eqb_spec a b); try lia end ].

Lemma utf8_valid_app c rest : scalar c → utf8_valid (encode_utf8 c ++ rest) = utf8_valid rest.
Proof.
  intros Hc. unfold encode_utf8, scalar in *.
  pose proof (Z.div_mod c 64 ltac:(lia)). pose proof (Z.mod_pos_bound c 64 ltac:(lia)).
  pose proof (Z.div_mod (c / 64) 64 ltac:(lia)) as Hq1. pose proof (Z.mod_pos_bound (c / 64) 64 ltac:(lia)).
  rewrite Z.div_div in Hq1 by lia. change (64 * 64) with 4096 in Hq1.
  pose proof (Z.div_mod (c / 4096) 64 ltac:(lia)) as Hq2. pose proof (Z.mod_pos_bound (c / 4096) 64 ltac:(lia)).
  rewrite Z.div_div in Hq2 by lia. change (4096 * 64) with 262144 in Hq2.
  destruct (Z.ltb_spec c 0x80); [|destruct (Z.ltb_spec c 0x800); [|destruct (Z.ltb_spec c 0x10000)]];
    cbn [app utf8_valid]; range_tac; cbn [andb]; try done.
Qed.

Lemma utf8_valid_encode cs : Forall scalar cs → utf8_valid (encode_list encode_utf8 cs) = true.
Proof. induction 1 as [|c cs Hc _ IH]; [done|]. by rewrite encode_list_cons, utf8_valid_app. Qed.

(** Text cells are valid UTF-8 whatever code units the driver delivers, with a
    surrogate that has no partner replaced by U+FFFD, and a text of Unicode
    characters is delivered as exactly the UTF-8 encoding of these characters. *)
Theorem text_cell_utf8 (row : CursorRow) (col : Z) (r : CellReader) (units : list Z) (t : OdbcType) :
  get_wide_text row col [] = (Ok true, units) → Forall u16_range units → t ≠ Binary → t ≠ Integer → t ≠ BigInt →
  ∃ bytes, (read_cell_bytes row col t r).1 = Ok (Some bytes) ∧ utf8_valid bytes = true ∧
    ∀ cs, Forall scalar cs → units = encode_list encode_utf16 cs → bytes = encode_list encode_utf8 cs.
Proof.
  intros Hrow Hu H1 H2 H3. exists (wide_text_to_utf8_bytes units).
  assert ((read_cell_bytes row col t r).1 = (read_text row col r).1) as ->.
  { by destruct t. }
  unfold read_text, read_wide_text. rewrite Hrow. cbn. split; [done|]. split.
  - by apply utf8_valid_encode, from_utf16_scalar.
  - intros cs Hcs ->. unfold wide_text_to_utf8_bytes. by rewrite from_utf16_roundtrip.
Qed.

(** * Integers *)

(** The code units of an ASCII text. *)
Definition ascii_units (s : string) : list Z := map b2z (as_bytes s).

Definition ascii_text (s : string) : Prop := Forall (λ b, b2z b < 128) (as_bytes s).

Lemma wide_ascii s : ascii_text s → wide_text_to_utf8_bytes (ascii_units s) = as_bytes s.
Proof.
  unfold ascii_text, ascii_units, wide_text_to_utf8_bytes. induction 1 as [|b bs Hb _ IH]; [done|].
  cbn [map from_utf16_lossy]. pose proof (b2z_range b). rewrite not_surrogate by lia. cbn [negb].
  rewrite encode_list_cons, IH. unfold encode_utf8. destruct (Z.ltb_spec (b2z b) 0x80); [|lia].
  by rewrite z2b_b2z.
Qed.

(** A byte that is no white space and no part of a longer character. *)
Definition solid (b : byte) : Prop := 32 < b2z b < 128.

Lemma ws_len_solid b bs : solid b → ws_len (b :: bs) = 0%nat.
Proof.
  unfold solid, ws_len. intros Hb. cbn [map].
  destruct (Z.eqb_spec (b2z b) 32), (Z.leb_spec 9 (b2z b)), (Z.leb_spec (b2z b) 13); try lia; cbn [orb andb].
  all: destruct bs as [|c bs]; cbn [map]; [done|].
  all: assert (∀ k, 128 ≤ k → (b2z b =? k) = false) as Hk by (intros k Hk; apply Z.eqb_neq; lia).
  all: rewrite !Hk by lia; cbn [andb].
  all: by destruct (map b2z bs).
Qed.

Lemma trim_start_solid fuel b bs : solid b → trim_start_bytes fuel (b :: bs) = b :: bs.
Proof. intros Hb. destruct fuel as [|fuel]; [done|]. cbn [trim_start_bytes]. by rewrite ws_len_solid. Qed.

Lemma trim_start_blanks fuel n b bs :
  (n ≤ fuel)%nat → solid b → trim_start_bytes fuel (replicate n x20 ++ b :: bs) = b :: bs.
Proof.
  revert fuel. induction n as [|n IH]; intros fuel Hn Hb; [by apply trim_start_solid|].
  destruct fuel as [|fuel]; [lia|]. cbn [replicate app trim_start_bytes].
  change (ws_len (x20 :: replicate n x20 ++ b :: bs)) with 1%nat. cbn [drop]. apply IH; [lia|done].
Qed.

(** White space at the end would have to end in a byte that is not solid. *)
Lemma ws_last_solid bs b n : solid b → (0 < n)%nat → (n ≤ length (bs ++ [b]))%nat →
  ws_len (drop (length (bs ++ [b]) - n) (bs ++ [b])) ≠ n.
Proof.
  intros Hb Hn Hle. rewrite length_app in *. cbn [length] in *. rewrite drop_app_le by lia.
  assert (length (drop (length bs + 1 - n) bs) = n - 1)%nat as Hd by (rewrite length_drop; lia).
  set (d := drop _ bs) in *. clearbody d.
  destruct d as [|a [|c [|e d]]]; cbn [app length] in *.
  - rewrite ws_len_solid by done. lia.
  - unfold solid in Hb. unfold ws_len. cbn [map]. case_if; [lia|].
    case_if; [|lia]. bool_to_prop. apply orb_prop in H0 as [?|?]; bool_to_prop; lia.
  - unfold solid in Hb. unfold ws_len. cbn [map]. repeat case_if; try lia; bool_to_prop;
      repeat match goal with H : (_ || _)%bool = true |- _ => apply orb_prop in H as [H|H]; bool_to_prop end; lia.
  - unfold ws_len. cbn [map]. repeat case_if; lia.
Qed.

Lemma trim_end_solid fuel bs b : solid b → trim_end_bytes fuel (bs ++ [b]) = bs ++ [b].
Proof.
  intros Hb. destruct fuel as [|fuel]; [done|]. cbn [trim_end_bytes]. cbv zeta.
  assert (∀ n, (0 < n ≤ 3)%nat → Nat.eqb (ws_len (drop (length (bs ++ [b]) - n) (bs ++ [b]))) n = false) as H.
  { intros n Hn. apply Nat.eqb_neq. destruct (Nat.le_gt_cases n (length (bs ++ [b]))) as [Hle|Hgt].
    - apply ws_last_solid; (done || lia).
    - replace (length (bs ++ [b]) - n)%nat with 0%nat by lia. rewrite drop_0.
      intros E. assert (length (bs ++ [b]) < 3)%nat as Hl by lia. rewrite length_app in Hl, Hgt. cbn [length] in Hl, Hgt.
      destruct bs as [|a [|c bs]]; cbn in Hl; [cbn [app] in E; rewrite ws_len_solid in E by done; lia| |lia].
      cbn [app length] in *. assert (n = 3%nat) as -> by lia. revert E. unfold ws_len. cbn [map]. repeat case_if; lia. }
  by rewrite (H 1%nat), (H 2%nat), (H 3%nat) by lia.
Qed.

Lemma trim_end_blanks fuel n bs b :
  (n ≤ fuel)%nat → solid b → trim_end_bytes fuel ((bs ++ [b]) ++ replicate n x20) = bs ++ [b].
Proof.
  revert fuel. induction n as [|n IH]; intros fuel Hn Hb.
  - rewrite app_nil_r. by apply trim_end_solid.
  - destruct fuel as [|fuel]; [lia|]. cbn [trim_end_bytes]. cbv zeta.
    rewrite replicate_S_end, app_assoc. set (l := (bs ++ [b]) ++ replicate n x20).
    rewrite length_app. cbn [length]. replace (length l + 1 - 1)%nat with (length l) by lia.
    rewrite drop_app_length, take_app_length. change (ws_len [x20]) with 1%nat. cbn [Nat.eqb].
    apply IH; [lia|done].
Qed.

(** The text of an integer starts and ends with a solid character. *)
Lemma string_of_uint_solid d : Forall solid (as_bytes (DecimalString.NilEmpty.string_of_uint d)).
Proof. induction d; cbn; [constructor|..]; (constructor; [unfold solid; cbn; lia|done]). Qed.

Lemma fmt_Z_solid v : Forall solid (as_bytes (fmt_Z v)).
Proof.
  unfold fmt_Z, DecimalString.NilEmpty.string_of_int. destruct (Z.to_int v); [apply string_of_uint_solid|].
  cbn. constructor; [unfold solid; cbn; lia|apply string_of_uint_solid].
Qed.

Lemma fmt_Z_nonempty v : as_bytes (fmt_Z v) ≠ [].
Proof.
  pose proof (to_int_nonnil v). unfold fmt_Z, DecimalString.NilEmpty.string_of_int.
  destruct (Z.to_int v) as [d|d]; [by destruct d|done].
Qed.

Definition blanks (n : nat) : string := string_of_bytes (replicate n x20).

Lemma as_bytes_of bs : as_bytes (string_of_bytes bs) = bs.
Proof. unfold as_bytes, string_of_bytes. apply list_byte_of_string_of_list_byte. Qed.

Lemma of_as_bytes s : string_of_bytes (as_bytes s) = s.
Proof. unfold as_bytes, string_of_bytes. apply string_of_list_byte_of_string. Qed.

Lemma trim_padded a b v : trim (blanks a +:+ fmt_Z v +:+ blanks b) = fmt_Z v.
Proof.
  unfold trim, trim_start, trim_end, blanks. rewrite !as_bytes_app, !as_bytes_of.
  pose proof (fmt_Z_solid v) as Hs. pose proof (fmt_Z_nonempty v) as Hne.
  destruct (as_bytes (fmt_Z v)) as [|c cs] eqn:E; [done|]. clear Hne.
  assert (solid c) as Hc by (by apply Forall_cons in Hs as [? _]).
  cbn [app]. rewrite trim_start_blanks by (try done; rewrite length_app, length_replicate; lia).
  destruct (exists_last (l := c :: cs) ltac:(done)) as (l & x & Hl).
  change (c :: cs ++ replicate b x20) with ((c :: cs) ++ replicate b x20). rewrite Hl.
  assert (solid x) as Hx by (rewrite Hl in Hs; apply Forall_app in Hs as [_ ?]; by apply Forall_cons in H as [? _]).
  rewrite trim_end_blanks by (try done; rewrite length_app, length_replicate; lia).
  rewrite <- Hl, <- E. apply of_as_bytes.
Qed.

Lemma padded_ascii a b v : ascii_text (blanks a +:+ fmt_Z v +:+ blanks b).
Proof.
  unfold ascii_text, blanks. rewrite !as_bytes_app, !as_bytes_of. rewrite !Forall_app. split; [|split].
  1, 3: apply Forall_replicate; cbn; lia.
  eapply Forall_impl; [apply fmt_Z_solid|]. unfold solid. intros; lia.
Qed.

Lemma integer_bytes_ascii n s : ascii_text s →
  integer_bytes n (ascii_units s) =
  match parse_int (- 2 ^ (8 * Z.of_nat n - 1)) (2 ^ (8 * Z.of_nat n - 1) - 1) (trim s) with
  | Some v => le_bytes n v
  | None => as_bytes s
  end.
Proof. intros Hs. unfold integer_bytes. rewrite wide_ascii by done. by rewrite of_as_bytes. Qed.

Lemma read_integer_cell row col r (t : OdbcType) (n : nat) units :
  (t, n) ∈ [(Integer, 4%nat); (BigInt, 8%nat)] → get_wide_text row col [] = (Ok true, units) →
  (read_cell_bytes row col t r).1 = Ok (Some (integer_bytes n units)).
Proof.
  intros Ht Hrow. apply list_elem_of_In in Ht. cbn in Ht.
  destruct Ht as [[= <- <-]|[[= <- <-]|[]]]; cbn [read_cell_bytes];
    unfold read_i32_as_le_bytes, read_i64_as_le_bytes, read_wide_text; by rewrite Hrow.
Qed.

(** An integer column is delivered as the little-endian bytes of the number the
    driver wrote, blanks around it allowed, as long as it fits the width of the
    column type; a number too large for it is delivered as its text. *)
Theorem integer_cell_spec (row : CursorRow) (col : Z) (r : CellReader) (v : Z) (a b : nat) :
  get_wide_text row col [] = (Ok true, ascii_units (blanks a +:+ fmt_Z v +:+ blanks b)) →
  (i32_range v → ∃ bytes, (read_cell_bytes row col Integer r).1 = Ok (Some bytes) ∧
     length bytes = 4%nat ∧ to_signed 32 (le_val bytes) = v) ∧
  (i64_range v → ∃ bytes, (read_cell_bytes row col BigInt r).1 = Ok (Some bytes) ∧
     length bytes = 8%nat ∧ to_signed 64 (le_val bytes) = v) ∧
  (¬ i32_range v → (read_cell_bytes row col Integer r).1
     = Ok (Some (as_bytes (blanks a +:+ fmt_Z v +:+ blanks b)))).
Proof.
  intros Hrow.
  rewrite (read_integer_cell row col r Integer 4 _ ltac:(set_solver) Hrow), (read_integer_cell row col r BigInt 8 _ ltac:(set_solver) Hrow).
  rewrite !integer_bytes_ascii, trim_padded by apply padded_ascii.
  change (8 * Z.of_nat 4 - 1) with 31. change (8 * Z.of_nat 8 - 1) with 63.
  split; [|split]; intros Hv.
  - rewrite parse_int_fmt by (unfold i32_range in Hv; lia). eexists. split; [done|].
    split; [by rewrite length_le_bytes|]. by apply le_val_i32.
  - rewrite parse_int_fmt by (unfold i64_range in Hv; lia). eexists. split; [done|].
    split; [by rewrite length_le_bytes|]. by apply le_val_i64.
  - rewrite parse_int_fmt_out by (unfold i32_range in Hv; lia). done.
Qed.

(** A text of four bytes that is no number, in an integer column, is delivered as
    some number: no reader of the message can tell it from a row that holds it. *)
Theorem integer_fallback_ambiguous (text : string) :
  ascii_text text → String.length text = 4%nat → parse_i32 (trim text) = None →
  ∃ v, i32_range v ∧ integer_bytes 4 (ascii_units text) = integer_bytes 4 (ascii_units (fmt_Z v)).
Proof.
  intros Ht Hl Hp. rewrite <- length_as_bytes in Hl.
  pose proof (le_val_range (as_bytes text)) as Hr. unfold len in Hr. rewrite Hl in Hr. change (8 * Z.of_nat 4) with 32 in Hr.
  exists (to_signed 32 (le_val (as_bytes text))).
  assert (i32_range (to_signed 32 (le_val (as_bytes text)))) as Hi.
  { apply (to_signed_range 32); lia. }
  split; [done|]. rewrite integer_bytes_ascii by done.
  change (- 2 ^ (8 * Z.of_nat 4 - 1)) with (- 2 ^ 31). change (2 ^ (8 * Z.of_nat 4 - 1) - 1) with (2 ^ 31 - 1).
  unfold parse_i32 in Hp. rewrite Hp.
  pose proof (integer_bytes_ascii 4 (blanks 0 +:+ fmt_Z (to_signed 32 (le_val (as_bytes text))) +:+ blanks 0) (padded_ascii 0 0 _)) as E.
  rewrite trim_padded in E. change (blanks 0) with EmptyString in E.
  rewrite string_app_nil_l, string_app_nil_r in E. rewrite E. clear E.
  change (- 2 ^ (8 * Z.of_nat 4 - 1)) with (- 2 ^ 31). change (2 ^ (8 * Z.of_nat 4 - 1) - 1) with (2 ^ 31 - 1).
  rewrite parse_int_fmt by (unfold i32_range in Hi; lia).
  rewrite <- (le_bytes_le_val (as_bytes text)) at 1. rewrite Hl.
  transitivity (le_bytes 4 (le_val (le_bytes 4 (to_signed 32 (le_val (as_bytes text)))))).
  - f_equal. rewrite le_val_le_bytes. change (8 * Z.of_nat 4) with 32. unfold to_signed. case_if.
    + rewrite Z.mod_small; lia.
    + rewrite <- (Z.mod_unique_pos (le_val (as_bytes text) - 2 ^ 32) (2 ^ 32) (-1) (le_val (as_bytes text))); lia.
  - rewrite <- (length_le_bytes 4 (to_signed 32 (le_val (as_bytes text)))) at 1. apply le_bytes_le_val.
Qed.

(** * FOR JSON results: the payload *)

(** The bytes of the chunks of a one-column result, nulls skipped. *)
Definition chunks (rows : list (list cell)) : list (list byte) :=
  omap (λ row, match row with c :: _ => c | [] => None end) rows.

Lemma foldl_chunks rows s : foldl join_chunk s rows = (s.1 && Nat.eqb (length (chunks rows)) 0, s.2 ++ concat (chunks rows)).
Proof.
  revert s. induction rows as [|row rows IH]; intros [n bs]; cbn [foldl].
  - cbn. by rewrite andb_true_r, app_nil_r.
  - rewrite IH. unfold chunks. destruct row as [|[c|] row]; cbn; [done| |done].
    by rewrite andb_false_r, app_assoc.
Qed.

Lemma coalesce_other b : is_for_json_result b = false ∨ rb_rows b = [] → coalesce_for_json_rows b = b.
Proof. unfold coalesce_for_json_rows. intros [->| ->]; cbn; [done|]. by case_if. Qed.

Lemma coalesce_json b : is_for_json_result b = true → rb_rows b ≠ [] →
  ∃ name t, rb_columns b = [mkColumn name t] ∧ is_for_json_result (coalesce_for_json_rows b) = true ∧
    coalesce_for_json_rows b = mkRowBuffer [mkColumn name Json]
      [[if Nat.eqb (length (chunks (rb_rows b))) 0 then None else Some (concat (chunks (rb_rows b)))]].
Proof.
  intros Hj Hr. pose proof Hj as Hj'. unfold is_for_json_result, column_count in Hj'.
  destruct (rb_columns b) as [|[name t] [|c2 cs]] eqn:Hc; cbn in Hj'; [done| |].
  2: { rewrite !len_cons in Hj'. pose proof (len_nonneg cs). destruct (Z.eqb_spec (1 + (1 + len cs)) 1); [lia|done]. }
  exists name, t. split; [done|]. unfold coalesce_for_json_rows. rewrite Hj, Hc. cbn [negb].
  destruct (rb_rows b) as [|row rows]; [done|]. rewrite foldl_chunks. cbn [fst snd andb app]. split; [|done].
  by apply andb_prop in Hj' as [_ Hj'].
Qed.

(** A FOR JSON result comes out as one row with one JSON cell that holds the chunks
    put together in order, null only when every chunk is; every other result, and a
    result without rows, is left as it is; doing it twice changes nothing. *)
Theorem coalesce_spec (b : RowBuffer) :
  let b' := coalesce_for_json_rows b in
  coalesce_for_json_rows b' = b' ∧
  (is_for_json_result b = false ∨ rb_rows b = [] → b' = b) ∧
  (is_for_json_result b = true → rb_rows b ≠ [] →
     map col_name (rb_columns b') = map col_name (rb_columns b) ∧ map col_type (rb_columns b') = [Json] ∧
     ∃ c, rb_rows b' = [[c]] ∧ (c = None ↔ chunks (rb_rows b) = []) ∧
          default [] c = concat (chunks (rb_rows b))).
Proof.
  cbv zeta. split; [|split; [apply coalesce_other|]].
  - destruct (is_for_json_result b) eqn:Hj; [|by rewrite !(coalesce_other b) by auto].
    destruct (decide (rb_rows b = [])) as [Hr|Hr]; [by rewrite !(coalesce_other b) by auto|].
    destruct (coalesce_json b Hj Hr) as (name & t & _ & Hj2 & E).
    destruct (coalesce_json _ Hj2) as (name' & t' & Hc & _ & E2); [by rewrite E|].
    rewrite E2. clear E2. rewrite E in Hc |- *. injection Hc as <- _. destruct (chunks (rb_rows b)); cbn; by rewrite ?app_nil_r.
  - intros Hj Hr. destruct (coalesce_json b Hj Hr) as (name & t & Hc & _ & E). rewrite E, Hc. cbn.
    split; [done|]. split; [done|]. eexists. split; [done|]. by destruct (chunks (rb_rows b)).
Qed.

(** * Witnesses *)

Definition row_of (units : list Z) : CursorRow := mkRow (λ _ _, (Ok true, units)) (λ _ _, (Ok false, [])).

Lemma text_cell_utf8_witness :
  ∃ bytes, (read_cell_bytes (row_of [0x41; 0xD83D; 0xDE00; 0xD800]) 1 NVarchar reader_new).1 = Ok (Some bytes) ∧
    utf8_valid bytes = true.
Proof.
  destruct (text_cell_utf8 (row_of [0x41; 0xD83D; 0xDE00; 0xD800]) 1 reader_new [0x41; 0xD83D; 0xDE00; 0xD800] NVarchar)
    as (bytes & H1 & H2 & _); [reflexivity| |done|done|done|by exists bytes].
  repeat constructor; unfold u16_range; lia.
Defined.

Lemma integer_cell_spec_witness :
  (read_cell_bytes (row_of (ascii_units " 3000000000 ")) 1 Integer reader_new).1 = Ok (Some (as_bytes " 3000000000 ")).
Proof.
  destruct (integer_cell_spec (row_of (ascii_units " 3000000000 ")) 1 reader_new 3000000000 1 1 eq_refl) as (_ & _ & H).
  apply H. unfold i32_range. lia.
Defined.

Lemma integer_fallback_ambiguous_witness :
  ∃ v, i32_range v ∧ integer_bytes 4 (ascii_units "1.50") = integer_bytes 4 (ascii_units (fmt_Z v)).
Proof.
  apply (integer_fallback_ambiguous "1.50"); [|reflexivity|vm_compute; reflexivity].
  repeat constructor; vm_compute; reflexivity.
Defined.
