(* ===== verification/OutputParams.v ===== *)
(** Output parameters of a call (engine/core/output_aware_params.rs, as built outside
    Windows) and the removal of ref-cursor placeholders from an Oracle call
    (engine/core/ref_cursor_oracle.rs). *)

From S2P Require Import Prelude Wire Errors ParamValue Text.

(** * Parameter slots *)

Definition OUT_TEXT_MAX_CODE_UNITS : Z := 8000.

(** [odbc_api]'s [VarCharBox]: a buffer and its indicator, [None] for null. *)
Record TextBox := mkTextBox { tb_buffer : list byte; tb_indicator : option Z }.

Inductive ParamSlot :=
| InText (t : TextBox)
| OutI32 (n : option Z)
| OutI64 (n : option Z)
| InOutI32 (n : option Z)
| InOutI64 (n : option Z)
| OutText (t : TextBox)
| InOutText (t : TextBox).

#[export] Instance TextBox_eq_dec : EqDecision TextBox.
Proof. solve_decision. Defined.
#[export] Instance ParamSlot_eq_dec : EqDecision ParamSlot.
Proof. solve_decision. Defined.

(** The parameters of a statement: texts with nulls, or slots. *)
Inductive QueryParams :=
| QpTexts (ps : list (option string))
| QpSlots (slots : list ParamSlot).

#[export] Instance QueryParams_eq_dec : EqDecision QueryParams.
Proof. solve_decision. Defined.

(** [TextBox::null()] *)
Definition null_text : TextBox := mkTextBox [] None.

Definition in_text_box_from_owned_string (s : string) : TextBox := mkTextBox (as_bytes s) (Some (len (as_bytes s))).

Definition in_text_from_param_value (v : ParamValue) : Result TextBox :=
  let? o := param_values_to_strings [v] in
  let? o := ok_or (head o) (ValidationError "param_values_to_strings empty") in
  Ok (match o with None => null_text | Some s => in_text_box_from_owned_string s end).

(** [vec![0u8; n]] *)
Definition zeros (n : Z) : list byte := replicate (Z.to_nat n) x00.

Definition out_text_shell : TextBox :=
  let cap_elems := OUT_TEXT_MAX_CODE_UNITS + 1 in
  mkTextBox (zeros cap_elems) (Some cap_elems).

Definition ERR_PREFIX : string := "DIRECTED_PARAM|".

Definition validation_directed (msg : string) : OdbcError := ValidationError (ERR_PREFIX +:+ msg).

Definition inout_text_from_str (s : string) : Result TextBox :=
  let b := as_bytes s in
  if OUT_TEXT_MAX_CODE_UNITS <? len b then
    Err (validation_directed ("inout_string_too_long: INOUT exceeds " +:+ fmt_Z OUT_TEXT_MAX_CODE_UNITS +:+ " bytes"))
  else Ok (mkTextBox (b ++ zeros (OUT_TEXT_MAX_CODE_UNITS + 1 - len b)) (Some (len b))).

Definition decimal_payload (d : string) : Result string :=
  if String.eqb d EmptyString then
    Err (validation_directed "decimal_inout_out_requires_non_empty: use a non-empty ParamValue::Decimal for OUT/INOUT or use String")
  else Ok d.

(** The slot of one parameter. *)
Definition slot_of (bp : BoundParam) : Result ParamSlot :=
  match bp_direction bp, bp_value bp with
  | Input, PRefCursorOut =>
      Err (validation_directed "ref_cursor_out_invalid_direction: ParamValue::RefCursorOut is only valid for ParamDirection::output")
  | Input, v => let? t := in_text_from_param_value v in Ok (InText t)
  | Output, PRefCursorOut | InOut, PRefCursorOut =>
      Err (validation_directed "ref_cursor_out_bind_not_enabled: ParamValue::RefCursorOut in bound_to_slots; use the Oracle ref-cursor path (strip + more_results) or filter markers first (TYPE_MAPPING §3.1.1).")
  | Output, PNull => Ok (OutI32 None)
  | Output, PInteger _ => Ok (OutI32 None)
  | Output, PBigInt _ => Ok (OutI64 None)
  | Output, PString _ => Ok (OutText out_text_shell)
  | Output, PDecimal d => let? _ := decimal_payload d in Ok (OutText out_text_shell)
  | InOut, PInteger n => Ok (InOutI32 (Some n))
  | InOut, PBigInt n => Ok (InOutI64 (Some n))
  | InOut, PString s => let? t := inout_text_from_str s in Ok (InOutText t)
  | InOut, PDecimal d =>
      let? d := decimal_payload d in
      let? t := inout_text_from_str d in
      Ok (InOutText t)
  | InOut, PNull =>
      Err (validation_directed "inout_null: INOUT with ParamValue::Null is not supported; pass Integer, BigInt, String, or non-empty Decimal")
  | Output, PBinary _ | InOut, PBinary _ =>
      Err (validation_directed "binary_out_inout_not_implemented: OUT/INOUT for binary columns is not implemented; use Integer, BigInt, String, or Decimal (see TYPE_MAPPING §3.1)")
  end.

Definition bound_to_slots (bound : list BoundParam) : Result (list ParamSlot) := omap_list slot_of bound.

Section Outputs.
(** [VarCharBox::as_bytes]: the value in the box, [None] when it is null. *)
Context (text_as_bytes : TextBox → option (list byte)).

Definition textbox_to_output_param (t : TextBox) : ParamValue :=
  match text_as_bytes t with
  | None => PNull
  | Some bytes => PString (from_utf8_lossy bytes)
  end.

(** What a slot adds to the footer after the call. *)
Definition slot_output (s : ParamSlot) : list ParamValue :=
  match s with
  | InText _ => []
  | OutI32 n | InOutI32 n => [match n with Some v => PInteger v | None => PNull end]
  | OutI64 n | InOutI64 n => [match n with Some v => PBigInt v | None => PNull end]
  | OutText t | InOutText t => [textbox_to_output_param t]
  end.

Definition output_footer_values (slots : list ParamSlot) : list ParamValue := concat (map slot_output slots).
End Outputs.

(** * Ref cursors *)

Definition is_ref_cursor (v : ParamValue) : bool := match v with PRefCursorOut => true | _ => false end.

Definition bound_has_ref_cursor (bound : list BoundParam) : bool := existsb (λ b, is_ref_cursor (bp_value b)) bound.

Definition filter_non_ref_cursor_params (bound : list BoundParam) : list BoundParam :=
  List.filter (λ b, negb (is_ref_cursor (bp_value b))) bound.

Fixpoint count_char (c : ascii) (s : string) : Z :=
  match s with
  | EmptyString => 0
  | String d s => (if Ascii.eqb d c then 1 else 0) + count_char c s
  end.

Definition count_placeholders (sql : string) : Z := count_char "?" sql.

(** [rest.find('?')], as the text before it and the text after it. *)
Fixpoint break_at (c : ascii) (s : string) : option (string * string) :=
  match s with
  | EmptyString => None
  | String d s =>
      if Ascii.eqb d c then Some (EmptyString, s)
      else match break_at c s with Some (b, a) => Some (String d b, a) | None => None end
  end.

(** The text without its last character when that is a comma. *)
Fixpoint strip_last_comma (s : string) : string :=
  match s with
  | EmptyString => EmptyString
  | String c EmptyString => if Ascii.eqb c "," then EmptyString else s
  | String c s => String c (strip_last_comma s)
  end.

Definition strip_first_comma (s : string) : string :=
  match s with String c r => if Ascii.eqb c "," then r else s | EmptyString => EmptyString end.

(** The loop over the parameters; [i] is the index of the next one. *)
Fixpoint strip_loop (i : Z) (bound : list BoundParam) (out rest : string) : Result string :=
  match bound with
  | [] => Ok (out +:+ rest)
  | bp :: bound =>
      match break_at "?" rest with
      | None => Err (validation_directed ("ref_cursor_oracle_internal: missing '?' for bound parameter " +:+ fmt_Z i))
      | Some (before, after) =>
          let ref := is_ref_cursor (bp_value bp) in
          let out := out +:+ (if ref then strip_last_comma before else before) in
          if ref && bool_decide (bp_direction bp = Input) then
            Err (validation_directed "ref_cursor_out_invalid_direction: ParamValue::RefCursorOut is only valid for ParamDirection::output (or in/out on Oracle)")
          else
            let out := if ref then out else out +:+ "?" in
            let rest := if ref then strip_first_comma after else after in
            strip_loop (i + 1) bound out rest
      end
  end.

Definition strip_ref_cursor_placeholders (sql : string) (bound : list BoundParam) : Result string :=
  let nq := count_placeholders sql in
  if negb (nq =? len bound) then
    Err (validation_directed ("ref_cursor_oracle_sql_param_count: SQL has " +:+ fmt_Z nq
           +:+ " '?' but bound list has " +:+ fmt_Z (len bound) +:+ " params"))
  else strip_loop 0 bound EmptyString sql.

(** * Slots and footer *)

Definition is_output (d : ParamDirection) : bool := match d with Input => false | _ => true end.

(** Slots of the same kind: what the driver may turn a slot into. *)
Definition same_slot (s s' : ParamSlot) : Prop :=
  match s, s' with
  | InText t, InText t' => t' = t
  | OutI32 _, OutI32 n | InOutI32 _, InOutI32 n => match n with Some v => i32_range v | None => True end
  | OutI64 _, OutI64 n | InOutI64 _, InOutI64 n => match n with Some v => i64_range v | None => True end
  | OutText _, OutText _ | InOutText _, InOutText _ => True
  | _, _ => False
  end.

(** The kind of value the client asked for: an integer, a big integer, or a text, a
    null standing for an integer. *)
Definition answers (asked got : ParamValue) : Prop :=
  match asked, got with
  | _, PNull => True
  | PNull, PInteger _ | PInteger _, PInteger _ => True
  | PBigInt _, PBigInt _ => True
  | PString _, PString _ | PDecimal _, PString _ => True
  | _, _ => False
  end.

Lemma slot_of_output text bp s s' :
  slot_of bp = Ok s → same_slot s s' →
  match bp_direction bp with
  | Input => slot_output text s' = []
  | _ => ∃ v, slot_output text s' = [v] ∧ answers (bp_value bp) v
  end.
Proof.
  destruct bp as [d v]. unfold slot_of. cbn [bp_direction bp_value]. intros H Hs.
  destruct d, v; cbn in H; try discriminate H;
    repeat match type of H with obind _ _ = Ok _ => apply obind_Ok_inv in H as (? & ? & H) end;
    injection H as <-; destruct s'; cbn in Hs; try done; cbn.
  all: try (eexists; split; [reflexivity|]; case_match; done).
  all: eexists; split; [reflexivity|]; cbn; unfold textbox_to_output_param; by destruct (text t).
Qed.


(** An input-output parameter that the driver leaves alone comes back as it was
    given, a decimal as its text. *)
Theorem inout_unchanged (text : TextBox → option (list byte)) (v : ParamValue) (s : ParamSlot) :
  (∀ b n, 0 ≤ n → n < len b → text (mkTextBox b (Some n)) = Some (take (Z.to_nat n) b)) →
  param_wf v → slot_of (mkBound InOut v) = Ok s →
  slot_output text s = [match v with PDecimal d => PString d | _ => v end].
Proof.
  intros Ht Hv. unfold slot_of, inout_text_from_str, decimal_payload. cbn [bp_direction bp_value].
  assert (∀ str, str_wf str → len (as_bytes str) ≤ OUT_TEXT_MAX_CODE_UNITS →
    textbox_to_output_param text (mkTextBox (as_bytes str ++ zeros (OUT_TEXT_MAX_CODE_UNITS + 1 - len (as_bytes str))) (Some (len (as_bytes str))))
    = PString str) as Hbox.
  { intros str Hstr Hlen. unfold textbox_to_output_param. pose proof (len_nonneg (as_bytes str)). rewrite Ht; [|lia|].
    - unfold len. rewrite Nat2Z.id, take_app_length. by rewrite from_utf8_lossy_valid.
    - rewrite len_app. unfold zeros. unfold len at 3. rewrite length_replicate. lia. }
  destruct v; cbn [obind]; try discriminate.
  - case_if; [discriminate|]. bool_to_prop. cbn [obind]. intros [= <-]. cbn. rewrite Hbox; [done| |lia]. apply Hv.
  - by intros [= <-].
  - by intros [= <-].
  - case_if; cbn [obind]; [discriminate|]. case_if; [discriminate|]. bool_to_prop. cbn [obind]. intros [= <-]. cbn.
    rewrite Hbox; [done| |lia]. apply Hv.
Qed.

(** * Placeholders *)

Lemma count_char_app c s t : count_char c (s +:+ t) = count_char c s + count_char c t.
Proof. induction s as [|d s IH]; [done|]. rewrite string_app_cons. cbn [count_char]. rewrite IH. lia. Qed.

Lemma count_char_nonneg c s : 0 ≤ count_char c s.
Proof. induction s as [|d s IH]; cbn [count_char]; [lia|]. case_if; lia. Qed.

Lemma break_at_Some c s b a : break_at c s = Some (b, a) → count_char c b = 0 ∧ count_char c s = 1 + count_char c a.
Proof.
  revert b a. induction s as [|d s IH]; intros b a; cbn [break_at count_char]; [done|].
  destruct (Ascii.eqb d c) eqn:E; [by intros [= <- <-]|].
  destruct (break_at c s) as [[b' a']|]; [|done]. intros [= <- <-].
  destruct (IH b' a' eq_refl) as [H1 H2]. cbn [count_char]. rewrite E. lia.
Qed.

Lemma break_at_None c s : break_at c s = None → count_char c s = 0.
Proof.
  induction s as [|d s IH]; cbn [break_at count_char]; [done|].
  destruct (Ascii.eqb d c); [done|]. destruct (break_at c s) as [[b a]|]; [done|]. intros _. by rewrite IH.
Qed.

Lemma count_strip_last s : count_char "?" (strip_last_comma s) = count_char "?" s.
Proof.
  induction s as [|c s IH]; [done|]. cbn [strip_last_comma]. destruct s as [|d s].
  - destruct (Ascii.eqb c ",") eqn:E; [|done]. apply Ascii.eqb_eq in E as ->. done.
  - cbn [count_char] in *. by rewrite IH.
Qed.

Lemma count_strip_first s : count_char "?" (strip_first_comma s) = count_char "?" s.
Proof.
  destruct s as [|c s]; [done|]. cbn. destruct (Ascii.eqb c ",") eqn:E; [|done].
  by apply Ascii.eqb_eq in E as ->.
Qed.

Lemma strip_loop_count bound : ∀ i out rest,
  count_char "?" rest = len bound →
  match strip_loop i bound out rest with
  | Ok sql => count_char "?" sql = count_char "?" out + len (filter_non_ref_cursor_params bound)
  | Err e => ∃ b, b ∈ bound ∧ bp_direction b = Input ∧ bp_value b = PRefCursorOut
  | Panic => False
  end.
Proof.
  induction bound as [|bp bound IH]; intros i out rest Hc; cbn [strip_loop].
  - rewrite count_char_app, Hc. cbn. done.
  - rewrite len_cons in Hc. pose proof (len_nonneg bound).
    destruct (break_at "?" rest) as [[before after]|] eqn:Hb.
    2: { apply break_at_None in Hb. lia. }
    apply break_at_Some in Hb as [Hb1 Hb2]. cbv zeta.
    destruct (is_ref_cursor (bp_value bp)) eqn:Hr; cbn [andb].
    + case_bool_decide as Hd.
      { exists bp. split; [left|]. split; [done|]. by destruct (bp_value bp). }
      specialize (IH (i + 1) (out +:+ strip_last_comma before) (strip_first_comma after)).
      rewrite count_strip_first in IH. specialize (IH ltac:(lia)).
      unfold filter_non_ref_cursor_params in *. cbn [List.filter]. rewrite Hr. cbn [negb].
      destruct (strip_loop _ _ _ _).
      * rewrite IH, count_char_app, count_strip_last. lia.
      * destruct IH as (b & ? & ?). exists b. split; [by right|done].
      * done.
    + specialize (IH (i + 1) ((out +:+ before) +:+ "?") after ltac:(lia)).
      unfold filter_non_ref_cursor_params in *. cbn [List.filter]. rewrite Hr. cbn [negb].
      destruct (strip_loop _ _ _ _).
      * rewrite IH, !count_char_app, len_cons. cbn. lia.
      * destruct IH as (b & ? & ?). exists b. split; [by right|done].
      * done.
Qed.

(** For every call whose placeholders match the parameters, the text sent to Oracle
    has exactly as many placeholders as there are parameters left to bind; it is
    refused when the numbers differ or a ref cursor is an input, and never panics. *)
Theorem strip_placeholders_count (sql : string) (bound : list BoundParam) :
  match strip_ref_cursor_placeholders sql bound with
  | Ok stripped => count_placeholders sql = len bound ∧
      count_placeholders stripped = len (filter_non_ref_cursor_params bound)
  | Err e => count_placeholders sql ≠ len bound ∨
      ∃ b, b ∈ bound ∧ bp_direction b = Input ∧ bp_value b = PRefCursorOut
  | Panic => False
  end.
Proof.
  unfold strip_ref_cursor_placeholders. cbv zeta. destruct (Z.eqb_spec (count_placeholders sql) (len bound)) as [E|E]; cbn [negb].
  - pose proof (strip_loop_count bound 0 EmptyString sql E) as H.
    destruct (strip_loop 0 bound EmptyString sql); [|by right|done]. split; [done|]. unfold count_placeholders. rewrite H. done.
  - by left.
Qed.

(** A ref cursor between two parameters takes both of its commas along, so that the
    call sent to the driver is no longer well formed. *)
Lemma middle_ref_cursor_loses_separator :
  strip_ref_cursor_placeholders "{call p(?,?,?)}"
    [mkBound Input (PInteger 1); mkBound Output PRefCursorOut; mkBound Input (PInteger 2)] = Ok "{call p(??)}".
Proof. reflexivity. Qed.

(** * Witnesses *)

(** A box whose value is the bytes its indicator counts. *)
Definition box_bytes (t : TextBox) : option (list byte) := (λ n, take (Z.to_nat n) (tb_buffer t)) <$> tb_indicator t.


Lemma inout_unchanged_witness :
  slot_output box_bytes (InOutI64 (Some 5)) = [PBigInt 5].
Proof.
  apply (inout_unchanged box_bytes (PBigInt 5)); [done| |reflexivity]. cbn. unfold i64_range. lia.
Defined.
