(* ===== verification/Streaming.v ===== *)
(** Result streams (engine/streaming.rs): the chunked streams a client reads with one
    FFI call per chunk, from memory, from a spilled file, or from a worker thread that
    sends batches through a channel, fetched in blocking order or polled. *)

From S2P Require Import Prelude Wire Errors RowCodec DiskSpill Capabilities.

(** * Frames of a multi-result stream *)

Definition MULTI_STREAM_ITEM_TAG_RESULT_SET : Z := 0.
Definition MULTI_STREAM_ITEM_TAG_ROW_COUNT : Z := 1.

Definition frame_item (tag : Z) (payload : list byte) : Result (list byte) :=
  if len payload <=? 2 ^ 32 - 1 then
    let? _ := ok_or (checked_add (len payload) 5) (ResourceLimitReached "stream item size overflow") in
    Ok (z2b tag :: le_bytes 4 (len payload) ++ payload)
  else Err (ResourceLimitReached ("multi-result stream item payload exceeds u32: " +:+ fmt_Z (len payload))).

Definition encode_row_buffer (b : RowBuffer) : Result (list byte) :=
  omap_err (λ e, ResourceLimitReached ("result encoding failed: " +:+ encode_error_string e)) (try_encode b).

(** * Streams over finished results *)

Record StreamingState := mkStreaming { ss_data : list byte; ss_offset : Z; ss_chunk_size : Z }.

Definition memory_fetch (s : StreamingState) : Result (option (list byte)) * StreamingState :=
  if len (ss_data s) <=? ss_offset s then (Ok None, s)
  else
    let stop := Z.min (ss_offset s + ss_chunk_size s) (len (ss_data s)) in
    match slice (ss_data s) (Z.to_nat (ss_offset s)) (Z.to_nat stop) with
    | Ok chunk => (Ok (Some chunk), mkStreaming (ss_data s) stop (ss_chunk_size s))
    | Err e => (Err e, s)
    | Panic => (Panic, s)
    end.

Definition memory_has_more (s : StreamingState) : bool := ss_offset s <? len (ss_data s).

Record StreamingStateFileBacked := mkFileBacked { sf_path : string; sf_offset : Z; sf_chunk_size : Z; sf_total_len : Z }.

(** [File::open], [seek] and [read_exact]: the bytes of the file from the offset on. *)
Definition read_exact (path : string) (offset n : Z) (fs : Fs) : Result (list byte * Fs) :=
  let? '(content, fs) := io "spill file read" fs (λ files, (files !! path, files)) in
  let? content := ok_or content (InternalError "spill file read: No such file or directory") in
  let? '(_, fs) := io "spill file seek" fs (λ files, (tt, files)) in
  let? '(_, fs) := io "spill file read_exact" fs (λ files, (tt, files)) in
  let bytes := take (Z.to_nat n) (drop (Z.to_nat offset) content) in
  if len bytes <? n then Err (InternalError "spill file read_exact: failed to fill whole buffer") else Ok (bytes, fs).

Definition file_fetch (s : StreamingStateFileBacked) (fs : Fs) : Result (option (list byte) * Fs) * StreamingStateFileBacked :=
  if sf_total_len s <=? sf_offset s then (Ok (None, fs), s)
  else
    let to_read := Z.min (sf_chunk_size s) (sf_total_len s - sf_offset s) in
    match read_exact (sf_path s) (sf_offset s) to_read fs with
    | Ok (buf, fs) =>
        (Ok (if to_read =? 0 then None else Some buf, fs),
         mkFileBacked (sf_path s) (sf_offset s + to_read) (sf_chunk_size s) (sf_total_len s))
    | Err e => (Err e, s)
    | Panic => (Panic, s)
    end.

Definition file_has_more (s : StreamingStateFileBacked) : bool := sf_offset s <? sf_total_len s.

(** [Drop] *)
Definition drop_file (s : StreamingStateFileBacked) (fs : Fs) : Fs := remove_file (sf_path s) fs.

Inductive StreamState := InMemory (s : StreamingState) | FileBacked (s : StreamingStateFileBacked).

Definition stream_fetch (st : StreamState) (fs : Fs) : Result (option (list byte) * Fs) * StreamState :=
  match st with
  | InMemory s => let '(r, s) := memory_fetch s in (omap_ok (λ c, (c, fs)) r, InMemory s)
  | FileBacked s => let '(r, s) := file_fetch s fs in (r, FileBacked s)
  end.

Definition stream_has_more (st : StreamState) : bool :=
  match st with InMemory s => memory_has_more s | FileBacked s => file_has_more s end.

(** The end of [execute_streaming] and [execute_streaming_with_spill]: from the rows
    to the stream. *)
Definition stream_of_rows (row_buffer : RowBuffer) (chunk_size : Z) (spill_threshold_mb : option Z) (temp_dir : string) (fs : Fs) :
    Result (StreamState * Fs) :=
  match spill_threshold_mb with
  | Some mb =>
      if 0 <? mb then
        let? '(w, fs) := omap_err (λ e, InternalError ("encode to spill: " +:+ encode_error_string e))
                           (encode_to_writer spill_write_all row_buffer (writer_new (spill_new temp_dir mb), fs)) in
        let? '(w, fs) := spill_flush w fs in
        let? '(src, fs) := finish_for_streaming_read (dw_spill w) fs in
        match src with
        | SpillFile path =>
            let '(total_len, fs) :=
              match io "metadata" fs (λ files, (files !! path, files)) with
              | Ok (Some content, fs) => (len content, fs)
              | Ok (None, fs) => (0, fs)
              | _ => (0, mkFs (fs_files fs) (fs_clock fs) (tail (fs_faults fs)))
              end in
            Ok (FileBacked (mkFileBacked path 0 chunk_size total_len), fs)
        | SpillMemory data => Ok (InMemory (mkStreaming data 0 chunk_size), fs)
        end
      else
        let? encoded := encode_row_buffer row_buffer in
        Ok (InMemory (mkStreaming encoded 0 chunk_size), fs)
  | None =>
      let? encoded := encode_row_buffer row_buffer in
      Ok (InMemory (mkStreaming encoded 0 chunk_size), fs)
  end.

(** * Streams fed by a worker *)

Inductive BatchedMessage := MBatch (b : list byte) | MDone | MCancelled | MError (m : string).

(** The state shared by the blocking and the polled stream. The receiver is the list
    of the messages the worker has yet to deliver, in order; when it is used up the
    worker is gone and its sender dropped. *)
Record WorkerStream := mkWorkerStream {
  ws_receiver : list BatchedMessage;
  ws_current : option (list byte);
  ws_offset : Z;
  ws_chunk_size : Z;
  ws_done : bool;
  ws_error : option string;
  ws_cancelled : bool
}.

Definition from_receiver (rx : list BatchedMessage) (chunk_size : Z) : WorkerStream :=
  mkWorkerStream rx None 0 chunk_size false None false.

Definition current_len (s : WorkerStream) : Z := match ws_current s with Some b => len b | None => 0 end.

(** [receiver.recv()] or a successful [try_recv()]: what a message does to the state. *)
Definition receive (s : WorkerStream) (m : BatchedMessage) (rx : list BatchedMessage) : WorkerStream :=
  match m with
  | MBatch b => mkWorkerStream rx (Some b) 0 (ws_chunk_size s) (ws_done s) (ws_error s) (ws_cancelled s)
  | MDone => mkWorkerStream rx (ws_current s) (ws_offset s) (ws_chunk_size s) true (ws_error s) (ws_cancelled s)
  | MCancelled => mkWorkerStream rx (ws_current s) (ws_offset s) (ws_chunk_size s) true (ws_error s) true
  | MError e => mkWorkerStream rx (ws_current s) (ws_offset s) (ws_chunk_size s) (ws_done s) (Some e) (ws_cancelled s)
  end.

Definition RecvError : string := "receiving on a closed channel".

(** The part of [fetch_next_chunk] after a batch is at hand. *)
Definition cut_chunk (label : string) (s : WorkerStream) : Result (option (list byte)) * WorkerStream :=
  if (ws_offset s =? 0) && (current_len s <=? ws_chunk_size s) then
    (Ok (ws_current s), mkWorkerStream (ws_receiver s) None (ws_offset s) (ws_chunk_size s) (ws_done s) (ws_error s) (ws_cancelled s))
  else
    match ws_current s with
    | None => (Err (InternalError (label +:+ " state corrupted: no batch available after receiver processing")), s)
    | Some b =>
        let stop := Z.min (saturating_add (ws_offset s) (ws_chunk_size s)) (len b) in
        match slice b (Z.to_nat (ws_offset s)) (Z.to_nat stop) with
        | Ok chunk =>
            (Ok (Some chunk), mkWorkerStream (ws_receiver s) (Some b) stop (ws_chunk_size s) (ws_done s) (ws_error s) (ws_cancelled s))
        | Err e => (Err e, s)
        | Panic => (Panic, s)
        end
    end.

(** [fetch_next_chunk] of both streams, which differ in the names in their errors. *)
Definition fetch_next_chunk (worker label : string) (s : WorkerStream) : Result (option (list byte)) * WorkerStream :=
  match ws_error s with
  | Some msg => (Err (InternalError msg), s)
  | None =>
      if ws_done s then (Ok None, s)
      else if match ws_current s with None => true | Some b => len b <=? ws_offset s end then
        match ws_receiver s with
        | [] =>
            let msg := worker +:+ " worker disconnected unexpectedly: " +:+ RecvError in
            (Err (WorkerCrashed msg),
             mkWorkerStream [] (ws_current s) (ws_offset s) (ws_chunk_size s) true (Some msg) (ws_cancelled s))
        | m :: rx =>
            let s := receive s m rx in
            match m with
            | MBatch _ => cut_chunk label s
            | MDone | MCancelled => (Ok None, s)
            | MError e => (Err (InternalError e), s)
            end
        end
      else cut_chunk label s
  end.

Definition batched_fetch := fetch_next_chunk "Stream" "Streaming".
Definition async_fetch := fetch_next_chunk "Async stream" "Async stream".

Definition worker_has_more (s : WorkerStream) : bool := negb (ws_done s).

Inductive AsyncStreamStatus := StPending | StReady | StDone | StCancelled | StError.

(** [arrived]: whether the next message has been sent (or the sender dropped) by now. *)
Definition pull_next_message_nonblocking (arrived : bool) (s : WorkerStream) : WorkerStream :=
  if ws_done s || bool_decide (is_Some (ws_error s)) then s
  else if bool_decide (is_Some (ws_current s)) && (ws_offset s <? current_len s) then s
  else if negb arrived then s
  else
    match ws_receiver s with
    | m :: rx => receive s m rx
    | [] => mkWorkerStream [] (ws_current s) (ws_offset s) (ws_chunk_size s) true (ws_error s) (ws_cancelled s)
    end.

Definition poll_status (arrived : bool) (s : WorkerStream) : AsyncStreamStatus * WorkerStream :=
  let s := pull_next_message_nonblocking arrived s in
  (if bool_decide (is_Some (ws_error s)) then StError
   else if ws_cancelled s then StCancelled
   else if ws_done s then StDone
   else if bool_decide (is_Some (ws_current s)) && (ws_offset s <? current_len s) then StReady
   else StPending, s).

(** The last message of a worker, from the result of its query: of a single-result
    stream, and of a multi-result stream. *)
Definition last_message (r : Result unit) : list BatchedMessage :=
  match r with
  | Ok _ => [MDone]
  | Err e => if contains (to_string e) "cancelled" then [MCancelled] else [MError (to_string e)]
  | Panic => []
  end.

Definition last_multi_message (r : Result unit) : list BatchedMessage :=
  match r with
  | Ok _ => [MDone]
  | Err Cancelled => [MCancelled]
  | Err e => [MError (to_string e)]
  | Panic => []
  end.

(** All the messages of a worker whose query gave these batches and this result. *)
Definition worker_messages (batches : list (list byte)) (r : Result unit) : list BatchedMessage :=
  map MBatch batches ++ last_message r.

(** * The encoder into any sink

    A sink [W] that represents the bytes written to it encodes as a [Vec] does. *)

Section Refines.
Context {W : Type} (write_all : W → list byte → outcome EncodeError W) (R : list byte → W → Prop).
Context (Hwrite : ∀ v w bs, R v w → ∃ w', write_all w bs = Ok w' ∧ R (v ++ bs) w').

(** What the [Vec] computes, the sink follows. *)
Definition follows (m' : outcome EncodeError (list byte)) (m : outcome EncodeError W) : Prop :=
  ∀ v', m' = Ok v' → ∃ w', m = Ok w' ∧ R v' w'.

Lemma follows_bind m' m k' k :
  follows m' m → (∀ v w, R v w → follows (k' v) (k w)) → follows (obind m' k') (obind m k).
Proof. intros Hm Hk v' H. inv_bind H. destruct (Hm _ Ha) as (w & -> & HR). cbn [obind]. by apply (Hk a w). Qed.

Lemma follows_pure {A : Type} (p : outcome EncodeError A) k' k :
  (∀ a, follows (k' a) (k a)) → follows (obind p k') (obind p k).
Proof. intros Hk v' H. inv_bind H. rewrite Ha. by apply Hk. Qed.

Lemma follows_write v w bs : R v w → follows (vec_write_all v bs) (write_all w bs).
Proof. intros HR v' [= <-]. by apply Hwrite. Qed.

Lemma follows_ofold {A : Type} (f' : list byte → A → outcome EncodeError (list byte)) (f : W → A → outcome EncodeError W) xs :
  (∀ v w x, R v w → follows (f' v x) (f w x)) → ∀ v w, R v w → follows (ofold f' xs v) (ofold f xs w).
Proof.
  intros Hf. induction xs as [|x xs IH]; intros v w HR; cbn [ofold]; [intros v' [= <-]; by exists w|].
  apply follows_bind; [by apply Hf|]. intros v1 w1. apply IH.
Qed.

Lemma write_cell_follows v w c : R v w → follows (write_cell vec_write_all v c) (write_cell write_all w c).
Proof.
  intros HR. destruct c as [data|]; [|by apply follows_write]. cbn [write_cell].
  apply follows_bind; [by apply follows_write|]. intros v1 w1 H1. apply follows_pure. intros n.
  apply follows_bind; [by apply follows_write|]. intros. by apply follows_write.
Qed.

Lemma write_column_follows v w c : R v w → follows (write_column vec_write_all v c) (write_column write_all w c).
Proof.
  intros HR. unfold write_column. apply follows_bind; [by apply follows_write|]. intros v1 w1 H1.
  apply follows_pure. intros n. apply follows_bind; [by apply follows_write|]. intros. by apply follows_write.
Qed.

Lemma encode_to_writer_follows b v w : R v w → follows (encode_to_writer vec_write_all b v) (encode_to_writer write_all b w).
Proof.
  intros HR. unfold encode_to_writer. do 5 (apply follows_pure; intros ?).
  do 5 (apply follows_bind; [by apply follows_write|]; clear v w HR; intros v w HR).
  apply follows_bind; [apply follows_ofold; [apply write_column_follows|done]|]. clear v w HR. intros v w HR.
  apply follows_ofold; [|done]. intros. by apply follows_ofold; [apply write_cell_follows|].
Qed.
End Refines.

(** * Reading a finished stream to its end *)

(** Fetch until there is no chunk; the fuel bounds the number of fetches. *)
Fixpoint drain_stream (fuel : nat) (st : StreamState) (fs : Fs) : Result (list (list byte)) :=
  match fuel with
  | O => Err (InternalError "out of fuel")
  | S fuel =>
      match stream_fetch st fs with
      | (Ok (Some c, fs), st) => let? cs := drain_stream fuel st fs in Ok (c :: cs)
      | (Ok (None, _), _) => Ok []
      | (Err e, _) => Err e
      | (Panic, _) => Panic
      end
  end.

(** The stream stands at offset [o] of these bytes. *)
Definition stream_at (bytes : list byte) (chunk o : Z) (st : StreamState) (fs : Fs) : Prop :=
  match st with
  | InMemory s => s = mkStreaming bytes o chunk
  | FileBacked s => s = mkFileBacked (sf_path s) o chunk (len bytes) ∧ fs_files fs !! sf_path s = Some bytes
  end.

Lemma io_calm {A : Type} e fs (op : gmap string (list byte) → A * gmap string (list byte)) :
  calm fs → io e fs op = Ok ((op (fs_files fs)).1, mkFs (op (fs_files fs)).2 (fs_clock fs) []).
Proof. unfold calm, io. intros ->. by destruct (op (fs_files fs)). Qed.

Lemma take_drop_range {A : Type} (l : list A) (o n : nat) : (o + n ≤ length l)%nat → length (take n (drop o l)) = n.
Proof. intros H. rewrite length_take, length_drop. lia. Qed.

(** One fetch: the next chunk, or the end. *)
Lemma stream_fetch_at bytes chunk o st fs :
  1 ≤ chunk → 0 ≤ o ≤ len bytes → calm fs → stream_at bytes chunk o st fs →
  let n := Z.min chunk (len bytes - o) in
  ∃ st' fs', stream_at bytes chunk (o + n) st' fs' ∧ calm fs' ∧
    stream_fetch st fs = (Ok (if n =? 0 then None else Some (take (Z.to_nat n) (drop (Z.to_nat o) bytes)), fs'), st').
Proof.
  intros Hc Ho Hfs Hat. cbv zeta. set (n := Z.min chunk (len bytes - o)).
  destruct (Z.eqb_spec n 0) as [Hn|Hn].
  { assert (o = len bytes) as -> by lia. exists st, fs. rewrite Hn, Z.add_0_r. split; [done|]. split; [done|].
    destruct st as [s|s]; cbn in Hat |- *.
    - subst s. unfold memory_fetch. cbn. by destruct (Z.leb_spec (len bytes) (len bytes)); [|lia].
    - destruct Hat as [-> _]. unfold file_fetch. cbn. by destruct (Z.leb_spec (len bytes) (len bytes)); [|lia]. }
  assert (Z.to_nat (o + n) = Z.to_nat o + Z.to_nat n)%nat as Hnat by lia.
  assert (length bytes = Z.to_nat (len bytes)) as Hlen by (unfold len; lia).
  destruct st as [s|s]; cbn in Hat |- *.
  - subst s. exists (InMemory (mkStreaming bytes (o + n) chunk)), fs. split; [done|]. split; [done|].
    unfold memory_fetch. cbn. destruct (Z.leb_spec (len bytes) o); [lia|].
    replace (Z.min (o + chunk) (len bytes)) with (o + n) by lia. rewrite slice_Ok by lia.
    replace (Z.to_nat (o + n) - Z.to_nat o)%nat with (Z.to_nat n) by lia. reflexivity.
  - destruct Hat as [-> Hl]. destruct s as [path so sc st]. cbn in *. unfold file_fetch. cbn.
    destruct (Z.leb_spec (len bytes) o); [lia|]. fold n.
    unfold read_exact. rewrite io_calm by done. cbn [obind fst snd]. rewrite Hl. cbn [ok_or obind].
    rewrite io_calm by done. cbn [obind fst snd]. rewrite io_calm by done. cbn [obind fst snd fs_files fs_clock].
    destruct (Z.ltb_spec (len (take (Z.to_nat n) (drop (Z.to_nat o) bytes))) n) as [Hlt|_].
    { unfold len in Hlt. rewrite take_drop_range in Hlt by lia. lia. }
    eexists (FileBacked (mkFileBacked path (o + n) chunk (len bytes))), _. split; [|split].
    3: { destruct (Z.eqb_spec n 0); [lia|]. reflexivity. }
    + by split.
    + done.
Qed.

Lemma drain_stream_at bytes chunk o st fs fuel :
  1 ≤ chunk → 0 ≤ o ≤ len bytes → calm fs → stream_at bytes chunk o st fs → len bytes - o < Z.of_nat fuel →
  ∃ chunks, drain_stream fuel st fs = Ok chunks ∧ concat chunks = drop (Z.to_nat o) bytes ∧
    Forall (λ c : list byte, 0 < len c ≤ chunk) chunks.
Proof.
  intros Hc Ho Hfs Hat. revert o st fs Ho Hfs Hat. induction fuel as [|fuel IH]; intros o st fs Ho Hfs Hat Hf; [lia|].
  cbn [drain_stream]. destruct (stream_fetch_at bytes chunk o st fs Hc Ho Hfs Hat) as (st' & fs' & Hat' & Hfs' & ->).
  set (n := Z.min chunk (len bytes - o)) in *. destruct (Z.eqb_spec n 0) as [Hn|Hn].
  { exists []. split; [done|]. split; [|done]. rewrite drop_ge; [done|]. unfold len in *. lia. }
  destruct (IH (o + n) st' fs') as (cs & -> & Hcs & HF); [lia|done|done|lia|]. cbn [obind].
  eexists. split; [done|]. cbn [concat]. rewrite Hcs. replace (Z.to_nat (o + n)) with (Z.to_nat o + Z.to_nat n)%nat by lia.
  rewrite <- drop_drop. split; [apply take_drop|]. constructor; [|done].
  unfold len at 1 2. rewrite take_drop_range by (unfold len in *; lia). lia.
Qed.

Lemma ends_calm {A : Type} fs (m : Result (A * Fs)) Q : calm fs → ends fs m Q → ∃ a fs', m = Ok (a, fs') ∧ calm fs' ∧ Q a fs'.
Proof. intros Hc [[? _]|(a & fs' & -> & Hc' & HQ)]; [done|]. exists a, fs'. auto. Qed.


(** Two columns of one row, read back in chunks of seven bytes. *)
Definition sample_rows : RowBuffer := add_row (add_column rb_new "a" (from_odbc_sql_type 4)) [Some [x01; x02; x03; x04]].


(** * Streams fed by a worker *)

(** A stream that has neither ended nor failed, with its offset in the batch. *)
Record active (s : WorkerStream) : Prop := {
  ac_chunk : 1 ≤ ws_chunk_size s;
  ac_offset : 0 ≤ ws_offset s;
  ac_len : ws_current s = None ∨ current_len s ≤ usize_max;
  ac_done : ws_done s = false;
  ac_error : ws_error s = None;
  ac_cancelled : ws_cancelled s = false;
  ac_sizes : Forall (λ m, match m with MBatch b => len b ≤ usize_max | _ => True end) (ws_receiver s)
}.

(** The bytes of the batches before the first message that ends the stream, and
    what ends it ([None]: the worker is gone without a word). *)
Fixpoint batch_bytes (rx : list BatchedMessage) : list byte :=
  match rx with MBatch b :: rx => b ++ batch_bytes rx | _ => [] end.

Fixpoint ending (rx : list BatchedMessage) : option BatchedMessage :=
  match rx with MBatch _ :: rx => ending rx | m :: _ => Some m | [] => None end.

Definition current_rest (s : WorkerStream) : list byte :=
  match ws_current s with Some b => drop (Z.to_nat (ws_offset s)) b | None => [] end.

(** What the client has still to get. *)
Definition remaining (s : WorkerStream) : list byte := current_rest s ++ batch_bytes (ws_receiver s).

(** The result that ends the stream, by what the worker last said. *)
Definition end_result (worker : string) (e : option BatchedMessage) : Result (option (list byte)) :=
  match e with
  | Some (MError m) => Err (InternalError m)
  | Some _ => Ok None
  | None => Err (WorkerCrashed (worker +:+ " worker disconnected unexpectedly: " +:+ RecvError))
  end.

Lemma cut_chunk_ok label s b :
  active s → ws_current s = Some b → ws_offset s < len b ∨ ws_offset s = 0 →
  ∃ c s', cut_chunk label s = (Ok (Some c), s') ∧ active s' ∧ ws_receiver s' = ws_receiver s ∧
    current_rest s = c ++ current_rest s' ∧ len c ≤ ws_chunk_size s ∧ (0 < len b → 0 < len c) ∧
    ws_chunk_size s' = ws_chunk_size s.
Proof.
  intros [Hc Ho Hl Hd He Hca Hz] Hb Hpos. unfold cut_chunk, current_rest, current_len in *. rewrite Hb in *.
  destruct (Z.eqb_spec (ws_offset s) 0) as [H0|H0]; [destruct (Z.leb_spec (len b) (ws_chunk_size s)) as [Hle|Hgt]|]; cbn [andb].
  - eexists b, _. split; [done|]. split; [by split; cbn; auto|]. cbn. rewrite H0, app_nil_r. done.
  - destruct Hl as [|Hl]; [done|]. set (stop := Z.min _ (len b)).
    assert (stop = ws_chunk_size s) as Hs by (unfold stop, saturating_add; lia).
    rewrite slice_Ok by (unfold len in *; lia). eexists _, _. split; [done|].
    split; [by split; cbn; try (right; unfold current_len; cbn); auto; lia|]. cbn. rewrite Hs, H0. cbn [Z.to_nat].
    rewrite drop_0, Nat.sub_0_r. split; [done|]. split; [by rewrite take_drop|].
    unfold len in *. rewrite length_take. lia.
  - destruct Hpos as [Hpos|]; [|done]. destruct Hl as [|Hl]; [done|]. set (stop := Z.min _ (len b)).
    assert (stop = Z.min (ws_offset s + ws_chunk_size s) (len b)) as Hs by (unfold stop, saturating_add; lia).
    rewrite slice_Ok by (unfold len in *; lia). eexists _, _. split; [done|].
    split; [by split; cbn; try (right; unfold current_len; cbn); auto; lia|]. cbn.
    split; [done|]. split; [|unfold len in *; rewrite length_take, length_drop; lia].
    replace (Z.to_nat stop) with (Z.to_nat (ws_offset s) + (Z.to_nat stop - Z.to_nat (ws_offset s)))%nat at 2 by lia.
    rewrite <- drop_drop. by rewrite take_drop.
Qed.

(** A measure of the work left: bytes and batches. *)
Definition work (s : WorkerStream) : nat := length (remaining s) + length (ws_receiver s).

(** One fetch of an active stream: the next chunk, or the result that ends it. *)
Lemma fetch_active worker label s :
  active s →
  (∃ c s', fetch_next_chunk worker label s = (Ok (Some c), s') ∧ active s' ∧ remaining s = c ++ remaining s' ∧
     len c ≤ ws_chunk_size s ∧ ws_chunk_size s' = ws_chunk_size s ∧ ending (ws_receiver s') = ending (ws_receiver s) ∧ (work s' < work s)%nat) ∨
  (remaining s = [] ∧ ∃ s', fetch_next_chunk worker label s = (end_result worker (ending (ws_receiver s)), s')).
Proof.
  intros Hs. pose proof Hs as [Hc Ho Hl Hd He Hca Hz]. unfold fetch_next_chunk. rewrite He, Hd.
  destruct (ws_current s) as [b|] eqn:Hb; [destruct (Z.leb_spec (len b) (ws_offset s)) as [Hle|Hgt]|].
  2: { left. destruct (cut_chunk_ok label s b Hs Hb) as (c & s' & -> & Hs' & Hr & Hrest & Hlc & Hp & Hsz); [by left|].
       exists c, s'. unfold work, remaining. rewrite Hrest, Hr, <- app_assoc. split; [done|]. split; [done|].
       split; [done|]. split; [done|]. split; [done|]. split; [done|]. rewrite !length_app. unfold len in *. lia. }
  all: assert (current_rest s = []) as Hrest
    by (unfold current_rest; rewrite Hb; try done; apply drop_ge; unfold len in *; lia).
  all: unfold work, remaining; rewrite Hrest; cbn [app];
    destruct (ws_receiver s) as [|m rx] eqn:Hrx; [right; split; [done|]; by eexists|];
    destruct m as [b'| | |e]; cbn [ending]; [|right; split; [done|]; by eexists..].
  all: inversion Hz as [|? ? Hb' Hz']; subst; left.
  all: destruct (cut_chunk_ok label (receive s (MBatch b') rx) b') as (c & s' & -> & Hs' & Hr & Hrest' & Hlc & Hp & Hsz);
    [split; cbn; first [done|lia|by right]|done|by right|].
  all: exists c, s'; cbn in Hr, Hrest', Hlc, Hsz; rewrite Hr; cbn [batch_bytes].
  all: split; [done|]; split; [done|]; split; [change (Z.to_nat 0) with 0%nat in Hrest'; rewrite drop_0 in Hrest'; by rewrite Hrest', app_assoc|].
  all: split; [done|]; split; [done|]; split; [done|].
  all: apply (f_equal length) in Hrest'; rewrite length_app in Hrest'.
  all: change (Z.to_nat 0) with 0%nat in Hrest'; rewrite drop_0 in Hrest'; rewrite !length_app; cbn [length]; lia.
Qed.

(** Fetch until something else than a chunk comes back. *)
Fixpoint drain_worker (fetch : WorkerStream → Result (option (list byte)) * WorkerStream) (fuel : nat) (s : WorkerStream) :
    list (list byte) * Result (option (list byte)) :=
  match fuel with
  | O => ([], Err (InternalError "out of fuel"))
  | S fuel =>
      match fetch s with
      | (Ok (Some c), s) => let '(cs, r) := drain_worker fetch fuel s in (c :: cs, r)
      | (r, _) => ([], r)
      end
  end.

Lemma drain_active worker label fuel s :
  active s → (work s < fuel)%nat →
  ∃ chunks, drain_worker (fetch_next_chunk worker label) fuel s = (chunks, end_result worker (ending (ws_receiver s))) ∧
    concat chunks = remaining s ∧ Forall (λ c : list byte, len c ≤ ws_chunk_size s) chunks.
Proof.
  revert s. induction fuel as [|fuel IH]; intros s Hs Hf; [lia|]. cbn [drain_worker].
  destruct (fetch_active worker label s Hs) as [(c & s' & -> & Hs' & Hr & Hc & Hsz & He & Hw)|(Hr & s' & ->)].
  - destruct (IH s' Hs' ltac:(lia)) as (cs & -> & Hcs & HF). eexists. split; [by rewrite He|].
    cbn [concat]. rewrite Hcs, Hr. split; [done|]. constructor; [done|]. by rewrite Hsz in HF.
  - exists []. rewrite Hr. split; [|done]. destruct (ending (ws_receiver s)) as [[]|]; reflexivity.
Qed.

Lemma batch_bytes_messages bs r : batch_bytes (worker_messages bs r) = concat bs.
Proof.
  induction bs as [|b bs IH]; cbn; [|by rewrite <- IH]. destruct r as [|e|]; [done| |done]. cbn. by case_if.
Qed.

Lemma ending_messages bs r : ending (worker_messages bs r) = head (last_message r).
Proof. induction bs as [|b bs IH]; [|exact IH]. destruct r as [|e|]; [done| |done]. cbn. by case_if. Qed.

Lemma from_receiver_active bs r chunk :
  1 ≤ chunk → Forall (λ b : list byte, len b ≤ usize_max) bs → active (from_receiver (worker_messages bs r) chunk).
Proof.
  intros Hc Hz. split; cbn; try done; [by left|]. unfold worker_messages. apply Forall_app. split.
  - by apply Forall_fmap.
  - destruct r as [|e|]; cbn; [by constructor| |done]. case_if; by constructor.
Qed.

(** C25: a client of a blocking worker stream gets, chunk by chunk and never more than
    the chunk size, exactly the bytes of the batches the worker produced, in order;
    then the end when the query succeeded, a worker-crashed error when the worker
    vanished, and the error of the query otherwise, except that any error whose text
    contains "cancelled" is taken for a cancellation and ends the stream as if it
    were complete. *)
Theorem worker_stream_complete (batches : list (list byte)) (r : Result unit) (chunk : Z) :
  1 ≤ chunk → Forall (λ b : list byte, len b ≤ usize_max) batches →
  let s := from_receiver (worker_messages batches r) chunk in
  ∃ chunks, drain_worker batched_fetch (S (length (concat batches) + S (length batches))) s =
      (chunks, match r with
               | Ok _ => Ok None
               | Err e => if contains (to_string e) "cancelled" then Ok None else Err (InternalError (to_string e))
               | Panic => Err (WorkerCrashed "Stream worker disconnected unexpectedly: receiving on a closed channel")
               end) ∧
    concat chunks = concat batches ∧ Forall (λ c : list byte, len c ≤ chunk) chunks.
Proof.
  intros Hc Hz. cbv zeta. set (s := from_receiver _ _). assert (active s) as Hs by by apply from_receiver_active.
  assert (remaining s = concat batches) as Hr by apply batch_bytes_messages.
  destruct (drain_active "Stream" "Streaming" (S (length (concat batches) + S (length batches))) s Hs) as (cs & Hd & Hcs & HF).
  { unfold work. rewrite Hr. cbn [ws_receiver s from_receiver]. unfold worker_messages. rewrite length_app, length_map.
    destruct r as [|e|]; cbn; [lia| |lia]. case_if; cbn; lia. }
  exists cs. split; [|by rewrite Hcs, Hr]. unfold batched_fetch. rewrite Hd. cbn [ws_receiver s from_receiver]. rewrite ending_messages.
  destruct r as [|e|]; [done| |done]. cbn. by case_if.
Qed.

Lemma worker_stream_complete_witness :
  let s := from_receiver (worker_messages [[x01; x02; x03]; [x04]] (Err (OdbcApi "statement cancelled by server"))) 2 in
  ∃ chunks, drain_worker batched_fetch 8 s = (chunks, Ok None) ∧
    concat chunks = [x01; x02; x03; x04] ∧ Forall (λ c : list byte, len c ≤ 2) chunks.
Proof.
  apply (worker_stream_complete [[x01; x02; x03]; [x04]] (Err (OdbcApi "statement cancelled by server")) 2);
    [lia|by repeat constructor].
Defined.

(** * The polled stream *)

(** The stream has ended or failed. *)
Definition closed (s : WorkerStream) : Prop := ws_done s = true ∨ is_Some (ws_error s).

Lemma closed_fetch worker label s : closed s → ∃ r, fetch_next_chunk worker label s = (r, s) ∧ ∀ c, r ≠ Ok (Some c).
Proof.
  intros [Hd|[m Hm]]; unfold fetch_next_chunk; [|rewrite Hm; by eexists].
  destruct (ws_error s); [by eexists|]. rewrite Hd. by eexists.
Qed.

Lemma closed_poll arrived s : closed s → (poll_status arrived s).2 = s.
Proof.
  intros Hc. unfold poll_status, pull_next_message_nonblocking. cbn [snd].
  assert (ws_done s || bool_decide (is_Some (ws_error s)) = true) as ->; [|done].
  destruct Hc as [->|Hm]; [done|]. rewrite (bool_decide_eq_true_2 _ Hm). apply orb_true_r.
Qed.

(** A poll of an active stream keeps what remains, or finds the end when nothing does. *)
Lemma poll_active arrived s :
  active s → let '(st, s') := poll_status arrived s in
  active s' ∧ remaining s' = remaining s ∨ closed s' ∧ remaining s = [].
Proof.
  intros Hs. pose proof Hs as [Hc Ho Hl Hd He Hca Hz]. unfold poll_status, pull_next_message_nonblocking. rewrite Hd, He.
  rewrite (bool_decide_eq_false_2 (is_Some None)) by (by intros [? ?]). cbn [orb].
  destruct (bool_decide (is_Some (ws_current s)) && (ws_offset s <? current_len s)) eqn:Hcur; [by left|].
  destruct arrived; cbn [negb]; [|by left].
  assert (current_rest s = []) as Hrest.
  { unfold current_rest, current_len in *. destruct (ws_current s) as [b|]; [|done].
    rewrite bool_decide_eq_true_2 in Hcur by (by eexists). cbn [andb] in Hcur. apply Z.ltb_ge in Hcur. apply drop_ge. unfold len in *. lia. }
  unfold remaining. rewrite Hrest. cbn [app]. destruct (ws_receiver s) as [|m rx] eqn:Hrx; [right; split; [by left|done]|].
  inversion Hz as [|? ? Hb Hz']; subst. destruct m as [b| | |e]; cbn [receive]; [left|right..].
  - split; [split; cbn; first [done|lia|by right]|]. done.
  - split; [by left|done].
  - split; [by left|done].
  - split; [right; by eexists|done].
Qed.

(** What a client does with a polled stream; a poll comes with whether the next
    message has arrived by then. *)
Inductive client_op := OpPoll (arrived : bool) | OpFetch.

Fixpoint run_ops (ops : list client_op) (s : WorkerStream) : list (list byte) * WorkerStream :=
  match ops with
  | [] => ([], s)
  | OpPoll arrived :: ops => run_ops ops (poll_status arrived s).2
  | OpFetch :: ops =>
      match async_fetch s with
      | (Ok (Some c), s) => let '(cs, s) := run_ops ops s in (c :: cs, s)
      | (_, s) => run_ops ops s
      end
  end.

Lemma run_ops_closed ops s : closed s → run_ops ops s = ([], s).
Proof.
  intros Hc. induction ops as [|[arrived|] ops IH]; cbn [run_ops]; [done|by rewrite closed_poll|].
  destruct (closed_fetch "Async stream" "Async stream" s Hc) as (r & Hf & Hr). unfold async_fetch. rewrite Hf.
  destruct r as [[c|]|e|]; [by destruct (Hr c)|done..].
Qed.

Lemma fetch_end_closed worker label s s' r :
  active s → fetch_next_chunk worker label s = (r, s') → (∀ c, r ≠ Ok (Some c)) → closed s'.
Proof.
  intros Hs Hf Hr. pose proof Hs as [Hc Ho Hl Hd He Hca Hz]. unfold fetch_next_chunk in Hf. rewrite He, Hd in Hf.
  assert (∀ s1 b, active s1 → ws_current s1 = Some b → ws_offset s1 < len b ∨ ws_offset s1 = 0 → cut_chunk label s1 = (r, s') → closed s') as Hcut.
  { intros s1 b Hs1 Hb Hp Hcf. destruct (cut_chunk_ok label s1 b Hs1 Hb Hp) as (c & s2 & Hk & _). rewrite Hk in Hcf.
    injection Hcf as <- _. by destruct (Hr c). }
  destruct (match ws_current s with None => true | Some b => len b <=? ws_offset s end) eqn:Hg.
  - destruct (ws_receiver s) as [|m rx] eqn:Hrx; [injection Hf as _ <-; by left|]. inversion Hz as [|? ? Hb Hz']; subst.
    destruct m as [b| | |e]; [|injection Hf as _ <-; first [by left|right; by eexists]..].
    apply (Hcut (receive s (MBatch b) rx) b); [split; cbn; first [done|lia|by right]|done|by right|done].
  - destruct (ws_current s) as [b|] eqn:Hb; [|done]. apply Z.leb_gt in Hg. apply (Hcut s b); [done|done|by left|done].
Qed.

(** C24: polls and fetches in any order, with messages arriving at any time, give the
    client the bytes of the stream in order, none lost and none twice; once the
    stream is closed it has given all of them; and when a poll answers "ready" the
    next fetch returns a nonempty chunk without waiting for the worker. *)
Theorem poll_fetch_any_order (ops : list client_op) (s : WorkerStream) :
  active s →
  let '(chunks, s') := run_ops ops s in
  (active s' ∧ concat chunks ++ remaining s' = remaining s ∨ closed s' ∧ concat chunks = remaining s) ∧
  (∀ arrived s1, active s' → poll_status arrived s' = (StReady, s1) →
     ∃ c s2, async_fetch s1 = (Ok (Some c), s2) ∧ c ≠ [] ∧ ws_receiver s2 = ws_receiver s1).
Proof.
  intros Hs. destruct (run_ops ops s) as [chunks s'] eqn:Hrun. split.
  - revert s chunks Hs Hrun. induction ops as [|[arrived|] ops IH]; intros s chunks Hs Hrun; cbn [run_ops] in Hrun.
    + injection Hrun as <- <-. by left.
    + pose proof (poll_active arrived s Hs) as Hp. destruct (poll_status arrived s) as [st s1]. cbn [snd] in Hrun.
      destruct Hp as [[Hs1 Hr]|[Hc Hr]]; [rewrite <- Hr; by apply IH|].
      rewrite run_ops_closed in Hrun by done. injection Hrun as <- <-. right. by rewrite Hr.
    + destruct (fetch_active "Async stream" "Async stream" s Hs) as [(c & s1 & Hf & Hs1 & Hr & _)|(Hr & s1 & Hf)];
        unfold async_fetch in Hrun; rewrite Hf in Hrun.
      * destruct (run_ops ops s1) as [cs s2] eqn:Hops. injection Hrun as <- <-. rewrite Hr. cbn [concat].
        destruct (IH s1 cs Hs1 Hops) as [[H1 H2]|[H1 H2]]; [left|right]; (split; [done|]); rewrite <- H2; [by rewrite app_assoc|done].
      * assert (closed s1) as Hc by (eapply fetch_end_closed; [exact Hs|exact Hf|]; by destruct (ending (ws_receiver s)) as [[]|]).
        right. destruct (ending (ws_receiver s)) as [[]|]; cbn in Hrun; rewrite run_ops_closed in Hrun by done;
          injection Hrun as <- <-; by rewrite Hr.
  - clear Hrun Hs. intros arrived s1 Hs Hp. pose proof (poll_active arrived s' Hs) as Ha. rewrite Hp in Ha.
    unfold poll_status in Hp. set (s3 := pull_next_message_nonblocking arrived s') in *. injection Hp as Hst <-.
    assert (is_Some (ws_current s3) ∧ ws_offset s3 < current_len s3 ∧ ws_error s3 = None ∧ ws_done s3 = false) as ([b Hb] & Hlt & He & Hd).
    { destruct (ws_error s3) as [m|]; [rewrite bool_decide_eq_true_2 in Hst by (by eexists); done|].
      rewrite bool_decide_eq_false_2 in Hst by (by intros [? ?]). destruct (ws_cancelled s3), (ws_done s3); try done.
      destruct (bool_decide (is_Some (ws_current s3)) && (ws_offset s3 <? current_len s3)) eqn:Hg; [|done].
      apply andb_prop in Hg as [Hg1%bool_decide_eq_true Hg2%Z.ltb_lt]. done. }
    destruct Ha as [[Hs3 _]|[[Hx|[m Hx]] _]]; [|congruence..].
    unfold current_len in Hlt. rewrite Hb in Hlt.
    destruct (cut_chunk_ok "Async stream" s3 b Hs3 Hb) as (c & s4 & Hk & _ & Hr & _ & _ & Hpos & _); [by left|].
    exists c, s4. split; [|split; [|done]].
    + unfold async_fetch, fetch_next_chunk. rewrite He, Hd, Hb. destruct (Z.leb_spec (len b) (ws_offset s3)); [lia|done].
    + intros ->. destruct Hs3 as [_ Ho _ _ _ _ _]. unfold len in *. cbn in Hpos. lia.
Qed.

Lemma poll_fetch_any_order_witness :
  let s := from_receiver (worker_messages [[x01; x02; x03]; [x04]] (Ok tt)) 2 in
  let '(chunks, s') := run_ops [OpPoll false; OpPoll true; OpFetch; OpPoll true; OpFetch; OpFetch; OpPoll true] s in
  (active s' ∧ concat chunks ++ remaining s' = [x01; x02; x03; x04] ∨ closed s' ∧ concat chunks = [x01; x02; x03; x04]) ∧
  (∀ arrived s1, active s' → poll_status arrived s' = (StReady, s1) →
     ∃ c s2, async_fetch s1 = (Ok (Some c), s2) ∧ c ≠ [] ∧ ws_receiver s2 = ws_receiver s1).
Proof.
  apply (poll_fetch_any_order [OpPoll false; OpPoll true; OpFetch; OpPoll true; OpFetch; OpFetch; OpPoll true]
    (from_receiver (worker_messages [[x01; x02; x03]; [x04]] (Ok tt)) 2)).
  apply from_receiver_active; [lia|by repeat constructor].
Defined.

(** A worker that vanishes without a word is a worker-crashed error when the
    client fetches, but when the client polls first the stream counts as done, and
    the fetch after the poll reports a complete stream. *)
Theorem poll_masks_crash (s : WorkerStream) :
  active s → remaining s = [] → ws_receiver s = [] →
  (∃ m s', async_fetch s = (Err (WorkerCrashed m), s')) ∧
  ∃ s', poll_status true s = (StDone, s') ∧ async_fetch s' = (Ok None, s').
Proof.
  intros Hs Hr Hrx. pose proof Hs as [Hc Ho Hl Hd He Hca Hz]. unfold remaining in Hr. rewrite Hrx in Hr. cbn [batch_bytes] in Hr.
  rewrite app_nil_r in Hr. unfold current_rest in Hr. split.
  - destruct (fetch_active "Async stream" "Async stream" s Hs) as [(c & s' & Hf & Hs' & Hrem & Hlc & Hsz & He' & Hw)|(_ & s' & Hf)].
    + unfold work, remaining in Hw. rewrite Hrx in Hw. cbn in Hw. rewrite app_nil_r in Hw. unfold current_rest in Hw at 2. rewrite Hr in Hw. cbn in Hw. lia.
    + unfold async_fetch. rewrite Hf, Hrx. by eexists _, _.
  - assert (bool_decide (is_Some (ws_current s)) && (ws_offset s <? current_len s) = false) as Hcur.
    { unfold current_len. destruct (ws_current s) as [b|]; [|done]. rewrite bool_decide_eq_true_2 by (by eexists). cbn [andb].
      apply Z.ltb_ge. apply (f_equal length) in Hr. rewrite length_drop in Hr. cbn in Hr. unfold len. lia. }
    unfold poll_status, pull_next_message_nonblocking. rewrite Hd, He. rewrite (bool_decide_eq_false_2 (is_Some None)) by (by intros [? ?]).
    cbn [orb]. rewrite Hcur, Hrx. cbn [negb]. eexists. cbn [ws_error ws_cancelled ws_done].
    rewrite Hca, (bool_decide_eq_false_2 (is_Some None)) by (by intros [? ?]). split; [reflexivity|].
    unfold async_fetch, fetch_next_chunk. by cbn [ws_error ws_done].
Qed.

Lemma poll_masks_crash_witness :
  let s := from_receiver (worker_messages [] Panic) 2 in
  (∃ m s', async_fetch s = (Err (WorkerCrashed m), s')) ∧
  ∃ s', poll_status true s = (StDone, s') ∧ async_fetch s' = (Ok None, s').
Proof. apply poll_masks_crash; [apply from_receiver_active; [lia|constructor]|reflexivity|reflexivity]. Defined.
