(* ===== verification/Handles.v ===== *)
(** Connection handles (handles/mod.rs) and live DBMS detection
    (engine/dbms_info.rs), with the world they act on: the handle table, the
    mutexes that can be poisoned, and the calls that reach the ODBC driver.

    The driver is third-party code.  It is a parameter of the model, the class
    [Driver]: its answer to a call may depend on every earlier call of the
    process, so a theorem about all drivers covers every failure at every point. *)

From S2P Require Import Prelude Wire Errors Text Capabilities OutputParams.

(** * The driver and the world *)

(** A cell of a bound parameter buffer, and the buffer descriptions of [odbc_api]. *)
Inductive BindCell :=
| BNull
| BInt (v : Z)
| BBytes (v : list byte)
| BTime (year month day hour minute second fraction : Z).

Inductive BufferDesc :=
| DescI32 (nullable : bool)
| DescI64 (nullable : bool)
| DescText (max_str_len : Z)
| DescBinary (length : Z)
| DescTimestamp (nullable : bool).

#[export] Instance BindCell_eq_dec : EqDecision BindCell.
Proof. solve_decision. Defined.
#[export] Instance BufferDesc_eq_dec : EqDecision BufferDesc.
Proof. solve_decision. Defined.

(** The calls of the engine on a connection, those that can change its state and
    those that read it. A [CBatch] executes the prepared statement of the
    connection with the given columns of parameters; a [CRun] executes a statement,
    prepared before or directly, and [CStatement] allocates one for later. *)
Inductive Call :=
| CConnect (conn_str : string) (login_timeout : option Z)
| CExec (sql : string)
| CCommit
| CRollback
| CAutocommit (on : bool)
| CDbmsName
| CMaxNameLen (kind : nat)
| CCurrentCatalog
| CPrepare (sql : string)
| CInserter (capacity : Z) (descs : list BufferDesc)
| CBatch (columns : list (list BindCell))
| CStatement
| CQueryTimeout (seconds : Z)
| CRun (prepared : bool) (sql : string) (params : QueryParams) (timeout : option Z).

#[export] Instance Call_eq_dec : EqDecision Call.
Proof. solve_decision. Defined.

(** Every call of the process in order: the physical connection it was made on,
    the call, and whether the driver reported success. *)
Abbreviation History := (list (Z * Call * bool)).

(** The driver's answers; an [odbc_api] error arrives already converted by
    [OdbcError::from]. *)
Class Driver := {
  dr_answer : History → Z → Call → outcome OdbcError unit;
  dr_dbms_name : History → Z → outcome OdbcError string;
  dr_name_len : History → Z → nat → outcome OdbcError Z;
  dr_catalog : History → Z → outcome OdbcError string;
  dr_rows : History → Z → string → outcome OdbcError (list (list (list byte)));
  dr_answer_no_panic : ∀ h c k, dr_answer h c k ≠ Panic;
  dr_dbms_name_no_panic : ∀ h c, dr_dbms_name h c ≠ Panic
}.

Record HandleManager := mkHandles {
  hm_env : bool;
  hm_connections : gmap Z Z;
  hm_next_conn_id : Z
}.

(** The process: the handle table behind its mutex, the connections whose mutex
    is poisoned, the number of the next physical connection, the calls made. *)
Record World := mkWorld {
  w_handles : HandleManager;
  w_handles_poisoned : bool;
  w_conn_poisoned : gset Z;
  w_next_phys : Z;
  w_trace : History
}.

(** * Stateful, fallible code *)

Definition M (A : Type) : Type := World → outcome OdbcError A * World.

Definition ret {A : Type} (a : A) : M A := λ w, (Ok a, w).

Definition lift {A : Type} (m : outcome OdbcError A) : M A := λ w, (m, w).

Definition bind {A B : Type} (m : M A) (k : A → M B) : M B := λ w,
  match m w with
  | (Ok a, w) => k a w
  | (Err e, w) => (Err e, w)
  | (Panic, w) => (Panic, w)
  end.

(** [match m { Ok .. Err .. }] without leaving the function. *)
Definition try_m {A : Type} (m : M A) : M (outcome OdbcError A) := λ w,
  match m w with
  | (Panic, w) => (Panic, w)
  | (r, w) => (Ok r, w)
  end.

Notation "'let!' p ':=' m 'in' k" := (bind m (fun p => k))
  (at level 10, p binder, m at level 100, k at level 200,
   format "'[v' 'let!'  p  ':='  m  'in' '/' k ']'") : odbc_scope.

Section Calls.
Context `{Driver}.

Definition record_call (phys : Z) (c : Call) (ok : bool) (w : World) : World :=
  mkWorld (w_handles w) (w_handles_poisoned w) (w_conn_poisoned w) (w_next_phys w) (w_trace w ++ [(phys, c, ok)]).

Definition call (phys : Z) (c : Call) : M unit := λ w,
  let r := dr_answer (w_trace w) phys c in (r, record_call phys c (is_ok r) w).

(** [conn.execute(sql, (), None)] with its cursor dropped. *)
Definition exec (phys : Z) (sql : string) : M unit := call phys (CExec sql).

(** [conn.execute] of a query with its cursor read to the end, each row as the
    texts of its columns (a NULL is an empty text). *)
Definition query_rows (phys : Z) (sql : string) : M (list (list (list byte))) := λ w,
  let r := dr_rows (w_trace w) phys sql in (r, record_call phys (CExec sql) (is_ok r) w).

(** [handles.lock().map_err(..)] *)
Definition lock_handles (msg : string) : M HandleManager := λ w,
  if w_handles_poisoned w then (Err (InternalError msg), w) else (Ok (w_handles w), w).

Definition lock_connection (phys : Z) : M unit := λ w,
  if bool_decide (phys ∈ w_conn_poisoned w) then (Err (InternalError "Failed to lock connection"), w) else (Ok tt, w).

(** * The handle manager *)

Definition MAX_CONN_ID_ALLOC_ATTEMPTS : nat := 1000.

Definition hm_new : HandleManager := mkHandles false ∅ 1.

(** [u32::wrapping_add] *)
Definition wrapping_add32 (a b : Z) : Z := (a + b) mod 2 ^ 32.

(** The allocation loop of every table of handles: the id found (0 when none is) and
    the advanced counter. *)
Fixpoint alloc_id (attempts : nat) (used : gset Z) (next : Z) : Z * Z :=
  match attempts with
  | O => (0, next)
  | S attempts =>
      let candidate := next in
      let next := wrapping_add32 next 1 in
      if negb (candidate =? 0) && negb (bool_decide (candidate ∈ used)) then (candidate, next)
      else alloc_id attempts used next
  end.

Definition alloc_conn_id (attempts : nat) (conns : gmap Z Z) (next : Z) : Z * Z := alloc_id attempts (dom conns) next.

Definition set_handles (hm : HandleManager) (w : World) : World :=
  mkWorld hm (w_handles_poisoned w) (w_conn_poisoned w) (w_next_phys w) (w_trace w).

(** [init_environment]: [ok] is the outcome of [Environment::new]. *)
Definition init_environment (ok : outcome OdbcError unit) : M unit := λ w,
  match ok with
  | Ok _ => (Ok tt, set_handles (mkHandles true (hm_connections (w_handles w)) (hm_next_conn_id (w_handles w))) w)
  | Err e => (Err e, w)
  | Panic => (Panic, w)
  end.

(** The driver opens a physical connection. *)
Definition connect (conn_str : string) (timeout : option Z) : M Z := λ w,
  let phys := w_next_phys w in
  let r := dr_answer (w_trace w) phys (CConnect conn_str timeout) in
  let w' := mkWorld (w_handles w) (w_handles_poisoned w) (w_conn_poisoned w) (phys + 1)
              (w_trace w ++ [(phys, CConnect conn_str timeout, is_ok r)]) in
  match r with
  | Ok _ => (Ok phys, w')
  | Err e => (Err e, w')
  | Panic => (Panic, w')
  end.

(** [&mut self] of the manager: the caller holds its lock. *)
Definition create_connection_with_options (conn_str : string) (timeout : option Z) : M Z := λ w,
  if negb (hm_env (w_handles w)) then (Err EnvironmentNotInitialized, w)
  else
    (let! phys := connect conn_str timeout in
     λ w,
       let hm := w_handles w in
       let '(conn_id, next) := alloc_conn_id MAX_CONN_ID_ALLOC_ATTEMPTS (hm_connections hm) (hm_next_conn_id hm) in
       if conn_id =? 0 then
         (Err (InternalError "Failed to allocate connection ID after max attempts"),
          set_handles (mkHandles (hm_env hm) (hm_connections hm) next) w)
       else
         (Ok conn_id, set_handles (mkHandles (hm_env hm) (<[conn_id := phys]> (hm_connections hm)) next) w)) w.

Definition create_connection (conn_str : string) : M Z := create_connection_with_options conn_str None.

Definition create_connection_with_timeout (conn_str : string) (timeout_secs : Z) : M Z :=
  create_connection_with_options conn_str (Some timeout_secs).

(** [get_connection]: the shared connection, by its physical number. *)
Definition get_connection (hm : HandleManager) (conn_id : Z) : outcome OdbcError Z :=
  ok_or (hm_connections hm !! conn_id) (InvalidHandle conn_id).

Definition with_connection {A : Type} (conn_id : Z) (f : Z → M A) : M A := λ w,
  (let! phys := lift (get_connection (w_handles w) conn_id) in
   let! _ := lock_connection phys in
   f phys) w.

Definition remove_connection (conn_id : Z) : M unit := λ w,
  let hm := w_handles w in
  match hm_connections hm !! conn_id with
  | Some _ => (Ok tt, set_handles (mkHandles (hm_env hm) (delete conn_id (hm_connections hm)) (hm_next_conn_id hm)) w)
  | None => (Err (InvalidHandle conn_id), w)
  end.

(** The prefix every engine operation starts with: lock the table, look the
    connection up, release the table, lock the connection. *)
Definition open_connection (msg : string) (conn_id : Z) : M Z :=
  let! h := lock_handles msg in
  let! phys := lift (get_connection h conn_id) in
  let! _ := lock_connection phys in
  ret phys.

(** * Live detection *)

Record DbmsInfo := mkDbmsInfo {
  di_dbms_name : string;
  di_engine : string;
  di_max_catalog : Z;
  di_max_schema : Z;
  di_max_table : Z;
  di_max_column : Z;
  di_catalog : string;
  di_capabilities : DriverCapabilities
}.

(** A best-effort name-length query: 0 when the driver fails. *)
Definition name_len (phys : Z) (kind : nat) : M Z := λ w,
  let r := dr_name_len (w_trace w) phys kind in
  (Ok match r with Ok n => n | _ => 0 end, record_call phys (CMaxNameLen kind) (is_ok r) w).

Definition detect (phys : Z) : M DbmsInfo :=
  let! dbms_name := (λ w, let r := dr_dbms_name (w_trace w) phys in (r, record_call phys CDbmsName (is_ok r) w)) in
  let caps := from_driver_name dbms_name in
  let capabilities := mkCaps (supports_prepared_statements caps) (supports_batch_operations caps)
    (supports_streaming caps) (max_row_array_size caps) dbms_name (driver_version caps) (engine caps) in
  let! c := name_len phys 0 in
  let! s := name_len phys 1 in
  let! t := name_len phys 2 in
  let! k := name_len phys 3 in
  let! cat := (λ w, let r := dr_catalog (w_trace w) phys in
                  (Ok match r with Ok n => n | _ => EmptyString end, record_call phys CCurrentCatalog (is_ok r) w)) in
  ret (mkDbmsInfo dbms_name (engine capabilities) c s t k cat capabilities).

Definition detect_for_conn_id (conn_id : Z) : M DbmsInfo :=
  let! phys := open_connection "Failed to lock handles" conn_id in
  detect phys.
End Calls.

(** * Runs

    [runs m w h r]: started in [w], [m] makes exactly the driver calls [h], changes
    nothing else of the world, and ends with [r]. *)

Definition w_ext (w : World) (h : History) : World :=
  mkWorld (w_handles w) (w_handles_poisoned w) (w_conn_poisoned w) (w_next_phys w) (w_trace w ++ h).

Definition runs {A : Type} (m : M A) (w : World) (h : History) (r : outcome OdbcError A) : Prop :=
  m w = (r, w_ext w h).

(** The connection [id] can be locked, and is the physical connection [phys]. *)
Definition live (w : World) (id phys : Z) : Prop :=
  w_handles_poisoned w = false ∧ hm_connections (w_handles w) !! id = Some phys ∧ phys ∉ w_conn_poisoned w.

Lemma w_ext_nil w : w_ext w [] = w.
Proof. destruct w. unfold w_ext. cbn. by rewrite app_nil_r. Qed.

Lemma w_ext_app w h1 h2 : w_ext (w_ext w h1) h2 = w_ext w (h1 ++ h2).
Proof. unfold w_ext. cbn. by rewrite app_assoc. Qed.

Lemma live_ext w h id phys : live (w_ext w h) id phys ↔ live w id phys.
Proof. done. Qed.

Section Runs.
Context `{Driver}.

Lemma runs_ret {A : Type} (a : A) w : runs (ret a) w [] (Ok a).
Proof. unfold runs. by rewrite w_ext_nil. Qed.

Lemma runs_eq {A : Type} (m m' : M A) w h r : m w = m' w → runs m' w h r → runs m w h r.
Proof. unfold runs. by intros ->. Qed.

Lemma runs_lift {A : Type} (r : outcome OdbcError A) w : runs (lift r) w [] r.
Proof. unfold runs. by rewrite w_ext_nil. Qed.

Lemma runs_call phys c w :
  runs (call phys c) w [(phys, c, is_ok (dr_answer (w_trace w) phys c))] (dr_answer (w_trace w) phys c).
Proof. reflexivity. Qed.

Lemma runs_bind {A B : Type} (m : M A) (k : A → M B) w h1 h2 a r :
  runs m w h1 (Ok a) → runs (k a) (w_ext w h1) h2 r → runs (bind m k) w (h1 ++ h2) r.
Proof. unfold runs, bind. intros -> ->. by rewrite w_ext_app. Qed.

Lemma runs_bind_nil {A B : Type} (m : M A) (k : A → M B) w h a r :
  runs m w [] (Ok a) → runs (k a) w h r → runs (bind m k) w h r.
Proof. intros H1 H2. apply (runs_bind _ _ _ [] h a r H1). by rewrite w_ext_nil. Qed.

Lemma runs_bind_err {A B : Type} (m : M A) (k : A → M B) w h e :
  runs m w h (Err e) → runs (bind m k) w h (Err e).
Proof. unfold runs, bind. by intros ->. Qed.

Lemma runs_try {A : Type} (m : M A) w h r : r ≠ Panic → runs m w h r → runs (try_m m) w h (Ok r).
Proof. unfold runs, try_m. intros Hr ->. by destruct r. Qed.

Lemma runs_open msg id w phys : live w id phys → runs (open_connection msg id) w [] (Ok phys).
Proof.
  intros (H1 & H2 & H3). unfold runs, open_connection, bind, lock_handles, lift, lock_connection, get_connection.
  rewrite H1, H2. cbn. rewrite bool_decide_eq_false_2 by done. by rewrite w_ext_nil.
Qed.

(** Opening never calls the driver; when it does not succeed the connection is not live. *)
Lemma open_cases msg id w :
  (∃ phys, live w id phys ∧ runs (open_connection msg id) w [] (Ok phys)) ∨
  ((∀ phys, ¬ live w id phys) ∧ ∃ e, runs (open_connection msg id) w [] (Err e)).
Proof.
  destruct (w_handles_poisoned w) eqn:Hp.
  { right. split; [intros p (? & _); congruence|]. eexists. unfold runs, open_connection, bind, lock_handles.
    rewrite Hp. by rewrite w_ext_nil. }
  destruct (hm_connections (w_handles w) !! id) as [phys|] eqn:Hl.
  2: { right. split; [intros p (_ & ? & _); congruence|]. eexists.
       unfold runs, open_connection, bind, lock_handles, lift, get_connection. rewrite Hp, Hl. cbn. by rewrite w_ext_nil. }
  destruct (decide (phys ∈ w_conn_poisoned w)) as [Hc|Hc].
  { right. split; [intros p (_ & ? & Hn); congruence|]. eexists.
    unfold runs, open_connection, bind, lock_handles, lift, get_connection, lock_connection. rewrite Hp, Hl. cbn.
    rewrite bool_decide_eq_true_2 by done. by rewrite w_ext_nil. }
  left. exists phys. split; [done|]. by apply runs_open.
Qed.

(** ** Sequences of statements *)

Fixpoint exec_all (phys : Z) (sqls : list string) : M unit :=
  match sqls with
  | [] => ret tt
  | sql :: sqls => let! _ := exec phys sql in exec_all phys sqls
  end.

Definition executed (phys : Z) (ok : bool) (sql : string) : Z * Call * bool := (phys, CExec sql, ok).

(** All succeed, or the first failing one is the last made. *)
Lemma exec_all_cases phys sqls w :
  runs (exec_all phys sqls) w (map (executed phys true) sqls) (Ok tt) ∨
  ∃ pre sql post e, sqls = pre ++ sql :: post ∧
    runs (exec_all phys sqls) w (map (executed phys true) pre ++ [executed phys false sql]) (Err e).
Proof.
  revert w. induction sqls as [|sql sqls IH]; intros w; cbn [exec_all map].
  { left. apply runs_ret. }
  pose proof (runs_call phys (CExec sql) w) as Hc.
  destruct (dr_answer (w_trace w) phys (CExec sql)) as [[]|e|] eqn:Ha; cbn [is_ok] in Hc.
  - destruct (IH (w_ext w [(phys, CExec sql, true)])) as [Hr|(pre & s & post & e & -> & Hr)].
    + left. exact (runs_bind _ _ _ _ _ _ _ Hc Hr).
    + right. exists (sql :: pre), s, post, e. split; [done|]. exact (runs_bind _ _ _ _ _ _ _ Hc Hr).
  - right. exists [], sql, sqls, e. split; [done|]. exact (runs_bind_err _ _ _ _ _ Hc).
  - by apply dr_answer_no_panic in Ha.
Qed.

(** ** Queries: calls that do not change the connection *)

Definition is_query (phys : Z) (ev : Z * Call * bool) : bool :=
  match ev with
  | (p, (CDbmsName | CMaxNameLen _ | CCurrentCatalog), _) => p =? phys
  | _ => false
  end.

Lemma detect_cases phys w :
  (∃ h info, Forall (λ ev, is_query phys ev = true) h ∧ runs (detect phys) w h (Ok info) ∧
     ∃ name, dr_dbms_name (w_trace w) phys = Ok name ∧ di_engine info = engine (from_driver_name name)) ∨
  (∃ h e, Forall (λ ev, is_query phys ev = true) h ∧ runs (detect phys) w h (Err e)).
Proof.
  unfold detect, runs, bind. destruct (dr_dbms_name (w_trace w) phys) as [name|e|] eqn:Hn.
  - left. cbn. eexists _, _. split; [|split].
    2: { unfold name_len, ret, record_call, w_ext. cbn. f_equal. f_equal. by rewrite <- !app_assoc. }
    + repeat constructor; cbn; apply Z.eqb_refl.
    + by exists name.
  - right. eexists [(phys, CDbmsName, false)], e. split; [|done]. repeat constructor. cbn. apply Z.eqb_refl.
  - by apply dr_dbms_name_no_panic in Hn.
Qed.
End Runs.

(** * Allocation *)

(** The handle table holds ids of the FFI: nonzero [u32]s, and a [u32] counter. *)
Record handles_wf (hm : HandleManager) : Prop := {
  hw_ids : ∀ id phys, hm_connections hm !! id = Some phys → 0 < id < 2 ^ 32;
  hw_next : u32_range (hm_next_conn_id hm)
}.

Lemma wrapping_add32_range a b : u32_range (wrapping_add32 a b).
Proof. unfold u32_range, wrapping_add32. apply Z.mod_pos_bound. lia. Qed.

Lemma alloc_id_sound n used next id next' :
  u32_range next → alloc_id n used next = (id, next') →
  u32_range next' ∧ (id = 0 ∨ 0 < id < 2 ^ 32 ∧ id ∉ used).
Proof.
  revert next. induction n as [|n IH]; intros next Hr H; cbn [alloc_id] in H.
  - injection H as <- <-. split; [done|by left].
  - case_if_in H; [|eapply IH; [apply wrapping_add32_range|exact H]]. injection H as <- <-.
    split; [apply wrapping_add32_range|]. right. bool_to_prop. unfold u32_range in Hr.
    split; [lia|]. by apply bool_decide_eq_false in H0.
Qed.

Lemma alloc_conn_id_sound n conns next id next' :
  u32_range next → alloc_conn_id n conns next = (id, next') →
  u32_range next' ∧ (id = 0 ∨ 0 < id < 2 ^ 32 ∧ conns !! id = None).
Proof.
  intros Hr H. destruct (alloc_id_sound _ _ _ _ _ Hr H) as [? [?|[? Hn]]]; [by auto|]. split; [done|]. right.
  split; [done|]. by apply not_elem_of_dom in Hn.
Qed.

(** The candidates the loop tries. *)
Definition candidates (n : nat) (next : Z) : list Z := map (λ i, (next + Z.of_nat i) mod 2 ^ 32) (seq 0 n).

Lemma candidates_S n next :
  u32_range next → candidates (S n) next = next :: candidates n (wrapping_add32 next 1).
Proof.
  intros Hr. unfold candidates, u32_range in *. cbn [seq map]. f_equal.
  - rewrite Z.add_0_r. by apply Z.mod_small.
  - rewrite <- seq_shift, map_map. apply map_ext. intros i. unfold wrapping_add32.
    rewrite Zplus_mod_idemp_l. f_equal. lia.
Qed.

Lemma alloc_id_fails n used next next' :
  u32_range next → alloc_id n used next = (0, next') → Forall (λ c, c = 0 ∨ c ∈ used) (candidates n next).
Proof.
  revert next. induction n as [|n IH]; intros next Hr H; [constructor|].
  rewrite candidates_S by done. cbn [alloc_id] in H.
  case_if_in H; [injection H as -> _; done|]. constructor; [|eapply IH; [apply wrapping_add32_range|exact H]].
  apply andb_false_iff in E as [E|E]; apply negb_false_iff in E.
  - left. by apply Z.eqb_eq.
  - right. by apply bool_decide_eq_true in E.
Qed.

Lemma candidates_NoDup n next : Z.of_nat n ≤ 2 ^ 32 → NoDup (candidates n next).
Proof.
  intros Hn. unfold candidates. apply NoDup_fmap_2_strong; [|apply NoDup_ListNoDup, seq_NoDup].
  intros i j Hi Hj He. apply list_elem_of_In, in_seq in Hi, Hj.
  pose proof (Z.div_mod (next + Z.of_nat i) (2 ^ 32) ltac:(lia)) as Di.
  pose proof (Z.div_mod (next + Z.of_nat j) (2 ^ 32) ltac:(lia)) as Dj. nia.
Qed.

(** Enough room: with at most 998 ids in use one of 1000 candidates is free. *)
Lemma alloc_id_complete used next id next' :
  u32_range next → (size used ≤ 998)%nat → alloc_id 1000 used next = (id, next') → id ≠ 0.
Proof.
  intros Hr Hs H ->. apply alloc_id_fails in H; [|done].
  pose proof (candidates_NoDup 1000 next ltac:(lia)) as Hnd.
  set (cs := candidates 1000 next) in *.
  assert (length cs = 1000%nat) as Hlen by (unfold cs, candidates; by rewrite length_map, length_seq).
  assert ((list_to_set cs : gset Z) ⊆ {[0]} ∪ used) as Hsub.
  { intros c Hc%elem_of_list_to_set. rewrite Forall_forall in H. apply elem_of_union.
    destruct (H c Hc) as [->|Hx]; [left; by apply elem_of_singleton | by right]. }
  apply subseteq_size in Hsub. rewrite size_list_to_set in Hsub by done.
  pose proof (size_union_alt ({[0]} : gset Z) used) as Hu.
  pose proof (subseteq_size (used ∖ ({[0]} : gset Z)) used ltac:(apply subseteq_difference_l; done)) as Hd.
  pose proof (size_singleton (C := gset Z) 0) as H1. lia.
Qed.

Lemma alloc_conn_id_complete conns next id next' :
  u32_range next → (size conns ≤ 998)%nat →
  alloc_conn_id MAX_CONN_ID_ALLOC_ATTEMPTS conns next = (id, next') → id ≠ 0.
Proof. intros Hr Hs. apply alloc_id_complete; [done|]. by rewrite size_dom. Qed.

(** * The table invariant *)

(** Ids are nonzero [u32]s, and no two ids share a physical connection. *)
Record world_wf (w : World) : Prop := {
  ww_handles : handles_wf (w_handles w);
  ww_phys : ∀ id phys, hm_connections (w_handles w) !! id = Some phys → phys < w_next_phys w;
  ww_inj : ∀ i j phys, hm_connections (w_handles w) !! i = Some phys →
    hm_connections (w_handles w) !! j = Some phys → i = j
}.

Section Lifecycle.
Context `{Driver}.

Lemma create_connection_run w cs t :
  hm_env (w_handles w) = true →
  create_connection_with_options cs t w =
  let r := dr_answer (w_trace w) (w_next_phys w) (CConnect cs t) in
  let w1 := mkWorld (w_handles w) (w_handles_poisoned w) (w_conn_poisoned w) (w_next_phys w + 1)
              (w_trace w ++ [(w_next_phys w, CConnect cs t, is_ok r)]) in
  match r with
  | Ok _ =>
      let '(id, next) := alloc_conn_id MAX_CONN_ID_ALLOC_ATTEMPTS (hm_connections (w_handles w)) (hm_next_conn_id (w_handles w)) in
      if id =? 0 then
        (Err (InternalError "Failed to allocate connection ID after max attempts"),
         set_handles (mkHandles true (hm_connections (w_handles w)) next) w1)
      else (Ok id, set_handles (mkHandles true (<[id := w_next_phys w]> (hm_connections (w_handles w))) next) w1)
  | Err e => (Err e, w1)
  | Panic => (Panic, w1)
  end.
Proof.
  intros He. unfold create_connection_with_options. rewrite He. cbn [negb]. unfold bind, connect.
  destruct (dr_answer _ _ _); [|done..]. cbn [w_handles]. by rewrite He.
Qed.

(** Opening a connection gives a nonzero 32-bit id that was not in use and
    refers to the new connection only, keeps every other handle, also across the
    wrap-around of the counter, and succeeds whenever the driver connects and at
    most 998 handles are open; when it fails the table is as before. *)
Theorem create_connection_spec (w : World) (cs : string) (t : option Z) :
  world_wf w → hm_env (w_handles w) = true →
  let conns := hm_connections (w_handles w) in
  let '(r, w') := create_connection_with_options cs t w in
  world_wf w' ∧
  match r with
  | Ok id => 0 < id < 2 ^ 32 ∧ conns !! id = None ∧ hm_connections (w_handles w') = <[id := w_next_phys w]> conns
  | Err _ => hm_connections (w_handles w') = conns
  | Panic => False
  end ∧
  (dr_answer (w_trace w) (w_next_phys w) (CConnect cs t) = Ok tt → (size conns ≤ 998)%nat → ∃ id, r = Ok id).
Proof.
  intros [[Hids Hnext] Hphys Hinj] He. cbv zeta. rewrite create_connection_run by done. cbv zeta.
  destruct (dr_answer _ _ _) as [[]|e|] eqn:Ha; [| |by apply dr_answer_no_panic in Ha].
  2: { split; [|by split]. split; [by split| |done]. cbn. intros id p Hp%Hphys. lia. }
  destruct (alloc_conn_id _ _ _) as [id next'] eqn:Hal.
  pose proof (alloc_conn_id_sound _ _ _ _ _ Hnext Hal) as [Hnext' Hid].
  pose proof (alloc_conn_id_complete (hm_connections (w_handles w)) _ id next' Hnext) as Hcomp.
  destruct (Z.eqb_spec id 0) as [->|Hne].
  - split.
    { split; cbn; [by split| |done]. intros i p Hp%Hphys. lia. }
    split; [done|]. intros _ Hsz. by destruct (Hcomp Hsz Hal).
  - destruct Hid as [|[Hid Hfree]]; [done|]. split; [|split; [done|intros _ _; by exists id]].
    split; cbn.
    + split; cbn; [|done]. intros i p. destruct (decide (i = id)) as [->|]; [done|].
      rewrite lookup_insert_ne by done. apply Hids.
    + intros i p. destruct (decide (i = id)) as [->|].
      * rewrite lookup_insert_eq. intros [= <-]. lia.
      * rewrite lookup_insert_ne by done. intros Hp%Hphys. lia.
    + intros i j p. destruct (decide (i = id)) as [->|], (decide (j = id)) as [->|]; try done;
        rewrite ?lookup_insert_eq, ?lookup_insert_ne by done.
      * intros [= <-] Hp%Hphys. lia.
      * intros Hp%Hphys [= <-]. lia.
      * apply Hinj.
Qed.

Lemma remove_connection_wf w id : world_wf w → world_wf (remove_connection id w).2.
Proof.
  intros [[Hids Hnext] Hphys Hinj]. unfold remove_connection.
  destruct (hm_connections (w_handles w) !! id); cbn; [|by split; [split| |]].
  split; cbn; [split; cbn; [|done]| |].
  - intros i p [_ Hp]%lookup_delete_Some. by eapply Hids.
  - intros i p [_ Hp]%lookup_delete_Some. by eapply Hphys.
  - intros i j p [_ Hi]%lookup_delete_Some [_ Hj]%lookup_delete_Some. by eapply Hinj.
Qed.

(** Removing a handle keeps the invariant, invalidates exactly that id, and is an
    invalid-handle error, without effect, for an id that is not open. *)
Theorem remove_connection_spec (w : World) (id : Z) :
  world_wf w →
  let '(r, w') := remove_connection id w in
  world_wf w' ∧ get_connection (w_handles w') id = Err (InvalidHandle id) ∧
  (∀ j, j ≠ id → get_connection (w_handles w') j = get_connection (w_handles w) j) ∧
  match hm_connections (w_handles w) !! id with
  | Some _ => r = Ok tt
  | None => r = Err (InvalidHandle id) ∧ w' = w
  end.
Proof.
  intros Hw. pose proof (remove_connection_wf w id Hw) as Hw'. unfold remove_connection in *.
  destruct (hm_connections (w_handles w) !! id) eqn:Hl; cbn in *; unfold get_connection.
  - split; [done|]. cbn. rewrite lookup_delete_eq. split; [done|]. split; [|done].
    intros j Hj. by rewrite lookup_delete_ne by done.
  - rewrite Hl. done.
Qed.
End Lifecycle.

(** ** A driver that accepts everything, and a world to try it in *)

Definition ok_driver : Driver := {|
  dr_answer := λ _ _ _, Ok tt;
  dr_dbms_name := λ _ _, Ok "PostgreSQL";
  dr_name_len := λ _ _ _, Ok 63;
  dr_catalog := λ _ _, Ok "main";
  dr_rows := λ _ _ _, Ok [];
  dr_answer_no_panic := λ _ _ _ H, match H with end;
  dr_dbms_name_no_panic := λ _ _ H, match H with end
|}.

(** Connection 1 open on physical connection 0, and the counter about to wrap. *)
Definition sample_world : World :=
  mkWorld (mkHandles true {[ 1 := 0 ]} (2 ^ 32 - 1)) false ∅ 1 [].

Lemma sample_world_wf : world_wf sample_world.
Proof.
  split; [split| |]; cbn.
  - intros id p [<- <-]%lookup_singleton_Some. lia.
  - unfold u32_range. lia.
  - intros id p [<- <-]%lookup_singleton_Some. lia.
  - intros i j p [<- <-]%lookup_singleton_Some [<- _]%lookup_singleton_Some. done.
Qed.

Lemma create_connection_spec_witness :
  let '(r, w') := create_connection_with_options (H := ok_driver) "DSN=a" None sample_world in
  world_wf w' ∧
  match r with
  | Ok id => 0 < id < 2 ^ 32 ∧ hm_connections (w_handles sample_world) !! id = None ∧
      hm_connections (w_handles w') = <[id := 1]> (hm_connections (w_handles sample_world))
  | Err _ => hm_connections (w_handles w') = hm_connections (w_handles sample_world)
  | Panic => False
  end ∧ (Ok tt = Ok (E := OdbcError) tt → (size (hm_connections (w_handles sample_world)) ≤ 998)%nat → ∃ id, r = Ok id).
Proof. apply (@create_connection_spec ok_driver); [apply sample_world_wf|reflexivity]. Defined.

Lemma remove_connection_spec_witness :
  let '(r, w') := remove_connection 1 sample_world in
  world_wf w' ∧ get_connection (w_handles w') 1 = Err (InvalidHandle 1) ∧
  (∀ j, j ≠ 1 → get_connection (w_handles w') j = get_connection (w_handles sample_world) j) ∧ r = Ok tt.
Proof. apply (remove_connection_spec sample_world 1), sample_world_wf. Defined.
