(* ===== verification/Execution.v ===== *)
(** Running statements (engine/core/execution_engine.rs, pipeline.rs, engine/query.rs,
    handles/cached_connection.rs): from the SQL text to the bytes of the result.

    What a statement yields is the driver's: the class [QueryDriver] gives, for every
    history of the process, the results of an execution with the errors at every point,
    as [Execution] describes.  An [odbc_api] error arrives converted. *)

From S2P Require Import Prelude Wire Errors RowCodec ParamValue Compression Footers MultiResult Text Security.
From S2P Require Import Caches Columnar CellReader OutputParams Handles Plugins.

(** * What an execution yields *)

(** [odbc_api::DataType], without the sizes; [DtOther] stands for the types the engine
    does not tell apart. *)
Inductive DataType :=
| DtInteger | DtSmallInt | DtTinyInt | DtBit | DtBigInt | DtNumeric | DtDecimal | DtDate | DtTimestamp
| DtBinary | DtVarbinary | DtLongVarbinary | DtOther.

Definition sql_type_code_from_data_type (t : DataType) : Z :=
  match t with
  | DtInteger | DtSmallInt | DtTinyInt | DtBit => 4
  | DtBigInt => -5
  | DtNumeric | DtDecimal => 3
  | DtDate => 9
  | DtTimestamp => 11
  | DtBinary | DtVarbinary | DtLongVarbinary => -2
  | DtOther => 1
  end.

(** A cursor: its columns, the rows it delivers, and how it ends: with no more rows or
    with an error. *)
Record ResultCursor := mkCursor {
  rc_num_cols : Result Z;
  rc_col_name : Z → Result string;
  rc_col_type : Z → Result DataType;
  rc_rows : list CursorRow;
  rc_end : Result unit
}.

(** The answer of one [SQLMoreResults], and of the calls that look at its result. *)
Inductive Advance :=
| AdvSuccess (cols : Result Z) (cursor : ResultCursor) (row_count : Result Z)
| AdvError (e : option OdbcError)
| AdvNeedData
| AdvStillExecuting.

(** An execution: the cursor it opens, the affected rows, the results that follow (then
    no data), and the slots as the driver leaves them. *)
Record Execution := mkExecution {
  ex_cursor : option ResultCursor;
  ex_row_count : Result (option Z);
  ex_more : list Advance;
  ex_slots : list ParamSlot
}.

Class QueryDriver := {
  qd_execute : History → Z → Call → Result Execution;
  (** The time the process has run when a statement ends, and the latency measured. *)
  qd_now : History → Z;
  qd_latency : History → Z;
  (** The contents of a text box. *)
  qd_text : TextBox → option (list byte)
}.

Section Execution.
Context `{LS : !Lru string unit} `{D : Driver} `{Q : QueryDriver} (ops : CodecOps).

(** ** The engine *)

(** [None] for the active plugin: its mutex is poisoned.  The registry is its lookup
    by connection string. *)
Record ExecutionEngine := mkEngine {
  ee_prepared_cache : PreparedStatementCache;
  ee_use_columnar : bool;
  ee_use_compression : bool;
  ee_plugin_registry : option (string → option DriverPlugin);
  ee_active_plugin : option (option DriverPlugin);
  ee_metrics : Metrics;
  ee_audit_logger : AuditLogger
}.

Definition engine_new (now cache_size : Z) (registry : string → option DriverPlugin) : ExecutionEngine :=
  mkEngine (prep_new cache_size) false false (Some registry) (Some None) (engine_metrics_new now) (audit_new true).

Definition with_columnar (now cache_size : Z) (use_compression : bool) (registry : string → option DriverPlugin) : ExecutionEngine :=
  mkEngine (prep_new cache_size) true use_compression (Some registry) (Some None) (engine_metrics_new now) (audit_new true).

Definition set_connection_string (connection_string : string) (e : ExecutionEngine) : ExecutionEngine :=
  match ee_plugin_registry e with
  | Some registry =>
      match registry connection_string, ee_active_plugin e with
      | Some plugin, Some _ =>
          mkEngine (ee_prepared_cache e) (ee_use_columnar e) (ee_use_compression e) (ee_plugin_registry e)
            (Some (Some plugin)) (ee_metrics e) (ee_audit_logger e)
      | _, _ => e
      end
  | None => e
  end.

Definition set_cache (c : PreparedStatementCache) (e : ExecutionEngine) : ExecutionEngine :=
  mkEngine c (ee_use_columnar e) (ee_use_compression e) (ee_plugin_registry e) (ee_active_plugin e) (ee_metrics e)
    (ee_audit_logger e).

Definition set_metrics (m : Metrics) (e : ExecutionEngine) : ExecutionEngine :=
  mkEngine (ee_prepared_cache e) (ee_use_columnar e) (ee_use_compression e) (ee_plugin_registry e) (ee_active_plugin e) m
    (ee_audit_logger e).

Definition set_audit (l : AuditLogger) (e : ExecutionEngine) : ExecutionEngine :=
  mkEngine (ee_prepared_cache e) (ee_use_columnar e) (ee_use_compression e) (ee_plugin_registry e) (ee_active_plugin e)
    (ee_metrics e) l.

Definition clear_cache (e : ExecutionEngine) : ExecutionEngine := set_cache (prep_clear (ee_prepared_cache e)) e.

Definition active_plugin (e : ExecutionEngine) : option DriverPlugin := default None (ee_active_plugin e).

Definition map_type (e : ExecutionEngine) (code : Z) : OdbcType :=
  match active_plugin e with Some p => dp_map_type p code | None => from_odbc_sql_type code end.

Definition optimized (e : ExecutionEngine) (sql : string) : string :=
  match active_plugin e with Some p => dp_optimize_query p sql | None => sql end.

Definition is_oracle_plugin_active (e : ExecutionEngine) : bool :=
  match active_plugin e with Some p => String.eqb (dp_name p) "oracle" | None => false end.

(** ** Reading a cursor *)

(** The columns, numbered from 1. *)
Definition read_columns (mt : Z → OdbcType) (c : ResultCursor) : Result RowBuffer :=
  let? cols := rc_num_cols c in
  let? cols := (if cols <? 0 then Err (InternalError "Invalid column count") else Ok cols) in
  ofold (λ b i,
    let? name := rc_col_name c i in
    let? t := rc_col_type c i in
    Ok (add_column b name (mt (sql_type_code_from_data_type t)))) (seqZ 1 cols) rb_new.

(** The loop over the rows. *)
Fixpoint read_rows (types : list OdbcType) (rows : list CursorRow) (ending : Result unit) (r : CellReader) (b : RowBuffer) :
  Result RowBuffer :=
  match rows with
  | [] => omap_ok (λ _, b) ending
  | row :: rows =>
      let '(cells, r) := fetch_cells row types r in
      let? cells := cells in
      read_rows types rows ending r (add_row b cells)
  end.

Definition read_cursor (mt : Z → OdbcType) (c : ResultCursor) : Result RowBuffer :=
  let? b := read_columns mt c in
  read_rows (map col_type (rb_columns b)) (rc_rows c) (rc_end c) reader_new b.

(** A buffer to bytes: the row format panics above its limits. *)
Definition encode_buffer (e : ExecutionEngine) (b : RowBuffer) : Result (list byte) :=
  if ee_use_columnar e then encode_v2 ops (row_buffer_to_columnar b) (ee_use_compression e)
  else expect_into (try_encode b).

(** An execution with or without a cursor. *)
Definition rows_of_execution (mt : Z → OdbcType) (x : Execution) : Result RowBuffer :=
  match ex_cursor x with Some c => read_cursor mt c | None => Ok rb_new end.

Definition encode_cursor (e : ExecutionEngine) (c : ResultCursor) : Result (list byte) :=
  let? b := read_cursor (map_type e) c in
  encode_buffer e (coalesce_for_json_rows b).

Definition encode_cursor_v1 (e : ExecutionEngine) (c : ResultCursor) : Result (list byte) :=
  let? b := read_cursor (map_type e) c in
  expect_into (try_encode (coalesce_for_json_rows b)).

(** ** The results that follow *)

Definition is_no_more_results (e : OdbcError) : bool := bool_decide (sqlstate e = as_bytes "02000").

(** [usize as i64] *)
Definition as_i64 (n : Z) : Z := to_signed 64 (n mod 2 ^ 64).

Fixpoint drive_more_results (e : ExecutionEngine) (more : list Advance) (all_items : list MultiResultItem) :
  Result (list MultiResultItem) :=
  match more with
  | [] => Ok all_items
  | AdvError err :: _ =>
      let err := default (OdbcApi "SQLMoreResults failed") err in
      if is_no_more_results err then Ok all_items else Err err
  | AdvNeedData :: _ => Err (OdbcApi "Unexpected SQLMoreResults state: NeedData")
  | AdvStillExecuting :: _ => Err (OdbcApi "Unexpected SQLMoreResults state: StillExecuting")
  | AdvSuccess cols cursor row_count :: more =>
      let? cols := cols in
      if 0 <? cols then
        let? encoded := encode_cursor e cursor in
        drive_more_results e more (all_items ++ [ResultSet encoded])
      else
        let? rc := row_count in
        drive_more_results e more (all_items ++ [RowCount rc])
  end.

Fixpoint drive_more_ref_cursor_blobs (e : ExecutionEngine) (more : list Advance) (out : list (list byte)) :
  Result (list (list byte)) :=
  match more with
  | [] => Ok out
  | AdvError err :: _ =>
      let err := default (OdbcApi "SQLMoreResults failed (ref cursor)") err in
      if is_no_more_results err then Ok out else Err err
  | AdvNeedData :: _ => Err (OdbcApi "Unexpected SQLMoreResults state: NeedData (ref cursor)")
  | AdvStillExecuting :: _ => Err (OdbcApi "Unexpected SQLMoreResults state: StillExecuting (ref cursor)")
  | AdvSuccess cols cursor row_count :: more =>
      let? cols := cols in
      if 0 <? cols then
        let? blob := encode_cursor_v1 e cursor in
        drive_more_ref_cursor_blobs e more (out ++ [blob])
      else
        let? _ := row_count in
        drive_more_ref_cursor_blobs e more out
  end.

(** ** Statements *)

Definition prepare_statement (phys : Z) (sql : string) : M unit := call phys (CPrepare sql).

Definition run_statement (phys : Z) (c : Call) : M Execution := λ w,
  let r := qd_execute (w_trace w) phys c in (r, record_call phys c (is_ok r) w).

(** The number of affected rows, where there is no cursor. *)
Definition initial_row_count (x : Execution) : Result Z :=
  let? n := ex_row_count x in Ok (match n with Some n => as_i64 n | None => 0 end).

(** The first item of a batch: its cursor, or its row count. *)
Definition first_item (e : ExecutionEngine) (x : Execution) : Result MultiResultItem :=
  match ex_cursor x with
  | Some c => let? encoded := encode_cursor e c in Ok (ResultSet encoded)
  | None => let? rc := initial_row_count x in Ok (RowCount rc)
  end.

Definition execute_query_inner (e : ExecutionEngine) (phys : Z) (sql : string) : M (list byte) :=
  let sql := optimized e sql in
  let! _ := prepare_statement phys sql in
  let! x := run_statement phys (CRun true sql (QpTexts []) None) in
  lift (let? b := rows_of_execution (map_type e) x in encode_buffer e (coalesce_for_json_rows b)).

(** [CachedConnection::execute_query_no_params], built without statement reuse: always
    the row format, without the plugin's types and without joining JSON rows. *)
Definition execute_stmt_to_buffer (x : Execution) : Result (list byte) :=
  let? b := rows_of_execution from_odbc_sql_type x in expect_into (try_encode b).

Definition execute_query_no_params (phys : Z) (sql : string) : M (list byte) :=
  let! _ := prepare_statement phys sql in
  let! x := run_statement phys (CRun true sql (QpTexts []) None) in
  lift (execute_stmt_to_buffer x).

Definition MAX_QUERY_PARAMS : Z := 5.

Definition execute_query_with_params_inner (e : ExecutionEngine) (phys : Z) (sql : string) (params : list ParamValue)
  (timeout_sec : option Z) : M (list byte) :=
  let! optional_strings := lift (param_values_to_strings params) in
  if MAX_QUERY_PARAMS <? len optional_strings then
    lift (Err (ValidationError ("At most 5 parameters supported, got " +:+ fmt_Z (len optional_strings)
      +:+ ". For more parameters or proper NULL handling, use bulk insert operations or direct prepared statements.")))
  else
    let! x := run_statement phys (CRun false sql (QpTexts optional_strings) timeout_sec) in
    lift (let? b := rows_of_execution (map_type e) x in encode_buffer e (coalesce_for_json_rows b)).

Definition execute_multi_result_inner (e : ExecutionEngine) (phys : Z) (sql : string) : M (list byte) :=
  let! _ := prepare_statement phys sql in
  let! x := run_statement phys (CRun true sql (QpTexts []) None) in
  lift (let? first := first_item e x in
        let? items := drive_more_results e (ex_more x) [first] in
        Ok (encode_multi items)).

(** The statement is prepared before the parameters are counted. *)
Definition execute_multi_result_with_params_inner (e : ExecutionEngine) (phys : Z) (sql : string) (params : list ParamValue) :
  M (list byte) :=
  let! optional_strings := lift (param_values_to_strings params) in
  let! _ := prepare_statement phys sql in
  if MAX_QUERY_PARAMS <? len optional_strings then
    lift (Err (ValidationError ("At most 5 parameters supported in execute_multi_result_with_params, got "
      +:+ fmt_Z (len optional_strings))))
  else
    let! x := run_statement phys (CRun true sql (QpTexts optional_strings) None) in
    lift (let? first := first_item e x in
          let? items := drive_more_results e (ex_more x) [first] in
          Ok (encode_multi items)).

Definition set_query_timeout (phys : Z) (timeout_sec : option Z) : M unit :=
  match timeout_sec with Some s => call phys (CQueryTimeout s) | None => ret tt end.

Definition execute_oracle_ref_cursor_path (e : ExecutionEngine) (phys : Z) (sql : string) (bound : list BoundParam)
  (timeout_sec : option Z) : M (list byte) :=
  let ref_count := len (List.filter (λ b, is_ref_cursor (bp_value b)) bound) in
  let! stripped := lift (strip_ref_cursor_placeholders sql bound) in
  let! odbc_params := lift (bound_to_slots (filter_non_ref_cursor_params bound)) in
  let! _ := prepare_statement phys stripped in
  let! _ := set_query_timeout phys timeout_sec in
  let! x := run_statement phys (CRun true stripped (QpSlots odbc_params) None) in
  lift (
    let? ref_blobs := (match ex_cursor x with
                       | Some c => let? blob := encode_cursor_v1 e c in Ok [blob]
                       | None => Ok []
                       end) in
    let? ref_blobs := drive_more_ref_cursor_blobs e (ex_more x) ref_blobs in
    if negb (len ref_blobs =? ref_count) then
      Err (ValidationError ("DIRECTED_PARAM|ref_cursor_oracle_resultset_count: expected " +:+ fmt_Z ref_count
        +:+ " SYS_REFCURSOR result set(s) from the Oracle driver, found " +:+ fmt_Z (len ref_blobs)))
    else
      let out_vals := output_footer_values qd_text (ex_slots x) in
      let? main_body := encode_buffer e (coalesce_for_json_rows rb_new) in
      let? body := expect_into (append_output_footer main_body out_vals) in
      expect_into (append_ref_cursor_footer body ref_blobs)).

(** The direct path of a call with output parameters: the result of an execution. *)
Definition bound_result (e : ExecutionEngine) (x : Execution) : Result (list byte) :=
  let? row_buffer := rows_of_execution (map_type e) x in
  let? initial_rc := (match ex_cursor x with
                      | Some _ => Ok None
                      | None => let? rc := initial_row_count x in Ok (Some rc)
                      end) in
  let? drain := drive_more_results e (ex_more x) [] in
  let row_buffer := coalesce_for_json_rows row_buffer in
  let out_vals := output_footer_values qd_text (ex_slots x) in
  match drain with
  | [] =>
      let? body := encode_buffer e row_buffer in
      expect_into (append_output_footer body out_vals)
  | _ =>
      let? first := (match initial_rc with
                     | Some rc => Ok (RowCount rc)
                     | None => let? body := encode_buffer e row_buffer in Ok (ResultSet body)
                     end) in
      expect_into (append_output_footer (encode_multi (first :: drain)) out_vals)
  end.

Definition execute_bound_inner (e : ExecutionEngine) (phys : Z) (sql : string) (bound : list BoundParam)
  (timeout_sec : option Z) : M (list byte) :=
  if bound_has_ref_cursor bound then
    if negb (is_oracle_plugin_active e) then
      lift (Err (ValidationError ("DIRECTED_PARAM|ref_cursor_out_oracle_only: ParamValue::RefCursorOut is "
        +:+ "only supported with the Oracle ODBC driver; see doc/notes/REF_CURSOR_ORACLE_ROADMAP.md")))
    else execute_oracle_ref_cursor_path e phys sql bound timeout_sec
  else
    let! odbc_params := lift (bound_to_slots bound) in
    let! _ := call phys CStatement in
    let! _ := set_query_timeout phys timeout_sec in
    let! x := run_statement phys (CRun false sql (QpSlots odbc_params) None) in
    lift (bound_result e x).

(** ** The entry points of the engine *)

(** Stateful code over the engine and the world. *)
Definition X (A : Type) : Type := ExecutionEngine → World → Result A * ExecutionEngine * World.

(** The frame of every entry point: the latency is recorded, and an error is counted
    and written to the audit log. A panic leaves before that. *)
Definition observed {A : Type} (body : ExecutionEngine → M A) : X A := λ e w,
  let '(r, w) := body e w in
  match r with
  | Panic => (Panic, e, w)
  | _ =>
      match metrics_record_query (qd_latency (w_trace w)) (ee_metrics e) with
      | (Ok _, m) =>
          let e := set_metrics m e in
          match r with
          | Err err =>
              let e := set_metrics (metrics_record_error (ee_metrics e)) e in
              (Err err, set_audit (log_error (qd_now (w_trace w)) None (to_string err) (ee_audit_logger e)) e, w)
          | _ => (r, e, w)
          end
      | (_, m) => (Panic, set_metrics m e, w)
      end
  end.

(** The statement is put into the cache before it runs; nothing is read from it. *)
Definition touch_cache (sql : string) (e : ExecutionEngine) : ExecutionEngine :=
  set_cache (get_or_insert (optimized e sql) (ee_prepared_cache e)).2 e.

Definition execute_query (phys : Z) (sql : string) : X (list byte) := λ e,
  observed (λ e, execute_query_inner e phys sql) (touch_cache sql e).

Definition execute_query_cached (phys : Z) (sql : string) : X (list byte) := λ e,
  observed (λ e, execute_query_no_params phys (optimized e sql)) (touch_cache sql e).

Definition execute_query_with_params_and_timeout (phys : Z) (sql : string) (params : list ParamValue) (timeout_sec : option Z) :
  X (list byte) := observed (λ e, execute_query_with_params_inner e phys sql params timeout_sec).

Definition execute_query_with_params (phys : Z) (sql : string) (params : list ParamValue) : X (list byte) :=
  execute_query_with_params_and_timeout phys sql params None.

Definition execute_query_with_bound_params_and_timeout (phys : Z) (sql : string) (bound : list BoundParam)
  (timeout_sec : option Z) : X (list byte) := observed (λ e, execute_bound_inner e phys sql bound timeout_sec).

Definition execute_multi_result (phys : Z) (sql : string) : X (list byte) :=
  observed (λ e, execute_multi_result_inner e phys sql).

Definition execute_multi_result_with_params (phys : Z) (sql : string) (params : list ParamValue) : X (list byte) :=
  observed (λ e, execute_multi_result_with_params_inner e phys sql params).

(** The guard of a locked connection: a panic poisons it. *)
Definition poison_connection (phys : Z) (w : World) : World :=
  mkWorld (w_handles w) (w_handles_poisoned w) ({[phys]} ∪ w_conn_poisoned w) (w_next_phys w) (w_trace w).

Definition holding_connection {A : Type} (phys : Z) (m : X A) : X A := λ e w,
  match m e w with
  | (Panic, e, w) => (Panic, e, poison_connection phys w)
  | r => r
  end.

(** * The pipeline *)

Definition parse_sql (sql : string) : Result string :=
  if String.eqb (trim sql) EmptyString then Err (ValidationError "SQL query cannot be empty") else Ok sql.

(** [self.parse_sql(sql)?; ...] *)
Definition checked {A : Type} (sql : string) (m : X A) : X A := λ e w,
  match parse_sql sql with
  | Ok _ => m e w
  | Err err => (Err err, e, w)
  | Panic => (Panic, e, w)
  end.

Definition execute_direct (phys : Z) (sql : string) : X (list byte) := checked sql (execute_query phys sql).

Definition execute_direct_cached (phys : Z) (sql : string) : X (list byte) := checked sql (execute_query_cached phys sql).

Definition pipeline_with_params (phys : Z) (sql : string) (params : list ParamValue) : X (list byte) :=
  checked sql (execute_query_with_params phys sql params).

Definition pipeline_with_params_and_timeout (phys : Z) (sql : string) (params : list ParamValue) (timeout_sec : option Z) :
  X (list byte) := checked sql (execute_query_with_params_and_timeout phys sql params timeout_sec).

Definition pipeline_with_bound_params_and_timeout (phys : Z) (sql : string) (bound : list BoundParam)
  (timeout_sec : option Z) : X (list byte) :=
  checked sql (execute_query_with_bound_params_and_timeout phys sql bound timeout_sec).

Definition execute_multi (phys : Z) (sql : string) : X (list byte) := checked sql (execute_multi_result phys sql).

Definition execute_multi_with_params (phys : Z) (sql : string) (params : list ParamValue) : X (list byte) :=
  checked sql (execute_multi_result_with_params phys sql params).

(** [dispatch_param_buffer]: a directed list of inputs only takes the path of the
    legacy list. *)
Definition dispatch_param_buffer (phys : Z) (sql : string) (param_bytes : list byte) (timeout_sec : option Z) : X (list byte) :=
  λ e w,
  match deserialize_param_buffer param_bytes with
  | Ok (Legacy p) => pipeline_with_params_and_timeout phys sql p timeout_sec e w
  | Ok (Directed b) =>
      if forallb (λ x, bool_decide (bp_direction x = Input)) b
      then pipeline_with_params_and_timeout phys sql (map bp_value b) timeout_sec e w
      else pipeline_with_bound_params_and_timeout phys sql b timeout_sec e w
  | Err err => (Err err, e, w)
  | Panic => (Panic, e, w)
  end.

(** * Reading a cursor delivers its rows *)

(** The row gives these cells, whatever was read before. *)
Definition serves_row (types : list OdbcType) (row : CursorRow) (cells : list cell) : Prop :=
  ∀ r, ∃ r', fetch_cells row types r = (Ok cells, r').

(** A cursor that delivers the buffer [b]. *)
Record delivers (mt : Z → OdbcType) (c : ResultCursor) (b : RowBuffer) : Prop := {
  dl_cols : rc_num_cols c = Ok (column_count b);
  dl_meta : ∀ i m, rb_columns b !! i = Some m →
    rc_col_name c (1 + Z.of_nat i) = Ok (col_name m) ∧
    ∃ t, rc_col_type c (1 + Z.of_nat i) = Ok t ∧ col_type m = mt (sql_type_code_from_data_type t);
  dl_rows : Forall2 (serves_row (map col_type (rb_columns b))) (rc_rows c) (rb_rows b);
  dl_end : rc_end c = Ok tt
}.

Lemma read_columns_from mt c pre post :
  (∀ i m, post !! i = Some m →
    rc_col_name c (1 + len pre + Z.of_nat i) = Ok (col_name m) ∧
    ∃ t, rc_col_type c (1 + len pre + Z.of_nat i) = Ok t ∧ col_type m = mt (sql_type_code_from_data_type t)) →
  ofold (λ b i,
    let? name := rc_col_name c i in
    let? t := rc_col_type c i in
    Ok (add_column b name (mt (sql_type_code_from_data_type t)))) (seqZ (1 + len pre) (len post)) (mkRowBuffer pre [])
  = Ok (mkRowBuffer (pre ++ post) []).
Proof.
  revert pre. induction post as [|m post IH]; intros pre Hm.
  - cbn. by rewrite app_nil_r.
  - rewrite len_cons, seqZ_cons by (pose proof (len_nonneg post); lia). cbn [ofold].
    destruct (Hm 0%nat m eq_refl) as (Hn & t & Ht & Hc). rewrite Z.add_0_r in Hn, Ht. rewrite Hn, Ht. cbn [obind].
    unfold add_column. cbn [rb_columns rb_rows]. rewrite <- Hc.
    replace (Z.succ (1 + len pre)) with (1 + len (pre ++ [mkColumn (col_name m) (col_type m)])) by (rewrite len_app; change (len [_]) with 1; lia).
    replace (Z.pred (1 + len post)) with (len post) by lia. rewrite IH.
    + rewrite <- app_assoc. by destruct m.
    + intros i m' Hi. specialize (Hm (S i) m' Hi).
      replace (1 + len (pre ++ [mkColumn (col_name m) (col_type m)]) + Z.of_nat i) with (1 + len pre + Z.of_nat (S i));
        [done|]. rewrite len_app. change (len [_]) with 1. lia.
Qed.

Lemma read_rows_serves types rows cells ending b r :
  Forall2 (serves_row types) rows cells → ending = Ok tt →
  read_rows types rows ending r b = Ok (mkRowBuffer (rb_columns b) (rb_rows b ++ cells)).
Proof.
  intros H ->. revert b r. induction H as [|row cs rows cells Hrow _ IH]; intros b r; cbn [read_rows].
  - rewrite app_nil_r. by destruct b.
  - destruct (Hrow r) as [r' ->]. cbn [obind]. rewrite IH. cbn. by rewrite <- app_assoc.
Qed.

Lemma read_columns_delivers mt c b : delivers mt c b → read_columns mt c = Ok (mkRowBuffer (rb_columns b) []).
Proof.
  intros [Hc Hm _ _]. unfold read_columns. rewrite Hc. cbn [obind].
  destruct (Z.ltb_spec (column_count b) 0) as [H|_]; [unfold column_count in H; pose proof (len_nonneg (rb_columns b)); lia|].
  cbn [obind]. pose proof (read_columns_from mt c [] (rb_columns b)) as H. cbn [app] in H.
  rewrite len_nil, Z.add_0_r in H. unfold column_count. unfold rb_new. by rewrite H by exact Hm.
Qed.

Lemma read_cursor_delivers mt c b : delivers mt c b → read_cursor mt c = Ok b.
Proof.
  intros Hd. unfold read_cursor. rewrite (read_columns_delivers mt c b Hd). cbn [obind rb_columns].
  destruct Hd as [_ _ Hr He]. erewrite read_rows_serves by eassumption. by destruct b.
Qed.

(** * The frame *)

(** What an entry point may change of the engine: the statement cache, the metrics, the
    audit log. *)
Definition same_config (e e' : ExecutionEngine) : Prop :=
  ee_use_columnar e' = ee_use_columnar e ∧ ee_use_compression e' = ee_use_compression e ∧
  ee_plugin_registry e' = ee_plugin_registry e ∧ ee_active_plugin e' = ee_active_plugin e.

Lemma observed_cases {A : Type} (body : ExecutionEngine → M A) e w :
  let '(r, e', w') := observed body e w in
  same_config e e' ∧ (body e w).2 = w' ∧ (r = (body e w).1 ∨ r = Panic).
Proof.
  unfold observed. destruct (body e w) as [r w'] eqn:E. cbn.
  destruct r; [|destruct (metrics_record_query _ _) as [[?|?|] m]; by repeat split; auto|by repeat split; auto].
  destruct (metrics_record_query _ _) as [[?|?|] m]; by repeat split; auto.
Qed.

(** The metrics take another latency without a panic. *)
Definition metrics_ready (w : World) (e : ExecutionEngine) : Prop :=
  (metrics_record_query (qd_latency (w_trace w)) (ee_metrics e)).1 = Ok tt.

Lemma observed_result {A : Type} (body : ExecutionEngine → M A) e w r w' :
  body e w = (r, w') → metrics_ready w' e → ∃ e', observed body e w = (r, e', w') ∧ same_config e e'.
Proof.
  intros Hb Hm. unfold observed, metrics_ready in *. rewrite Hb.
  destruct (metrics_record_query _ _) as [o m]. cbn in Hm. subst o. destruct r; by eexists.
Qed.

(** The accounts of the engine: a statement that ends adds one to the count of
    queries and its latency to the total; one that fails also adds one to the count of
    errors and its text to the audit log; nothing else of the engine changes, and its
    result is passed on as it is. *)
Theorem observed_accounts {A : Type} (body : ExecutionEngine → M A) (e : ExecutionEngine) (w : World) (q : QueryMetrics) (es : list AuditEvent) :
  me_query (ee_metrics e) = Some q → al_events (ee_audit_logger e) = Some es → al_enabled (ee_audit_logger e) = true →
  len es < MAX_AUDIT_EVENTS → (observed body e w).1.1 ≠ Panic →
  let '(r, e', w') := observed body e w in
  body e w = (r, w') ∧ same_config e e' ∧ ee_prepared_cache e' = ee_prepared_cache e ∧
  (∃ q', me_query (ee_metrics e') = Some q' ∧ qm_query_count q' = qm_query_count q + 1 ∧
     qm_total_latency q' = qm_total_latency q + qd_latency (w_trace w')) ∧
  get_error_count (ee_metrics e') = (match r, me_errors (ee_metrics e) with
                                     | Err _, Some n => fetch_add1 n
                                     | _, n => default 0 n end) ∧
  match r with
  | Err err => ∃ ev, al_events (ee_audit_logger e') = Some (es ++ [ev]) ∧ ae_event_type ev = "error" ∧
      ae_metadata ev !! "error" = Some (to_string err)
  | _ => ee_audit_logger e' = ee_audit_logger e
  end.
Proof.
  intros Hq Hes Hen Hlen. unfold observed. destruct (body e w) as [r w'] eqn:Hb. cbn [fst].
  unfold metrics_record_query. rewrite Hq.
  destruct (record_query (qd_latency (w_trace w')) q) as [q'| |] eqn:Hrq; [|by destruct r..].
  apply record_query_sums in Hrq as [Hc Ht].
  destruct r as [a|err|]; [| |done]; intros _; cbn.
  - split; [done|]. split; [done|]. split; [done|]. split; [by exists q'|]. split; [done|]. done.
  - split; [done|]. split; [done|]. split; [done|]. split; [by exists q'|].
    split; [unfold get_error_count, metrics_record_error; cbn; by destruct (me_errors (ee_metrics e))|].
    unfold log_error, push_event. rewrite Hen, Hes. cbn [negb].
    destruct (Z.ltb_spec MAX_AUDIT_EVENTS (len (es ++ [mkAuditEvent (qd_now (w_trace w')) "error" None None None {["error" := to_string err]}]))) as [Hgt|_].
    { rewrite len_app in Hgt. change (len [_]) with 1 in Hgt. lia. }
    eexists. split; [done|]. split; [done|]. cbn. by rewrite lookup_singleton_eq.
Qed.

(** * Queries *)

Lemma encode_buffer_rows e b :
  ee_use_columnar e = false → decodable b →
  ∃ bytes, encode_buffer e b = Ok bytes ∧ parse bytes = Ok (mkDecoded (rb_columns b) (rb_rows b) (row_count b) (column_count b)).
Proof.
  intros He Hb. destruct (parse_encode_lemma b Hb) as (bytes & H1 & H2). exists bytes. split; [|done].
  unfold encode_buffer. rewrite He, H1. done.
Qed.

Lemma runs_statement phys c w x :
  qd_execute (w_trace w) phys c = Ok x → runs (run_statement phys c) w [(phys, c, true)] (Ok x).
Proof. unfold runs, run_statement. intros ->. done. Qed.

Lemma runs_prepare_statement phys sql w :
  dr_answer (w_trace w) phys (CPrepare sql) = Ok tt → runs (prepare_statement phys sql) w [(phys, CPrepare sql, true)] (Ok tt).
Proof. intros H. pose proof (runs_call phys (CPrepare sql) w) as Hr. rewrite H in Hr. exact Hr. Qed.

(** The calls of a prepared statement without parameters. *)
Definition prepared_calls (phys : Z) (sql : string) : History :=
  [(phys, CPrepare sql, true); (phys, CRun true sql (QpTexts []) None, true)].

Lemma runs_prepared_statement phys sql (k : Execution → Result (list byte)) w x :
  dr_answer (w_trace w) phys (CPrepare sql) = Ok tt →
  qd_execute (w_trace w ++ [(phys, CPrepare sql, true)]) phys (CRun true sql (QpTexts []) None) = Ok x →
  runs (let! _ := prepare_statement phys sql in let! x := run_statement phys (CRun true sql (QpTexts []) None) in lift (k x))
    w (prepared_calls phys sql) (k x).
Proof.
  intros Hp Hx. change (prepared_calls phys sql) with ([(phys, CPrepare sql, true)] ++ [(phys, CRun true sql (QpTexts []) None, true)] ++ []).
  eapply runs_bind; [by apply runs_prepare_statement|]. eapply runs_bind; [by apply runs_statement|]. apply runs_lift.
Qed.


(** * Batches *)

(** The item of a following result. *)
Definition step_item (e : ExecutionEngine) (a : Advance) : Result MultiResultItem :=
  match a with
  | AdvSuccess cols cursor row_count =>
      let? cols := cols in
      if 0 <? cols then let? b := encode_cursor e cursor in Ok (ResultSet b)
      else let? rc := row_count in Ok (RowCount rc)
  | AdvError err => Err (default (OdbcApi "SQLMoreResults failed") err)
  | AdvNeedData => Err (OdbcApi "Unexpected SQLMoreResults state: NeedData")
  | AdvStillExecuting => Err (OdbcApi "Unexpected SQLMoreResults state: StillExecuting")
  end.

(** The end of a batch: no more results, or the error that says so. *)
Definition batch_end (rest : list Advance) : Prop :=
  rest = [] ∨ ∃ err rest', rest = AdvError (Some err) :: rest' ∧ is_no_more_results err = true.

Lemma drive_more_items e more items rest acc :
  Forall2 (λ a i, step_item e a = Ok i) more items →
  drive_more_results e (more ++ rest) acc = drive_more_results e rest (acc ++ items).
Proof.
  intros H. revert acc. induction H as [|a i more items Ha _ IH]; intros acc; [by rewrite app_nil_r|].
  cbn [app drive_more_results]. destruct a as [cols cur rc|err| |]; cbn [step_item] in Ha; try discriminate Ha.
  destruct cols as [n| |]; cbn [obind] in Ha |- *; [|discriminate Ha..].
  destruct (0 <? n).
  - destruct (encode_cursor e cur); cbn [obind] in Ha |- *; [|discriminate Ha..]. injection Ha as <-.
    by rewrite IH, <- app_assoc.
  - destruct rc; cbn [obind] in Ha |- *; [|discriminate Ha..]. injection Ha as <-. by rewrite IH, <- app_assoc.
Qed.

Lemma drive_more_end e rest acc : batch_end rest → drive_more_results e rest acc = Ok acc.
Proof. intros [->|(err & rest' & -> & H)]; cbn; [done|]. by rewrite H. Qed.


(** * Parameters *)

(** A directed list whose parameters are all inputs does exactly what the legacy list
    of the same values does, to the engine, the driver and the client. *)
Theorem directed_inputs_as_legacy (phys : Z) (sql : string) (ps : list ParamValue) (timeout_sec : option Z) :
  Forall param_wf ps → len ps ≤ MAX_PARAM_COUNT →
  ∃ bytes, try_serialize_params ps = Ok bytes ∧
    ∀ e w, dispatch_param_buffer phys sql (enc_directed (map (mkBound Input) ps)) timeout_sec e w
           = dispatch_param_buffer phys sql bytes timeout_sec e w ∧
      dispatch_param_buffer phys sql bytes timeout_sec e w = pipeline_with_params_and_timeout phys sql ps timeout_sec e w.
Proof.
  intros Hps Hl. destruct (deserialize_legacy_lemma ps Hps Hl) as (bytes & H1 & H2). exists bytes. split; [done|].
  intros e w. unfold dispatch_param_buffer. rewrite H2.
  rewrite deserialize_directed_lemma.
  - assert (forallb (λ x, bool_decide (bp_direction x = Input)) (map (mkBound Input) ps) = true) as ->.
    { clear. by induction ps. }
    split; [|done]. f_equal. clear. induction ps as [|p ps IH]; [done|]. cbn. by f_equal.
  - apply Forall_map. eapply Forall_impl; [exact Hps|]. done.
  - unfold len in *. by rewrite length_map.
Qed.

(** Too many parameters, and a ref cursor without the Oracle plugin, are refused
    before the driver is called, and leave the configuration of the engine alone. *)
Theorem refused_without_calls (phys : Z) (sql : string) (params : list ParamValue) (bound : list BoundParam) (t : option Z) (e : ExecutionEngine) (w : World) :
  metrics_ready w e →
  (Forall (λ p, p ≠ PRefCursorOut) params → MAX_QUERY_PARAMS < len params →
     ∃ msg e', execute_query_with_params_and_timeout phys sql params t e w = (Err (ValidationError msg), e', w) ∧ same_config e e') ∧
  (bound_has_ref_cursor bound = true → is_oracle_plugin_active e = false →
     ∃ msg e', execute_query_with_bound_params_and_timeout phys sql bound t e w = (Err (ValidationError msg), e', w) ∧ same_config e e').
Proof.
  intros Hm. split; intros H1 H2.
  - assert (∃ ss, param_values_to_strings params = Ok ss) as [ss Hss].
    { unfold param_values_to_strings. clear H2. induction H1 as [|p ps Hp _ [ss IH]]; [by eexists|]. cbn [omap_list].
      rewrite IH. destruct p; cbn; try done; by eexists. }
    pose proof (omap_list_length _ _ _ Hss) as Hl.
    eexists. apply observed_result; [|done]. unfold execute_query_with_params_inner, bind, lift. rewrite Hss.
    destruct (Z.ltb_spec MAX_QUERY_PARAMS (len ss)) as [_|Hge]; [done|]. unfold len in *. rewrite Hl in Hge. lia.
  - eexists. apply observed_result; [|done]. unfold execute_bound_inner. by rewrite H1, H2.
Qed.
End Execution.

(** * Witnesses *)

#[local] Existing Instance list_lru.

(** One integer column with two rows. *)
Definition sample_cursor : ResultCursor :=
  mkCursor (Ok 1) (λ _, Ok "n") (λ _, Ok DtInteger) [row_of (ascii_units "42"); row_of (ascii_units "-1")] (Ok tt).

Definition sample_rows : RowBuffer :=
  mkRowBuffer [mkColumn "n" Integer] [[Some (le_bytes 4 42)]; [Some (le_bytes 4 (-1))]].

(** A batch of a cursor, a row count and a second cursor, ended by SQLSTATE 02000. *)
Definition sample_execution : Execution :=
  mkExecution (Some sample_cursor) (Ok None)
    [AdvSuccess (Ok 0) sample_cursor (Ok 7); AdvSuccess (Ok 1) sample_cursor (Ok 0);
     AdvError (Some (Structured (as_bytes "02000") 0 "no data"))] [].

Definition sample_queries : QueryDriver := {|
  qd_execute := λ _ _ _, Ok sample_execution;
  qd_now := λ _, 0;
  qd_latency := λ _, 5;
  qd_text := box_bytes
|}.

Definition sample_engine : ExecutionEngine := engine_new 0 100 (λ _, None).

Lemma sample_delivers : delivers from_odbc_sql_type sample_cursor sample_rows.
Proof.
  split; [done| | |done].
  - intros [|[|i]] m H; [|done..]. injection H as <-. cbn. split; [done|]. by exists DtInteger.
  - repeat constructor; intros r; eexists; reflexivity.
Qed.


Lemma observed_accounts_witness :
  let '(r, e', w') := observed (Q := sample_queries) (λ _, lift (Err NoMoreResults) : M unit) sample_engine sample_world in
  qm_query_count (get_query_metrics (ee_metrics e')) = 1 ∧ get_error_count (ee_metrics e') = 1.
Proof.
  pose proof (observed_accounts (Q := sample_queries) (λ _, lift (Err NoMoreResults) : M unit) sample_engine sample_world
    metrics_new [] eq_refl eq_refl eq_refl eq_refl ltac:(done)) as H.
  revert H. cbn. intros (_ & _ & _ & (q' & Hq & Hc & _) & He & _). split; [|exact He].
  injection Hq as <-. exact Hc.
Defined.


Lemma directed_inputs_as_legacy_witness :
  ∃ bytes, try_serialize_params [PInteger 3; PNull] = Ok bytes ∧
    ∀ e w, dispatch_param_buffer (D := ok_driver) (Q := sample_queries) stored_ops 0 "SELECT ?, ?" (enc_directed [mkBound Input (PInteger 3); mkBound Input PNull]) None e w
           = dispatch_param_buffer (D := ok_driver) (Q := sample_queries) stored_ops 0 "SELECT ?, ?" bytes None e w ∧
      dispatch_param_buffer (D := ok_driver) (Q := sample_queries) stored_ops 0 "SELECT ?, ?" bytes None e w
      = pipeline_with_params_and_timeout (Q := sample_queries) stored_ops 0 "SELECT ?, ?" [PInteger 3; PNull] None e w.
Proof.
  apply (directed_inputs_as_legacy (D := ok_driver) (Q := sample_queries) stored_ops 0 "SELECT ?, ?" [PInteger 3; PNull] None).
  - repeat constructor; cbn; unfold i32_range; lia.
  - vm_compute. discriminate.
Defined.
