(* ===== verification/SqlLog.v ===== *)
(** The structured log (observability/logging.rs): the SQL that is written to it has its literals
    replaced.  A line of the log is a level and a text; an iteration of a HashMap is the list of the
    entries in the order it has. *)

From S2P Require Import Prelude Wire Errors Text Identifier Security.

Inductive Level := LevelError | LevelWarn | LevelInfo | LevelDebug | LevelTrace.

(** [b as char] pushed on a string: a byte above 127 becomes the two bytes of its code point. *)
Definition push_byte (c : ascii) : string :=
  if code c <? 128 then String c EmptyString
  else String (chr (0xC0 + code c / 64)) (String (chr (0x80 + code c mod 64)) EmptyString).

Definition is_ascii_digit (c : ascii) : bool := (48 <=? code c) && (code c <=? 57).

(** What goes on with a number: digits, '.', 'e', 'E', '+', '-'. *)
Definition number_char (c : ascii) : bool :=
  is_ascii_digit c || bool_decide (c ∈ ["."; "e"; "E"; "+"; "-"]%char).

(** The rest of the text after a string literal whose quote has been read. *)
Fixpoint skip_literal (s : string) : string :=
  match s with
  | EmptyString => EmptyString
  | String "'" rest => match rest with String "'" rest' => skip_literal rest' | _ => rest end
  | String _ rest => skip_literal rest
  end.

Fixpoint skip_number (s : string) : string :=
  match s with
  | String c rest => if number_char c then skip_number rest else s
  | EmptyString => EmptyString
  end.

(** The loop over the bytes: every turn reads one, so that the length of the text is enough fuel. *)
Fixpoint sanitize_sql_loop (fuel : nat) (s : string) : string :=
  match fuel, s with
  | S fuel, String c rest =>
      if Ascii.eqb c "'" then "?" +:+ sanitize_sql_loop fuel (skip_literal rest)
      else if is_ascii_digit c then "?" +:+ sanitize_sql_loop fuel (skip_number s)
      else push_byte c +:+ sanitize_sql_loop fuel rest
  | _, _ => EmptyString
  end.

(** [raw] is the value of the environment variable ODBC_FAST_LOG_RAW_SQL. *)
Definition sanitize_sql_for_log (raw : option string) (sql : string) : string :=
  if bool_decide (raw = Some "1") then sql else sanitize_sql_loop (String.length sql) sql.

Record StructuredLogger := mkLogger { lg_enabled : bool }.

Definition LogLine : Type := Level * string.

Definition with_metadata (message : string) (metadata : list (string * string)) : string :=
  fold_left (λ m kv, m +:+ ", " +:+ kv.1 +:+ "=" +:+ kv.2) metadata message.

Definition log_query (raw : option string) (l : StructuredLogger) (level : Level) (query : string) (metadata : list (string * string)) : list LogLine :=
  if lg_enabled l then [(level, with_metadata ("Query: " +:+ sanitize_sql_for_log raw query) metadata)] else [].

Definition log_connection (l : StructuredLogger) (level : Level) (connection_string action : string) : list LogLine :=
  if lg_enabled l then [(level, "Connection " +:+ action +:+ ": " +:+ sanitize_connection_string connection_string)] else [].

Definition log_error (l : StructuredLogger) (error : string) (metadata : list (string * string)) : list LogLine :=
  if lg_enabled l then [(LevelError, with_metadata ("Error: " +:+ error) metadata)] else [].

(** The value is given as [Display] of an f64 renders it. *)
Definition log_metric (l : StructuredLogger) (name value unit : string) : list LogLine :=
  if lg_enabled l then [(LevelInfo, "Metric: " +:+ name +:+ "=" +:+ value +:+ unit)] else [].

(** * Statements by their parts *)

(** A statement: text without quotes and digits, string literals by their value, numbers as written. *)
Inductive SqlPart := Plain (s : string) | Quoted (s : string) | Number (s : string).

Fixpoint double_quotes (s : string) : string :=
  match s with
  | EmptyString => EmptyString
  | String c s => (if Ascii.eqb c "'" then "''" else String c EmptyString) +:+ double_quotes s
  end.

Definition spell (p : SqlPart) : string :=
  match p with
  | Plain s | Number s => s
  | Quoted s => "'" +:+ double_quotes s +:+ "'"
  end.

Definition spell_all (ps : list SqlPart) : string := foldr (λ p s, spell p +:+ s) EmptyString ps.

Definition push_all (s : string) : string := foldr (λ c s, push_byte c +:+ s) EmptyString (list_ascii_of_string s).

Definition masked (p : SqlPart) : string := match p with Plain s => push_all s | _ => "?" end.

Definition masked_all (ps : list SqlPart) : string := foldr (λ p s, masked p +:+ s) EmptyString ps.

Definition all_chars (P : ascii → Prop) (s : string) : Prop := Forall P (list_ascii_of_string s).

Definition first_char (s : string) : option ascii := match s with EmptyString => None | String c _ => Some c end.

(** The parts can be told apart: no quote and no digit in plain text; a number starts with a digit and has
    only characters of numbers; what follows a literal is no quote, and what follows a number does not
    go on with it. *)
Fixpoint parts_wf (ps : list SqlPart) : Prop :=
  match ps with
  | [] => True
  | p :: ps =>
      match p with
      | Plain s => all_chars (λ c, c ≠ "'"%char ∧ is_ascii_digit c = false) s
      | Quoted s => first_char (spell_all ps) ≠ Some "'"%char
      | Number s => (∃ c, first_char s = Some c ∧ is_ascii_digit c = true) ∧ all_chars (λ c, number_char c = true) s ∧
          (∀ c, first_char (spell_all ps) = Some c → number_char c = false)
      end ∧ parts_wf ps
  end.

Lemma skip_literal_quoted s t : first_char t ≠ Some "'"%char → skip_literal (double_quotes s +:+ "'" +:+ t) = t.
Proof.
  intros Ht. induction s as [|c s IH]; cbn [double_quotes].
  - cbn. destruct t as [|d t]; [done|]. destruct d as [[] [] [] [] [] [] [] []]; done.
  - rewrite string_app_assoc. destruct (Ascii.eqb_spec c "'") as [->|Hc]; [cbn; exact IH|].
    destruct c as [[] [] [] [] [] [] [] []]; try exact IH. by elim Hc.
Qed.

Lemma skip_number_stop s t :
  all_chars (λ c, number_char c = true) s → (∀ c, first_char t = Some c → number_char c = false) → skip_number (s +:+ t) = t.
Proof.
  intros Hs Ht. unfold all_chars in Hs. induction s as [|c s IH].
  - rewrite string_app_nil_l. destruct t as [|d t]; [done|]. cbn [skip_number]. by rewrite (Ht d eq_refl).
  - cbn [list_ascii_of_string] in Hs. apply Forall_cons in Hs as [Hc Hs]. rewrite string_app_cons. cbn [skip_number]. rewrite Hc. by apply IH.
Qed.

Lemma skip_literal_le s : (String.length (skip_literal s) ≤ String.length s)%nat.
Proof.
  assert (∀ n s, (String.length s ≤ n)%nat → (String.length (skip_literal s) ≤ String.length s)%nat) as H; [|by apply (H (String.length s))].
  clear s. induction n as [|n IH]; intros s Hs; [destruct s; cbn in *; lia|]. destruct s as [|c s]; [done|]. cbn [String.length] in Hs.
  pose proof (IH s ltac:(lia)). cbn [skip_literal].
  assert (∀ d r, s = String d r → (String.length (skip_literal r) ≤ String.length r)%nat) as Hr.
  { intros d r ->. apply IH. cbn [String.length] in Hs. lia. }
  destruct c as [[] [] [] [] [] [] [] []]; cbn [String.length]; try lia.
  destruct s as [|d r]; [cbn; lia|]. specialize (Hr d r eq_refl). destruct d as [[] [] [] [] [] [] [] []]; cbn [String.length] in *; lia.
Qed.

Lemma skip_number_le s : (String.length (skip_number s) ≤ String.length s)%nat.
Proof. induction s as [|c s IH]; [done|]. cbn [skip_number]. destruct (number_char c); cbn [String.length]; lia. Qed.

Lemma digit_number c : is_ascii_digit c = true → number_char c = true.
Proof. unfold number_char. by intros ->. Qed.

(** More fuel than bytes changes nothing. *)
Lemma sanitize_fuel fuel fuel' s :
  (String.length s ≤ fuel)%nat → (String.length s ≤ fuel')%nat → sanitize_sql_loop fuel s = sanitize_sql_loop fuel' s.
Proof.
  revert fuel' s. induction fuel as [|fuel IH]; intros fuel' s H H'.
  { destruct s; [by destruct fuel'|cbn in H; lia]. }
  destruct fuel' as [|fuel']; [destruct s; [done|cbn in H'; lia]|]. destruct s as [|c s]; [done|].
  cbn [String.length] in H, H'. cbn [sanitize_sql_loop]. destruct (Ascii.eqb c "'").
  { f_equal. pose proof (skip_literal_le s). apply IH; lia. }
  destruct (is_ascii_digit c) eqn:Ed; [|f_equal; apply IH; lia]. f_equal. cbn [skip_number]. rewrite (digit_number c Ed).
  pose proof (skip_number_le s). apply IH; lia.
Qed.

Lemma loop_plain s t : all_chars (λ c, c ≠ "'"%char ∧ is_ascii_digit c = false) s →
  sanitize_sql_loop (String.length (s +:+ t)) (s +:+ t) = push_all s +:+ sanitize_sql_loop (String.length t) t.
Proof.
  unfold all_chars. intros Hs. induction s as [|c s IH]; [by rewrite string_app_nil_l|]. cbn [list_ascii_of_string] in Hs.
  apply Forall_cons in Hs as [[Hq Hd] Hs]. rewrite string_app_cons. cbn [String.length sanitize_sql_loop].
  destruct (Ascii.eqb_spec c "'") as [|_]; [done|]. rewrite Hd, IH by done. unfold push_all. cbn [list_ascii_of_string foldr].
  by rewrite string_app_assoc.
Qed.

Lemma loop_quoted s t : first_char t ≠ Some "'"%char →
  sanitize_sql_loop (String.length (spell (Quoted s) +:+ t)) (spell (Quoted s) +:+ t) = "?" +:+ sanitize_sql_loop (String.length t) t.
Proof.
  intros Ht. cbn [spell]. rewrite string_app_cons, string_app_nil_l, string_app_cons, string_app_assoc. cbn [String.length sanitize_sql_loop].
  cbn [Ascii.eqb Bool.eqb]. f_equal. rewrite skip_literal_quoted by done. apply sanitize_fuel; [|done].
  pose proof (skip_literal_le (double_quotes s +:+ "'" +:+ t)) as H. by rewrite skip_literal_quoted in H.
Qed.

Lemma loop_number s t : (∃ c, first_char s = Some c ∧ is_ascii_digit c = true) → all_chars (λ c, number_char c = true) s →
  (∀ c, first_char t = Some c → number_char c = false) →
  sanitize_sql_loop (String.length (s +:+ t)) (s +:+ t) = "?" +:+ sanitize_sql_loop (String.length t) t.
Proof.
  intros (c & Hc & Hd) Hs Ht. pose proof (skip_number_stop s t Hs Ht) as Hk. destruct s as [|c' s]; [done|]. injection Hc as ->.
  rewrite string_app_cons in *. cbn [String.length sanitize_sql_loop]. destruct (Ascii.eqb_spec c "'") as [->|_]; [done|]. rewrite Hd, Hk.
  f_equal. apply sanitize_fuel; [|done]. cbn [skip_number] in Hk. rewrite (digit_number c Hd) in Hk. pose proof (skip_number_le (s +:+ t)) as H. by rewrite Hk in H.
Qed.



(** Whatever the statement, no digit is left in it, and no quote. *)
Lemma push_byte_clean c : is_ascii_digit c = false → c ≠ "'"%char → all_chars (λ d, is_ascii_digit d = false ∧ d ≠ "'"%char) (push_byte c).
Proof.
  intros Hd Hq. unfold push_byte. destruct (Z.ltb_spec (code c) 128) as [|Hc]; [by repeat constructor|]. unfold all_chars.
  destruct c as [[] [] [] [] [] [] [] []]; try (exfalso; vm_compute in Hc; by apply Hc); repeat constructor; vm_compute; congruence.
Qed.

Theorem log_is_clean (sql : string) (raw : option string) :
  raw ≠ Some "1" → all_chars (λ d, is_ascii_digit d = false ∧ d ≠ "'"%char) (sanitize_sql_for_log raw sql).
Proof.
  intros Hraw. unfold sanitize_sql_for_log. rewrite bool_decide_eq_false_2 by done. generalize (String.length sql) as fuel. clear raw Hraw.
  assert (∀ s t, all_chars (λ d, is_ascii_digit d = false ∧ d ≠ "'"%char) s → all_chars (λ d, is_ascii_digit d = false ∧ d ≠ "'"%char) t →
    all_chars (λ d, is_ascii_digit d = false ∧ d ≠ "'"%char) (s +:+ t)) as Happ.
  { unfold all_chars. intros s t Hs Ht. induction s as [|c s IH]; [done|]. cbn [list_ascii_of_string] in Hs. apply Forall_cons in Hs as [Hc Hs].
    rewrite string_app_cons. cbn [list_ascii_of_string]. constructor; [done|]. by apply IH. }
  intros fuel. revert sql. induction fuel as [|fuel IH]; intros sql; [by constructor|]. destruct sql as [|c s]; [by constructor|].
  cbn [sanitize_sql_loop]. destruct (Ascii.eqb_spec c "'") as [|Hq]; [apply Happ; [by repeat constructor|apply IH]|].
  destruct (is_ascii_digit c) eqn:Hd; apply Happ; try apply IH; [by repeat constructor|by apply push_byte_clean].
Qed.

(** An apostrophe that opens no literal, here in a comment and in a quoted identifier, makes the scan read
    the text after it as a literal, and the next literal as text: its value is logged. *)
Example comment_leaks :
  sanitize_sql_for_log None ("/* don't */ SELECT * FROM u WHERE pw = 'hunter'") = "/* don?hunter?".
Proof. reflexivity. Qed.

(** Digits of identifiers are masked too, and UTF-8 is not preserved: each byte of a character above
    U+007F is pushed as a character of its own. *)
Example identifiers_masked : sanitize_sql_for_log None "SELECT col1 FROM t2" = "SELECT col? FROM t?".
Proof. reflexivity. Qed.

Example utf8_mangled :
  as_bytes (sanitize_sql_for_log None (string_of_bytes [xc3; xa9])) = [xc3; x83; xc2; xa9].
Proof. reflexivity. Qed.
