(* ===== verification/Telemetry.v ===== *)
(** Telemetry (observability/telemetry/mod.rs, exporters.rs, console.rs): the otel_* entry points with their
    own global state, and the two exporters.

    The JSON parser and the HTTP client are not the engine's: the class [Collector] says what a text
    parses to, how the value is written, and how a request is answered, each for the requests made
    so far; it says too whether standard output takes a line.  [println!] panics when it does not. *)

From S2P Require Import Prelude Wire Errors Text.

Record Sent := mkSent { sn_posts : list (string * string); sn_lines : list string }.

Class Collector := {
  co_value : Type;
  co_from_str : string → option co_value;
  co_to_string : co_value → string;
  (** The status of the answer, or no answer. *)
  co_post : Sent → string → string → option Z;
  co_print : Sent → bool
}.

(** The default build has the observability feature. *)
Inductive TelemetryExporter := ConsoleExporter | OtlpExporter (endpoint : string) (timeout_seconds : Z).

Definition DEFAULT_TIMEOUT : Z := 30.

Definition with_timeout (endpoint : string) (timeout_seconds : Z) : TelemetryExporter := OtlpExporter endpoint timeout_seconds.

Definition otlp_new (endpoint : string) : TelemetryExporter := with_timeout endpoint DEFAULT_TIMEOUT.

Definition exporter_name (x : TelemetryExporter) : string :=
  match x with ConsoleExporter => "ConsoleExporter" | OtlpExporter _ _ => "OtlpExporter" end.

Record TelemetryState := mkTelemetryState { ts_exporter : option TelemetryExporter; ts_last_error : option string }.

Definition telemetry_new (x : TelemetryExporter) : TelemetryState := mkTelemetryState (Some x) None.

Definition set_error (error : string) (s : TelemetryState) : TelemetryState := mkTelemetryState (ts_exporter s) (Some error).

(** [TELEMETRY_STATE], and what has gone out. *)
Record Telemetry := mkTelemetry { tl_poisoned : bool; tl_state : option TelemetryState; tl_sent : Sent }.

Definition telemetry_initial : Telemetry := mkTelemetry false None (mkSent [] []).

Definition set_state (s : option TelemetryState) (t : Telemetry) : Telemetry := mkTelemetry (tl_poisoned t) s (tl_sent t).

Definition ERROR_BUFFER_TOO_SMALL : Z := 5.
Definition MAX_TRACE_JSON_LEN : Z := 16 * 1024 * 1024.

Section Telemetry.
Context `{Collector}.

(** [json!({ "resourceSpans": .. })] as [serde_json::to_string] writes it. *)
Definition build_otlp_payload (trace_data : co_value) : string :=
  let q s := dquote +:+ s +:+ dquote in
  "{" +:+ q "resourceSpans" +:+ ":[{" +:+ q "resource" +:+ ":{" +:+ q "attributes" +:+ ":[{" +:+ q "key" +:+ ":" +:+ q "service.name"
  +:+ "," +:+ q "value" +:+ ":{" +:+ q "stringValue" +:+ ":" +:+ q "odbc_fast" +:+ "}}]}," +:+ q "scopeSpans" +:+ ":[{" +:+ q "scope" +:+ ":{"
  +:+ q "name" +:+ ":" +:+ q "odbc_fast" +:+ "}," +:+ q "spans" +:+ ":[" +:+ co_to_string trace_data +:+ "]}]}]}".

(** [send_http_post]: whether it was accepted. *)
Definition send_http_post (endpoint payload : string) (o : Sent) : bool * Sent :=
  let ok := match co_post o endpoint payload with Some status => (200 <=? status) && (status <? 300) | None => false end in
  (ok, mkSent (sn_posts o ++ [(endpoint, payload)]) (sn_lines o)).

Definition otlp_export_trace (endpoint trace_json : string) (o : Sent) : Z * Sent :=
  match co_from_str trace_json with
  | None => (1, o)
  | Some trace_data =>
      let '(ok, o) := send_http_post endpoint (build_otlp_payload trace_data) o in (if ok then 0 else 2, o)
  end.

Definition console_export_trace (trace_json : string) (o : Sent) : Result Z * Sent :=
  if co_print o then (Ok 0, mkSent (sn_posts o) (sn_lines o ++ [trace_json])) else (Panic, o).

Definition export (x : TelemetryExporter) (trace_json : string) (o : Sent) : Result Z * Sent :=
  match x with
  | ConsoleExporter => console_export_trace trace_json o
  | OtlpExporter endpoint _ => let '(r, o) := otlp_export_trace endpoint trace_json o in (Ok r, o)
  end.

(** ** The entry points: the code they return, and the state *)

Definition choose_exporter (api_endpoint : option (list byte)) : TelemetryExporter :=
  match api_endpoint with
  | None => ConsoleExporter
  | Some bs =>
      let endpoint_str := from_utf8_lossy bs in
      if String.eqb endpoint_str EmptyString || negb (str_starts_with endpoint_str "http") then ConsoleExporter else otlp_new endpoint_str
  end.

Definition otel_init (api_endpoint : option (list byte)) (t : Telemetry) : Z * Telemetry :=
  let exporter := choose_exporter api_endpoint in
  if tl_poisoned t then (4, t) else (0, set_state (Some (telemetry_new exporter)) t).

(** The bytes at the pointer, as many as the length says. *)
Definition otel_export_trace (trace_json : option (list byte)) (t : Telemetry) : Z * Telemetry :=
  match trace_json with
  | None => (1, t)
  | Some slice =>
      if MAX_TRACE_JSON_LEN <? len slice then (-8, t)
      else if tl_poisoned t then (4, t)
      else
        match from_utf8 slice with
        | None => (3, set_state (set_error "Invalid UTF-8 in trace JSON" <$> tl_state t) t)
        | Some json_str =>
            match tl_state t ≫= ts_exporter with
            | None => (2, t)
            | Some exporter =>
                match export exporter json_str (tl_sent t) with
                | (Ok result, o) =>
                    let t := mkTelemetry (tl_poisoned t) (tl_state t) o in
                    (result, if result =? 0 then t else set_state (set_error ("Export failed with code " +:+ fmt_Z result) <$> tl_state t) t)
                | (_, o) => (-4, mkTelemetry true (tl_state t) o)
                end
            end
        end
  end.

Definition otel_export_trace_to_string (trace_out_null : bool) : Z := if trace_out_null then 1 else 0.

(** What is written: the length, and the text with its final zero byte. *)
Record ErrorOut := mkErrorOut { eo_len : option Z; eo_bytes : option (list byte) }.

Definition otel_get_last_error (null : bool) (buffer_cap : Z) (t : Telemetry) : Z * ErrorOut :=
  if null then (1, mkErrorOut None None)
  else if tl_poisoned t then (4, mkErrorOut None None)
  else
    let error_message := default "No error" (tl_state t ≫= ts_last_error) in
    let bytes := as_bytes error_message in
    if existsb (λ b, b2z b =? 0) bytes then (2, mkErrorOut None None)
    else if buffer_cap <? len bytes + 1 then (ERROR_BUFFER_TOO_SMALL, mkErrorOut (Some (len bytes)) None)
    else (0, mkErrorOut (Some (len bytes)) (Some (bytes ++ [x00]))).

Definition otel_cleanup_strings (t : Telemetry) : Telemetry := t.

Definition otel_shutdown (t : Telemetry) : Telemetry := if tl_poisoned t then t else set_state None t.

(** * Reachable states *)

Inductive TelemetryStep : Telemetry → Telemetry → Prop :=
| step_init ep t : TelemetryStep t (otel_init ep t).2
| step_export tr t : TelemetryStep t (otel_export_trace tr t).2
| step_cleanup t : TelemetryStep t (otel_cleanup_strings t)
| step_shutdown t : TelemetryStep t (otel_shutdown t).

Definition known_error (m : string) : Prop := m = "Invalid UTF-8 in trace JSON" ∨ m = "Export failed with code 1" ∨ m = "Export failed with code 2".

(** There is an exporter wherever there is a state, and the error is one of three. *)
Definition telemetry_ok (t : Telemetry) : Prop :=
  ∀ s, tl_state t = Some s → is_Some (ts_exporter s) ∧ ∀ m, ts_last_error s = Some m → known_error m.

Lemma export_codes x json o : ∃ r o', export x json o = (r, o') ∧ (r = Panic ∨ r = Ok 0 ∨ r = Ok 1 ∨ r = Ok 2).
Proof.
  destruct x as [|endpoint timeout]; cbn [export].
  - unfold console_export_trace. destruct (co_print o); eexists _, _; (split; [reflexivity|]); tauto.
  - unfold otlp_export_trace. destruct (co_from_str json) as [v|]; [|eexists _, _; (split; [reflexivity|]); tauto].
    unfold send_http_post. destruct (match co_post o endpoint (build_otlp_payload v) with Some status => (200 <=? status) && (status <? 300) | None => false end);
      eexists _, _; (split; [reflexivity|]); tauto.
Qed.

Lemma telemetry_ok_error t m p o : telemetry_ok t → known_error m → telemetry_ok (mkTelemetry p (set_error m <$> tl_state t) o).
Proof.
  intros Ht Hm s Hs. cbn in Hs. destruct (tl_state t) as [s0|] eqn:E; [|done]. injection Hs as <-. destruct (Ht s0 E) as [Hx _].
  split; [done|]. intros m' Hm'. by injection Hm' as <-.
Qed.

Lemma telemetry_step_ok t t' : TelemetryStep t t' → telemetry_ok t → telemetry_ok t'.
Proof.
  intros Hs Ht. destruct Hs as [ep t|tr t|t|t].
  - unfold otel_init. destruct (tl_poisoned t); [done|]. intros s Hs. injection Hs as <-. split; [by eexists|done].
  - unfold otel_export_trace. destruct tr as [slice|]; [|done]. destruct (MAX_TRACE_JSON_LEN <? len slice); [done|].
    destruct (tl_poisoned t) eqn:Ep; [done|]. destruct (from_utf8 slice) as [json|]; [|apply telemetry_ok_error; [done|by left]].
    destruct (tl_state t ≫= ts_exporter) as [x|] eqn:Ex; [|done]. destruct (export_codes x json (tl_sent t)) as (r & o' & -> & Hr).
    destruct Hr as [->|[->|[->| ->]]]; cbn [Z.eqb snd]; [exact Ht..| |];
      (apply (telemetry_ok_error (mkTelemetry _ (tl_state t) o')); [exact Ht|]); [right; left|right; right]; reflexivity.
  - exact Ht.
  - unfold otel_shutdown. by destruct (tl_poisoned t).
Qed.

Lemma telemetry_reachable_ok t : rtc TelemetryStep telemetry_initial t → telemetry_ok t.
Proof.
  assert (telemetry_ok telemetry_initial) as Hinit by (intros s; done).
  intros Hr. induction Hr as [t|t0 t1 t H1 _ IH]; [done|]. apply IH. by eapply telemetry_step_ok.
Qed.

(** The message a caller may read. *)
Definition current_error (t : Telemetry) : string := default "No error" (tl_state t ≫= ts_last_error).

(** The last error can be read, in every state that calls of the entry points lead to and that no panic has
    poisoned: a buffer that is too small, by whatever much, is answered with 5 and the length of the
    message; one byte more than that length, for the final zero, is enough, and the message arrives
    whole.  The code for a message with a zero byte in it never comes. *)
Theorem last_error_read (t : Telemetry) (cap : Z) :
  rtc TelemetryStep telemetry_initial t → tl_poisoned t = false →
  let n := len (as_bytes (current_error t)) in
  otel_get_last_error false cap t =
    if cap <? n + 1 then (ERROR_BUFFER_TOO_SMALL, mkErrorOut (Some n) None)
    else (0, mkErrorOut (Some n) (Some (as_bytes (current_error t) ++ [x00]))).
Proof.
  intros Hr Hp n. pose proof (telemetry_reachable_ok t Hr) as Hok. unfold otel_get_last_error. rewrite Hp. fold (current_error t).
  assert (existsb (λ b, b2z b =? 0) (as_bytes (current_error t)) = false) as ->; [|reflexivity].
  unfold current_error. destruct (tl_state t) as [s|] eqn:Es; [|reflexivity]. cbn [mbind option_bind].
  destruct (ts_last_error s) as [m|] eqn:Em; [|reflexivity]. cbn [default]. unfold id.
  destruct (Hok s Es) as [_ H0]. destruct (H0 m Em) as [->|[->| ->]]; reflexivity.
Qed.

(** A trace for a collector is sent once, wrapped, to the endpoint of the initialisation: the code is 0 exactly
    when the answer is a 2xx status, and otherwise it is 2 and the error can be read; a text that is no
    JSON is refused with 1 before anything is sent. *)
Theorem export_posts_once (t : Telemetry) (s : TelemetryState) (endpoint json : string) (timeout : Z) :
  tl_poisoned t = false → tl_state t = Some s → ts_exporter s = Some (OtlpExporter endpoint timeout) →
  str_wf json → len (as_bytes json) ≤ MAX_TRACE_JSON_LEN →
  let '(code, t') := otel_export_trace (Some (as_bytes json)) t in
  match co_from_str json with
  | Some v =>
      sn_posts (tl_sent t') = sn_posts (tl_sent t) ++ [(endpoint, build_otlp_payload v)] ∧
      (code = 0 ↔ ∃ status, co_post (tl_sent t) endpoint (build_otlp_payload v) = Some status ∧ 200 ≤ status < 300) ∧
      (code ≠ 0 → code = 2 ∧ current_error t' = "Export failed with code 2")
  | None => code = 1 ∧ tl_sent t' = tl_sent t ∧ current_error t' = "Export failed with code 1"
  end ∧ tl_poisoned t' = false.
Proof.
  intros Hp Hs Hx Hwf Hl. unfold otel_export_trace. destruct (Z.ltb_spec MAX_TRACE_JSON_LEN (len (as_bytes json))); [lia|].
  rewrite Hp, Hs. assert (from_utf8 (as_bytes json) = Some json) as ->.
  { unfold from_utf8. unfold str_wf in Hwf. rewrite Hwf. f_equal. apply string_of_list_byte_of_string. }
  cbn [mbind option_bind]. rewrite Hx. cbn [export]. unfold otlp_export_trace. destruct (co_from_str json) as [v|]; [|done].
  unfold send_http_post. destruct (co_post (tl_sent t) endpoint (build_otlp_payload v)) as [status|] eqn:Er.
  - assert ((∃ st, Some status = Some st ∧ 200 ≤ st < 300) ↔ 200 ≤ status < 300) as Hst.
    { split; [intros (st & Hst & ?); by injection Hst as ->|intros ?; by exists status]. }
    rewrite Hst. destruct (Z.leb_spec 200 status), (Z.ltb_spec status 300); cbn; (split; [split; [done|]|done]); (split; [|done]);
      ((split; [|done]) || split); first [intros ?; lia|intros ?; discriminate].
  - cbn. split; [split; [done|]|done]. split; [|done]. split; [done|]. by intros (? & ? & _).
Qed.
End Telemetry.

(** A collector that takes everything, and one that is not there. *)
Definition good_collector : Collector := {| co_value := string; co_from_str := Some; co_to_string := id; co_post := λ _ _ _, Some 200; co_print := λ _, true |}.
Definition no_collector : Collector := {| co_value := string; co_from_str := Some; co_to_string := id; co_post := λ _ _ _, None; co_print := λ _, false |}.

Definition otlp_state : Telemetry := (otel_init (Some (as_bytes "http://localhost:4318/v1/traces")) telemetry_initial).2.

Lemma export_posts_once_witness :
  let H := no_collector in
  (otel_export_trace (Some (as_bytes "{}")) otlp_state).1 = 2 ∧
  current_error (otel_export_trace (Some (as_bytes "{}")) otlp_state).2 = "Export failed with code 2".
Proof.
  cbv zeta. pose proof (export_posts_once (H := no_collector) otlp_state (telemetry_new (otlp_new "http://localhost:4318/v1/traces"))
    "http://localhost:4318/v1/traces" "{}" 30 eq_refl eq_refl eq_refl eq_refl ltac:(vm_compute; discriminate)) as Hp.
  revert Hp. cbn. intros ((_ & _ & He) & _). by apply He.
Defined.

(** The error of an export stays after an export that succeeds; a new initialisation takes it away. *)
Example error_stays :
  let t := (otel_export_trace (H := no_collector) (Some (as_bytes "{}")) otlp_state).2 in
  let t := (otel_export_trace (H := good_collector) (Some (as_bytes "{}")) t).2 in
  (otel_export_trace (H := good_collector) (Some (as_bytes "{}")) t).1 = 0 ∧ current_error t = "Export failed with code 2" ∧
  current_error (otel_init None t).2 = "No error".
Proof. vm_compute. split; [|split]; reflexivity. Qed.

(** With the console exporter and a closed standard output an export panics and poisons the state: from then on
    every call answers 4, the shutdown does nothing, and only a restart of the process helps. *)
Example closed_stdout :
  let t := (otel_init None telemetry_initial).2 in
  let '(code, t) := otel_export_trace (H := no_collector) (Some (as_bytes "{}")) t in
  code = -4 ∧ (otel_init None t).1 = 4 ∧ (otel_get_last_error false 100 (otel_shutdown t)).1 = 4.
Proof. vm_compute. split; [|split]; reflexivity. Qed.
