(* ===== verification/Catalog.v ===== *)
(** Catalog queries on a connection (engine/catalog.rs): the engine is asked for its name, the plugin's
    query is run, and INFORMATION_SCHEMA is asked where no plugin is known. *)

From S2P Require Import Prelude Wire Errors RowCodec ParamValue Compression Text Capabilities SqlText Plugins CatalogSql Registry.
From S2P Require Import Caches OutputParams Handles Execution.

(** * Queries without a plugin *)

Definition fallback_tables (catalog schema : option string) : CatalogQuery :=
  let cat := trim (default EmptyString catalog) in
  let sch := trim (default EmptyString schema) in
  if String.eqb cat EmptyString && String.eqb sch EmptyString then mkCatalogQuery
    ("SELECT TABLE_CATALOG, TABLE_SCHEMA, TABLE_NAME, TABLE_TYPE " +:+
     "FROM INFORMATION_SCHEMA.TABLES " +:+
     "WHERE TABLE_TYPE IN ('BASE TABLE','VIEW') " +:+
     "ORDER BY TABLE_CATALOG, TABLE_SCHEMA, TABLE_NAME")
    []
  else if negb (String.eqb cat EmptyString) && String.eqb sch EmptyString then mkCatalogQuery
    ("SELECT TABLE_CATALOG, TABLE_SCHEMA, TABLE_NAME, TABLE_TYPE " +:+
     "FROM INFORMATION_SCHEMA.TABLES " +:+
     "WHERE TABLE_TYPE IN ('BASE TABLE','VIEW') AND TABLE_CATALOG = ? " +:+
     "ORDER BY TABLE_SCHEMA, TABLE_NAME")
    [PString cat]
  else if String.eqb cat EmptyString && negb (String.eqb sch EmptyString) then mkCatalogQuery
    ("SELECT TABLE_CATALOG, TABLE_SCHEMA, TABLE_NAME, TABLE_TYPE " +:+
     "FROM INFORMATION_SCHEMA.TABLES " +:+
     "WHERE TABLE_TYPE IN ('BASE TABLE','VIEW') AND TABLE_SCHEMA = ? " +:+
     "ORDER BY TABLE_NAME")
    [PString sch]
  else mkCatalogQuery
    ("SELECT TABLE_CATALOG, TABLE_SCHEMA, TABLE_NAME, TABLE_TYPE " +:+
     "FROM INFORMATION_SCHEMA.TABLES " +:+
     "WHERE TABLE_TYPE IN ('BASE TABLE','VIEW') " +:+
     "AND TABLE_CATALOG = ? AND TABLE_SCHEMA = ? " +:+
     "ORDER BY TABLE_NAME")
    [PString cat; PString sch].

Definition fallback_columns (table : string) (schema : option string) : CatalogQuery :=
  match schema with
  | Some sch => mkCatalogQuery
    ("SELECT TABLE_CATALOG, TABLE_SCHEMA, TABLE_NAME, COLUMN_NAME, " +:+
     "ORDINAL_POSITION, DATA_TYPE, IS_NULLABLE " +:+
     "FROM INFORMATION_SCHEMA.COLUMNS " +:+
     "WHERE TABLE_SCHEMA = ? AND TABLE_NAME = ? " +:+
     "ORDER BY ORDINAL_POSITION")
    [PString sch; PString table]
  | None => mkCatalogQuery
    ("SELECT TABLE_CATALOG, TABLE_SCHEMA, TABLE_NAME, COLUMN_NAME, " +:+
     "ORDINAL_POSITION, DATA_TYPE, IS_NULLABLE " +:+
     "FROM INFORMATION_SCHEMA.COLUMNS " +:+
     "WHERE TABLE_NAME = ? " +:+
     "ORDER BY TABLE_SCHEMA, ORDINAL_POSITION")
    [PString table]
  end.

Definition fallback_primary_keys (table : string) (schema : option string) : CatalogQuery :=
  match schema with
  | Some sch => mkCatalogQuery
    ("SELECT " +:+
     "kcu.TABLE_NAME, " +:+
     "kcu.COLUMN_NAME, " +:+
     "kcu.ORDINAL_POSITION, " +:+
     "tc.CONSTRAINT_NAME " +:+
     "FROM INFORMATION_SCHEMA.TABLE_CONSTRAINTS tc " +:+
     "JOIN INFORMATION_SCHEMA.KEY_COLUMN_USAGE kcu " +:+
     "ON tc.CONSTRAINT_NAME = kcu.CONSTRAINT_NAME " +:+
     "AND tc.TABLE_SCHEMA = kcu.TABLE_SCHEMA " +:+
     "AND tc.TABLE_NAME = kcu.TABLE_NAME " +:+
     "WHERE tc.CONSTRAINT_TYPE = 'PRIMARY KEY' " +:+
     "AND tc.TABLE_SCHEMA = ? " +:+
     "AND tc.TABLE_NAME = ? " +:+
     "ORDER BY kcu.ORDINAL_POSITION")
    [PString sch; PString table]
  | None => mkCatalogQuery
    ("SELECT " +:+
     "kcu.TABLE_NAME, " +:+
     "kcu.COLUMN_NAME, " +:+
     "kcu.ORDINAL_POSITION, " +:+
     "tc.CONSTRAINT_NAME " +:+
     "FROM INFORMATION_SCHEMA.TABLE_CONSTRAINTS tc " +:+
     "JOIN INFORMATION_SCHEMA.KEY_COLUMN_USAGE kcu " +:+
     "ON tc.CONSTRAINT_NAME = kcu.CONSTRAINT_NAME " +:+
     "AND tc.TABLE_SCHEMA = kcu.TABLE_SCHEMA " +:+
     "AND tc.TABLE_NAME = kcu.TABLE_NAME " +:+
     "WHERE tc.CONSTRAINT_TYPE = 'PRIMARY KEY' " +:+
     "AND tc.TABLE_NAME = ? " +:+
     "ORDER BY kcu.ORDINAL_POSITION")
    [PString table]
  end.

Definition fallback_foreign_keys (table : string) (schema : option string) : CatalogQuery :=
  match schema with
  | Some sch => mkCatalogQuery
    ("SELECT " +:+
     "rc.CONSTRAINT_NAME, " +:+
     "kcu1.TABLE_NAME AS FROM_TABLE, " +:+
     "kcu1.COLUMN_NAME AS FROM_COLUMN, " +:+
     "kcu2.TABLE_NAME AS TO_TABLE, " +:+
     "kcu2.COLUMN_NAME AS TO_COLUMN, " +:+
     "rc.UPDATE_RULE, " +:+
     "rc.DELETE_RULE " +:+
     "FROM INFORMATION_SCHEMA.REFERENTIAL_CONSTRAINTS rc " +:+
     "JOIN INFORMATION_SCHEMA.KEY_COLUMN_USAGE kcu1 " +:+
     "ON rc.CONSTRAINT_NAME = kcu1.CONSTRAINT_NAME " +:+
     "AND rc.CONSTRAINT_SCHEMA = kcu1.CONSTRAINT_SCHEMA " +:+
     "JOIN INFORMATION_SCHEMA.KEY_COLUMN_USAGE kcu2 " +:+
     "ON rc.UNIQUE_CONSTRAINT_NAME = kcu2.CONSTRAINT_NAME " +:+
     "AND rc.UNIQUE_CONSTRAINT_SCHEMA = kcu2.CONSTRAINT_SCHEMA " +:+
     "AND kcu1.ORDINAL_POSITION = kcu2.ORDINAL_POSITION " +:+
     "WHERE kcu1.TABLE_SCHEMA = ? " +:+
     "AND kcu1.TABLE_NAME = ? " +:+
     "ORDER BY rc.CONSTRAINT_NAME, kcu1.ORDINAL_POSITION")
    [PString sch; PString table]
  | None => mkCatalogQuery
    ("SELECT " +:+
     "rc.CONSTRAINT_NAME, " +:+
     "kcu1.TABLE_NAME AS FROM_TABLE, " +:+
     "kcu1.COLUMN_NAME AS FROM_COLUMN, " +:+
     "kcu2.TABLE_NAME AS TO_TABLE, " +:+
     "kcu2.COLUMN_NAME AS TO_COLUMN, " +:+
     "rc.UPDATE_RULE, " +:+
     "rc.DELETE_RULE " +:+
     "FROM INFORMATION_SCHEMA.REFERENTIAL_CONSTRAINTS rc " +:+
     "JOIN INFORMATION_SCHEMA.KEY_COLUMN_USAGE kcu1 " +:+
     "ON rc.CONSTRAINT_NAME = kcu1.CONSTRAINT_NAME " +:+
     "AND rc.CONSTRAINT_SCHEMA = kcu1.CONSTRAINT_SCHEMA " +:+
     "JOIN INFORMATION_SCHEMA.KEY_COLUMN_USAGE kcu2 " +:+
     "ON rc.UNIQUE_CONSTRAINT_NAME = kcu2.CONSTRAINT_NAME " +:+
     "AND rc.UNIQUE_CONSTRAINT_SCHEMA = kcu2.CONSTRAINT_SCHEMA " +:+
     "AND kcu1.ORDINAL_POSITION = kcu2.ORDINAL_POSITION " +:+
     "WHERE kcu1.TABLE_NAME = ? " +:+
     "ORDER BY rc.CONSTRAINT_NAME, kcu1.ORDINAL_POSITION")
    [PString table]
  end.

Definition fallback_indexes (table : string) (schema : option string) : CatalogQuery :=
  match schema with
  | Some sch => mkCatalogQuery
    ("SELECT " +:+
     "tc.CONSTRAINT_NAME AS INDEX_NAME, " +:+
     "kcu.TABLE_NAME, " +:+
     "kcu.COLUMN_NAME, " +:+
     "CASE WHEN tc.CONSTRAINT_TYPE = 'UNIQUE' THEN 1 ELSE 0 END AS IS_UNIQUE, " +:+
     "CASE WHEN tc.CONSTRAINT_TYPE = 'PRIMARY KEY' THEN 1 ELSE 0 END AS IS_PRIMARY, " +:+
     "kcu.ORDINAL_POSITION " +:+
     "FROM INFORMATION_SCHEMA.TABLE_CONSTRAINTS tc " +:+
     "JOIN INFORMATION_SCHEMA.KEY_COLUMN_USAGE kcu " +:+
     "ON tc.CONSTRAINT_NAME = kcu.CONSTRAINT_NAME " +:+
     "AND tc.TABLE_SCHEMA = kcu.TABLE_SCHEMA " +:+
     "AND tc.TABLE_NAME = kcu.TABLE_NAME " +:+
     "WHERE (tc.CONSTRAINT_TYPE = 'PRIMARY KEY' OR tc.CONSTRAINT_TYPE = 'UNIQUE') " +:+
     "AND tc.TABLE_SCHEMA = ? " +:+
     "AND tc.TABLE_NAME = ? " +:+
     "ORDER BY tc.CONSTRAINT_NAME, kcu.ORDINAL_POSITION")
    [PString sch; PString table]
  | None => mkCatalogQuery
    ("SELECT " +:+
     "tc.CONSTRAINT_NAME AS INDEX_NAME, " +:+
     "kcu.TABLE_NAME, " +:+
     "kcu.COLUMN_NAME, " +:+
     "CASE WHEN tc.CONSTRAINT_TYPE = 'UNIQUE' THEN 1 ELSE 0 END AS IS_UNIQUE, " +:+
     "CASE WHEN tc.CONSTRAINT_TYPE = 'PRIMARY KEY' THEN 1 ELSE 0 END AS IS_PRIMARY, " +:+
     "kcu.ORDINAL_POSITION " +:+
     "FROM INFORMATION_SCHEMA.TABLE_CONSTRAINTS tc " +:+
     "JOIN INFORMATION_SCHEMA.KEY_COLUMN_USAGE kcu " +:+
     "ON tc.CONSTRAINT_NAME = kcu.CONSTRAINT_NAME " +:+
     "AND tc.TABLE_SCHEMA = kcu.TABLE_SCHEMA " +:+
     "AND tc.TABLE_NAME = kcu.TABLE_NAME " +:+
     "WHERE (tc.CONSTRAINT_TYPE = 'PRIMARY KEY' OR tc.CONSTRAINT_TYPE = 'UNIQUE') " +:+
     "AND tc.TABLE_NAME = ? " +:+
     "ORDER BY tc.CONSTRAINT_NAME, kcu.ORDINAL_POSITION")
    [PString table]
  end.

Definition type_info_sql : string :=
     "SELECT DISTINCT DATA_TYPE AS type_name " +:+
     "FROM INFORMATION_SCHEMA.COLUMNS " +:+
     "ORDER BY type_name".

(** * Names *)

(** [schema.table]: the last dot separates. *)
Definition validate_and_parse_table (table : string) : Result (option string * string) :=
  let table := trim table in
  if String.eqb table EmptyString then Err (ValidationError "Table name cannot be empty")
  else
    match rfind "." table with
    | Some dot =>
        let s := trim (str_take dot table) in
        let t := trim (str_drop (S dot) table) in
        if String.eqb t EmptyString then Err (ValidationError "Invalid table name (empty after schema)")
        else Ok (Some s, t)
    | None => Ok (None, table)
    end.

(** * Running *)

Section Catalog.
Context `{LS : !Lru string unit} `{D : Driver} `{Q : QueryDriver} (ops : CodecOps).

(** [conn.database_management_system_name()], and the plugin for it: its generic name is looked up once
    more. *)
Definition live_plugin (phys : Z) : M (option PluginId) := λ w,
  let r := dr_dbms_name (w_trace w) phys in
  let p := match r with
           | Ok dbms_name =>
               match plugin_id_for_dbms_name (driver_name (from_driver_name dbms_name)) with
               | Some id => plugin_of_id id
               | None => None
               end
           | _ => None
           end in
  (match r with Panic => Panic | _ => Ok p end, record_call phys CDbmsName (is_ok r) w).

(** The request as it reaches a plugin, or the query without one. *)
Definition fallback (r : CatalogRequest) : CatalogQuery :=
  match r with
  | RTables catalog schema => fallback_tables catalog schema
  | RColumns table schema => fallback_columns table schema
  | RPrimaryKeys table schema => fallback_primary_keys table schema
  | RForeignKeys table schema => fallback_foreign_keys table schema
  | RIndexes table schema => fallback_indexes table schema
  end.

(** [dispatch_catalog] and the query it chose. *)
Definition catalog_query (r : CatalogRequest) (plugin : option PluginId) : Result CatalogQuery :=
  match plugin with
  | Some p => catalog_sql (catalog_provider p) r
  | None => Ok (fallback r)
  end.

Definition execute_catalog_query (phys : Z) (q : CatalogQuery) : X (list byte) :=
  match cq_params q with
  | [] => execute_direct ops phys (cq_sql q)
  | params => pipeline_with_params ops phys (cq_sql q) params
  end.

Definition run_catalog (phys : Z) (r : CatalogRequest) : X (list byte) := λ e w,
  let '(plugin, w) := live_plugin phys w in
  match (let? p := plugin in catalog_query r p) with
  | Ok q => execute_catalog_query phys q e w
  | Err err => (Err err, e, w)
  | Panic => (Panic, e, w)
  end.

(** [validate_and_parse_table(table)?], then the request. *)
Definition run_for_table (phys : Z) (request : string → option string → CatalogRequest) (table : string) : X (list byte) := λ e w,
  match validate_and_parse_table table with
  | Ok (schema, table_name) => run_catalog phys (request table_name schema) e w
  | Err err => (Err err, e, w)
  | Panic => (Panic, e, w)
  end.

Definition list_tables (phys : Z) (catalog schema : option string) : X (list byte) := run_catalog phys (RTables catalog schema).
Definition list_columns (phys : Z) (table : string) : X (list byte) := run_for_table phys RColumns table.
Definition list_primary_keys (phys : Z) (table : string) : X (list byte) := run_for_table phys RPrimaryKeys table.
Definition list_foreign_keys (phys : Z) (table : string) : X (list byte) := run_for_table phys RForeignKeys table.
Definition list_indexes (phys : Z) (table : string) : X (list byte) := run_for_table phys RIndexes table.

Definition get_type_info (phys : Z) : X (list byte) := execute_direct ops phys type_info_sql.
End Catalog.

(** * What the driver is sent *)

(** The SQL of a driver call. *)
Definition sql_text (c : Call) : option string :=
  match c with CExec sql | CPrepare sql | CRun _ sql _ _ => Some sql | _ => None end.

(** The requests that name nothing but [x]. *)
Definition canonical_requests : list CatalogRequest :=
  let names := [None; Some "x"] in
  flat_map (λ c, map (RTables c) names) names ++
  flat_map (λ request, map (request "x") names) [RColumns; RPrimaryKeys; RForeignKeys; RIndexes].

(** The texts the engine holds for catalog queries, whoever asks for what. *)
Definition catalog_text (sql : string) : Prop :=
  sql = type_info_sql ∨ ∃ plugin r q, In r canonical_requests ∧ catalog_query r plugin = Ok q ∧ cq_sql q = sql.

Lemma canon_canonical r : In (canon r) canonical_requests.
Proof.
  destruct r as [c s|t s|t s|t s|t s]; cbn [canon];
    repeat match goal with |- context [if blank ?o then _ else _] => destruct (blank o) end; cbn; tauto.
Qed.

Lemma catalog_query_text r plugin q : catalog_query r plugin = Ok q → catalog_text (cq_sql q).
Proof.
  intros Hq. right. destruct plugin as [p|].
  - apply canon_text in Hq as (q0 & H0 & <-). exists (Some p), (canon r), q0. split; [apply canon_canonical|done].
  - cbn in Hq. injection Hq as <-. exists None.
    assert (∀ r', In r' canonical_requests → cq_sql (fallback r') = cq_sql (fallback r) →
      ∃ r0 q0, In r0 canonical_requests ∧ catalog_query r0 None = Ok q0 ∧ cq_sql q0 = cq_sql (fallback r)) as Hgo.
    { intros r' Hin Heq. by exists r', (fallback r'). }
    destruct r as [c s|t [s|]|t [s|]|t [s|]|t [s|]];
      [|apply (Hgo (RColumns "x" (Some "x")))|apply (Hgo (RColumns "x" None))|apply (Hgo (RPrimaryKeys "x" (Some "x")))|apply (Hgo (RPrimaryKeys "x" None))
       |apply (Hgo (RForeignKeys "x" (Some "x")))|apply (Hgo (RForeignKeys "x" None))|apply (Hgo (RIndexes "x" (Some "x")))|apply (Hgo (RIndexes "x" None))];
      try (cbn; tauto); try reflexivity.
    apply (Hgo (canon (RTables c s))); [apply canon_canonical|].
    cbn [fallback canon]. unfold fallback_tables, blank.
    destruct (String.eqb (trim (default EmptyString c)) EmptyString), (String.eqb (trim (default EmptyString s)) EmptyString); reflexivity.
Qed.

Section Sent.
Context `{LS : !Lru string unit} `{D : Driver} `{Q : QueryDriver} (ops : CodecOps).
Context (T : string → Prop).

(** Whatever SQL the calls of [m] hold satisfies [T]. *)
Definition sends_only {A : Type} (m : M A) : Prop :=
  ∀ w, ∃ h, w_trace (m w).2 = w_trace w ++ h ∧ Forall (λ c, ∀ sql, sql_text c.1.2 = Some sql → T sql) h.

Definition x_sends_only {A : Type} (m : X A) : Prop := ∀ e, sends_only (λ w, let '(r, e', w') := m e w in ((match r with Ok _ => Ok tt | Err err => Err err | Panic => Panic end : Result unit), w')).

Lemma sends_lift {A : Type} (r : Result A) : sends_only (lift r).
Proof. intros w. exists []. by rewrite app_nil_r. Qed.

Lemma sends_bind {A B : Type} (m : M A) (k : A → M B) : sends_only m → (∀ a, sends_only (k a)) → sends_only (let! a := m in k a).
Proof.
  intros Hm Hk w. destruct (Hm w) as (h & Hh & Fh). unfold bind. destruct (m w) as [[a|e|] w']; cbn in *; [|by exists h..].
  destruct (Hk a w') as (h' & Hh' & Fh'). exists (h ++ h'). rewrite Hh', Hh, app_assoc. split; [done|]. by apply Forall_app.
Qed.

Lemma sends_prepare phys sql : T sql → sends_only (prepare_statement phys sql).
Proof. intros Ht w. eexists [_]. split; [reflexivity|]. constructor; [|constructor]. by intros s [= <-]. Qed.

Lemma sends_run phys c : (∀ sql, sql_text c = Some sql → T sql) → sends_only (run_statement phys c).
Proof. intros Ht w. eexists [_]. split; [reflexivity|]. by repeat constructor. Qed.

Lemma observed_sends {A : Type} (body : ExecutionEngine → M A) e : sends_only (body e) →
  ∀ w, ∃ h, w_trace (observed body e w).2 = w_trace w ++ h ∧ Forall (λ c, ∀ sql, sql_text c.1.2 = Some sql → T sql) h.
Proof.
  intros Hb w. destruct (Hb w) as (h & Hh & Fh). exists h. split; [|done]. unfold observed. destruct (body e w) as [[a|err|] w']; cbn in *; [| |done].
  all: destruct (metrics_record_query _ _) as [[[]|?|] m]; done.
Qed.

Lemma direct_sends phys sql e w : active_plugin e = None → T sql →
  ∃ h, w_trace (execute_direct ops phys sql e w).2 = w_trace w ++ h ∧ Forall (λ c, ∀ s, sql_text c.1.2 = Some s → T s) h.
Proof.
  intros Hp Ht. unfold execute_direct, checked. destruct (parse_sql sql); cbn; [|exists []; by rewrite app_nil_r..].
  unfold execute_query. apply observed_sends. unfold execute_query_inner, optimized.
  change (active_plugin (touch_cache sql e)) with (active_plugin e). rewrite Hp.
  apply sends_bind; [by apply sends_prepare|]. intros []. apply sends_bind; [|intros; apply sends_lift]. apply sends_run. by intros s [= <-].
Qed.

Lemma params_sends phys sql params e w : T sql →
  ∃ h, w_trace (pipeline_with_params ops phys sql params e w).2 = w_trace w ++ h ∧ Forall (λ c, ∀ s, sql_text c.1.2 = Some s → T s) h.
Proof.
  intros Ht. unfold pipeline_with_params, checked. destruct (parse_sql sql); cbn; [|exists []; by rewrite app_nil_r..].
  unfold execute_query_with_params, execute_query_with_params_and_timeout. apply observed_sends. unfold execute_query_with_params_inner.
  apply sends_bind; [apply sends_lift|]. intros os. case_if; [apply sends_lift|].
  apply sends_bind; [|intros; apply sends_lift]. apply sends_run. by intros s [= <-].
Qed.
End Sent.

Inductive CatalogOp :=
| OpTables (catalog schema : option string)
| OpColumns (table : string)
| OpPrimaryKeys (table : string)
| OpForeignKeys (table : string)
| OpIndexes (table : string)
| OpTypeInfo.

Definition catalog_op `{LS : !Lru string unit} `{D : Driver} `{Q : QueryDriver} (ops : CodecOps) (phys : Z) (op : CatalogOp) : X (list byte) :=
  match op with
  | OpTables catalog schema => list_tables ops phys catalog schema
  | OpColumns table => list_columns ops phys table
  | OpPrimaryKeys table => list_primary_keys ops phys table
  | OpForeignKeys table => list_foreign_keys ops phys table
  | OpIndexes table => list_indexes ops phys table
  | OpTypeInfo => get_type_info ops phys
  end.

(** C32: A catalog operation sends the driver nothing but SQL that the engine holds ready.  Whatever the driver
    answers, whatever engine it says it is, and whatever tables, schemas and catalogs are named:
    the calls made are added to the history, and the SQL of each of them is one of a fixed set of
    texts, the same for every name. *)
Theorem catalog_sends_fixed_sql `{LS : !Lru string unit} `{D : Driver} `{Q : QueryDriver} (ops : CodecOps)
    (phys : Z) (op : CatalogOp) (e : ExecutionEngine) (w : World) :
  active_plugin e = None →
  ∃ h, w_trace (catalog_op ops phys op e w).2 = w_trace w ++ h ∧
    Forall (λ c, ∀ sql, sql_text c.1.2 = Some sql → catalog_text sql) h.
Proof.
  intros Hp.
  assert (∀ r, ∃ h, w_trace (run_catalog ops phys r e w).2 = w_trace w ++ h ∧ Forall (λ c, ∀ sql, sql_text c.1.2 = Some sql → catalog_text sql) h) as Hrun.
  { intros r. unfold run_catalog. destruct (live_plugin phys w) as [o w1] eqn:El.
    assert (∃ c, w_trace w1 = w_trace w ++ [c] ∧ sql_text c.1.2 = None) as (c & Hw & Hc).
    { change w1 with (o, w1).2. rewrite <- El. eexists. split; reflexivity. }
    destruct (let? p := o in catalog_query r p) as [q|err|] eqn:Eq; [|exists [c]; split; [done|]; constructor; [congruence|constructor]..].
    apply obind_Ok_inv in Eq as (plugin & _ & Hq). apply catalog_query_text in Hq.
    assert (∃ h, w_trace (execute_catalog_query ops phys q e w1).2 = w_trace w1 ++ h ∧
      Forall (λ c, ∀ s, sql_text c.1.2 = Some s → catalog_text s) h) as (h & Hh & Fh).
    { unfold execute_catalog_query. destruct (cq_params q); [apply direct_sends; [exact Hp|exact Hq]|apply params_sends; exact Hq]. }
    exists (c :: h). rewrite Hh, Hw, <- app_assoc. split; [done|]. constructor; [congruence|done]. }
  assert (∀ request table, ∃ h, w_trace (run_for_table ops phys request table e w).2 = w_trace w ++ h ∧
    Forall (λ c, ∀ sql, sql_text c.1.2 = Some sql → catalog_text sql) h) as Htab.
  { intros request table. unfold run_for_table. destruct (validate_and_parse_table table) as [[schema name]| |]; [apply Hrun|exists []; by rewrite app_nil_r..]. }
  destruct op; cbn [catalog_op]; try apply Htab; [apply Hrun|]. unfold get_type_info. apply direct_sends; [exact Hp|left; reflexivity].
Qed.

(** * Table names *)

(** A table name that is accepted has no dot in the table part; what stands before the last dot is the schema. *)
Lemma rfind_app p s t n : rfind p t = Some n → rfind p (s +:+ t) = Some (String.length s + n)%nat.
Proof. intros Ht. induction s as [|c s IH]; [done|]. rewrite string_app_cons. cbn [rfind]. by rewrite IH. Qed.

Lemma rfind_dot_none t : count "." t = O → rfind "." t = None.
Proof.
  induction t as [|c t IH]; [done|]. cbn [count rfind]. destruct (Ascii.eqb_spec c ".") as [->|Hn]; [done|]. intros H. rewrite IH by done.
  unfold str_starts_with. cbn [strip_prefix]. destruct (Ascii.eqb_spec "." c) as [<-|]; [by destruct Hn|reflexivity].
Qed.

(** Reading a qualified name gives back its parts. *)
Theorem parse_table_spec (schema table : string) :
  count "." table = O → trim table = table → table ≠ EmptyString → trim (schema +:+ "." +:+ table) = schema +:+ "." +:+ table →
  validate_and_parse_table (schema +:+ "." +:+ table) = Ok (Some (trim schema), table) ∧
  validate_and_parse_table table = Ok (None, table).
Proof.
  intros Hd Ht Hne Hq. unfold validate_and_parse_table. rewrite Hq, Ht. split.
  - replace (String.eqb (schema +:+ "." +:+ table) EmptyString) with false by (symmetry; apply String.eqb_neq; by destruct schema).
    rewrite (rfind_app "." schema ("." +:+ table) 0).
    + rewrite Nat.add_0_r, take_app_str.
      replace (str_drop (S (String.length schema)) (schema +:+ "." +:+ table)) with table.
      * rewrite Ht. apply String.eqb_neq in Hne. by rewrite Hne.
      * replace (S (String.length schema)) with (String.length (schema +:+ ".")) by (rewrite length_app_str; cbn; lia).
        by rewrite <- string_app_assoc, drop_app_str.
    + change ("." +:+ table) with (String "." table). cbn [rfind]. rewrite (rfind_dot_none table Hd). reflexivity.
  - apply String.eqb_neq in Hne. by rewrite Hne, (rfind_dot_none table Hd).
Qed.

(** With three parts the catalog becomes a part of the schema's name. *)
Example three_part_name : validate_and_parse_table "sales.dbo.orders" = Ok (Some "sales.dbo", "orders").
Proof. vm_compute. reflexivity. Qed.

(** * Witness *)
#[local] Existing Instance list_lru.

Lemma catalog_sends_fixed_sql_witness :
  ∃ h, w_trace (catalog_op (D := ok_driver) (Q := sample_queries) stored_ops 0 (OpColumns "t'; DROP TABLE t --") sample_engine sample_world).2
         = w_trace sample_world ++ h ∧
    Forall (λ c, ∀ sql, sql_text c.1.2 = Some sql → catalog_text sql) h.
Proof. apply (catalog_sends_fixed_sql (D := ok_driver) (Q := sample_queries)). reflexivity. Defined.
