(* ===== verification/BatchExecutor.v ===== *)
(** Batches of statements (engine/core/batch_executor.rs): one prepared statement run with one parameter
    set after the other, and mixed lists of statements. *)

From S2P Require Import Prelude Wire Errors RowCodec ParamValue Compression MultiResult Caches CellReader OutputParams Columnar Handles Plugins Execution.

Inductive BatchParam := BpString (s : string) | BpInteger (n : Z) | BpBigInt (n : Z) | BpNull.

Record BatchQuery := mkBatchQuery { bq_sql : string; bq_params : list BatchParam }.

Definition query_new (sql : string) : BatchQuery := mkBatchQuery sql [].

Definition add_param (p : BatchParam) (q : BatchQuery) : BatchQuery := mkBatchQuery (bq_sql q) (bq_params q ++ [p]).

Definition batch_param_to_param_value (p : BatchParam) : ParamValue :=
  match p with
  | BpString s => PString s
  | BpInteger n => PInteger n
  | BpBigInt n => PBigInt n
  | BpNull => PNull
  end.

(** [slice::chunks]: the fuel is the length of the slice. *)
Fixpoint chunk_loop {A : Type} (fuel size : nat) (l : list A) : list (list A) :=
  match fuel, l with
  | S fuel, _ :: _ => take size l :: chunk_loop fuel size (drop size l)
  | _, _ => []
  end.

Definition slice_chunks {A : Type} (size : Z) (l : list A) : list (list A) :=
  chunk_loop (length l) (Z.to_nat (Z.min size (len l))) l.

Definition effective_batch_size (batch_size : Z) : Z := Z.max batch_size 1.

Section Batch.
Context `{LS : !Lru string unit} `{D : Driver} `{Q : QueryDriver} (ops : CodecOps).

(** The pipeline holds an engine; here the engine is the state that is passed on. *)
Record BatchExecutor := mkBatchExecutor { be_engine : ExecutionEngine; be_batch_size : Z }.

Definition executor_new (now cache_size batch_size : Z) (registry : string → option DriverPlugin) : BatchExecutor :=
  mkBatchExecutor (engine_new now cache_size registry) batch_size.

(** The message of one execution. *)
Definition set_message (x : Execution) : Result (list byte) :=
  match ex_cursor x with
  | None => let? row_count := initial_row_count x in Ok (encode_multi [RowCount row_count])
  | Some c => let? b := read_cursor from_odbc_sql_type c in expect_into (try_encode (coalesce_for_json_rows b))
  end.

(** The body of the inner loop. *)
Definition execute_set (phys : Z) (sql : string) (param_set : list BatchParam) : M (list byte) :=
  let! optional_strings := lift (param_values_to_strings (map batch_param_to_param_value param_set)) in
  if 5 <? len optional_strings then
    lift (Err (ValidationError ("At most 5 parameters supported in batch, got " +:+ fmt_Z (len optional_strings))))
  else
    let! x := run_statement phys (CRun true sql (QpTexts optional_strings) None) in
    lift (set_message x).

Fixpoint execute_sets (phys : Z) (sql : string) (sets : list (list BatchParam)) (results : list (list byte)) : M (list (list byte)) :=
  match sets with
  | [] => ret results
  | param_set :: sets =>
      let! encoded := execute_set phys sql param_set in
      execute_sets phys sql sets (results ++ [encoded])
  end.

Fixpoint execute_chunks (phys : Z) (sql : string) (chunks : list (list (list BatchParam))) (results : list (list byte)) :
  M (list (list byte)) :=
  match chunks with
  | [] => ret results
  | chunk :: chunks =>
      let! results := execute_sets phys sql chunk results in
      execute_chunks phys sql chunks results
  end.

Definition execute_batch_optimized (batch_size phys : Z) (sql : string) (param_sets : list (list BatchParam)) : M (list (list byte)) :=
  match param_sets with
  | [] => ret []
  | _ =>
      let! _ := prepare_statement phys sql in
      execute_chunks phys sql (slice_chunks (effective_batch_size batch_size) param_sets) []
  end.

(** The loop of [execute_batch]: a statement without parameters goes through the pipeline. *)
Fixpoint batch_queries (batch_size phys : Z) (queries : list BatchQuery) (results : list (list byte)) : X (list (list byte)) := λ e w,
  match queries with
  | [] => (Ok results, e, w)
  | query :: queries =>
      match bq_params query with
      | [] =>
          match execute_direct ops phys (bq_sql query) e w with
          | (Ok result, e, w) => batch_queries batch_size phys queries (results ++ [result]) e w
          | (Err err, e, w) => (Err err, e, w)
          | (Panic, e, w) => (Panic, e, w)
          end
      | params =>
          match execute_batch_optimized batch_size phys (bq_sql query) [params] w with
          | (Ok result, w) => batch_queries batch_size phys queries (results ++ result) e w
          | (Err err, w) => (Err err, e, w)
          | (Panic, w) => (Panic, e, w)
          end
      end
  end.

Definition execute_batch (phys : Z) (queries : list BatchQuery) (be : BatchExecutor) (w : World) :
  Result (list (list byte)) * BatchExecutor * World :=
  let '(r, e, w) := batch_queries (be_batch_size be) phys queries [] (be_engine be) w in
  (r, mkBatchExecutor e (be_batch_size be), w).

(** * The batch size *)

Lemma chunk_loop_concat {A : Type} (size fuel : nat) (l : list A) :
  (1 ≤ size)%nat → (length l ≤ fuel)%nat → concat (chunk_loop fuel size l) = l.
Proof.
  intros Hs. revert l. induction fuel as [|fuel IH]; intros [|x l] Hl; cbn [length] in Hl; [done|lia|done|].
  cbn [chunk_loop concat]. rewrite IH by (rewrite length_drop; cbn [length]; lia). apply take_drop.
Qed.

Lemma slice_chunks_concat {A : Type} (size : Z) (l : list A) : 1 ≤ size → concat (slice_chunks size l) = l.
Proof.
  intros Hs. unfold slice_chunks. destruct l as [|x l]; [done|]. apply chunk_loop_concat; [|done].
  rewrite len_cons. pose proof (len_nonneg l). lia.
Qed.

Lemma execute_sets_app phys sql sets sets' results w :
  execute_sets phys sql (sets ++ sets') results w =
  (let! results := execute_sets phys sql sets results in execute_sets phys sql sets' results) w.
Proof.
  revert results w. induction sets as [|s sets IH]; intros results w; [done|]. cbn [app execute_sets]. unfold bind at 1 2 3.
  destruct (execute_set phys sql s w) as [[encoded|e|] w']; [apply IH|done..].
Qed.

Lemma execute_chunks_concat phys sql chunks results w :
  execute_chunks phys sql chunks results w = execute_sets phys sql (concat chunks) results w.
Proof.
  revert results w. induction chunks as [|c chunks IH]; intros results w; [done|]. cbn [execute_chunks concat].
  rewrite execute_sets_app. unfold bind. destruct (execute_sets phys sql c results w) as [[rs|e|] w']; [apply IH|done..].
Qed.

(** The batch size, zero included, groups the sets and changes nothing: neither the calls nor the result. *)
Theorem batch_size_irrelevant (size size' phys : Z) (sql : string) (sets : list (list BatchParam)) (w : World) :
  execute_batch_optimized size phys sql sets w = execute_batch_optimized size' phys sql sets w.
Proof.
  destruct sets as [|s sets]; [done|]. unfold execute_batch_optimized, bind.
  destruct (prepare_statement phys sql w) as [[[]|e|] w']; [|done..].
  by rewrite !execute_chunks_concat, !slice_chunks_concat by (unfold effective_batch_size; lia).
Qed.

(** * The sets, in order *)

(** What the driver is given for a parameter. *)
Definition sent_text (p : BatchParam) : option string :=
  match p with
  | BpString s => Some s
  | BpInteger n | BpBigInt n => Some (fmt_Z n)
  | BpNull => None
  end.

Definition set_call (sql : string) (s : list BatchParam) : Call := CRun true sql (QpTexts (map sent_text s)) None.

Lemma sent_texts s : param_values_to_strings (map batch_param_to_param_value s) = Ok (map sent_text s).
Proof. unfold param_values_to_strings. induction s as [|p s IH]; [done|]. cbn [map omap_list]. rewrite IH. by destruct p. Qed.

(** From a history on, the sets are served: each is executed and gets its message. *)
Inductive serves (phys : Z) (sql : string) : History → list (list BatchParam) → list (list byte) → History → Prop :=
| serves_nil tr : serves phys sql tr [] [] []
| serves_cons tr s sets x bytes out h :
    len s ≤ 5 → qd_execute tr phys (set_call sql s) = Ok x → set_message x = Ok bytes →
    serves phys sql (tr ++ [(phys, set_call sql s, true)]) sets out h →
    serves phys sql tr (s :: sets) (bytes :: out) ((phys, set_call sql s, true) :: h).

(** How a set ends the batch: it has too many parameters and is not sent; the driver refuses it; or its
    result cannot be read or encoded. *)
Inductive ends (phys : Z) (sql : string) (tr : History) (s : list BatchParam) : History → Result (list (list byte)) → Prop :=
| ends_too_many : 5 < len s →
    ends phys sql tr s [] (Err (ValidationError ("At most 5 parameters supported in batch, got " +:+ fmt_Z (len s))))
| ends_refused r : len s ≤ 5 → is_ok r = false → qd_execute tr phys (set_call sql s) = r →
    ends phys sql tr s [(phys, set_call sql s, false)] (omap_ok (λ _, []) r)
| ends_unreadable x r : len s ≤ 5 → is_ok r = false → qd_execute tr phys (set_call sql s) = Ok x → set_message x = r →
    ends phys sql tr s [(phys, set_call sql s, true)] (omap_ok (λ _, []) r).

Lemma execute_set_eq phys sql s w :
  execute_set phys sql s w =
  if 5 <? len s then (Err (ValidationError ("At most 5 parameters supported in batch, got " +:+ fmt_Z (len s))), w)
  else (let! x := run_statement phys (set_call sql s) in lift (set_message x)) w.
Proof.
  unfold execute_set. rewrite sent_texts. unfold set_call.
  replace (len s) with (len (map sent_text s)) by (unfold len; by rewrite length_map).
  unfold bind, lift. cbv beta iota. by destruct (5 <? len (map sent_text s)).
Qed.

Lemma execute_set_cases phys sql s w :
  (∃ x bytes, len s ≤ 5 ∧ qd_execute (w_trace w) phys (set_call sql s) = Ok x ∧ set_message x = Ok bytes ∧
     runs (execute_set phys sql s) w [(phys, set_call sql s, true)] (Ok bytes)) ∨
  (∃ h r, ends phys sql (w_trace w) s h (omap_ok (λ _, []) r) ∧ is_ok r = false ∧ runs (execute_set phys sql s) w h r).
Proof.
  unfold runs. rewrite execute_set_eq. destruct (Z.ltb_spec 5 (len s)) as [Hs|Hs].
  { right. eexists [], (Err _). split; [by apply ends_too_many|]. split; [done|]. rewrite w_ext_nil. done. }
  unfold bind, run_statement.
  destruct (qd_execute (w_trace w) phys (set_call sql s)) as [x|e|] eqn:Ex.
  - destruct (set_message x) as [bytes|e|] eqn:Em.
    + left. exists x, bytes. cbn [is_ok]. done.
    + right. eexists _, (Err e). split; [by eapply (ends_unreadable _ _ _ _ x (Err e))|]. split; [done|]. done.
    + right. eexists _, Panic. split; [by eapply (ends_unreadable _ _ _ _ x Panic)|]. split; [done|]. done.
  - right. eexists _, (Err e). split; [by eapply (ends_refused _ _ _ _ (Err e))|]. done.
  - right. eexists _, Panic. split; [by eapply (ends_refused _ _ _ _ Panic)|]. done.
Qed.

(** One prepared statement, one execution for each parameter set, in order, and one message for each.
    Whatever the driver answers: a prefix of the sets is served; if that is all of them the result is
    their messages; otherwise the next set ends the batch with its error, and the messages of the
    sets served before it, though the driver has executed them, are lost. *)
Lemma execute_sets_spec phys sql sets results w :
  ∃ k out h, serves phys sql (w_trace w) (take k sets) out h ∧
    ((k = length sets ∧ runs (execute_sets phys sql sets results) w h (Ok (results ++ out))) ∨
     (∃ s h' r, sets !! k = Some s ∧ ends phys sql (w_trace w ++ h) s h' r ∧ is_ok r = false ∧
        runs (execute_sets phys sql sets results) w (h ++ h') r)).
Proof.
  revert results w. induction sets as [|s sets IH]; intros results w.
  { exists 0%nat, [], []. split; [constructor|]. left. split; [done|]. rewrite app_nil_r. apply runs_ret. }
  destruct (execute_set_cases phys sql s w) as [(x & bytes & Hs & Hx & Hm & Hr)|(h & r & He & Hf & Hr)].
  - destruct (IH (results ++ [bytes]) (w_ext w [(phys, set_call sql s, true)])) as (k & out & h & Hserves & Hcases).
    exists (S k), (bytes :: out), ((phys, set_call sql s, true) :: h). split; [by econstructor|].
    destruct Hcases as [[-> Hrun]|(s' & h' & r & Hk & He & Hf & Hrun)].
    + left. split; [done|]. rewrite <- (assoc_L app) in Hrun. exact (runs_bind _ _ _ [_] h _ _ Hr Hrun).
    + right. exists s', h', r. split; [done|]. cbn [w_ext w_trace] in He. rewrite <- (assoc_L app) in He. split; [exact He|]. split; [done|].
      exact (runs_bind _ _ _ [_] (h ++ h') _ _ Hr Hrun).
  - exists 0%nat, [], []. split; [constructor|]. right. exists s, h, (omap_ok (λ _, []) r). rewrite app_nil_r. split; [done|]. split; [exact He|].
    split; [by destruct r|]. unfold runs in *. cbn [execute_sets app]. unfold bind. rewrite Hr. by destruct r.
Qed.

Theorem batch_spec (batch_size phys : Z) (sql : string) (sets : list (list BatchParam)) (w : World) :
  sets ≠ [] →
  let prepared ok := [(phys, CPrepare sql, ok)] in
  match dr_answer (w_trace w) phys (CPrepare sql) with
  | Ok _ =>
      ∃ k out h, serves phys sql (w_trace w ++ prepared true) (take k sets) out h ∧
        ((k = length sets ∧ runs (execute_batch_optimized batch_size phys sql sets) w (prepared true ++ h) (Ok out)) ∨
         (∃ s h' r, sets !! k = Some s ∧ ends phys sql (w_trace w ++ prepared true ++ h) s h' r ∧ is_ok r = false ∧
            runs (execute_batch_optimized batch_size phys sql sets) w (prepared true ++ h ++ h') r))
  | r => runs (execute_batch_optimized batch_size phys sql sets) w (prepared false) (omap_ok (λ _, []) r)
  end.
Proof.
  intros Hne prepared. pose proof (runs_call phys (CPrepare sql) w) as Hp. change (call phys (CPrepare sql)) with (prepare_statement phys sql) in Hp.
  assert (∀ w, execute_batch_optimized batch_size phys sql sets w = (let! _ := prepare_statement phys sql in execute_sets phys sql sets []) w) as Heq.
  { intros w0. destruct sets as [|s sets]; [done|]. unfold execute_batch_optimized, bind. destruct (prepare_statement phys sql w0) as [[[]|e|] w1]; [|done..].
    by rewrite execute_chunks_concat, slice_chunks_concat by (unfold effective_batch_size; lia). }
  assert (∀ h r, runs (let! _ := prepare_statement phys sql in execute_sets phys sql sets []) w h r → runs (execute_batch_optimized batch_size phys sql sets) w h r) as Hgo.
  { intros h r. by apply runs_eq. }
  destruct (dr_answer (w_trace w) phys (CPrepare sql)) as [[]|e|] eqn:Ep.
  - destruct (execute_sets_spec phys sql sets [] (w_ext w (prepared true))) as (k & out & h & Hs & Hcases). exists k, out, h. split; [exact Hs|].
    destruct Hcases as [[Hk Hrun]|(s & h' & r & Hk & He & Hf & Hrun)].
    + left. split; [done|]. apply Hgo. by eapply runs_bind.
    + right. exists s, h', r. split; [done|]. split; [|split; [done|apply Hgo; by eapply runs_bind]].
      cbn [w_ext w_trace] in He. by rewrite <- (assoc_L app) in He.
  - apply Hgo. by apply runs_bind_err.
  - apply Hgo. unfold runs in *. unfold bind. by rewrite Hp.
Qed.

Lemma as_i64_range n : i64_range (as_i64 n).
Proof. unfold as_i64. apply (to_signed_range 64); [lia|]. apply Z.mod_pos_bound. lia. Qed.

(** A client reads the message of a set: the rows of its cursor in the row format, or the number of rows
    it affected as a multi-result message of one item. *)
Theorem set_message_read (x : Execution) :
  match ex_cursor x with
  | Some c =>
      ∀ b, delivers from_odbc_sql_type c b → decodable (coalesce_for_json_rows b) →
        ∃ bytes, set_message x = Ok bytes ∧ parse bytes = Ok (mkDecoded (rb_columns (coalesce_for_json_rows b))
          (rb_rows (coalesce_for_json_rows b)) (row_count (coalesce_for_json_rows b)) (column_count (coalesce_for_json_rows b)))
  | None =>
      ∀ n, ex_row_count x = Ok n → ∃ bytes, set_message x = Ok bytes ∧ decode_multi bytes = Ok [RowCount (match n with Some n => as_i64 n | None => 0 end)]
  end.
Proof.
  unfold set_message. destruct (ex_cursor x) as [c|].
  - intros b Hd Hdec. destruct (parse_encode_lemma _ Hdec) as (bytes & H1 & H2). exists bytes.
    rewrite (read_cursor_delivers _ _ _ Hd). cbn [obind]. by rewrite H1.
  - intros n Hn. unfold initial_row_count. rewrite Hn. cbn [obind]. eexists. split; [reflexivity|].
    rewrite <- (app_nil_r (encode_multi _)). apply decode_encode_multi_lemma; [|done|by left|vm_compute; discriminate].
    constructor; [|done]. destruct n as [n|]; [apply as_i64_range|done].
Qed.
End Batch.

#[local] Existing Instance list_lru.

(** A set with six parameters is noticed when it is its turn: the set before it has been executed, and
    its message is lost. *)
Example late_check :
  let '(r, w) := execute_batch_optimized (D := ok_driver) (Q := sample_queries) 100 0 "INSERT INTO t VALUES (?)"
    [[BpInteger 1]; repeat BpNull 6] sample_world in
  r = Err (ValidationError "At most 5 parameters supported in batch, got 6") ∧
  w_trace w = w_trace sample_world ++
    [(0, CPrepare "INSERT INTO t VALUES (?)", true); (0, CRun true "INSERT INTO t VALUES (?)" (QpTexts [Some "1"]) None, true)].
Proof. vm_compute. split; reflexivity. Qed.

(** A batch of two statements on the executor: the one without parameters goes through the pipeline. *)
Example mixed_batch :
  let '(r, be, w) := execute_batch (D := ok_driver) (Q := sample_queries) stored_ops 0
    [query_new "SELECT n FROM t"; add_param BpNull (query_new "SELECT n FROM t WHERE n = ?")]
    (executor_new 0 100 0 (λ _, None)) sample_world in
  (length <$> match r with Ok out => Some out | _ => None end) = Some 2%nat ∧
  map (λ c, c.1.2) (w_trace w) = map (λ c, c.1.2) (w_trace sample_world) ++
    [CPrepare "SELECT n FROM t"; CRun true "SELECT n FROM t" (QpTexts []) None;
     CPrepare "SELECT n FROM t WHERE n = ?"; CRun true "SELECT n FROM t WHERE n = ?" (QpTexts [None]) None].
Proof. vm_compute. split; reflexivity. Qed.
