(* ===== verification/StatementReuse.v ===== *)
(** The connection with its statements kept (handles/cached_connection.rs, built with the feature
    statement-handle-reuse; Execution has the build without it). *)

From S2P Require Import Prelude Wire Errors RowCodec Caches CellReader OutputParams Handles Execution.

Section Reuse.
Context `{LS : !Lru string unit} `{D : Driver} `{Q : QueryDriver}.

(** The counters are 64-bit atomics.  A statement kept is one that was prepared from its key. *)
Record CachedConnection := mkCachedConnection {
  cc_phys : Z;
  cc_cache_hits : Z;
  cc_cache_misses : Z;
  cc_cache_evictions : Z;
  cc_stmt_cache : lru
}.

Definition DEFAULT_STMT_CACHE_SIZE : nat := 32.

Definition cached_new (phys : Z) : CachedConnection := mkCachedConnection phys 0 0 0 (lru_new DEFAULT_STMT_CACHE_SIZE).

Definition count_hit (c : CachedConnection) : CachedConnection :=
  mkCachedConnection (cc_phys c) (fetch_add1 (cc_cache_hits c)) (cc_cache_misses c) (cc_cache_evictions c) (cc_stmt_cache c).

Definition count_miss (c : CachedConnection) : CachedConnection :=
  mkCachedConnection (cc_phys c) (cc_cache_hits c) (fetch_add1 (cc_cache_misses c)) (cc_cache_evictions c) (cc_stmt_cache c).

Definition count_eviction (c : CachedConnection) : CachedConnection :=
  mkCachedConnection (cc_phys c) (cc_cache_hits c) (cc_cache_misses c) (fetch_add1 (cc_cache_evictions c)) (cc_stmt_cache c).

Definition set_stmts (l : lru) (c : CachedConnection) : CachedConnection :=
  mkCachedConnection (cc_phys c) (cc_cache_hits c) (cc_cache_misses c) (cc_cache_evictions c) l.

Definition invalidate_cache (c : CachedConnection) : CachedConnection :=
  if lru_len (cc_stmt_cache c) =? 0 then c else count_eviction (set_stmts (lru_clear (cc_stmt_cache c)) c).

(** The mutable connection is given out with no statement left. *)
Definition connection_mut (c : CachedConnection) : Z * CachedConnection := (cc_phys c, invalidate_cache c).

Definition tracked_sql_entries (c : CachedConnection) : Z := lru_len (cc_stmt_cache c).

(** One execution of a prepared statement, to its bytes. *)
Definition run_prepared (phys : Z) (sql : string) : M (list byte) :=
  let! x := run_statement phys (CRun true sql (QpTexts []) None) in
  lift (execute_stmt_to_buffer x).

Definition execute_query_with_reuse (sql : string) (c : CachedConnection) (w : World) : Result (list byte) * CachedConnection * World :=
  match lru_get sql (cc_stmt_cache c) with
  | (Some _, l) =>
      let c := count_hit (set_stmts l c) in
      let '(r, w) := run_prepared (cc_phys c) sql w in (r, c, w)
  | (None, l) =>
      let c := count_miss (set_stmts l c) in
      match prepare_statement (cc_phys c) sql w with
      | (Ok _, w) =>
          let should_count_eviction := Z.of_nat (lru_cap (cc_stmt_cache c)) <=? lru_len (cc_stmt_cache c) in
          match run_prepared (cc_phys c) sql w with
          | (Ok result, w) =>
              let c := set_stmts (lru_put sql tt (cc_stmt_cache c)) c in
              (Ok result, if should_count_eviction then count_eviction c else c, w)
          | (r, w) => (r, c, w)
          end
      | (Err e, w) => (Err e, c, w)
      | (Panic, w) => (Panic, c, w)
      end
  end.

(** Dropping the connection drops the statements first. *)
Definition drop_cached (c : CachedConnection) : CachedConnection := set_stmts (lru_clear (cc_stmt_cache c)) c.

(** * What is kept *)

(** The cache holds at most 32 statements, each prepared on this connection. *)
Definition cached_ok (c : CachedConnection) (w : World) : Prop :=
  lru_cap (cc_stmt_cache c) = DEFAULT_STMT_CACHE_SIZE ∧ (length (lru_entries (cc_stmt_cache c)) ≤ DEFAULT_STMT_CACHE_SIZE)%nat ∧
  ∀ sql, is_Some (assoc sql (lru_entries (cc_stmt_cache c))) → (cc_phys c, CPrepare sql, true) ∈ w_trace w.

Lemma assoc_put k j (v : unit) n (es : list (string * unit)) :
  is_Some (assoc j (take n ((k, v) :: without k es))) → j = k ∨ is_Some (assoc j es).
Proof.
  destruct n as [|n]; [by intros [? ?]|]. cbn [take assoc]. destruct (decide (k = j)) as [->|Hne]; [by left|]. intros H. right.
  rewrite <- (assoc_without_ne k j) by done. revert H. generalize (without k es) as l. revert n. clear.
  intros n l. revert n. induction l as [|[k' u] l IH]; intros [|n]; cbn [take assoc]; try by intros [? ?].
  destruct (decide (k' = j)); [by eexists|apply IH].
Qed.

Lemma get_assoc (j sql : string) (l : lru) : is_Some (assoc j (lru_entries (lru_get sql l).2)) → is_Some (assoc j (lru_entries l)).
Proof.
  rewrite lru_get_entries. destruct (assoc sql (lru_entries l)) as [v|] eqn:E; [|done]. cbn [assoc].
  destruct (decide (sql = j)) as [->|Hne]; [by rewrite E|]. by rewrite assoc_without_ne.
Qed.

Lemma get_length (sql : string) (l : lru) n : (length (lru_entries l) ≤ n)%nat → (length (lru_entries (lru_get sql l).2) ≤ n)%nat.
Proof.
  rewrite lru_get_entries. destruct (assoc sql (lru_entries l)) as [v|] eqn:E; [|done]. cbn [length]. intros Hl.
  assert (length (without sql (lru_entries l)) < length (lru_entries l))%nat; [|lia]. revert E. clear. generalize (lru_entries l) as es.
  induction es as [|[k u] es IH]; [done|]. cbn [assoc]. unfold without in *. rewrite filter_cons. cbn [fst length]. destruct (decide (k = sql)) as [->|Hne].
  - intros _. rewrite decide_False by (intros H; by apply H). pose proof (length_filter (λ e, e.1 ≠ sql) es). lia.
  - intros He. rewrite decide_True by done. cbn [length]. specialize (IH He). lia.
Qed.

Lemma run_prepared_trace phys sql w r w' : run_prepared phys sql w = (r, w') → ∃ ok, w' = w_ext w [(phys, CRun true sql (QpTexts []) None, ok)].
Proof.
  unfold run_prepared, bind, run_statement. destruct (qd_execute (w_trace w) phys (CRun true sql (QpTexts []) None)) as [x|e|];
    intros H; [|injection H as <- <-; by eexists..]. unfold lift in H. injection H as <- <-. by eexists.
Qed.

Lemma put_length (sql : string) (l : lru) n :
  lru_cap l = n → (length (lru_entries (lru_put sql tt l)) ≤ n)%nat.
Proof. intros <-. rewrite lru_put_entries, length_take. lia. Qed.

(** A query on a connection that keeps its statements: with the statement kept it makes one call, the execution;
    otherwise it prepares, and executes only what was prepared.  At most 32 statements are kept, all of
    them prepared on this connection; after a success the statement of the query is one of them. *)
Theorem reuse_ok (sql : string) (c : CachedConnection) (w : World) :
  cached_ok c w →
  let '(r, c', w') := execute_query_with_reuse sql c w in
  cached_ok c' w' ∧ cc_phys c' = cc_phys c ∧
  ∃ h, w_trace w' = w_trace w ++ h ∧
    match assoc sql (lru_entries (cc_stmt_cache c)) with
    | Some _ => ∃ ok, h = [(cc_phys c, CRun true sql (QpTexts []) None, ok)]
    | None => h = [(cc_phys c, CPrepare sql, false)] ∨ ∃ ok, h = [(cc_phys c, CPrepare sql, true); (cc_phys c, CRun true sql (QpTexts []) None, ok)]
    end ∧
    (is_ok r = true → is_Some (assoc sql (lru_entries (cc_stmt_cache c')))).
Proof.
  intros (Hcap & Hlen & Hkeys). unfold execute_query_with_reuse. destruct (lru_get sql (cc_stmt_cache c)) as [o l] eqn:Eg.
  pose proof (lru_get_value sql (cc_stmt_cache c)) as Hv. pose proof (lru_get_entries sql (cc_stmt_cache c)) as He.
  pose proof (lru_get_cap sql (cc_stmt_cache c)) as Hc.
  assert (∀ j, is_Some (assoc j (lru_entries l)) → is_Some (assoc j (lru_entries (cc_stmt_cache c)))) as Hsub.
  { intros j. pose proof (get_assoc j sql (cc_stmt_cache c)) as H. by rewrite Eg in H. }
  assert (length (lru_entries l) ≤ DEFAULT_STMT_CACHE_SIZE)%nat as Hl.
  { pose proof (get_length sql (cc_stmt_cache c) _ Hlen) as H. by rewrite Eg in H. }
  rewrite Eg in Hv, He, Hc. cbn [fst snd] in Hv, He, Hc. rewrite <- Hv.
  assert (∀ h j, is_Some (assoc j (lru_entries l)) → (cc_phys c, CPrepare j, true) ∈ w_trace w ++ h) as Hold.
  { intros h j Hj. apply elem_of_app. left. by apply Hkeys, Hsub. }
  destruct o as [u|].
  - cbn [cc_phys count_hit set_stmts]. destruct (run_prepared (cc_phys c) sql w) as [r w'] eqn:Er.
    apply run_prepared_trace in Er as [ok ->]. split; [|split; [done|]].
    + split; [cbn; by rewrite Hc|]. split; [exact Hl|]. intros j Hj. by apply Hold.
    + eexists. split; [reflexivity|]. split; [by eexists|]. intros _. cbn. rewrite He, <- Hv. cbn [assoc]. rewrite decide_True by done. by eexists.
  - rewrite <- Hv in He. cbn [cc_phys count_miss set_stmts cc_stmt_cache]. unfold prepare_statement, call.
    destruct (dr_answer (w_trace w) (cc_phys c) (CPrepare sql)) as [[]|e|] eqn:Ep; cbn [is_ok].
    2,3: split; [|split; [done|]]; [split; [cbn; by rewrite Hc|]; split; [exact Hl|]; intros j Hj; by apply Hold|].
    2,3: eexists; split; [reflexivity|]; split; [by left|done].
    change (record_call (cc_phys c) (CPrepare sql) true w) with (w_ext w [(cc_phys c, CPrepare sql, true)]).
    destruct (run_prepared (cc_phys c) sql (w_ext w [(cc_phys c, CPrepare sql, true)])) as [r w'] eqn:Er.
    apply run_prepared_trace in Er as [ok ->]. rewrite w_ext_app. cbn [app].
    assert (∀ e, cached_ok (count_miss (set_stmts l c)) (w_ext w [(cc_phys c, CPrepare sql, true); e])) as Hfail.
    { intros e. split; [cbn; by rewrite Hc|]. split; [exact Hl|]. intros j Hj. by apply Hold. }
    destruct r as [bytes|e|]; [|split; [apply Hfail|split; [done|]]; eexists; split; [reflexivity|]; split; [right; by eexists|done]..].
    set (c' := set_stmts (lru_put sql tt l) (count_miss (set_stmts l c))).
    assert (cached_ok c' (w_ext w [(cc_phys c, CPrepare sql, true); (cc_phys c, CRun true sql (QpTexts []) None, ok)])) as Hok.
    { split; [cbn; by rewrite lru_put_cap, Hc|]. split; [cbn; apply put_length; by rewrite Hc|]. intros j Hj. cbn in Hj. rewrite lru_put_entries in Hj.
      apply assoc_put in Hj as [->|Hj]; [|by apply Hold]. cbn. apply elem_of_app. right. by left. }
    assert (is_Some (assoc sql (lru_entries (lru_put sql tt l)))) as Hin.
    { rewrite lru_put_entries, Hc, Hcap. unfold DEFAULT_STMT_CACHE_SIZE. cbn [take assoc]. rewrite decide_True by done. by eexists. }
    destruct (Z.of_nat (lru_cap l) <=? lru_len l); (split; [exact Hok|]); (split; [done|]); eexists; (split; [reflexivity|]);
      (split; [right; by eexists|]); intros _; exact Hin.
Qed.

(** * The same results *)

Fixpoint with_reuse (queries : list string) (c : CachedConnection) (w : World) : list (Result (list byte)) * CachedConnection * World :=
  match queries with
  | [] => ([], c, w)
  | sql :: queries =>
      let '(r, c, w) := execute_query_with_reuse sql c w in
      let '(rs, c, w) := with_reuse queries c w in (r :: rs, c, w)
  end.

Fixpoint without_reuse (phys : Z) (queries : list string) (w : World) : list (Result (list byte)) * World :=
  match queries with
  | [] => ([], w)
  | sql :: queries =>
      let '(r, w) := execute_query_no_params phys sql w in
      let '(rs, w) := without_reuse phys queries w in (r :: rs, w)
  end.

Definition is_prepare (c : Z * Call * bool) : Prop := match c.1.2 with CPrepare _ => True | _ => False end.

#[global] Instance is_prepare_dec c : Decision (is_prepare c).
Proof. unfold is_prepare. destruct c as [[phys []] ok]; cbn; apply _. Defined.

Definition no_prepares (h : History) : History := filter (λ c, ¬ is_prepare c) h.

(** A driver for which preparing a statement is no event: what an execution yields does not depend on the
    statements prepared, and a statement is accepted always or never. *)
Definition prepares_silently : Prop :=
  (∀ h h' phys c, no_prepares h = no_prepares h' → qd_execute h phys c = qd_execute h' phys c) ∧
  (∀ h h' phys sql, dr_answer h phys (CPrepare sql) = dr_answer h' phys (CPrepare sql)).

Lemma run_prepared_same phys sql w w1 :
  prepares_silently → no_prepares (w_trace w) = no_prepares (w_trace w1) →
  (run_prepared phys sql w).1 = (run_prepared phys sql w1).1 ∧
  no_prepares (w_trace (run_prepared phys sql w).2) = no_prepares (w_trace (run_prepared phys sql w1).2).
Proof.
  intros [He _] Hw. unfold run_prepared, bind, run_statement. rewrite (He _ _ phys (CRun true sql (QpTexts []) None) Hw).
  destruct (qd_execute (w_trace w1) phys (CRun true sql (QpTexts []) None)) as [x|e|]; cbn; (split; [done|]); unfold no_prepares; rewrite !filter_app;
    f_equal; exact Hw.
Qed.

Lemma no_prepares_ext w phys sql ok : no_prepares (w_trace (w_ext w [(phys, CPrepare sql, ok)])) = no_prepares (w_trace w).
Proof. unfold no_prepares. cbn. rewrite filter_app, filter_cons_False, filter_nil, app_nil_r; [done|]. intros H. by apply H. Qed.

(** Keeping statements changes nothing but the number of prepares.  With a driver that prepares silently: for every
    list of queries on a connection, from a fresh cache or any that calls have led to, each query has
    the result it has without the cache, and the executions are the same, in the same order. *)
Theorem reuse_same_results (queries : list string) (c : CachedConnection) (w w1 : World) :
  prepares_silently → no_prepares (w_trace w) = no_prepares (w_trace w1) →
  (∀ sql, is_Some (assoc sql (lru_entries (cc_stmt_cache c))) → ∀ h, dr_answer h (cc_phys c) (CPrepare sql) = Ok tt) →
  let '(rs, _, w') := with_reuse queries c w in
  let '(rs1, w1') := without_reuse (cc_phys c) queries w1 in
  rs = rs1 ∧ no_prepares (w_trace w') = no_prepares (w_trace w1').
Proof.
  intros Hd. revert c w w1. induction queries as [|sql queries IH]; intros c w w1 Hw Hk; [done|]. cbn [with_reuse without_reuse].
  assert (∃ r c' w2 w3, execute_query_with_reuse sql c w = (r, c', w2) ∧ execute_query_no_params (cc_phys c) sql w1 = (r, w3) ∧
    no_prepares (w_trace w2) = no_prepares (w_trace w3) ∧ cc_phys c' = cc_phys c ∧
    (∀ j, is_Some (assoc j (lru_entries (cc_stmt_cache c'))) → ∀ h, dr_answer h (cc_phys c) (CPrepare j) = Ok tt)) as (r & c' & w2 & w3 & -> & -> & Hw' & Hphys & Hk').
  2:{ rewrite <- Hphys in Hk'. specialize (IH c' w2 w3 Hw' Hk'). rewrite Hphys in IH. destruct (with_reuse queries c' w2) as [[rs c2] w4].
      destruct (without_reuse (cc_phys c) queries w3) as [rs1 w5]. destruct IH as [-> ?]. done. }
  assert (∀ p : World → Result (list byte) * World, p = execute_query_no_params (cc_phys c) sql → ∀ w, p w =
    match dr_answer (w_trace w) (cc_phys c) (CPrepare sql) with
    | Ok _ => run_prepared (cc_phys c) sql (w_ext w [(cc_phys c, CPrepare sql, true)])
    | Err e => (Err e, w_ext w [(cc_phys c, CPrepare sql, false)])
    | Panic => (Panic, w_ext w [(cc_phys c, CPrepare sql, false)])
    end) as Hplain.
  { intros p -> w0. unfold execute_query_no_params. unfold bind at 1. unfold prepare_statement, call. cbv zeta.
    by destruct (dr_answer (w_trace w0) (cc_phys c) (CPrepare sql)) as [[]|e|]. }
  rewrite (Hplain _ eq_refl). clear Hplain. unfold execute_query_with_reuse. destruct (lru_get sql (cc_stmt_cache c)) as [o l] eqn:Eg.
  pose proof (lru_get_value sql (cc_stmt_cache c)) as Hv. rewrite Eg in Hv. cbn [fst] in Hv.
  assert (∀ j, is_Some (assoc j (lru_entries l)) → ∀ h, dr_answer h (cc_phys c) (CPrepare j) = Ok tt) as Hl.
  { intros j Hj. apply Hk. pose proof (get_assoc j sql (cc_stmt_cache c)) as H. rewrite Eg in H. by apply H. }
  destruct o as [u|].
  - rewrite (Hk sql) by (rewrite <- Hv; by eexists). cbn [cc_phys count_hit set_stmts].
    destruct (run_prepared_same (cc_phys c) sql w (w_ext w1 [(cc_phys c, CPrepare sql, true)]) Hd) as [Hr Ht]; [by rewrite no_prepares_ext|].
    destruct (run_prepared (cc_phys c) sql w) as [r w2], (run_prepared (cc_phys c) sql (w_ext w1 _)) as [r1 w3]. cbn in Hr, Ht. subst r1.
    by eexists r, _, w2, w3.
  - cbn [cc_phys count_miss set_stmts cc_stmt_cache]. unfold prepare_statement, call. rewrite (proj2 Hd (w_trace w1) (w_trace w) (cc_phys c) sql).
    destruct (dr_answer (w_trace w) (cc_phys c) (CPrepare sql)) as [[]|e|] eqn:Ep; cbn [is_ok].
    2,3: eexists _, _, _, _; split_and!; [reflexivity|reflexivity| |reflexivity|exact Hl];
      change (record_call (cc_phys c) (CPrepare sql) false w) with (w_ext w [(cc_phys c, CPrepare sql, false)]); by rewrite !no_prepares_ext.
    change (record_call (cc_phys c) (CPrepare sql) true w) with (w_ext w [(cc_phys c, CPrepare sql, true)]).
    destruct (run_prepared_same (cc_phys c) sql (w_ext w [(cc_phys c, CPrepare sql, true)]) (w_ext w1 [(cc_phys c, CPrepare sql, true)]) Hd) as [Hr Ht];
      [by rewrite !no_prepares_ext|].
    destruct (run_prepared (cc_phys c) sql (w_ext w _)) as [r w2], (run_prepared (cc_phys c) sql (w_ext w1 _)) as [r1 w3]. cbn in Hr, Ht. subst r1.
    destruct r as [bytes|e|]; [|eexists _, _, w2, w3; by split_and!..].
    eexists (Ok bytes), _, w2, w3. split; [reflexivity|]. split; [done|]. split; [done|].
    assert (∀ j, is_Some (assoc j (lru_entries (lru_put sql tt l))) → ∀ h, dr_answer h (cc_phys c) (CPrepare j) = Ok tt) as Hput.
    { intros j Hj h. rewrite lru_put_entries in Hj. apply assoc_put in Hj as [->|Hj]; [|by apply Hl]. by rewrite (proj2 Hd h (w_trace w)). }
    by destruct (Z.of_nat (lru_cap l) <=? lru_len l).
Qed.
End Reuse.

#[local] Existing Instance list_lru.

(** The same query twice: prepared once, executed twice, with the same result. *)
Lemma reuse_same_results_witness :
  let '(rs, c, w) := with_reuse (D := ok_driver) (Q := sample_queries) ["SELECT n FROM t"; "SELECT n FROM t"] (cached_new 0) sample_world in
  rs = (without_reuse (D := ok_driver) (Q := sample_queries) 0 ["SELECT n FROM t"; "SELECT n FROM t"] sample_world).1 ∧
  cc_cache_hits c = 1 ∧ cc_cache_misses c = 1 ∧ tracked_sql_entries c = 1.
Proof.
  pose proof (reuse_same_results (D := ok_driver) (Q := sample_queries) ["SELECT n FROM t"; "SELECT n FROM t"] (cached_new 0) sample_world sample_world
    ltac:(split; done) eq_refl ltac:(intros sql [u Hu]; discriminate Hu)) as H.
  destruct (with_reuse (D := ok_driver) (Q := sample_queries) ["SELECT n FROM t"; "SELECT n FROM t"] (cached_new 0) sample_world) as [[rs c] w] eqn:E.
  split.
  - revert H. cbn [cc_phys cached_new]. destruct (without_reuse (D := ok_driver) (Q := sample_queries) 0 _ _) as [rs1 w1]. by intros [H _].
  - assert (c = (with_reuse (D := ok_driver) (Q := sample_queries) ["SELECT n FROM t"; "SELECT n FROM t"] (cached_new 0) sample_world).1.2) as -> by (by rewrite E).
    vm_compute. split; [|split]; reflexivity.
Defined.
