(* ===== verification/Tracing.v ===== *)
(** Spans of queries (observability/tracing.rs), and the statements of the engine run under a span with
    their line in the log (engine/core/execution_engine.rs).

    The mutex of the spans is poisoned or not; that of the counter is used in either case.  The counter
    is a [u64] whose overflow is a panic. *)

From S2P Require Import Prelude Wire Errors Compression Caches CellReader OutputParams Columnar Handles Plugins Execution SqlLog.

Record QuerySpan := mkSpan {
  qs_span_id : Z;
  qs_query : string;
  qs_start_time : Z;
  qs_end_time : option Z;
  qs_metadata : gmap string string
}.

Definition span_new (now span_id : Z) (query : string) : QuerySpan := mkSpan span_id query now None ∅.

Definition span_finish (now : Z) (s : QuerySpan) : QuerySpan :=
  mkSpan (qs_span_id s) (qs_query s) (qs_start_time s) (Some now) (qs_metadata s).

(** [Instant::duration_since], which is zero for an earlier instant. *)
Definition span_duration (s : QuerySpan) : option Z := (λ t, Z.max 0 (t - qs_start_time s)) <$> qs_end_time s.

Definition span_add_metadata (key value : string) (s : QuerySpan) : QuerySpan :=
  mkSpan (qs_span_id s) (qs_query s) (qs_start_time s) (qs_end_time s) (<[key := value]> (qs_metadata s)).

Record Tracer := mkTracer { tr_spans : gmap Z QuerySpan; tr_poisoned : bool; tr_next_span_id : Z }.

Definition tracer_new : Tracer := mkTracer ∅ false 1.

Definition start_span (now : Z) (query : string) (t : Tracer) : Result Z * Tracer :=
  let span_id := tr_next_span_id t in
  if 2 ^ 64 <=? span_id + 1 then (Panic, t)
  else
    let spans := if tr_poisoned t then tr_spans t else <[span_id := span_new now span_id query]> (tr_spans t) in
    (Ok span_id, mkTracer spans (tr_poisoned t) (span_id + 1)).

Definition finish_span (now span_id : Z) (t : Tracer) : option QuerySpan * Tracer :=
  (span_finish now <$> tr_spans t !! span_id, mkTracer (delete span_id (tr_spans t)) (tr_poisoned t) (tr_next_span_id t)).

Definition add_metadata (span_id : Z) (key value : string) (t : Tracer) : Tracer :=
  if tr_poisoned t then t
  else
    match tr_spans t !! span_id with
    | Some s => mkTracer (<[span_id := span_add_metadata key value s]> (tr_spans t)) (tr_poisoned t) (tr_next_span_id t)
    | None => t
    end.

Definition active_span_count (t : Tracer) : Z := Z.of_nat (size (tr_spans t)).

(** * The guard *)

Record SpanGuard := mkSpanGuard { sg_span_id : Z; sg_finished : bool }.

Definition guard_new (now : Z) (query : string) (t : Tracer) : Result SpanGuard * Tracer :=
  let '(r, t) := start_span now query t in (omap_ok (λ id, mkSpanGuard id false) r, t).

Definition guard_add_metadata (g : SpanGuard) (key value : string) (t : Tracer) : Tracer := add_metadata (sg_span_id g) key value t.

Definition drop_guard (now : Z) (g : SpanGuard) (t : Tracer) : Tracer :=
  if sg_finished g then t else (finish_span now (sg_span_id g) t).2.

(** [finish(self)]: the guard is marked, the span removed, and the guard dropped. *)
Definition guard_finish (now : Z) (g : SpanGuard) (t : Tracer) : option QuerySpan * Tracer :=
  let g := mkSpanGuard (sg_span_id g) true in
  let '(s, t) := finish_span now (sg_span_id g) t in (s, drop_guard now g t).

(** A scope with a guard: it is dropped when the body returns, with or without an error, and when it
    unwinds. *)
Definition with_span {A : Type} (t0 t1 : Z) (query : string) (body : SpanGuard → Tracer → Result A * Tracer) (t : Tracer) :
  Result A * Tracer :=
  match guard_new t0 query t with
  | (Ok g, t) => let '(r, t) := body g t in (r, drop_guard t1 g t)
  | (Err e, t) => (Err e, t)
  | (Panic, t) => (Panic, t)
  end.

(** * No span is left behind *)

Definition tracer_ok (t : Tracer) : Prop :=
  0 < tr_next_span_id t ∧ ∀ id, is_Some (tr_spans t !! id) → 0 < id < tr_next_span_id t.

(** What a body may do: start and finish spans of its own, and write to the span it was given. *)
Definition span_local {A : Type} (body : SpanGuard → Tracer → Result A * Tracer) : Prop :=
  ∀ g t r t', tracer_ok t → body g t = (r, t') →
    tracer_ok t' ∧ tr_next_span_id t ≤ tr_next_span_id t' ∧
    delete (sg_span_id g) (tr_spans t') = delete (sg_span_id g) (tr_spans t).

Lemma start_span_ok now query t id t' :
  tracer_ok t → start_span now query t = (Ok id, t') →
  tracer_ok t' ∧ tr_next_span_id t' = tr_next_span_id t + 1 ∧ delete id (tr_spans t') = tr_spans t.
Proof.
  intros [Hn Ht] Hs. unfold start_span in Hs. destruct (Z.leb_spec (2 ^ 64) (tr_next_span_id t + 1)) as [|_]; [done|]. injection Hs as <- <-. cbn.
  assert (tr_spans t !! tr_next_span_id t = None) as Hf.
  { destruct (tr_spans t !! tr_next_span_id t) as [s|] eqn:E; [|done]. specialize (Ht (tr_next_span_id t) ltac:(by eexists)). lia. }
  split; [split; cbn; [lia|]|split; [done|]].
  - intros i Hi. destruct (tr_poisoned t); [specialize (Ht i Hi); lia|].
    destruct (decide (i = tr_next_span_id t)) as [->|Hne]; [lia|]. rewrite lookup_insert_ne in Hi by done. specialize (Ht i Hi). lia.
  - destruct (tr_poisoned t); [by rewrite delete_id|]. by rewrite delete_insert_id.
Qed.

Lemma tracer_ok_delete t id : tracer_ok t → tracer_ok (finish_span 0 id t).2.
Proof. intros [Hn Ht]. split; [done|]. cbn. intros i [s Hs]. apply lookup_delete_Some in Hs as [_ Hs]. apply Ht. by eexists. Qed.

(** Every span started is finished.  Whatever the body does with the tracer, nested scopes included, and
    however it ends, with a value, an error or a panic: after the scope the spans in flight are
    exactly those of before. *)
Theorem span_scope_balanced {A : Type} (t0 t1 : Z) (query : string) (body : SpanGuard → Tracer → Result A * Tracer) (t : Tracer) :
  tracer_ok t → span_local body →
  let '(r, t') := with_span t0 t1 query body t in
  tracer_ok t' ∧ tr_spans t' = tr_spans t ∧ tr_next_span_id t ≤ tr_next_span_id t'.
Proof.
  intros Ht Hbody. unfold with_span, guard_new. destruct (start_span t0 query t) as [[id|e|] ts] eqn:Es; cbn [omap_ok].
  - destruct (start_span_ok _ _ _ _ _ Ht Es) as (Hts & Hnext & Hdel). destruct (body (mkSpanGuard id false) ts) as [r tb] eqn:Eb.
    destruct (Hbody (mkSpanGuard id false) _ _ _ Hts Eb) as (Htb & Hle & Heq). cbn [sg_span_id] in Heq.
    unfold drop_guard. cbn [sg_finished sg_span_id]. split; [apply (tracer_ok_delete tb id Htb)|]. cbn. rewrite Heq, Hdel. split; [done|lia].
  - unfold start_span in Es. destruct (_ <=? _) in Es; discriminate Es.
  - unfold start_span in Es. destruct (_ <=? _) in Es; [injection Es as <-|discriminate Es]. split; [done|]. split; [done|lia].
Qed.

(** A nested scope is a body that may be nested in turn; so is writing to one's own span. *)
Lemma nested_span_local {A : Type} (t0 t1 : Z) (query : string) (body : SpanGuard → Tracer → Result A * Tracer) :
  span_local body → span_local (λ _, with_span t0 t1 query body).
Proof.
  intros Hb g t r t' Ht Hr. pose proof (span_scope_balanced t0 t1 query body t Ht Hb) as H. rewrite Hr in H.
  destruct H as (H1 & H2 & H3). by rewrite H2.
Qed.

Lemma metadata_span_local {A : Type} (r : Result A) (key value : string) : span_local (λ g t, (r, guard_add_metadata g key value t)).
Proof.
  intros g t r' t' Ht H. injection H as <- <-. unfold guard_add_metadata, add_metadata. destruct (tr_poisoned t); [done|].
  destruct (tr_spans t !! sg_span_id g) as [s|] eqn:E; [|done]. cbn. split; [|split; [lia|by rewrite delete_insert_eq]].
  destruct Ht as [Hn Ht]. split; [done|]. cbn. intros i Hi. destruct (decide (i = sg_span_id g)) as [->|Hne]; [apply Ht; by eexists|].
  rewrite lookup_insert_ne in Hi by done. by apply Ht.
Qed.

(** * Statements under a span *)

Section Spans.
Context `{LS : !Lru string unit}.

(** A statement of the engine: the span, the line of the log with its id, then the statement. *)
Definition spanned {A : Type} (raw : option string) (logger : StructuredLogger) (t0 t1 : Z) (sql : string) (m : X A) (e : ExecutionEngine)
    (w : World) (t : Tracer) : Result A * ExecutionEngine * World * Tracer * list LogLine :=
  match guard_new t0 sql t with
  | (Ok g, t) =>
      let lines := log_query raw logger LevelInfo sql [("span_id", fmt_Z (sg_span_id g))] in
      let '(r, e, w) := m e w in
      (r, e, w, drop_guard t1 g t, lines)
  | (Err err, t) => (Err err, e, w, t, [])
  | (Panic, t) => (Panic, e, w, t, [])
  end.

(** Tracing and logging are transparent: unless the counter of spans is at its end, a statement answers and
    leaves engine and connection as it does without them; it leaves no span behind; and it writes
    one line, with its SQL sanitised. *)
Theorem spanned_transparent {A : Type} (raw : option string) (logger : StructuredLogger) (t0 t1 : Z) (sql : string) (m : X A)
    (e : ExecutionEngine) (w : World) (t : Tracer) :
  tracer_ok t → tr_next_span_id t + 1 < 2 ^ 64 →
  ∃ t', spanned raw logger t0 t1 sql m e w t = (m e w, t',
      if lg_enabled logger
      then [(LevelInfo, "Query: " +:+ sanitize_sql_for_log raw sql +:+ ", span_id=" +:+ fmt_Z (tr_next_span_id t))] else []) ∧
    tracer_ok t' ∧ tr_spans t' = tr_spans t ∧ tr_next_span_id t' = tr_next_span_id t + 1.
Proof.
  intros Ht Hn. unfold spanned, guard_new. destruct (start_span t0 sql t) as [r ts] eqn:Es. pose proof Es as Es'.
  unfold start_span in Es'. destruct (Z.leb_spec (2 ^ 64) (tr_next_span_id t + 1)) as [|_]; [lia|].
  injection Es' as <- Es'. destruct (start_span_ok _ _ _ _ _ Ht Es) as (Hts & Hnext & Hdel). cbn [omap_ok]. destruct (m e w) as [[r e'] w'].
  eexists. split; [|split; [apply (tracer_ok_delete ts (tr_next_span_id t) Hts)|split; [exact Hdel|exact Hnext]]].
  unfold log_query, with_metadata. cbn [fold_left fst snd sg_span_id]. by rewrite !string_app_assoc.
Qed.

End Spans.

#[local] Existing Instance list_lru.

(** A query on the sample engine: the span is gone, and the literals of the SQL with it. *)
Lemma spanned_transparent_witness :
  ∃ t', spanned None (mkLogger true) 0 5 "SELECT n FROM t WHERE k = 'x'"
      (execute_direct (D := ok_driver) (Q := sample_queries) stored_ops 0 "SELECT n FROM t WHERE k = 'x'") sample_engine sample_world tracer_new
    = (execute_direct (D := ok_driver) (Q := sample_queries) stored_ops 0 "SELECT n FROM t WHERE k = 'x'" sample_engine sample_world, t',
       [(LevelInfo, "Query: SELECT n FROM t WHERE k = ?, span_id=1")]) ∧
    tracer_ok t' ∧ tr_spans t' = ∅ ∧ tr_next_span_id t' = 2.
Proof.
  apply (spanned_transparent None (mkLogger true) 0 5 "SELECT n FROM t WHERE k = 'x'" _ _ _ tracer_new).
  - split; [done|]. intros id [s Hs]. cbn in Hs. by rewrite lookup_empty in Hs.
  - done.
Defined.
