(* ===== verification/StreamSources.v ===== *)
(** Where result streams come from (engine/streaming.rs): a result read at once, one read
    in batches by a worker, and the results of a batch of statements, one frame each.

    A worker is given by what it sends until it is done; the cancel flag is shared with
    the client, so each of its readings is an argument ([cancel k] is the [k]-th).  A send
    fails when the stream is gone, which nobody can see. *)

From S2P Require Import Prelude Wire Errors RowCodec MultiResult DiskSpill Compression Capabilities CellReader OutputParams Streaming.
From S2P Require Import Handles Caches Execution.

Section Sources.
Context `{D : Driver} `{Q : QueryDriver}.

(** Preparing and running a statement without parameters. *)
Definition run_prepared (phys : Z) (sql : string) : M Execution :=
  let! _ := prepare_statement phys sql in
  run_statement phys (CRun true sql (QpTexts []) None).

(** * Results read at once *)

Definition stream_rows (phys : Z) (sql : string) : M RowBuffer :=
  let! x := run_prepared phys sql in
  match ex_cursor x with
  | Some c => lift (let? b := read_cursor from_odbc_sql_type c in Ok (coalesce_for_json_rows b))
  | None => lift (Err (InternalError "No data returned"))
  end.

Definition execute_streaming (chunk_size : Z) (phys : Z) (sql : string) : M StreamingState :=
  let! b := stream_rows phys sql in
  lift (let? encoded := encode_row_buffer b in Ok (mkStreaming encoded 0 chunk_size)).

Definition execute_streaming_with_spill (chunk_size : Z) (spill_threshold_mb : option Z) (temp_dir : string) (fs : Fs)
  (phys : Z) (sql : string) : M (StreamState * Fs) :=
  let! b := stream_rows phys sql in
  lift (stream_of_rows b chunk_size spill_threshold_mb temp_dir fs).

(** * Results read in batches *)

(** What a worker has sent, and how its query ended. *)
Abbreviation Sent := (list (list byte) * Result unit)%type.

(** [on_batch(item?)?; rest] *)
Definition emit (item : Result (list byte)) (rest : Sent) : Sent :=
  match item with
  | Ok x => (x :: rest.1, rest.2)
  | Err e => ([], Err e)
  | Panic => ([], Panic)
  end.

(** Up to [n] more rows of the cursor into the buffer; then the rows that are left. *)
Fixpoint read_batch (types : list OdbcType) (n : nat) (rows : list CursorRow) (ending : Result unit) (r : CellReader) (b : RowBuffer) :
  Result (RowBuffer * list CursorRow * CellReader) :=
  match n with
  | O => Ok (b, rows, r)
  | S n =>
      match rows with
      | [] => omap_ok (λ _, (b, [], r)) ending
      | row :: rows =>
          let '(cells, r) := fetch_cells row types r in
          let? cells := cells in
          read_batch types n rows ending r (add_row b cells)
      end
  end.

(** The loop over batches.  Each takes a row or is the last, so the rows bound the turns. *)
Fixpoint batch_loop (fuel : nat) (cancel : nat → bool) (batch_size : nat) (types : list OdbcType) (rows : list CursorRow)
  (ending : Result unit) (r : CellReader) (header : RowBuffer) (k : nat) : Sent :=
  match fuel with
  | O => ([], Panic)
  | S fuel =>
      if cancel k then ([], Err (InternalError "Stream cancelled"))
      else
        match read_batch types batch_size rows ending r header with
        | Ok (b, rows, r) =>
            if row_count b =? 0 then
              if (k =? 0)%nat then emit (encode_row_buffer b) ([], Ok tt) else ([], Ok tt)
            else emit (encode_row_buffer b) (batch_loop fuel cancel batch_size types rows ending r header (S k))
        | Err e => ([], Err e)
        | Panic => ([], Panic)
        end
  end.

Definition cursor_batches (cancel : nat → bool) (batch_size : Z) (c : ResultCursor) : Sent :=
  match read_columns from_odbc_sql_type c with
  | Ok header =>
      batch_loop (S (S (length (rc_rows c)))) cancel (Z.to_nat batch_size) (map col_type (rb_columns header)) (rc_rows c) (rc_end c)
        reader_new header 0
  | Err e => ([], Err e)
  | Panic => ([], Panic)
  end.

Definition execute_streaming_batched (cancel : nat → bool) (fetch_size : Z) (phys : Z) (sql : string) (w : World) : Sent * World :=
  match run_prepared phys sql w with
  | (Ok x, w) =>
      (match ex_cursor x with
       | Some c => cursor_batches cancel (Z.max fetch_size 1) c
       | None => ([], Ok tt)
       end, w)
  | (Err e, w) => (([], Err e), w)
  | (Panic, w) => (([], Panic), w)
  end.

(** * The results of a batch, one frame each *)

Definition encode_cursor_to_buffer (c : ResultCursor) : Result (list byte) :=
  let? b := read_cursor from_odbc_sql_type c in
  encode_row_buffer (coalesce_for_json_rows b).

Definition frame_rows (c : ResultCursor) : Result (list byte) :=
  let? encoded := encode_cursor_to_buffer c in
  frame_item MULTI_STREAM_ITEM_TAG_RESULT_SET encoded.

Definition frame_count (n : Z) : Result (list byte) := frame_item MULTI_STREAM_ITEM_TAG_ROW_COUNT (le_bytes 8 n).

Fixpoint drive_more_stream (cancel : nat → bool) (more : list Advance) (k : nat) : Sent :=
  if cancel k then ([], Err Cancelled)
  else
    match more with
    | [] => ([], Ok tt)
    | AdvError err :: _ =>
        let err := default (OdbcApi "SQLMoreResults failed") err in
        if is_no_more_results err then ([], Ok tt) else ([], Err err)
    | AdvNeedData :: _ | AdvStillExecuting :: _ => ([], Err (OdbcApi "Unexpected SQLMoreResults state in streaming worker"))
    | AdvSuccess cols cursor row_count :: more =>
        match cols with
        | Ok cols =>
            emit (if 0 <? cols then frame_rows cursor else let? rc := row_count in frame_count rc)
              (drive_more_stream cancel more (S k))
        | Err e => ([], Err e)
        | Panic => ([], Panic)
        end
    end.

Definition execution_frames (cancel : nat → bool) (x : Execution) : Sent :=
  match ex_cursor x with
  | Some c => if cancel 0%nat then ([], Err Cancelled) else emit (frame_rows c) (drive_more_stream cancel (ex_more x) 1)
  | None => emit (let? n := initial_row_count x in frame_count n) (drive_more_stream cancel (ex_more x) 0)
  end.

Definition drive_multi_result_stream (cancel : nat → bool) (phys : Z) (sql : string) (w : World) : Sent * World :=
  match run_prepared phys sql w with
  | (Ok x, w) => (execution_frames cancel x, w)
  | (Err e, w) => (([], Err e), w)
  | (Panic, w) => (([], Panic), w)
  end.

(** * Workers *)

(** The thread: it locks the connection for as long as it runs. *)
Definition worker (phys : Z) (query : World → Sent * World) (last : Result unit → list BatchedMessage) (w : World) :
  list BatchedMessage * World :=
  match lock_connection phys w with
  | (Ok _, w) =>
      let '((batches, r), w) := query w in
      (map MBatch batches ++ last r, match r with Panic => poison_connection phys w | _ => w end)
  | (_, w) => ([MError "Failed to lock connection"], w)
  end.

(** The connection is looked up before the thread starts. *)
Definition start_worker (conn_id chunk_size : Z) (query : Z → World → Sent * World) (last : Result unit → list BatchedMessage) :
  M WorkerStream :=
  let! h := lock_handles "Failed to lock HandleManager" in
  let! phys := lift (omap_err (λ e, InternalError ("Invalid connection: " +:+ to_string e)) (get_connection h conn_id)) in
  λ w, let '(rx, w) := worker phys (query phys) last w in (Ok (from_receiver rx (Z.max chunk_size 1)), w).

Definition start_batched_stream (cancel : nat → bool) (conn_id : Z) (sql : string) (fetch_size chunk_size : Z) : M WorkerStream :=
  start_worker conn_id chunk_size (λ phys, execute_streaming_batched cancel (Z.max fetch_size 1) phys sql) last_message.

Definition start_async_stream (cancel : nat → bool) (conn_id : Z) (sql : string) (fetch_size chunk_size : Z) : M WorkerStream :=
  start_worker conn_id chunk_size (λ phys, execute_streaming_batched cancel (Z.max fetch_size 1) phys sql) last_message.

Definition spawn_multi_stream_worker (cancel : nat → bool) (conn_id : Z) (sql : string) (chunk_size : Z) : M WorkerStream :=
  start_worker conn_id chunk_size (λ phys, drive_multi_result_stream cancel phys sql) last_multi_message.
End Sources.

(** * Reading in batches loses nothing *)

Lemma read_batch_serves types n rows cells r b :
  Forall2 (serves_row types) rows cells →
  ∃ r', read_batch types n rows (Ok tt) r b = Ok (mkRowBuffer (rb_columns b) (rb_rows b ++ take n cells), drop n rows, r').
Proof.
  intros H. revert n b r. induction H as [|row cs rows cells Hrow H IH]; intros n b r; destruct n as [|n]; cbn [read_batch take drop].
  - exists r. rewrite app_nil_r. by destruct b.
  - exists r. cbn. rewrite app_nil_r. by destruct b.
  - exists r. rewrite app_nil_r. by destruct b.
  - destruct (Hrow r) as [r1 ->]. cbn [obind]. destruct (IH n (add_row b cs) r1) as [r2 ->]. exists r2. cbn. by rewrite <- app_assoc.
Qed.

Definition decodes_to (bytes : list byte) (b : RowBuffer) : Prop :=
  parse bytes = Ok (mkDecoded (rb_columns b) (rb_rows b) (row_count b) (column_count b)).

Lemma encode_decodable b : decodable b → ∃ bytes, encode_row_buffer b = Ok bytes ∧ decodes_to bytes b.
Proof. intros (bytes & He & Hp)%parse_encode_lemma. exists bytes. unfold encode_row_buffer. by rewrite He. Qed.

(** The loop over the rows that are left: it sends them all, cut every [n] rows, and an
    empty batch only when it is the first. *)
Lemma batch_loop_serves cols n rows cells fuel r k :
  (0 < n)%nat → (S (length rows) < fuel)%nat →
  Forall2 (serves_row (map col_type cols)) rows cells →
  (∀ i, decodable (mkRowBuffer cols (take n (drop i cells)))) →
  ∃ bs encs, batch_loop fuel (λ _, false) n (map col_type cols) rows (Ok tt) r (mkRowBuffer cols []) k = (encs, Ok tt) ∧
    Forall2 decodes_to encs bs ∧ concat (map rb_rows bs) = cells ∧
    Forall (λ b, rb_columns b = cols ∧ row_count b ≤ Z.of_nat n) bs ∧ (k = 0%nat → bs ≠ []).
Proof.
  intros Hn. revert rows cells r k. induction fuel as [|fuel IH]; intros rows cells r k Hf Hs Hd; [lia|]. cbn [batch_loop].
  destruct (read_batch_serves (map col_type cols) n rows cells r (mkRowBuffer cols []) Hs) as [r' ->]. cbn [rb_columns rb_rows app].
  destruct (encode_decodable _ (Hd 0%nat)) as (enc & He & Hp). rewrite drop_0 in He, Hp.
  assert (∀ b : RowBuffer, b = mkRowBuffer cols (take n cells) → rb_columns b = cols ∧ row_count b ≤ Z.of_nat n) as Hsz.
  { intros b ->. split; [done|]. unfold row_count, len. cbn [rb_rows]. rewrite length_take. lia. }
  destruct cells as [|c cells].
  - rewrite take_nil. unfold row_count at 1. cbn [rb_rows]. rewrite len_nil. cbn [Z.eqb]. rewrite take_nil in He, Hp.
    destruct (Nat.eqb_spec k 0) as [->|Hk].
    + rewrite He. exists [mkRowBuffer cols []], [enc]. cbn. split_and!; [done|by repeat constructor|done| |done].
      apply Forall_singleton. apply Hsz. by rewrite take_nil.
    + exists [], []. split_and!; done.
  - inversion Hs as [|row ? rows' ? Hrow Hs' E1 E2]. subst. destruct n as [|n]; [lia|].
    rewrite firstn_cons. unfold row_count at 1. cbn [rb_rows]. rewrite len_cons. pose proof (len_nonneg (take n cells)).
    destruct (Z.eqb_spec (1 + len (take n cells)) 0) as [?|_]; [lia|]. rewrite firstn_cons in He. rewrite He.
    destruct (IH (drop (S n) (row :: rows')) (drop (S n) (c :: cells)) r' (S k)) as (bs & encs & -> & H1 & H2 & H3 & _).
    + rewrite length_drop. cbn in *. lia.
    + by apply Forall2_drop.
    + intros i. rewrite drop_drop. apply Hd.
    + exists (mkRowBuffer cols (take (S n) (c :: cells)) :: bs), (enc :: encs). cbn [emit fst snd]. split_and!.
      * done.
      * by constructor.
      * cbn [map concat rb_rows]. rewrite H2. apply take_drop.
      * constructor; [by apply Hsz|done].
      * done.
Qed.

(** A cursor read in batches loses nothing: whatever its size, as long as each batch can
    be decoded, the messages decode to batches of at most the fetch size with the columns
    of the cursor, and their rows, put together, are its rows in order; an empty result is
    one empty batch. *)
Theorem batched_stream_complete c b n :
  delivers from_odbc_sql_type c b → 0 < n →
  (∀ i, decodable (mkRowBuffer (rb_columns b) (take (Z.to_nat n) (drop i (rb_rows b))))) →
  ∃ bs encs, cursor_batches (λ _, false) n c = (encs, Ok tt) ∧
    Forall2 decodes_to encs bs ∧ concat (map rb_rows bs) = rb_rows b ∧
    Forall (λ d, rb_columns d = rb_columns b ∧ row_count d ≤ n) bs ∧ bs ≠ [].
Proof.
  intros Hd Hn Hc. unfold cursor_batches. rewrite (read_columns_delivers _ _ _ Hd). cbn [rb_columns].
  rewrite (dl_end _ _ _ Hd).
  destruct (batch_loop_serves (rb_columns b) (Z.to_nat n) (rc_rows c) (rb_rows b) (S (S (length (rc_rows c)))) reader_new 0)
    as (bs & encs & He & H1 & H2 & H3 & H4); [lia|lia|exact (dl_rows _ _ _ Hd)|done|].
  exists bs, encs. split_and!; [done..| |by apply H4]. eapply Forall_impl; [exact H3|]. intros d [? ?]. split; [done|lia].
Qed.

Lemma sample_rows_decodable i : decodable (mkRowBuffer (rb_columns sample_rows) (take 1 (drop i (rb_rows sample_rows)))).
Proof.
  destruct i as [|[|i]]; [| |rewrite (drop_ge (rb_rows sample_rows)) by (cbn; lia)];
    (split; [split; [done|done|by repeat constructor|repeat constructor; by vm_compute|by vm_compute]|..]);
    repeat constructor; by vm_compute.
Qed.

(** Two rows, fetched one by one. *)
Lemma batched_stream_complete_witness :
  ∃ bs encs, cursor_batches (λ _, false) 1 sample_cursor = (encs, Ok tt) ∧
    Forall2 decodes_to encs bs ∧ concat (map rb_rows bs) = rb_rows sample_rows ∧
    Forall (λ d, rb_columns d = rb_columns sample_rows ∧ row_count d ≤ 1) bs ∧ bs ≠ [].
Proof. apply (batched_stream_complete sample_cursor sample_rows 1 sample_delivers); [lia|exact sample_rows_decodable]. Defined.

(** * Cancelling *)

Lemma emit_take k item rest rest' :
  (emit item rest).1 = take (S k) (emit item rest').1 ↔ (match item with Ok _ => rest.1 = take k rest'.1 | _ => True end).
Proof. destruct item; cbn; split; try done; [by intros [=]|by intros ->]. Qed.

Ltac same_end := split; [cbn; by rewrite ?take_nil|by left].

Lemma batch_loop_cancel fuel cancel n types rows ending r header k j :
  (∀ i, (k ≤ i < k + j)%nat → cancel i = false) → cancel (k + j)%nat = true →
  let full := batch_loop fuel (λ _, false) n types rows ending r header k in
  let cut := batch_loop fuel cancel n types rows ending r header k in
  cut.1 = take j full.1 ∧ (cut.2 = full.2 ∨ cut.2 = Err (InternalError "Stream cancelled")).
Proof.
  revert rows r k j. induction fuel as [|fuel IH]; intros rows r k j Hf Ht; cbn [batch_loop]; [same_end|].
  destruct j as [|j].
  { rewrite Nat.add_0_r in Ht. rewrite Ht. split; [done|by right]. }
  rewrite (Hf k) by lia. destruct (read_batch types n rows ending r header) as [[[b rows'] r']| |]; [|same_end..].
  destruct (row_count b =? 0).
  { destruct (k =? 0)%nat; [|same_end]. destruct (encode_row_buffer b); same_end. }
  destruct (IH rows' r' (S k) j) as [H1 H2]; [intros i Hi; apply Hf; lia|by rewrite Nat.add_succ_l, <- Nat.add_succ_r|].
  destruct (encode_row_buffer b); cbn; [|same_end..]. split; [by rewrite H1|done].
Qed.

(** A cancelled stream delivers the start of what it would have delivered: when the flag
    is first seen at the [j]-th turn, the batches sent are the first [j] ones, and the
    worker ends with the cancellation, unless the query had ended before. *)
Theorem batched_cancel_prefix cancel n c j :
  (∀ i, (i < j)%nat → cancel i = false) → cancel j = true →
  let full := cursor_batches (λ _, false) n c in
  let cut := cursor_batches cancel n c in
  cut.1 = take j full.1 ∧ (cut.2 = full.2 ∨ last_message cut.2 = [MCancelled]).
Proof.
  intros Hf Ht. unfold cursor_batches. destruct (read_columns from_odbc_sql_type c) as [header| |]; [|same_end..].
  destruct (batch_loop_cancel (S (S (length (rc_rows c)))) cancel (Z.to_nat n) (map col_type (rb_columns header)) (rc_rows c) (rc_end c)
    reader_new header 0 j) as [H1 H2]; [intros i Hi; apply Hf; lia|done|].
  split; [done|]. destruct H2 as [H2|H2]; [by left|right]. rewrite H2. reflexivity.
Qed.

Lemma batched_cancel_prefix_witness :
  let full := cursor_batches (λ _, false) 1 sample_cursor in
  let cut := cursor_batches (λ k, (1 <=? k)%nat) 1 sample_cursor in
  cut.1 = take 1 full.1 ∧ (cut.2 = full.2 ∨ last_message cut.2 = [MCancelled]).
Proof. apply batched_cancel_prefix; [intros i Hi; destruct i; [reflexivity|lia]|reflexivity]. Defined.

(** * A batch streamed is the batch executed *)

(** The frame of an item. *)
Definition frame_of (i : MultiResultItem) : Result (list byte) :=
  match i with
  | ResultSet data => frame_item MULTI_STREAM_ITEM_TAG_RESULT_SET data
  | RowCount n => frame_count n
  end.

(** An engine as the streams read cursors: row format, no plugin. *)
Definition plain_engine `{LS : !Lru string unit} (e : ExecutionEngine) : Prop :=
  ee_use_columnar e = false ∧ active_plugin e = None.

Section Multi.
Context `{LS : !Lru string unit} (ops : CodecOps) (e : ExecutionEngine) (He : plain_engine e).

Lemma encode_cursor_frame c enc : encode_cursor ops e c = Ok enc → frame_rows c = frame_of (ResultSet enc).
Proof.
  destruct He as [Hc Hp]. unfold encode_cursor, frame_rows, encode_cursor_to_buffer.
  replace (map_type e) with from_odbc_sql_type by (unfold map_type; by rewrite Hp). intros (b & -> & H)%obind_Ok_inv. cbn [obind].
  unfold encode_buffer in H. rewrite Hc in H. unfold encode_row_buffer.
  destruct (try_encode (coalesce_for_json_rows b)); try done. by injection H as ->.
Qed.

Lemma multi_step_frame a i more k :
  step_item ops e a = Ok i →
  drive_more_stream (λ _, false) (a :: more) k = emit (frame_of i) (drive_more_stream (λ _, false) more (S k)).
Proof.
  destruct a as [cols cursor rc|err| |]; cbn [step_item drive_more_stream]; try done.
  intros (n & -> & H)%obind_Ok_inv. f_equal. destruct (0 <? n).
  - apply obind_Ok_inv in H as (enc & Henc & [= <-]). by apply encode_cursor_frame.
  - by apply obind_Ok_inv in H as (m & -> & [= <-]).
Qed.

Lemma more_frames more items frames rest k :
  Forall2 (λ a i, step_item ops e a = Ok i) more items → batch_end rest → omap_list frame_of items = Ok frames →
  drive_more_stream (λ _, false) (more ++ rest) k = (frames, Ok tt).
Proof.
  intros H Hend. revert frames k. induction H as [|a i more items Ha _ IH]; intros frames k Hf; cbn [omap_list] in Hf.
  - injection Hf as <-. destruct Hend as [->|(err & rest' & -> & Hn)]; cbn; [done|by rewrite Hn].
  - apply obind_Ok_inv in Hf as (fr & Hfr & (frs & Hfrs & [= <-])%obind_Ok_inv). cbn [app]. rewrite (multi_step_frame a i) by done.
    by rewrite Hfr, (IH frs).
Qed.
End Multi.

(** Streaming a batch of statements sends what executing it returns: the frames of the
    stream are those of the items of the batch, one each and in the same order. *)
Theorem multi_stream_as_batch `{LS : !Lru string unit} `{D : Driver} `{Q : QueryDriver} (ops : CodecOps) (e : ExecutionEngine)
  (w : World) (phys : Z) (sql : string) (x : Execution) (more rest : list Advance) (first : MultiResultItem)
  (items : list MultiResultItem) (frames : list (list byte)) :
  plain_engine e →
  dr_answer (w_trace w) phys (CPrepare sql) = Ok tt →
  qd_execute (w_trace w ++ [(phys, CPrepare sql, true)]) phys (CRun true sql (QpTexts []) None) = Ok x →
  first_item ops e x = Ok first → ex_more x = more ++ rest → Forall2 (λ a i, step_item ops e a = Ok i) more items → batch_end rest →
  omap_list frame_of (first :: items) = Ok frames →
  execute_multi_result_inner ops e phys sql w = (Ok (encode_multi (first :: items)), w_ext w (prepared_calls phys sql)) ∧
  drive_multi_result_stream (λ _, false) phys sql w = ((frames, Ok tt), w_ext w (prepared_calls phys sql)).
Proof.
  intros He Hp Hx Hf Hmore Hitems Hend Hfr. split.
  - unfold execute_multi_result_inner. rewrite (runs_prepared_statement phys sql _ w x Hp Hx), Hf, Hmore. cbn [obind].
    by rewrite (drive_more_items ops e more items rest [first] Hitems), drive_more_end.
  - assert (runs (run_prepared phys sql) w (prepared_calls phys sql) (Ok x)) as Hr.
    { change (prepared_calls phys sql) with ([(phys, CPrepare sql, true)] ++ [(phys, CRun true sql (QpTexts []) None, true)]).
      eapply runs_bind; [by apply runs_prepare_statement|by apply runs_statement]. }
    unfold runs in Hr. unfold drive_multi_result_stream. rewrite Hr.
    cbn [omap_list] in Hfr. apply obind_Ok_inv in Hfr as (fr & Hfirst & (frs & Hfrs & [= <-])%obind_Ok_inv).
    f_equal. unfold execution_frames. unfold first_item in Hf. rewrite Hmore. destruct (ex_cursor x) as [c|].
    + apply obind_Ok_inv in Hf as (enc & Henc & [= <-]). rewrite (encode_cursor_frame ops e He c enc Henc), Hfirst.
      by rewrite (more_frames ops e He more items frs rest).
    + apply obind_Ok_inv in Hf as (n & Hn & [= <-]). rewrite Hn. cbn [obind frame_of] in *. rewrite Hfirst.
      by rewrite (more_frames ops e He more items frs rest).
Qed.

#[local] Existing Instance list_lru.

(** A cursor, a row count and a second cursor. *)
Lemma multi_stream_as_batch_witness :
  ∃ items frames,
    execute_multi_result_inner (D := ok_driver) (Q := sample_queries) stored_ops sample_engine 0 "SELECT n FROM t" sample_world
      = (Ok (encode_multi items), w_ext sample_world (prepared_calls 0 "SELECT n FROM t")) ∧
    drive_multi_result_stream (D := ok_driver) (Q := sample_queries) (λ _, false) 0 "SELECT n FROM t" sample_world
      = ((frames, Ok tt), w_ext sample_world (prepared_calls 0 "SELECT n FROM t")).
Proof.
  eexists (_ :: _), _.
  eapply (multi_stream_as_batch (D := ok_driver) (Q := sample_queries) stored_ops sample_engine sample_world 0 "SELECT n FROM t"
    sample_execution [AdvSuccess (Ok 0) sample_cursor (Ok 7); AdvSuccess (Ok 1) sample_cursor (Ok 0)]
    [AdvError (Some (Structured (as_bytes "02000") 0 "no data"))]).
  - by vm_compute.
  - done.
  - done.
  - vm_compute. reflexivity.
  - done.
  - apply Forall2_cons. split; [vm_compute; reflexivity|]. apply Forall2_cons. split; [vm_compute; reflexivity|]. apply Forall2_nil. done.
  - right. eexists _, _. split; reflexivity.
  - vm_compute. reflexivity.
Defined.
