(* ===== verification/Pool.v ===== *)
(** The connection pool (pool/mod.rs): the options carried in the connection string, what
    the pool does to a connection, and the pool as the entry points see it.  The pooling
    itself is r2d2's: the class [PoolDriver] is what it answers. *)

From S2P Require Import Prelude Wire Errors Text Handles.

(** * Options in the connection string *)

Definition DEFAULT_TEST_ON_CHECKOUT : bool := true.
Definition DEFAULT_HEALTH_CHECK_QUERY : string := "SELECT 1".

Definition is_pool_checkout_option (key : string) : bool :=
  existsb (String.eqb key)
    ["pooltestoncheckout"; "testoncheckout"; "pool_test_on_checkout"; "pool_test_on_check_out"; "test_on_checkout"; "test_on_check_out"].

Definition is_pool_health_check_option (key : string) : bool :=
  existsb (String.eqb key) ["poolhealthcheckquery"; "healthcheckquery"; "pool_health_check_query"; "health_check_query"].

Definition parse_bool_flag (value : string) : option bool :=
  let v := to_ascii_lowercase (trim value) in
  if existsb (String.eqb v) ["1"; "true"; "yes"; "on"] then Some true
  else if existsb (String.eqb v) ["0"; "false"; "no"; "off"] then Some false
  else None.

(** [str::split_once] *)
Fixpoint split_once (c : ascii) (s : string) : option (string * string) :=
  match s with
  | EmptyString => None
  | String d s =>
      if Ascii.eqb c d then Some (EmptyString, s)
      else '(p, r) ← split_once c s; Some (String d p, r)
  end.

Definition is_brace (c : ascii) : bool := Ascii.eqb c "{" || Ascii.eqb c "}".

Fixpoint trim_start_matches (f : ascii → bool) (s : string) : string :=
  match s with
  | EmptyString => EmptyString
  | String c s' => if f c then trim_start_matches f s' else s
  end.

Fixpoint trim_end_matches (f : ascii → bool) (s : string) : string :=
  match s with
  | EmptyString => EmptyString
  | String c s =>
      let t := trim_end_matches f s in
      if f c && String.eqb t EmptyString then EmptyString else String c t
  end.

Definition trim_matches (f : ascii → bool) (s : string) : string := trim_end_matches f (trim_start_matches f s).

(** [saturating_add] and [saturating_sub] of a [u32] depth. *)
Definition brace_step (depth : Z) (c : ascii) : Z :=
  if Ascii.eqb c "{" then Z.min (2 ^ 32 - 1) (depth + 1)
  else if Ascii.eqb c "}" then Z.max 0 (depth - 1)
  else depth.

Fixpoint split_parts (depth : Z) (s : string) : string * list string :=
  match s with
  | EmptyString => (EmptyString, [])
  | String c s =>
      if Ascii.eqb c ";" && (depth =? 0) then let '(p, ps) := split_parts 0 s in (EmptyString, p :: ps)
      else let '(p, ps) := split_parts (brace_step depth c) s in (String c p, ps)
  end.

Definition split_connection_string_parts (connection_string : string) : list string :=
  let '(p, ps) := split_parts 0 connection_string in p :: ps.

(** The parts kept, the checkout flag and the health query found so far. *)
Abbreviation PoolOptionsFound := (list string * option bool * option string)%type.

(** What one part does: [conn_override] and [health_check_query] are set, or the part is kept. *)
Definition pool_part (acc : PoolOptionsFound) (part : string) : PoolOptionsFound :=
  let '(sanitized_parts, conn_override, health_check_query) := acc in
  let trimmed := trim part in
  let kept := (sanitized_parts ++ [trimmed], conn_override, health_check_query) in
  if String.eqb trimmed EmptyString then acc
  else
    match split_once "=" part with
    | Some (key, raw_value) =>
        let normalized_key := to_ascii_lowercase (trim key) in
        let value := trim_matches is_brace (trim raw_value) in
        if is_pool_checkout_option normalized_key then
          (sanitized_parts, match parse_bool_flag value with Some parsed => Some parsed | None => conn_override end, health_check_query)
        else if is_pool_health_check_option normalized_key then
          (sanitized_parts, conn_override, if String.eqb value EmptyString then health_check_query else Some value)
        else kept
    | None => kept
    end.

Fixpoint ends_with (c : ascii) (s : string) : bool :=
  match s with
  | EmptyString => false
  | String d EmptyString => Ascii.eqb c d
  | String _ s => ends_with c s
  end.

Definition parse_pool_options_from_connection_string (connection_string : string) : string * option bool * option string :=
  let '(sanitized_parts, conn_override, health_check_query) :=
    foldl pool_part ([], None, None) (split_connection_string_parts connection_string) in
  let sanitized := join ";" sanitized_parts in
  (if ends_with ";" (trim_end connection_string) && negb (String.eqb sanitized EmptyString) then sanitized +:+ ";" else sanitized,
   conn_override, health_check_query).

Definition resolve_checkout_validation (conn_override env_override : option bool) : bool :=
  default DEFAULT_TEST_ON_CHECKOUT (match conn_override with Some b => Some b | None => env_override end).

Definition resolve_health_check_query (conn_override env_override : option string) : string :=
  match (match conn_override with Some q => Some q | None => env_override end) with
  | Some q => let q := trim q in if String.eqb q EmptyString then DEFAULT_HEALTH_CHECK_QUERY else q
  | None => DEFAULT_HEALTH_CHECK_QUERY
  end.

(** The two environment variables, when set. *)
Record PoolEnv := mkPoolEnv { pe_test_on_checkout : option string; pe_health_check_query : option string }.

Definition read_checkout_validation_from_env (env : PoolEnv) : option bool := pe_test_on_checkout env ≫= parse_bool_flag.

Definition read_health_check_query_from_env (env : PoolEnv) : option string :=
  match pe_health_check_query env with
  | Some q => if String.eqb (trim q) EmptyString then None else Some q
  | None => None
  end.

Record PoolConfig := mkPoolConfig {
  pc_sanitized_connection_string : string;
  pc_test_on_check_out : bool;
  pc_health_check_query : string
}.

Definition from_connection_string (env : PoolEnv) (connection_string : string) : PoolConfig :=
  let '(sanitized, conn_override, health) := parse_pool_options_from_connection_string connection_string in
  mkPoolConfig sanitized
    (resolve_checkout_validation conn_override (read_checkout_validation_from_env env))
    (resolve_health_check_query health (read_health_check_query_from_env env)).

(** ** The id of a pool *)

Definition pool_component (acc : string * string * string) (part : string) : string * string * string :=
  let '(server, port, uid) := acc in
  match split_once "=" (trim part) with
  | Some (k, v) =>
      let k := to_lowercase (trim k) in
      let v := trim_matches is_brace (trim v) in
      if existsb (String.eqb k) ["server"; "host"; "hostname"] then
        if String.eqb v EmptyString then acc else (v, port, uid)
      else if String.eqb k "port" then
        if String.eqb v EmptyString then acc else (server, v, uid)
      else if existsb (String.eqb k) ["uid"; "user"; "username"] then
        if String.eqb v EmptyString then acc else (server, port, v)
      else acc
  | None => acc
  end.

Definition extract_pool_components (conn_str : string) : string :=
  let '(server, port, uid) := foldl pool_component (EmptyString, EmptyString, EmptyString) (split ";" conn_str) in
  if String.eqb server EmptyString && String.eqb port EmptyString && String.eqb uid EmptyString then conn_str
  else server +:+ ":" +:+ port +:+ ":" +:+ uid.

(** * The pool *)

(** Durations are in milliseconds. *)
Record PoolOptions := mkPoolOptions {
  po_idle_timeout : option Z;
  po_max_lifetime : option Z;
  po_connection_timeout : option Z
}.

Definition pool_options_default : PoolOptions := mkPoolOptions None None None.

(** What is handed to the builder of r2d2. *)
Record PoolBuilder := mkBuilder {
  pb_connection_string : string;
  pb_health_check_query : string;
  pb_max_size : Z;
  pb_connection_timeout : Z;
  pb_test_on_check_out : bool;
  pb_idle_timeout : option Z;
  pb_max_lifetime : option Z
}.

(** r2d2: building a pool and taking a connection from it may talk to the driver and may
    fail, the builder may also panic; an error is its text.  A connection that is given
    back is checked ([pd_put]).  Connections are numbered by r2d2, below zero for the
    engine, which numbers its own from zero.  [pd_env] is the error the environment of the
    pools was created with, if any. *)
Class PoolDriver := {
  pd_env : option string;
  pd_build : History → PoolBuilder → outcome string Z * History;
  pd_get : History → Z → outcome string nat * History;
  pd_put : History → Z → Z → History;
  pd_state : History → Z → Z * Z
}.

Record ConnectionPool := mkPool {
  cp_pool : Z;
  cp_connection_string : string;
  cp_max_size : Z;
  cp_test_on_check_out : bool
}.

(** A connection checked out of a pool: the pool of r2d2 and the physical connection. *)
Record PooledConnectionWrapper := mkPooled { pw_pool : Z; pw_phys : Z }.

Definition pool_phys (n : nat) : Z := - (1 + Z.of_nat n).

Section Pools.
Context `{D : Driver} `{R : PoolDriver}.

(** The callbacks of r2d2. *)
Definition is_valid (health_check_query : string) (phys : Z) : M unit :=
  let! _ := call phys (CAutocommit true) in
  exec phys health_check_query.

Definition has_broken (health_check_query : string) (phys : Z) : M bool :=
  let! r := try_m (is_valid health_check_query phys) in
  ret (negb (is_ok r)).

Definition on_acquire (phys : Z) : M unit :=
  let! _ := try_m (call phys CRollback) in
  call phys (CAutocommit true).

(** A call of r2d2, with what it said to the driver. *)
Definition pool_call {A B : Type} (f : History → outcome string A * History) (e : string → OdbcError) (k : A → B) : M B := λ w,
  let '(r, h) := f (w_trace w) in
  (match r with Ok a => Ok (k a) | Err msg => Err (e msg) | Panic => Panic end,
   mkWorld (w_handles w) (w_handles_poisoned w) (w_conn_poisoned w) (w_next_phys w) (w_trace w ++ h)).

Definition get_global_pool_env : Result unit :=
  match pd_env with None => Ok tt | Some msg => Err (PoolError msg) end.

Definition new_with_options (env : PoolEnv) (connection_string : string) (max_size : Z) (options : PoolOptions) : M ConnectionPool :=
  let config := from_connection_string env connection_string in
  let! _ := lift get_global_pool_env in
  let builder := mkBuilder (pc_sanitized_connection_string config) (pc_health_check_query config) max_size
                   (default 30000 (po_connection_timeout options)) (pc_test_on_check_out config)
                   (po_idle_timeout options) (po_max_lifetime options) in
  pool_call (λ h, pd_build h builder) (λ e, PoolError ("Pool creation failed: " +:+ e))
    (λ p, mkPool p (pc_sanitized_connection_string config) max_size (pc_test_on_check_out config)).

Definition pool_new (env : PoolEnv) (connection_string : string) (max_size : Z) : M ConnectionPool :=
  new_with_options env connection_string max_size pool_options_default.

Definition pool_get (pool : ConnectionPool) : M PooledConnectionWrapper :=
  pool_call (λ h, pd_get h (cp_pool pool)) (λ e, PoolError ("Failed to get connection from pool: " +:+ e))
    (λ n, mkPooled (cp_pool pool) (pool_phys n)).

(** [Drop] of the wrapper: the connection goes back to its pool. *)
Definition drop_pooled (c : PooledConnectionWrapper) : M unit := λ w,
  (Ok tt, mkWorld (w_handles w) (w_handles_poisoned w) (w_conn_poisoned w) (w_next_phys w)
            (w_trace w ++ pd_put (w_trace w) (pw_pool c) (pw_phys c))).

Definition health_check (pool : ConnectionPool) : M bool :=
  let! r := try_m (pool_call (λ h, pd_get h (cp_pool pool)) PoolError (λ n, mkPooled (cp_pool pool) (pool_phys n))) in
  match r with
  | Ok c => let! _ := drop_pooled c in ret true
  | _ => ret false
  end.

(** [size] and [idle] *)
Definition pool_state (pool : ConnectionPool) (w : World) : Z * Z := pd_state (w_trace w) (cp_pool pool).

Definition get_pool_id (pool : ConnectionPool) : string := extract_pool_components (cp_connection_string pool).
End Pools.

(** * The options are found, and only they are taken out *)

(** A connection string as it is written: parts for the driver, and options of the pool. *)
Inductive PoolEntry :=
| EntPart (p : string)
| EntOption (key value : string).

Definition entry_text (e : PoolEntry) : string :=
  match e with EntPart p => p | EntOption k v => k +:+ "=" +:+ v end.

(** The depth of braces after a text in which no part ends. *)
Fixpoint scan (depth : Z) (s : string) : option Z :=
  match s with
  | EmptyString => Some depth
  | String c s => if Ascii.eqb c ";" && (depth =? 0) then None else scan (brace_step depth c) s
  end.

(** An entry is one part, is not blank, and an option is one of the pool's. *)
Definition entry_wf (e : PoolEntry) : Prop :=
  scan 0 (entry_text e) = Some 0 ∧ trim (entry_text e) ≠ EmptyString ∧
  match e with
  | EntPart p => trim p = p ∧
      match split_once "=" p with
      | Some (k, _) => is_pool_checkout_option (to_ascii_lowercase (trim k)) = false ∧ is_pool_health_check_option (to_ascii_lowercase (trim k)) = false
      | None => True
      end
  | EntOption k v => split_once "=" (entry_text e) = Some (k, v) ∧
      (is_pool_checkout_option (to_ascii_lowercase (trim k)) = true ∨ is_pool_health_check_option (to_ascii_lowercase (trim k)) = true)
  end.

Definition entry_value (v : string) : string := trim_matches is_brace (trim v).

Fixpoint parts_of (es : list PoolEntry) : list string :=
  match es with
  | [] => []
  | EntPart p :: es => p :: parts_of es
  | EntOption _ _ :: es => parts_of es
  end.

(** The last checkout option whose value is a flag, and the last health query that is not
    empty. *)
Fixpoint flag_of (acc : option bool) (es : list PoolEntry) : option bool :=
  match es with
  | [] => acc
  | EntOption k v :: es =>
      flag_of (if is_pool_checkout_option (to_ascii_lowercase (trim k))
               then match parse_bool_flag (entry_value v) with Some b => Some b | None => acc end else acc) es
  | _ :: es => flag_of acc es
  end.

Fixpoint query_of (acc : option string) (es : list PoolEntry) : option string :=
  match es with
  | [] => acc
  | EntOption k v :: es =>
      query_of (if is_pool_health_check_option (to_ascii_lowercase (trim k))
                then if String.eqb (entry_value v) EmptyString then acc else Some (entry_value v) else acc) es
  | _ :: es => query_of acc es
  end.

Lemma options_disjoint k : is_pool_checkout_option k = true → is_pool_health_check_option k = false.
Proof.
  unfold is_pool_checkout_option, is_pool_health_check_option. cbn. rewrite !orb_true_iff, !String.eqb_eq.
  intros H. destruct_or!; subst; done.
Qed.

Lemma split_parts_app d p rest :
  scan d p = Some 0 → split_parts d (p +:+ String ";" rest) = (p, (split_parts 0 rest).1 :: (split_parts 0 rest).2).
Proof.
  revert d. induction p as [|c p IH]; intros d H; cbn [scan] in H.
  - injection H as ->. rewrite string_app_nil_l. cbn. by destruct (split_parts 0 rest).
  - rewrite string_app_cons. cbn [split_parts]. destruct (Ascii.eqb c ";" && (d =? 0)); [done|]. by rewrite (IH _ H).
Qed.

Lemma split_parts_last d p k : scan d p = Some k → split_parts d p = (p, []).
Proof.
  revert d. induction p as [|c p IH]; intros d H; cbn [scan split_parts] in *; [done|].
  destruct (Ascii.eqb c ";" && (d =? 0)); [done|]. by rewrite (IH _ H).
Qed.

Lemma split_join ps : ps ≠ [] → Forall (λ p, scan 0 p = Some 0) ps → split_connection_string_parts (join ";" ps) = ps.
Proof.
  unfold split_connection_string_parts. induction ps as [|p ps IH]; intros Hne Hf; [done|].
  apply Forall_cons in Hf as [Hp Hf]. destruct ps as [|q ps]; [cbn [join]; by rewrite (split_parts_last 0 p 0)|].
  change (join ";" (p :: q :: ps)) with (p +:+ String ";" (EmptyString +:+ join ";" (q :: ps))).
  rewrite string_app_nil_l, split_parts_app by done. f_equal. specialize (IH ltac:(done) Hf).
  by destruct (split_parts 0 (join ";" (q :: ps))).
Qed.

Lemma pool_part_entries es acc flag query :
  Forall entry_wf es →
  foldl pool_part (acc, flag, query) (map entry_text es) = (acc ++ parts_of es, flag_of flag es, query_of query es).
Proof.
  revert acc flag query. induction es as [|e es IH]; intros acc flag query Hf; [cbn; by rewrite app_nil_r|].
  apply Forall_cons in Hf as [(Hs & Ht & He) Hf]. cbn [map foldl]. unfold pool_part at 2.
  rewrite (proj2 (String.eqb_neq _ _) Ht). destruct e as [p|k v]; cbn [entry_text] in *.
  - destruct He as [Htp Hk]. rewrite Htp. cbn [parts_of flag_of query_of].
    replace (acc ++ p :: parts_of es) with ((acc ++ [p]) ++ parts_of es) by (by rewrite <- app_assoc).
    destruct (split_once "=" p) as [[k r]|]; [destruct Hk as [-> ->]|]; by apply IH.
  - destruct He as [-> Hk]. cbn [parts_of flag_of query_of]. fold (entry_value v). destruct Hk as [Hk|Hk].
    + rewrite Hk, (options_disjoint _ Hk). by apply IH.
    + destruct (is_pool_checkout_option _) eqn:E; [by rewrite (options_disjoint _ E) in Hk|]. rewrite Hk. by apply IH.
Qed.

(** The pool options written into a connection string are found and taken out: of
    entries in any order, the options are gone from the string given to the driver and
    the other parts are kept, in order; the flag is the last one that is a boolean and
    the health query the last that is not empty. *)
Theorem pool_options_extracted es :
  es ≠ [] → Forall entry_wf es → ends_with ";" (trim_end (join ";" (map entry_text es))) = false →
  parse_pool_options_from_connection_string (join ";" (map entry_text es)) =
    (join ";" (parts_of es), flag_of None es, query_of None es).
Proof.
  intros Hne Hf He. unfold parse_pool_options_from_connection_string.
  rewrite split_join; [|by destruct es|apply Forall_map; eapply Forall_impl; [exact Hf|by intros e (? & _)]].
  rewrite (pool_part_entries es [] None None Hf), He. done.
Qed.

(** A password with a semicolon in braces stays in one piece. *)
Lemma pool_options_extracted_witness :
  parse_pool_options_from_connection_string "PWD={ab;c};PoolTestOnCheckout={off};DSN=Main;test_on_checkout=maybe"
    = ("PWD={ab;c};DSN=Main", Some false, None).
Proof.
  apply (pool_options_extracted [EntPart "PWD={ab;c}"; EntOption "PoolTestOnCheckout" "{off}"; EntPart "DSN=Main"; EntOption "test_on_checkout" "maybe"]).
  - discriminate.
  - repeat (apply Forall_cons; split); [split; [reflexivity|split; [vm_compute; discriminate|]]..|apply Forall_nil, I].
    + split; [vm_compute; reflexivity|vm_compute; split; reflexivity].
    + split; [vm_compute; reflexivity|left; vm_compute; reflexivity].
    + split; [vm_compute; reflexivity|vm_compute; split; reflexivity].
    + split; [vm_compute; reflexivity|left; vm_compute; reflexivity].
  - vm_compute. reflexivity.
Defined.

(** * The id of a pool *)

(** The id of a pool does not depend on the database: a part whose key is none of those
    of the server, the port and the user can be put anywhere into a connection string
    that names one of them, and the id stays the same. *)
Theorem pool_id_ignores_other_keys a part b :
  split ";" part = [part] → (∀ acc, pool_component acc part = acc) →
  foldl pool_component (EmptyString, EmptyString, EmptyString) (split ";" (a +:+ String ";" b)) ≠ (EmptyString, EmptyString, EmptyString) →
  extract_pool_components (a +:+ String ";" (part +:+ String ";" b)) = extract_pool_components (a +:+ String ";" b).
Proof.
  intros Hp Hc Hne. unfold extract_pool_components. rewrite !split_app, Hp in *. rewrite !foldl_app in *. cbn [foldl]. rewrite Hc.
  destruct (foldl pool_component (foldl pool_component _ (split ";" a)) (split ";" b)) as [[server port] uid].
  destruct (String.eqb server EmptyString && String.eqb port EmptyString && String.eqb uid EmptyString) eqn:E; [|done].
  apply andb_true_iff in E as [[E1%String.eqb_eq E2%String.eqb_eq]%andb_true_iff E3%String.eqb_eq]. subst. done.
Qed.

Lemma pool_id_ignores_other_keys_witness :
  extract_pool_components "Server=db;Database=sales;UID=sa" = extract_pool_components "Server=db;UID=sa" ∧
  extract_pool_components "Server=db;UID=sa" = "db::sa".
Proof.
  split; [|vm_compute; reflexivity].
  apply (pool_id_ignores_other_keys "Server=db" "Database=sales" "UID=sa").
  - reflexivity.
  - intros [[server port] uid]. vm_compute. reflexivity.
  - vm_compute. discriminate.
Defined.
