(* ===== verification/PoolManager.v ===== *)
(** The manager of pools (engine/core/connection_manager.rs): pools under ids that it counts up.

    The two mutexes of the manager are taken together when a pool is entered, and a panic then poisons
    both.  A pool is given out behind a mutex of its own, which its users may poison.  [checks] tells
    whether the build checks for overflow (the debug profile does). *)

From S2P Require Import Prelude Wire Errors Handles Pool.

Record ConnectionManager := mkManager {
  cm_pools : gmap Z ConnectionPool;
  cm_next_pool_id : Z;
  cm_poisoned : bool;
  cm_broken_pools : gset Z
}.

Definition manager_new : ConnectionManager := mkManager ∅ 1 false ∅.

Definition lock_poisoned : OdbcError := InternalError "Lock poisoned".

Definition pool_not_found (pool_id : Z) : OdbcError := PoolError ("Pool " +:+ fmt_Z pool_id +:+ " not found").

Section Manager.
Context `{D : Driver} `{R : PoolDriver} (checks : bool) (env : PoolEnv).

(** The pool is entered under the next id. *)
Definition enter_pool (pool : ConnectionPool) (m : ConnectionManager) : Result Z * ConnectionManager :=
  if cm_poisoned m then (Err lock_poisoned, m)
  else
    let pool_id := cm_next_pool_id m in
    if checks && (2 ^ 32 <=? pool_id + 1) then (Panic, mkManager (cm_pools m) pool_id true (cm_broken_pools m))
    else (Ok pool_id, mkManager (<[pool_id := pool]> (cm_pools m)) ((pool_id + 1) mod 2 ^ 32) false (cm_broken_pools m ∖ {[pool_id]})).

Definition create_pool (connection_string : string) (max_size : Z) (m : ConnectionManager) (w : World) : Result Z * ConnectionManager * World :=
  match pool_new env connection_string max_size w with
  | (Ok pool, w) => let '(r, m) := enter_pool pool m in (r, m, w)
  | (Err e, w) => (Err (PoolError ("Failed to create pool: " +:+ to_string e)), m, w)
  | (Panic, w) => (Panic, m, w)
  end.

Definition get_pool (pool_id : Z) (m : ConnectionManager) : Result ConnectionPool :=
  if cm_poisoned m then Err lock_poisoned else ok_or (cm_pools m !! pool_id) (pool_not_found pool_id).

Definition get_pool_state (pool_id : Z) (m : ConnectionManager) (w : World) : Result (Z * Z) :=
  if cm_poisoned m then Err lock_poisoned
  else
    let? pool := ok_or (cm_pools m !! pool_id) (pool_not_found pool_id) in
    if bool_decide (pool_id ∈ cm_broken_pools m) then Err lock_poisoned else Ok (pool_state pool w).

Definition close_pool (pool_id : Z) (m : ConnectionManager) : Result unit * ConnectionManager :=
  if cm_poisoned m then (Err lock_poisoned, m)
  else
    match cm_pools m !! pool_id with
    | Some _ => (Ok tt, mkManager (delete pool_id (cm_pools m)) (cm_next_pool_id m) false (cm_broken_pools m))
    | None => (Err (pool_not_found pool_id), m)
    end.

(** * Ids *)

(** What happens to a manager: a pool is created, or closed, or its mutex poisoned by a user. *)
Inductive ManagerStep (w : World) : ConnectionManager → ConnectionManager → Prop :=
| manager_create s n m : ManagerStep w m (create_pool s n m w).1.2
| manager_close id m : ManagerStep w m (close_pool id m).2
| manager_break id m : ManagerStep w m (mkManager (cm_pools m) (cm_next_pool_id m) (cm_poisoned m) ({[id]} ∪ cm_broken_pools m)).

(** Every id in use has been given out, and fewer than 2^32 have. *)
Definition manager_ok (m : ConnectionManager) : Prop :=
  0 < cm_next_pool_id m < 2 ^ 32 ∧ ∀ id, is_Some (cm_pools m !! id) → 0 < id < cm_next_pool_id m.

Lemma enter_pool_ok pool m :
  manager_ok m → cm_poisoned m = false → cm_next_pool_id m + 1 < 2 ^ 32 →
  let id := cm_next_pool_id m in
  enter_pool pool m = (Ok id, mkManager (<[id := pool]> (cm_pools m)) (id + 1) false (cm_broken_pools m ∖ {[id]})) ∧
  cm_pools m !! id = None ∧ manager_ok (enter_pool pool m).2.
Proof.
  intros [Hn Hp] Hps Hlt id. unfold enter_pool. rewrite Hps. destruct (Z.leb_spec (2 ^ 32) (cm_next_pool_id m + 1)); [lia|].
  rewrite andb_false_r. rewrite Z.mod_small by lia.
  assert (cm_pools m !! id = None) as Hf.
  { destruct (cm_pools m !! id) as [p|] eqn:E; [|done]. specialize (Hp id ltac:(by eexists)). unfold id in Hp. lia. }
  split; [done|]. split; [done|]. split; [cbn; lia|]. cbn. intros i Hi. destruct (decide (i = id)) as [->|Hne]; [unfold id; lia|].
  rewrite lookup_insert_ne in Hi by done. specialize (Hp i Hi). lia.
Qed.

(** The pool that a client gets under an id is the one that was created under it.  As long as fewer than 2^32 - 1
    pools have been created: creating one answers an id that no pool, open or closed, had before, and
    that names the new pool; every other id names what it named; and closing a pool frees its id for
    no other. *)
Theorem pool_ids_fresh (pool : ConnectionPool) (m : ConnectionManager) :
  manager_ok m → cm_poisoned m = false → cm_next_pool_id m + 1 < 2 ^ 32 →
  let '(r, m') := enter_pool pool m in
  r = Ok (cm_next_pool_id m) ∧ get_pool (cm_next_pool_id m) m = Err (pool_not_found (cm_next_pool_id m)) ∧
  get_pool (cm_next_pool_id m) m' = Ok pool ∧ (∀ id, id ≠ cm_next_pool_id m → get_pool id m' = get_pool id m) ∧
  manager_ok m' ∧ cm_next_pool_id m < cm_next_pool_id m' ∧
  ∀ id, let '(rc, mc) := close_pool id m' in
    manager_ok mc ∧ cm_next_pool_id mc = cm_next_pool_id m' ∧ (rc = Ok tt ↔ is_Some (cm_pools m' !! id)) ∧ get_pool id mc = Err (pool_not_found id).
Proof.
  intros Hm Hps Hlt. destruct (enter_pool_ok pool m Hm Hps Hlt) as (He & Hf & Hok). rewrite He in *. cbn [snd] in Hok. unfold get_pool. cbn [cm_poisoned cm_pools].
  rewrite Hps, Hf. rewrite lookup_insert_eq. split_and!; try done.
  - intros id Hid. by rewrite lookup_insert_ne.
  - cbn. lia.
  - intros id. unfold close_pool. cbn [cm_poisoned cm_pools]. destruct (<[cm_next_pool_id m:=pool]> (cm_pools m) !! id) as [p|] eqn:E; cbn [cm_poisoned cm_pools cm_next_pool_id].
    + rewrite lookup_delete_eq. split_and!; try done. destruct Hok as [H1 H2]. split; [exact H1|]. cbn. intros i [q Hi]. apply lookup_delete_Some in Hi as [_ Hi].
      apply H2. by eexists.
    + by rewrite E.
Qed.

Lemma manager_step_ok w m m' : ManagerStep w m m' → cm_next_pool_id m + 1 < 2 ^ 32 → manager_ok m → manager_ok m'.
Proof.
  intros [s n m0|id m0|id m0] Hlt Hm; cbn; [|unfold close_pool; destruct (cm_poisoned m0); [done|]; destruct (cm_pools m0 !! id); [|done]|exact Hm].
  - unfold create_pool. destruct (pool_new env s n w) as [[pool|e|] w']; [|exact Hm..].
    destruct (cm_poisoned m0) eqn:Ep; [unfold enter_pool; rewrite Ep; exact Hm|].
    pose proof (enter_pool_ok pool m0 Hm Ep Hlt) as (_ & _ & Hok). by destruct (enter_pool pool m0).
  - destruct Hm as [H1 H2]. split; [exact H1|]. cbn. intros i [q Hi]. apply lookup_delete_Some in Hi as [_ Hi]. apply H2. by eexists.
Qed.
End Manager.

(** After 2^32 - 1 pools a checked build panics and leaves the manager poisoned; the other goes round: the
    next ids are 0 and 1, and the new pool takes the place of the first one. *)
Example ids_wrap :
  let full := mkManager {[1 := mkPool 7 "Driver=a" 5 true]} (2 ^ 32 - 1) false ∅ in
  let new := mkPool 8 "Driver=b" 5 true in
  (enter_pool true new full).1 = Panic ∧
  let m := (enter_pool false new (enter_pool false new full).2).2 in
  (enter_pool false new m).1 = Ok 1 ∧ get_pool 1 (enter_pool false new m).2 = Ok new.
Proof. vm_compute. split; [|split]; reflexivity. Qed.

Lemma pool_ids_fresh_witness :
  let m' := (enter_pool true (mkPool 7 "Driver=a" 5 true) manager_new).2 in
  get_pool 1 m' = Ok (mkPool 7 "Driver=a" 5 true) ∧ get_pool 1 (close_pool 1 m').2 = Err (PoolError "Pool 1 not found").
Proof.
  pose proof (pool_ids_fresh true (mkPool 7 "Driver=a" 5 true) manager_new) as H.
  assert (manager_ok manager_new) as Hm by (split; [done|]; intros id [p Hp]; cbn in Hp; by rewrite lookup_empty in Hp).
  specialize (H Hm eq_refl ltac:(done)). destruct (enter_pool true _ manager_new) as [r m'] eqn:E. cbv zeta. cbn [snd].
  destruct H as (_ & _ & Hget & _ & _ & _ & Hclose). split; [exact Hget|]. specialize (Hclose 1). destruct (close_pool 1 m') as [rc mc].
  destruct Hclose as (_ & _ & _ & Hc). exact Hc.
Defined.
