(* ===== verification/AsyncRequests.v ===== *)
(** Asynchronous queries (ffi/mod.rs: [AsyncRequestManager], its slots and workers).

    A request is a slot that the table and a worker share.  The worker is a blocking
    task of tokio's: it starts when the runtime says so, runs the query, looks at the
    cancel flag and then stores the outcome, and the client may call at any moment in
    between.  Each of these is a step of its own here, so a run is any interleaving. *)

From S2P Require Import Prelude Wire Errors ParamValue Compression Caches OutputParams Handles Execution.

(** * Data *)

Definition MAX_ASYNC_REQUESTS : nat := 64.
Definition MAX_ID_ALLOC_ATTEMPTS : nat := 1000.

Definition ASYNC_STATUS_PENDING : Z := 0.
Definition ASYNC_STATUS_READY : Z := 1.
Definition ASYNC_STATUS_ERROR : Z := -1.
Definition ASYNC_STATUS_CANCELLED : Z := -2.

Abbreviation AsyncResult := (Result (list byte)).

Inductive AsyncRequestOutcome :=
| ArPending
| ArReady (r : AsyncResult)
| ArCancelled
| ArConsumed.

(** The mutexes of a slot are never held across code that can panic. *)
Record AsyncRequestSlot := mkSlot {
  as_conn_id : Z;
  as_cancelled : bool;
  as_outcome : AsyncRequestOutcome;
  as_join_handle : bool
}.

Definition slot_new (conn_id : Z) : AsyncRequestSlot := mkSlot conn_id false ArPending false.

(** A worker: waiting for a thread, running the query, with a result, about to store the
    outcome it has decided on, or gone. *)
Inductive Job :=
| JQueued
| JRunning
| JResult (r : AsyncResult)
| JStoring (o : AsyncRequestOutcome)
| JGone.

(** The table maps request ids to slots; slots and workers live on, by number, when a
    request is freed.  [am_sql] is what each worker was given. *)
Record AsyncRequestManager := mkAsync {
  am_next_request_id : Z;
  am_requests : gmap Z nat;
  am_slots : gmap nat AsyncRequestSlot;
  am_jobs : gmap nat Job;
  am_sql : gmap nat string;
  am_next_slot : nat
}.

Definition async_new : AsyncRequestManager := mkAsync 1 ∅ ∅ ∅ ∅ 0.

Definition set_slot (n : nat) (s : AsyncRequestSlot) (m : AsyncRequestManager) : AsyncRequestManager :=
  mkAsync (am_next_request_id m) (am_requests m) (<[n := s]> (am_slots m)) (am_jobs m) (am_sql m) (am_next_slot m).

Definition set_job (n : nat) (j : Job) (m : AsyncRequestManager) : AsyncRequestManager :=
  mkAsync (am_next_request_id m) (am_requests m) (am_slots m) (<[n := j]> (am_jobs m)) (am_sql m) (am_next_slot m).

Definition set_outcome (o : AsyncRequestOutcome) (s : AsyncRequestSlot) : AsyncRequestSlot :=
  mkSlot (as_conn_id s) (as_cancelled s) o (as_join_handle s).

(** [self.requests.get(&id)] *)
Definition lookup_slot (id : Z) (m : AsyncRequestManager) : option (nat * AsyncRequestSlot) :=
  match am_requests m !! id with
  | Some n => match am_slots m !! n with Some s => Some (n, s) | None => None end
  | None => None
  end.

(** * The manager *)

Definition slot_poll_status (s : AsyncRequestSlot) : Z :=
  match as_outcome s with
  | ArPending => ASYNC_STATUS_PENDING
  | ArReady (Ok _) => ASYNC_STATUS_READY
  | ArReady _ => ASYNC_STATUS_ERROR
  | ArCancelled => ASYNC_STATUS_CANCELLED
  | ArConsumed => ASYNC_STATUS_ERROR
  end.

Definition allocate_request_id (m : AsyncRequestManager) : option Z * AsyncRequestManager :=
  if (MAX_ASYNC_REQUESTS <=? size (am_requests m))%nat then (None, m)
  else
    let '(id, next) := alloc_id MAX_ID_ALLOC_ATTEMPTS (dom (am_requests m)) (am_next_request_id m) in
    (if id =? 0 then None else Some id,
     mkAsync next (am_requests m) (am_slots m) (am_jobs m) (am_sql m) (am_next_slot m)).

(** [spawned]: the runtime exists and takes the task. *)
Definition start_request (spawned : bool) (conn_id : Z) (sql : string) (m : AsyncRequestManager) : option Z * AsyncRequestManager :=
  match allocate_request_id m with
  | (None, m) => (None, m)
  | (Some request_id, m) =>
      if negb spawned then (None, m)
      else
        let n := am_next_slot m in
        let slot := slot_new conn_id in
        (Some request_id,
         mkAsync (am_next_request_id m) (<[request_id := n]> (am_requests m))
           (<[n := mkSlot (as_conn_id slot) (as_cancelled slot) (as_outcome slot) true]> (am_slots m))
           (<[n := JQueued]> (am_jobs m)) (<[n := sql]> (am_sql m)) (S n))
  end.

Definition poll (request_id : Z) (m : AsyncRequestManager) : option Z :=
  (λ p : nat * AsyncRequestSlot, slot_poll_status p.2) <$> lookup_slot request_id m.

(** [JoinHandle::abort]: a blocking task that has started is not stopped; one that has not
    may be dropped, which is for the runtime to say ([dropped]). *)
Definition abort (dropped : bool) (n : nat) (m : AsyncRequestManager) : AsyncRequestManager :=
  match am_jobs m !! n with
  | Some JQueued => if dropped then set_job n JGone m else m
  | _ => m
  end.

Definition cancel (dropped : bool) (request_id : Z) (m : AsyncRequestManager) : bool * AsyncRequestManager :=
  match lookup_slot request_id m with
  | None => (false, m)
  | Some (n, slot) =>
      let m := if as_join_handle slot then abort dropped n m else m in
      let o := match as_outcome slot with ArPending => ArCancelled | o => o end in
      (true, set_slot n (mkSlot (as_conn_id slot) true o (as_join_handle slot)) m)
  end.

Definition take_result (request_id : Z) (m : AsyncRequestManager) : option (Z * AsyncResult) * AsyncRequestManager :=
  match lookup_slot request_id m with
  | None => (None, m)
  | Some (n, slot) =>
      let consumed := set_slot n (set_outcome ArConsumed slot) m in
      match as_outcome slot with
      | ArReady result => (Some (as_conn_id slot, result), consumed)
      | ArCancelled => (Some (as_conn_id slot, Err (InternalError "Async request cancelled")), consumed)
      | ArPending => (None, m)
      | ArConsumed => (Some (as_conn_id slot, Err (InternalError "Async request result already consumed")), consumed)
      end
  end.

Definition restore_result (request_id : Z) (result : AsyncResult) (m : AsyncRequestManager) : bool * AsyncRequestManager :=
  match lookup_slot request_id m with
  | None => (false, m)
  | Some (n, slot) => (true, set_slot n (set_outcome (ArReady result) slot) m)
  end.

(** The slot leaves the table; its worker is aborted and keeps the slot. *)
Definition free (dropped : bool) (request_id : Z) (m : AsyncRequestManager) : bool * AsyncRequestManager :=
  match lookup_slot request_id m with
  | None => (false, m)
  | Some (n, slot) =>
      let m := mkAsync (am_next_request_id m) (delete request_id (am_requests m)) (am_slots m) (am_jobs m) (am_sql m) (am_next_slot m) in
      let m := if as_join_handle slot then abort dropped n m else m in
      (true, set_slot n (mkSlot (as_conn_id slot) (as_cancelled slot) (as_outcome slot) false) m)
  end.

Definition requests_of (conn_id : Z) (m : AsyncRequestManager) : list Z :=
  List.filter (λ id, match lookup_slot id m with Some (_, s) => as_conn_id s =? conn_id | None => false end)
    (map fst (map_to_list (am_requests m))).

Definition free_for_connection (dropped : bool) (conn_id : Z) (m : AsyncRequestManager) : AsyncRequestManager :=
  foldl (λ m id, (free dropped id m).2) m (requests_of conn_id m).

(** * The worker *)

Section Worker.
Context `{LS : !Lru string unit} `{D : Driver} `{Q : QueryDriver}.

Definition run_async_query (conn_id : Z) (sql : string) : X (list byte) := λ e w,
  match open_connection "Failed to lock handles mutex" conn_id w with
  | (Ok phys, w) => holding_connection phys (execute_direct_cached phys sql) e w
  | (Err err, w) => (Err err, e, w)
  | (Panic, w) => (Panic, e, w)
  end.
End Worker.

(** [catch_unwind] of the query. *)
Definition caught (r : AsyncResult) : AsyncResult :=
  match r with Panic => Err (InternalError "Async request task panicked") | _ => r end.

Definition job_start (n : nat) (m : AsyncRequestManager) : AsyncRequestManager :=
  match am_jobs m !! n with Some JQueued => set_job n JRunning m | _ => m end.

(** [r] is what the query came to. *)
Definition job_finish (n : nat) (r : AsyncResult) (m : AsyncRequestManager) : AsyncRequestManager :=
  match am_jobs m !! n with Some JRunning => set_job n (JResult (caught r)) m | _ => m end.

(** The worker reads the cancel flag. *)
Definition job_decide (n : nat) (m : AsyncRequestManager) : AsyncRequestManager :=
  match am_jobs m !! n, am_slots m !! n with
  | Some (JResult r), Some slot => set_job n (JStoring (if as_cancelled slot then ArCancelled else ArReady r)) m
  | _, _ => m
  end.

(** It stores the outcome over the one that is there. *)
Definition job_store (n : nat) (m : AsyncRequestManager) : AsyncRequestManager :=
  match am_jobs m !! n, am_slots m !! n with
  | Some (JStoring o), Some slot => set_slot n (set_outcome o slot) (set_job n JGone m)
  | _, _ => m
  end.

(** * Runs *)

(** What can happen to the requests, in any order. *)
Inductive AsyncOp :=
| OStart (spawned : bool) (conn_id : Z) (sql : string)
| OPoll (id : Z)
| OCancel (dropped : bool) (id : Z)
| OTake (id : Z)
| ORestore (id : Z) (r : AsyncResult)
| OFree (dropped : bool) (id : Z)
| OJobStart (n : nat)
| OJobFinish (n : nat) (r : AsyncResult)
| OJobDecide (n : nat)
| OJobStore (n : nat).

(** The manager after an operation. *)
Definition async_step (op : AsyncOp) (m : AsyncRequestManager) : AsyncRequestManager :=
  match op with
  | OStart spawned conn_id sql => (start_request spawned conn_id sql m).2
  | OPoll id => m
  | OCancel dropped id => (cancel dropped id m).2
  | OTake id => (take_result id m).2
  | ORestore id r => (restore_result id r m).2
  | OFree dropped id => (free dropped id m).2
  | OJobStart n => job_start n m
  | OJobFinish n r => job_finish n r m
  | OJobDecide n => job_decide n m
  | OJobStore n => job_store n m
  end.

Definition async_run (ops : list AsyncOp) (m : AsyncRequestManager) : AsyncRequestManager := foldl (λ m op, async_step op m) m ops.

Lemma free_for_connection_run dropped conn_id m :
  free_for_connection dropped conn_id m = async_run (map (OFree dropped) (requests_of conn_id m)) m.
Proof.
  unfold free_for_connection, async_run. generalize (requests_of conn_id m). intros ids. revert m.
  induction ids as [|id ids IH]; intros m; [done|]. cbn. apply IH.
Qed.

(** * What an operation does to a slot and its worker *)

Definition view (n : nat) (m : AsyncRequestManager) : option (AsyncRequestSlot * Job) :=
  match am_slots m !! n, am_jobs m !! n with Some s, Some j => Some (s, j) | _, _ => None end.

Definition is_ready (o : AsyncRequestOutcome) : bool := match o with ArReady _ => true | _ => false end.

(** [h]: the task is aborted, and dropped if it has not started. *)
Definition aborted (h : bool) (j : Job) : Job := match h, j with true, JQueued => JGone | _, _ => j end.

(** The flags: a result is handed over; one is put back; the slot leaves the table. *)
Inductive change : bool → bool → bool → AsyncRequestSlot * Job → AsyncRequestSlot * Job → Prop :=
| ch_same v : change false false false v v
| ch_cancel c k o h a j :
    change false false false (mkSlot c k o h, j)
      (mkSlot c true (match o with ArPending => ArCancelled | o => o end) h, aborted a j)
| ch_take s j : as_outcome s ≠ ArPending → change (is_ready (as_outcome s)) false false (s, j) (set_outcome ArConsumed s, j)
| ch_restore s j r : change false true false (s, j) (set_outcome (ArReady r) s, j)
| ch_free c k o h a j : change false false true (mkSlot c k o h, j) (mkSlot c k o false, aborted a j)
| ch_start s : change false false false (s, JQueued) (s, JRunning)
| ch_finish s r : change false false false (s, JRunning) (s, JResult (caught r))
| ch_decide s r : change false false false (s, JResult r) (s, JStoring (if as_cancelled s then ArCancelled else ArReady r))
| ch_store s o : change false false false (s, JStoring o) (set_outcome o s, JGone).

(** Whether an operation hands over the result of slot [n], or puts one back. *)
Definition delivers_slot (op : AsyncOp) (m : AsyncRequestManager) (n : nat) : bool :=
  match op with
  | OTake id => match lookup_slot id m with Some (k, s) => bool_decide (k = n) && is_ready (as_outcome s) | None => false end
  | _ => false
  end.

Definition restores_slot (op : AsyncOp) (m : AsyncRequestManager) (n : nat) : bool :=
  match op with
  | ORestore id _ => match lookup_slot id m with Some (k, _) => bool_decide (k = n) | None => false end
  | _ => false
  end.

Definition frees_slot (op : AsyncOp) (m : AsyncRequestManager) (n : nat) : bool :=
  match op with
  | OFree _ id => match lookup_slot id m with Some (k, _) => bool_decide (k = n) | None => false end
  | _ => false
  end.

Lemma lookup_slot_Some id m n s : lookup_slot id m = Some (n, s) → am_requests m !! id = Some n ∧ am_slots m !! n = Some s.
Proof.
  unfold lookup_slot. destruct (am_requests m !! id) as [k|]; [|done].
  destruct (am_slots m !! k) eqn:E; [|done]. by intros [= <- <-].
Qed.

Lemma view_Some n m s j : view n m = Some (s, j) ↔ am_slots m !! n = Some s ∧ am_jobs m !! n = Some j.
Proof.
  unfold view. destruct (am_slots m !! n), (am_jobs m !! n); split; try done; [by intros [= -> ->]|by intros [[= ->] [= ->]]|..];
    by intros [??].
Qed.

Lemma view_set_slot n k s m :
  view n (set_slot k s m) = if bool_decide (k = n) then match am_jobs m !! n with Some j => Some (s, j) | None => None end else view n m.
Proof.
  unfold view, set_slot. cbn. case_bool_decide as H; [subst; by rewrite lookup_insert_eq|by rewrite lookup_insert_ne].
Qed.

Lemma view_set_job n k j m :
  view n (set_job k j m) = if bool_decide (k = n) then match am_slots m !! n with Some s => Some (s, j) | None => None end else view n m.
Proof.
  unfold view, set_job. cbn. case_bool_decide as H; [subst; by rewrite lookup_insert_eq|by rewrite lookup_insert_ne].
Qed.


Lemma job_abort a n k m :
  am_jobs (abort a k m) !! n = if bool_decide (k = n) then aborted a <$> (am_jobs m !! n) else am_jobs m !! n.
Proof.
  unfold abort. case_bool_decide as H.
  - subst. destruct (am_jobs m !! n) as [[]|] eqn:E, a; cbn; rewrite ?lookup_insert_eq, ?E; done.
  - destruct (am_jobs m !! k) as [[]|], a; cbn; rewrite ?lookup_insert_ne by done; done.
Qed.

Lemma slots_abort a k m : am_slots (abort a k m) = am_slots m.
Proof. unfold abort. by destruct (am_jobs m !! k) as [[]|], a. Qed.

Lemma requests_abort a k m : am_requests (abort a k m) = am_requests m.
Proof. unfold abort. by destruct (am_jobs m !! k) as [[]|], a. Qed.

Lemma job_abort_if n (h a : bool) m j :
  am_jobs m !! n = Some j → am_jobs (if h then abort a n m else m) !! n = Some (aborted (h && a) j).
Proof. intros Hj. destruct h; [by rewrite job_abort, bool_decide_eq_true_2, Hj|by cbn; rewrite Hj; destruct j]. Qed.

(** The slot table is never larger than its counter says. *)
Definition slots_below (m : AsyncRequestManager) : Prop :=
  ∀ n, is_Some (am_slots m !! n) ∨ is_Some (am_jobs m !! n) → (n < am_next_slot m)%nat.

Lemma step_change op m n v :
  slots_below m → view n m = Some v →
  ∃ v', view n (async_step op m) = Some v' ∧ change (delivers_slot op m n) (restores_slot op m n) (frees_slot op m n) v v'.
Proof.
  intros Hb Hv. destruct v as [s j]. pose proof Hv as [Hs Hj]%view_Some.
  assert (∃ v', view n m = Some v' ∧ change false false false (s, j) v') as Hsame by (exists (s, j); split; [done|constructor]).
  destruct op as [sp c sql|id|dr id|id|id r|dr id|k|k r|k|k]; cbn [async_step delivers_slot restores_slot frees_slot].
  - unfold start_request, allocate_request_id. case_if; [done|]. destruct (alloc_id _ _ _) as [i nx]. case_if; [done|].
    destruct sp; cbn [negb]; [|done]. exists (s, j). split; [|constructor]. apply view_Some. cbn.
    assert (am_next_slot m ≠ n) as Hne.
    { intros <-. specialize (Hb (am_next_slot m) (or_introl (mk_is_Some _ _ Hs))). lia. }
    by rewrite !lookup_insert_ne by done.
  - done.
  - unfold cancel. destruct (lookup_slot id m) as [[k sl]|] eqn:Hl; [|done]. cbn [snd]. apply lookup_slot_Some in Hl as [_ Hk].
    rewrite view_set_slot. case_bool_decide as Hn.
    + subst k. rewrite Hs in Hk. injection Hk as <-. destruct s as [c k o h]. cbn [as_join_handle as_outcome as_conn_id].
      exists (mkSlot c true (match o with ArPending => ArCancelled | o => o end) h, aborted (h && dr) j). split; [|apply ch_cancel].
      rewrite (job_abort_if _ _ _ _ _ Hj). by destruct o.
    + exists (s, j). split; [|constructor]. apply view_Some.
      destruct (as_join_handle sl); [rewrite slots_abort, job_abort, bool_decide_eq_false_2 by done|]; done.
  - unfold take_result. destruct (lookup_slot id m) as [[k sl]|] eqn:Hl; [|done]. apply lookup_slot_Some in Hl as [_ Hk].
    destruct (decide (k = n)) as [->|Hn].
    + rewrite Hs in Hk. injection Hk as <-. rewrite bool_decide_eq_true_2 by done. cbn [andb].
      pose proof (ch_take s j) as Ht.
      destruct (as_outcome s); cbn [snd is_ready] in Ht |- *; [done|..];
        (eexists; split; [rewrite view_set_slot, bool_decide_eq_true_2, Hj by done; reflexivity|by apply Ht]).
    + rewrite bool_decide_eq_false_2 by done. cbn [andb].
      destruct (as_outcome sl); cbn [snd]; [done|..]; rewrite view_set_slot, bool_decide_eq_false_2 by done; done.
  - unfold restore_result. destruct (lookup_slot id m) as [[k sl]|] eqn:Hl; [|done]. apply lookup_slot_Some in Hl as [_ Hk].
    cbn [snd]. rewrite view_set_slot. case_bool_decide as Hn; [|done]. subst k. rewrite Hs in Hk. injection Hk as <-.
    rewrite Hj. eexists. split; [done|constructor].
  - unfold free. destruct (lookup_slot id m) as [[k sl]|] eqn:Hl; [|done]. cbn [snd]. apply lookup_slot_Some in Hl as [_ Hk].
    rewrite view_set_slot. case_bool_decide as Hn.
    + subst k. rewrite Hs in Hk. injection Hk as <-. destruct s as [c k o h]. cbn [as_join_handle as_outcome as_conn_id as_cancelled].
      exists (mkSlot c k o false, aborted (h && dr) j). split; [|apply ch_free].
      by rewrite (job_abort_if _ _ _ _ j).
    + exists (s, j). split; [|constructor]. apply view_Some.
      destruct (as_join_handle sl); [rewrite slots_abort, job_abort, bool_decide_eq_false_2 by done|]; done.
  - unfold job_start. destruct (am_jobs m !! k) as [[]|] eqn:Hk; try done. rewrite view_set_job. case_bool_decide as Hn; [|done].
    subst k. rewrite Hj in Hk. injection Hk as ->. rewrite Hs. eexists. split; [done|constructor].
  - unfold job_finish. destruct (am_jobs m !! k) as [[]|] eqn:Hk; try done. rewrite view_set_job. case_bool_decide as Hn; [|done].
    subst k. rewrite Hj in Hk. injection Hk as ->. rewrite Hs. eexists. split; [done|constructor].
  - unfold job_decide. destruct (am_jobs m !! k) as [[]|] eqn:Hk; try done. destruct (am_slots m !! k) eqn:Hks; [|done].
    rewrite view_set_job. case_bool_decide as Hn; [|done].
    subst k. rewrite Hj in Hk. injection Hk as ->. rewrite Hs in Hks. injection Hks as <-. rewrite Hs. eexists. split; [done|constructor].
  - unfold job_store. destruct (am_jobs m !! k) as [[]|] eqn:Hk; try done. destruct (am_slots m !! k) eqn:Hks; [|done].
    rewrite view_set_slot. case_bool_decide as Hn.
    + subst k. rewrite Hj in Hk. injection Hk as ->. rewrite Hs in Hks. injection Hks as <-. cbn. rewrite lookup_insert_eq.
      eexists. split; [done|constructor].
    + rewrite view_set_job, bool_decide_eq_false_2 by done. done.
Qed.

(** * The invariant *)

(** Of a slot and its worker: the worker stores an outcome that is final, a pending slot
    with a handle has a worker, and a cancelled slot is not pending. *)
Definition slot_ok (v : AsyncRequestSlot * Job) : Prop :=
  (∀ o, v.2 = JStoring o → o ≠ ArPending) ∧
  (as_outcome v.1 = ArPending → as_join_handle v.1 = true → v.2 ≠ JGone) ∧
  (as_cancelled v.1 = true → as_outcome v.1 ≠ ArPending).

Lemma change_slot_ok d r f v v' : change d r f v v' → slot_ok v → slot_ok v'.
Proof.
  intros Hc (Hst & Hp & Hk). destruct Hc as [v|c k o h a j|s j Ho|s j q|c k o h a j|s|s q|s q|s o]; unfold slot_ok; cbn in *; try done.
  - split_and!; [|destruct o; done|destruct o; done]. destruct a, j; cbn; (done || exact Hst).
  - split_and!; [|done|done]. destruct a, j; cbn; (done || exact Hst).
  - split_and!; [|done|done]. destruct (as_cancelled s); by intros o [= <-].
  - specialize (Hst o eq_refl). done.
Qed.

Record async_wf (m : AsyncRequestManager) : Prop := mkAsyncWf {
  aw_below : slots_below m;
  aw_slots n v : view n m = Some v → slot_ok v;
  aw_requests id n : am_requests m !! id = Some n →
    0 < id < 2 ^ 32 ∧ ∃ s j, view n m = Some (s, j) ∧ as_join_handle s = true;
  aw_inj id id' n : am_requests m !! id = Some n → am_requests m !! id' = Some n → id = id';
  aw_limit : (size (am_requests m) ≤ MAX_ASYNC_REQUESTS)%nat;
  aw_next : 0 ≤ am_next_request_id m < 2 ^ 32
}.

Lemma async_new_wf : async_wf async_new.
Proof.
  split; [intros n [[??]|[??]]; done|intros n v; done|intros id n; done|intros id id' n; done|unfold MAX_ASYNC_REQUESTS; cbn; rewrite map_size_empty; lia|cbn; lia].
Qed.

(** What each operation does to the table. *)
Lemma step_requests op m :
  am_requests (async_step op m) = match op with
    | OStart _ _ _ => am_requests (async_step op m)
    | OFree _ id => if bool_decide (is_Some (lookup_slot id m)) then delete id (am_requests m) else am_requests m
    | _ => am_requests m
    end.
Proof.
  destruct op as [sp c sql|id|dr id|id|id r|dr id|k|k r|k|k]; cbn [async_step]; try done.
  - unfold cancel. destruct (lookup_slot id m) as [[k sl]|]; [|done]. cbn. destruct (as_join_handle sl); [apply requests_abort|done].
  - unfold take_result. destruct (lookup_slot id m) as [[k sl]|]; [|done]. by destruct (as_outcome sl).
  - unfold restore_result. by destruct (lookup_slot id m) as [[k sl]|].
  - unfold free. destruct (lookup_slot id m) as [[k sl]|]; [|by rewrite bool_decide_eq_false_2 by (by intros [??])].
    rewrite bool_decide_eq_true_2 by done. cbn. destruct (as_join_handle sl); [apply requests_abort|done].
  - unfold job_start. by destruct (am_jobs m !! k) as [[]|].
  - unfold job_finish. by destruct (am_jobs m !! k) as [[]|].
  - unfold job_decide. by destruct (am_jobs m !! k) as [[]|], (am_slots m !! k).
  - unfold job_store. by destruct (am_jobs m !! k) as [[]|], (am_slots m !! k).
Qed.

(** What starting a request does: nothing but move the counter, or a new slot at the
    counter's place with a queued worker, under an id that was free. *)
Inductive started (m : AsyncRequestManager) : option Z → AsyncRequestManager → Prop :=
| started_not next : u32_range next →
    started m None (mkAsync next (am_requests m) (am_slots m) (am_jobs m) (am_sql m) (am_next_slot m))
| started_yes id next conn_id sql :
    u32_range next → 0 < id < 2 ^ 32 → am_requests m !! id = None → (size (am_requests m) < MAX_ASYNC_REQUESTS)%nat →
    started m (Some id)
      (mkAsync next (<[id := am_next_slot m]> (am_requests m))
         (<[am_next_slot m := mkSlot conn_id false ArPending true]> (am_slots m))
         (<[am_next_slot m := JQueued]> (am_jobs m)) (<[am_next_slot m := sql]> (am_sql m)) (S (am_next_slot m))).

Lemma started_same m : u32_range (am_next_request_id m) → started m None m.
Proof. destruct m. apply (started_not (mkAsync _ _ _ _ _ _)). Qed.

Lemma start_request_started sp c sql m :
  u32_range (am_next_request_id m) → started m (start_request sp c sql m).1 (start_request sp c sql m).2.
Proof.
  intros Hr. unfold start_request, allocate_request_id. case_if.
  { by apply started_same. }
  destruct (alloc_id _ _ _) as [i nx] eqn:Ha. apply alloc_id_sound in Ha as [Hnx Hi]; [|done].
  case_if; cbn [fst snd]; [by apply (started_not m)|]. bool_to_prop. destruct Hi as [->|[Hi Hu]]; [done|].
  destruct sp; cbn [negb fst snd]; [|by apply (started_not m)].
  apply (started_yes m i nx c sql); [done|done|by apply not_elem_of_dom|lia].
Qed.

Lemma started_view m o m' n :
  slots_below m → started m o m' →
  view n m' = if bool_decide (n = am_next_slot m ∧ is_Some o) then view n m' else view n m.
Proof.
  intros Hb Hs. case_bool_decide as Hn; [done|]. destruct Hs; [done|]. unfold view. cbn.
  destruct (decide (n = am_next_slot m)); [by destruct Hn|]. by rewrite !lookup_insert_ne.
Qed.

Lemma started_wf m o m' : async_wf m → started m o m' → async_wf m'.
Proof.
  intros Hw Hs. pose proof (aw_below _ Hw) as Hb. destruct Hs as [next Hn|id next c sql Hn Hi Hu Hl].
  { destruct Hw. by split. }
  assert (∀ n v, view n m = Some v → n ≠ am_next_slot m) as Hfresh.
  { intros n [s j] [Hv _]%view_Some ->. specialize (Hb (am_next_slot m) (or_introl (mk_is_Some _ _ Hv))). lia. }
  pose proof (λ n, started_view m (Some id) _ n Hb (started_yes m id next c sql Hn Hi Hu Hl)) as Hview.
  split; [..|cbn; rewrite map_size_insert_None by done; lia|done].
  - intros n. cbn. destruct (decide (n = am_next_slot m)) as [->|Hne]; [intros _; lia|].
    rewrite !lookup_insert_ne by done. intros Hd. specialize (Hb n Hd). lia.
  - intros n v. rewrite Hview. case_bool_decide as Hc; [|apply (aw_slots _ Hw)]. destruct Hc as [-> _].
    unfold view. cbn. rewrite !lookup_insert_eq. by intros [= <-].
  - intros id' n. cbn [am_requests]. destruct (decide (id' = id)) as [->|Hne].
    + rewrite lookup_insert_eq. intros [= <-]. split; [done|]. unfold view. cbn. rewrite !lookup_insert_eq. eauto.
    + rewrite lookup_insert_ne by done. intros H. apply (aw_requests _ Hw) in H as [? (s & j & Hv & Hh)]. split; [done|].
      exists s, j. split; [|done]. rewrite Hview, bool_decide_eq_false_2; [done|]. intros [-> _]. by apply Hfresh in Hv.
  - cbn [am_requests].
    assert (∀ i, am_requests m !! i ≠ Some (am_next_slot m)) as Hno.
    { intros i H. apply (aw_requests _ Hw) in H as [_ (s & j & Hv & _)]. by apply Hfresh in Hv. }
    intros i i' n. destruct (decide (i = id)) as [->|H1], (decide (i' = id)) as [->|H2];
      rewrite ?lookup_insert_eq, ?lookup_insert_ne by done; [done|intros [= <-] H; by apply Hno in H| |apply (aw_inj _ Hw)].
    intros H [= <-]. by apply Hno in H.
Qed.

(** Every other operation keeps the numbering and the counters. *)
Definition same_frame (m m' : AsyncRequestManager) : Prop :=
  dom (am_slots m') = dom (am_slots m) ∧ dom (am_jobs m') = dom (am_jobs m) ∧
  am_next_slot m' = am_next_slot m ∧ am_next_request_id m' = am_next_request_id m.

Lemma same_frame_slot m m' n s : same_frame m m' → is_Some (am_slots m !! n) → same_frame m (set_slot n s m').
Proof.
  intros (H1 & H2 & H3 & H4) Hs. unfold same_frame. cbn. split_and!; [|done..].
  rewrite dom_insert_lookup_L; [done|]. apply elem_of_dom. rewrite H1. by apply elem_of_dom.
Qed.

Lemma same_frame_job m m' n j : same_frame m m' → is_Some (am_jobs m !! n) → same_frame m (set_job n j m').
Proof.
  intros (H1 & H2 & H3 & H4) Hs. unfold same_frame. cbn. split_and!; [done| |done..].
  rewrite dom_insert_lookup_L; [done|]. apply elem_of_dom. rewrite H2. by apply elem_of_dom.
Qed.

Lemma same_frame_abort m (h a : bool) n : same_frame m (if h then abort a n m else m).
Proof.
  destruct h; [|done]. unfold abort. destruct (am_jobs m !! n) as [[]|] eqn:E, a; try done. apply same_frame_job; [done|by rewrite E].
Qed.

Lemma same_frame_requests m m' q :
  same_frame (mkAsync (am_next_request_id m) q (am_slots m) (am_jobs m) (am_sql m) (am_next_slot m)) m' → same_frame m m'.
Proof. done. Qed.

#[local] Hint Resolve mk_is_Some : core.

Lemma step_frame op m : (∀ sp c sql, op ≠ OStart sp c sql) → same_frame m (async_step op m).
Proof.
  intros Hop. destruct op as [sp c sql|id|dr id|id|id r|dr id|k|k r|k|k]; cbn [async_step]; [by destruct (Hop sp c sql)|done|..].
  - unfold cancel. destruct (lookup_slot id m) as [[k sl]|] eqn:Hl; [|done]. apply lookup_slot_Some in Hl as [_ Hk].
    apply same_frame_slot; [apply same_frame_abort|eauto].
  - unfold take_result. destruct (lookup_slot id m) as [[k sl]|] eqn:Hl; [|done]. apply lookup_slot_Some in Hl as [_ Hk].
    destruct (as_outcome sl); [done|..]; apply same_frame_slot; eauto; done.
  - unfold restore_result. destruct (lookup_slot id m) as [[k sl]|] eqn:Hl; [|done]. apply lookup_slot_Some in Hl as [_ Hk].
    apply same_frame_slot; eauto; done.
  - unfold free. destruct (lookup_slot id m) as [[k sl]|] eqn:Hl; [|done]. apply lookup_slot_Some in Hl as [_ Hk].
    apply same_frame_slot; [|eauto]. eapply same_frame_requests, same_frame_abort.
  - unfold job_start. destruct (am_jobs m !! k) as [[]|] eqn:E; try done. apply same_frame_job; eauto; done.
  - unfold job_finish. destruct (am_jobs m !! k) as [[]|] eqn:E; try done. apply same_frame_job; eauto; done.
  - unfold job_decide. destruct (am_jobs m !! k) as [[]|] eqn:E; try done. destruct (am_slots m !! k) eqn:E2; [|done].
    apply same_frame_job; eauto; done.
  - unfold job_store. destruct (am_jobs m !! k) as [[]|] eqn:E; try done. destruct (am_slots m !! k) eqn:E2; [|done].
    apply same_frame_slot; [apply same_frame_job|]; eauto; done.
Qed.

Lemma view_dom n m v : view n m = Some v → n ∈ dom (am_slots m) ∧ n ∈ dom (am_jobs m).
Proof. destruct v. intros [??]%view_Some. split; apply elem_of_dom; eauto. Qed.

Lemma dom_view n m : n ∈ dom (am_slots m) → n ∈ dom (am_jobs m) → is_Some (view n m).
Proof. intros [s Hs]%elem_of_dom [j Hj]%elem_of_dom. exists (s, j). by apply view_Some. Qed.

Lemma change_handle d r v v' : change d r false v v' → as_join_handle v'.1 = as_join_handle v.1.
Proof. by inversion 1. Qed.

Lemma step_requests_sub op m id n :
  async_wf m → (∀ sp c sql, op ≠ OStart sp c sql) → am_requests (async_step op m) !! id = Some n →
  am_requests m !! id = Some n ∧ frees_slot op m n = false.
Proof.
  intros Hw Hop. rewrite step_requests. destruct op as [sp c sql|i|dr i|i|i r|dr i|k|k r|k|k]; try done; [by destruct (Hop sp c sql)|].
  case_bool_decide as Hl.
  - intros [Hne H]%lookup_delete_Some. split; [done|]. cbn. destruct (lookup_slot i m) as [[k sl]|] eqn:E; [|done].
    apply lookup_slot_Some in E as [Hi _]. apply bool_decide_eq_false_2. intros ->. by apply Hne, (aw_inj _ Hw i id n).
  - intros H. split; [done|]. cbn. destruct (lookup_slot i m); [|done]. by destruct Hl.
Qed.

Lemma step_requests_size op m : (∀ sp c sql, op ≠ OStart sp c sql) → (size (am_requests (async_step op m)) ≤ size (am_requests m))%nat.
Proof.
  intros Hop. rewrite step_requests. destruct op as [sp c sql|i|dr i|i|i r|dr i|k|k r|k|k]; try done; [by destruct (Hop sp c sql)|].
  case_bool_decide; [|done]. apply map_subseteq_size, delete_subseteq.
Qed.

Lemma step_wf_other op m : (∀ sp c sql, op ≠ OStart sp c sql) → async_wf m → async_wf (async_step op m).
Proof.
  intros Hop Hw. pose proof (step_frame op m Hop) as (Hs & Hj & Hn & Hi). pose proof (aw_below _ Hw) as Hb. split.
  - intros n Hd. rewrite Hn. apply Hb. rewrite <- !elem_of_dom, <- Hs, <- Hj. by rewrite !elem_of_dom.
  - intros n v' Hv'. apply view_dom in Hv' as Hd. rewrite Hs, Hj in Hd. destruct (dom_view n m) as [v Hv]; [tauto..|].
    destruct (step_change op m n v Hb Hv) as (v'' & Hv'' & Hc). rewrite Hv' in Hv''. injection Hv'' as <-.
    by eapply change_slot_ok, (aw_slots _ Hw).
  - intros id n H. apply step_requests_sub in H as [H Hf]; [|done..].
    apply (aw_requests _ Hw) in H as [Hid (s & j & Hv & Hh)]. split; [done|].
    destruct (step_change op m n _ Hb Hv) as ([s' j'] & Hv' & Hc). rewrite Hf in Hc.
    apply change_handle in Hc. cbn in Hc. exists s', j'. by rewrite Hc.
  - intros id id' n H1 H2. apply step_requests_sub in H1 as [H1 _], H2 as [H2 _]; try done. by eapply (aw_inj _ Hw).
  - pose proof (step_requests_size op m Hop). pose proof (aw_limit _ Hw). lia.
  - rewrite Hi. apply (aw_next _ Hw).
Qed.

Lemma step_wf op m : async_wf m → async_wf (async_step op m).
Proof.
  intros Hw. destruct op as [sp c sql|id|dr id|id|id r|dr id|k|k r|k|k]; [|by apply step_wf_other..].
  eapply started_wf, start_request_started, (aw_next _ Hw). done.
Qed.

Lemma run_wf ops m : async_wf m → async_wf (async_run ops m).
Proof. revert m. induction ops as [|op ops IH]; intros m Hm; [done|]. apply IH, step_wf, Hm. Qed.

(** C37: Whatever the client and the workers do, and in whatever order: request ids are
    non-zero 32-bit numbers, each for a request of its own and at most 64 of them, and a
    request that polls as pending was not cancelled and has a worker that can still answer it. *)
Theorem async_requests_invariant ops :
  let m := async_run ops async_new in
  async_wf m ∧
  ∀ id, poll id m = Some ASYNC_STATUS_PENDING →
    ∃ n s j, am_requests m !! id = Some n ∧ view n m = Some (s, j) ∧ j ≠ JGone ∧ as_cancelled s = false.
Proof.
  intros m. assert (async_wf m) as Hw by apply run_wf, async_new_wf. split; [done|].
  intros id Hp. apply fmap_Some in Hp as ([n s] & Hl & Hst). apply lookup_slot_Some in Hl as [Hr Hs].
  pose proof Hr as [_ (s' & j & Hv & Hh)]%(aw_requests _ Hw). pose proof Hv as [Hs' Hj]%view_Some.
  rewrite Hs in Hs'. injection Hs' as <-. pose proof (aw_slots _ Hw _ _ Hv) as (_ & Hp & Hc). cbn in *.
  assert (as_outcome s = ArPending) as Ho by (unfold slot_poll_status in Hst; by destruct (as_outcome s) as [|[]| |]).
  exists n, s, j. split_and!; [done|done|auto|]. destruct (as_cancelled s); [|done]. by destruct Hc.
Qed.

(** * Delivery *)

(** How often the result of slot [n] is handed over, or put back, during a run. *)
Fixpoint deliveries (ops : list AsyncOp) (m : AsyncRequestManager) (n : nat) : nat :=
  match ops with
  | [] => 0
  | op :: ops => Nat.b2n (delivers_slot op m n) + deliveries ops (async_step op m) n
  end.

Fixpoint restorations (ops : list AsyncOp) (m : AsyncRequestManager) (n : nat) : nat :=
  match ops with
  | [] => 0
  | op :: ops => Nat.b2n (restores_slot op m n) + restorations ops (async_step op m) n
  end.

(** The results a slot can still hand over: the one it holds and the one its worker makes. *)
Definition to_deliver (v : AsyncRequestSlot * Job) : nat :=
  Nat.b2n (is_ready (as_outcome v.1)) + match v.2 with JGone => 0 | _ => 1 end.

Definition to_deliver_at (n : nat) (m : AsyncRequestManager) : nat := match view n m with Some v => to_deliver v | None => 1 end.

Lemma change_to_deliver d r f v v' : change d r f v v' → (Nat.b2n d + to_deliver v' ≤ Nat.b2n r + to_deliver v)%nat.
Proof.
  destruct 1 as [v|c k o h a j|s j Ho|s j q|c k o h a j|s|s q|s q|s o]; unfold to_deliver; cbn; try lia; [by destruct o, a, j; cbn; lia|..];
    first [destruct a, j|destruct j|idtac]; cbn;
    repeat match goal with |- context [is_ready ?o] => destruct (is_ready o) end; cbn; lia.
Qed.

Lemma step_to_deliver op m n :
  async_wf m → (Nat.b2n (delivers_slot op m n) + to_deliver_at n (async_step op m) ≤ Nat.b2n (restores_slot op m n) + to_deliver_at n m)%nat.
Proof.
  intros Hw. pose proof (aw_below _ Hw) as Hb. unfold to_deliver_at. destruct (view n m) as [v|] eqn:Hv.
  { destruct (step_change op m n v Hb Hv) as (v' & -> & Hc). by eapply change_to_deliver. }
  assert (delivers_slot op m n = false) as ->.
  { destruct op; try done. cbn. destruct (lookup_slot id m) as [[k s]|] eqn:Hl; [|done]. apply lookup_slot_Some in Hl as [Hr Hs].
    case_bool_decide; [|done]. subst. apply (aw_requests _ Hw) in Hr as [_ (? & ? & ? & _)]. congruence. }
  assert (view n (async_step op m) = None ∨ to_deliver_at n (async_step op m) = 1%nat) as [H|H]; [|rewrite H; cbn; lia|].
  2: { unfold to_deliver_at in H. rewrite H. cbn. lia. }
  destruct op as [sp c sql|id|dr id|id|id r|dr id|k|k r|k|k]; [|left..].
  { pose proof (start_request_started sp c sql m (aw_next _ Hw)) as Hs. cbn [async_step].
    destruct Hs as [|id next c' q Hn Hi Hu Hl]; [by left|]. destruct (decide (n = am_next_slot m)) as [->|Hne].
    - right. unfold to_deliver_at, view. cbn. by rewrite !lookup_insert_eq.
    - left. unfold view. cbn. by rewrite !lookup_insert_ne. }
  all: apply eq_None_not_Some; intros [v Hd%view_dom]; edestruct step_frame as (Hs & Hj & _); [|rewrite Hs, Hj in Hd];
    [by intros|destruct (dom_view n m) as [? ?]; [tauto..|congruence]].
Qed.

(** A result is handed to the client at most once for each time it is made: over any run,
    what the slot of a request delivers is at most one result more than what was put back
    into it (as a fetch does when the buffer it was given is too small). *)
Theorem async_delivered_once ops n : (deliveries ops async_new n ≤ S (restorations ops async_new n))%nat.
Proof.
  assert (∀ m, async_wf m → (deliveries ops m n + to_deliver_at n (async_run ops m) ≤ restorations ops m n + to_deliver_at n m)%nat) as H.
  { induction ops as [|op ops IH]; intros m Hm; [cbn; lia|]. pose proof (step_to_deliver op m n Hm).
    specialize (IH (async_step op m) (step_wf op m Hm)). cbn [deliveries restorations].
    change (async_run (op :: ops) m) with (async_run ops (async_step op m)). lia. }
  specialize (H async_new async_new_wf). change (to_deliver_at n async_new) with 1%nat in H. lia.
Qed.

(** * Completion *)

Definition worker_steps (n : nat) (r : AsyncResult) : list AsyncOp := [OJobStart n; OJobFinish n r; OJobDecide n; OJobStore n].

Definition stage (j : Job) : nat :=
  match j with JQueued => 0 | JRunning => 1 | JResult _ => 2 | JStoring _ => 3 | JGone => 4 end.

Lemma change_stage d r f v v' : change d r f v v' → (stage v.2 ≤ stage v'.2)%nat.
Proof. destruct 1 as [| | | |c k o h a j| | | |]; cbn; try lia; destruct a, j; cbn; lia. Qed.

Lemma worker_step n r i op m v :
  view n m = Some v → worker_steps n r !! i = Some op → stage v.2 = i → ∃ v', view n (async_step op m) = Some v' ∧ stage v'.2 = S i.
Proof.
  destruct v as [s j]. intros Hv. pose proof Hv as [Hs Hj]%view_Some.
  destruct i as [|[|[|[|i]]]]; cbn; try done; intros [= <-] Hst; destruct j; try done; cbn;
    unfold job_start, job_finish, job_decide, job_store; rewrite Hj, ?Hs;
    rewrite ?view_set_slot, ?view_set_job; rewrite bool_decide_eq_true_2 by done; cbn; rewrite ?lookup_insert_eq, ?Hs; eauto.
Qed.

Lemma run_stage n r ops i m v :
  async_wf m → view n m = Some v → (i ≤ stage v.2)%nat → (i ≤ 4)%nat → sublist (drop i (worker_steps n r)) ops →
  ∃ v', view n (async_run ops m) = Some v' ∧ stage v'.2 = 4%nat.
Proof.
  revert i m v. induction ops as [|op ops IH]; intros i m v Hw Hv Hi H4 Hsub; cbn.
  - apply sublist_nil_r in Hsub. exists v. split; [done|]. destruct i as [|[|[|[|[|i]]]]]; try done; [|lia].
    destruct v as [? []]; cbn in *; lia.
  - destruct (step_change op m n v (aw_below _ Hw) Hv) as (v' & Hv' & Hc). apply change_stage in Hc.
    pose proof (step_wf op m Hw) as Hw'. apply sublist_cons_r in Hsub as [Hsub|(l' & Hd & Hsub)].
    { apply (IH i _ v'); [done|done|lia|done|done]. }
    assert (worker_steps n r !! i = Some op) as Hop by (rewrite <- (Nat.add_0_r i), <- lookup_drop; by rewrite Hd).
    assert (drop (S i) (worker_steps n r) = l') as <-.
    { replace (S i) with (i + 1)%nat by lia. by rewrite <- drop_drop, Hd. }
    apply lookup_lt_Some in Hop as Hlt. cbn in Hlt. destruct (decide (stage v.2 = i)) as [He|Hne].
    + destruct (worker_step n r i op m v Hv Hop He) as (v'' & Hv'' & Hs). rewrite Hv' in Hv''. injection Hv'' as <-.
      apply (IH (S i) _ v'); [done|done|lia|lia|done].
    + apply (IH (S i) _ v'); [done|done|lia|lia|done].
Qed.

Lemma run_keeps_request ops id n m :
  async_wf m → am_requests m !! id = Some n → (∀ dr, OFree dr id ∉ ops) → am_requests (async_run ops m) !! id = Some n.
Proof.
  revert m. induction ops as [|op ops IH]; intros m Hw Hr Hf; [done|].
  assert (∀ dr, OFree dr id ≠ op) as Hop by (intros dr <-; apply (Hf dr); left).
  apply IH; [by apply step_wf| |intros dr H; apply (Hf dr); by right]. rewrite step_requests. destruct op as [sp c sql|i|dr i|i|i q|dr i|k|k q|k|k]; try done.
  - cbn [async_step]. destruct (start_request_started sp c sql m (aw_next _ Hw)) as [|i next c' q Hn Hi Hu Hl]; [done|].
    cbn. rewrite lookup_insert_ne; congruence.
  - case_bool_decide; [|done]. rewrite lookup_delete_ne; [done|]. intros ->. by destruct (Hop dr).
Qed.

(** C38: A request does not stay pending: whatever else the clients and the other workers do
    meanwhile, once its worker has been scheduled to its end - it started, the query came
    to some [r], and it stored the outcome - a poll of the request that was not freed
    answers, and does not answer pending. *)
Theorem async_request_completes before id n ops r :
  let m := async_run before async_new in
  am_requests m !! id = Some n →
  (∀ dr, OFree dr id ∉ ops) →
  sublist (worker_steps n r) ops →
  ∃ st, poll id (async_run ops m) = Some st ∧ st ≠ ASYNC_STATUS_PENDING.
Proof.
  intros m Hr Hf Hsub. assert (async_wf m) as Hw by apply run_wf, async_new_wf.
  pose proof (aw_requests _ Hw _ _ Hr) as [_ (s & j & Hv & _)].
  destruct (run_stage n r ops 0 m (s, j) Hw Hv) as ([s' j'] & Hv' & Hst); [cbn; lia|lia|done|].
  pose proof (run_wf ops m Hw) as Hw'. pose proof (run_keeps_request ops id n m Hw Hr Hf) as Hr'.
  pose proof (aw_requests _ Hw' _ _ Hr') as [_ (s'' & j'' & Hv'' & Hh)]. rewrite Hv' in Hv''. injection Hv'' as <- <-.
  pose proof (aw_slots _ Hw' _ _ Hv') as (_ & Hp & _). cbn in *. apply view_Some in Hv' as [Hs _].
  exists (slot_poll_status s'). unfold poll, lookup_slot. rewrite Hr', Hs. split; [done|].
  unfold slot_poll_status. destruct (as_outcome s') as [|[]| |]; try done. by destruct Hp; [..|destruct j'].
Qed.

(** Two requests and a worker that starts between two polls. *)
Lemma async_request_completes_witness :
  let m := async_run [OStart true 7 "SELECT 1"; OStart true 7 "SELECT 2"] async_new in
  let ops := [OPoll 1; OJobStart 0; OCancel true 2; OJobFinish 0 (Ok []); OPoll 1; OJobDecide 0; OTake 1; OJobStore 0] in
  poll 1 m = Some ASYNC_STATUS_PENDING ∧ ∃ st, poll 1 (async_run ops m) = Some st ∧ st ≠ ASYNC_STATUS_PENDING.
Proof.
  cbv zeta. split; [vm_compute; reflexivity|].
  apply (async_request_completes [OStart true 7 "SELECT 1"; OStart true 7 "SELECT 2"] 1 0 _ (Ok [])).
  - vm_compute. reflexivity.
  - intros dr H. repeat (apply elem_of_cons in H as [H|H]; [discriminate|]). by apply elem_of_nil in H.
  - apply sublist_cons, sublist_skip, sublist_cons, sublist_skip, sublist_cons, sublist_skip, sublist_cons, sublist_skip, sublist_nil.
Defined.

(** * Cancelling *)

(** What keeps a cancelled request from delivering: neither its slot nor its worker holds a
    result any more, nor will. *)
Definition never_delivers (v : AsyncRequestSlot * Job) : Prop :=
  as_cancelled v.1 = true ∧ is_ready (as_outcome v.1) = false ∧ ∀ o, v.2 = JStoring o → is_ready o = false.

Lemma change_never_delivers d f v v' : change d false f v v' → never_delivers v → d = false ∧ never_delivers v'.
Proof.
  intros Hc (Hk & Ho & Hj). unfold never_delivers.
  inversion Hc as [u|c k o h a j|s j Hn|s j q|c k o h a j|s|s q|s q|s o]; subst; cbn in *; split; try done.
  - split_and!; [done|by destruct o|]. intros o' H. apply Hj. by destruct a, j.
  - split_and!; [done..|]. intros o' H. apply Hj. by destruct a, j.
  - rewrite Hk. split_and!; [done..|]. by intros o [= <-].
  - split_and!; [done|by apply Hj|done].
Qed.

Lemma never_delivers_run ops m n v :
  async_wf m → view n m = Some v → never_delivers v → restorations ops m n = 0%nat → deliveries ops m n = 0%nat.
Proof.
  revert m v. induction ops as [|op ops IH]; intros m v Hw Hv Hn Hr; [done|]. cbn in Hr |- *.
  destruct (step_change op m n v (aw_below _ Hw) Hv) as (v' & Hv' & Hc).
  destruct (restores_slot op m n); [done|]. apply change_never_delivers in Hc as [-> Hn']; [|done].
  apply (IH _ v'); [by apply step_wf|done|done|done].
Qed.

(** A request that is cancelled before its worker has read the cancel flag never hands
    over a result: not when the worker is past stopping, and not when the id is polled,
    taken or freed afterwards, as long as nothing is put back into it. *)
Theorem async_cancelled_no_result before dr id n s j ops :
  let m := async_run before async_new in
  am_requests m !! id = Some n → view n m = Some (s, j) →
  is_ready (as_outcome s) = false → (∀ o, j ≠ JStoring o) →
  restorations ops (async_step (OCancel dr id) m) n = 0%nat →
  poll id (async_step (OCancel dr id) m) ≠ Some ASYNC_STATUS_PENDING ∧ deliveries ops (async_step (OCancel dr id) m) n = 0%nat.
Proof.
  intros m Hr Hv Ho Hj Hn. assert (async_wf m) as Hw by apply run_wf, async_new_wf.
  pose proof Hv as [Hs Hjm]%view_Some.
  set (s' := mkSlot (as_conn_id s) true (match as_outcome s with ArPending => ArCancelled | o => o end) (as_join_handle s)).
  assert (view n (async_step (OCancel dr id) m) = Some (s', aborted (as_join_handle s && dr) j)) as Hv'.
  { cbn. unfold cancel, lookup_slot. rewrite Hr, Hs. cbn [snd]. rewrite view_set_slot, bool_decide_eq_true_2 by done.
    by rewrite (job_abort_if _ _ _ _ _ Hjm). }
  split.
  - unfold poll, lookup_slot. rewrite step_requests, Hr. apply view_Some in Hv' as [-> _]. cbn.
    intros [= H]. unfold slot_poll_status, s' in H. cbn in H. by destruct (as_outcome s) as [|[]| |].
  - apply (never_delivers_run _ _ _ _ (step_wf _ _ Hw) Hv'); [|done].
    split_and!; cbn; [done|by destruct (as_outcome s)|]. intros o H. destruct (Hj o). by destruct (as_join_handle s && dr), j.
Qed.

(** The worker has the result in hand when the request is cancelled. *)
Lemma async_cancelled_no_result_witness :
  let m := async_run [OStart true 7 "SELECT 1"; OJobStart 0; OJobFinish 0 (Ok [])] async_new in
  poll 1 (async_step (OCancel true 1) m) ≠ Some ASYNC_STATUS_PENDING ∧
  deliveries [OJobDecide 0; OJobStore 0; OTake 1; OFree true 1] (async_step (OCancel true 1) m) 0 = 0%nat.
Proof.
  cbv zeta. apply (async_cancelled_no_result _ true 1 0 (mkSlot 7 false ArPending true) (JResult (Ok []))); try (vm_compute; reflexivity).
  intros o. discriminate.
Defined.

(** But a worker that has read the flag stores its result over the cancellation: a request
    that has polled as cancelled becomes ready, and delivers. *)
Lemma async_cancelled_comes_back :
  let m := async_run [OStart true 7 "SELECT 1"; OJobStart 0; OJobFinish 0 (Ok []); OJobDecide 0; OCancel true 1] async_new in
  poll 1 m = Some ASYNC_STATUS_CANCELLED ∧ poll 1 (async_step (OJobStore 0) m) = Some ASYNC_STATUS_READY ∧
  (take_result 1 (async_step (OJobStore 0) m)).1 = Some (7, Ok []).
Proof. vm_compute. done. Qed.
