(* ===== verification/AsyncBridge.v ===== *)
(** The bridge to tokio (async_bridge/mod.rs): one runtime for the process, made when it is first asked for,
    and the tasks given to it, which are the workers of the asynchronous queries. *)

From S2P Require Import Prelude Wire Errors Handles AsyncRequests.

(** tokio: what the n-th attempt to make a runtime comes to (the runtime or the text of the error). *)
Class Tokio := { tk_new : nat → Z + string }.

(** [RUNTIME], how often a runtime was asked of tokio, the tasks given to one (by the slot they serve), and
    the lines on standard error. *)
Record Bridge := mkBridge {
  ab_runtime : option (Z + string);
  ab_attempts : nat;
  ab_tasks : list (Z * nat);
  ab_stderr : list string
}.

Definition bridge_new : Bridge := mkBridge None 0 [] [].

Section Bridge.
Context `{Tokio}.

Definition make_runtime (n : nat) : Z + string :=
  match tk_new n with
  | inl rt => inl rt
  | inr e => inr ("Failed to create tokio runtime: " +:+ e)
  end.

Definition get_runtime (b : Bridge) : Result Z * Bridge :=
  let '(runtime, b) := match ab_runtime b with
    | Some runtime => (runtime, b)
    | None =>
        let runtime := make_runtime (ab_attempts b) in
        (runtime, mkBridge (Some runtime) (S (ab_attempts b)) (ab_tasks b) (ab_stderr b))
    end in
  (match runtime with inl rt => Ok rt | inr msg => Err (InternalError msg) end, b).

Definition init_runtime (b : Bridge) : Bridge :=
  let '(r, b) := get_runtime b in
  match r with
  | Err e => mkBridge (ab_runtime b) (ab_attempts b) (ab_tasks b) (ab_stderr b ++ ["init_runtime failed: " +:+ to_string e])
  | _ => b
  end.

(** A future is what it comes to when a runtime drives it to its end. *)
Definition execute_async {R : Type} (f : Z → Result R) (b : Bridge) : Result R * Bridge :=
  let '(runtime, b) := get_runtime b in
  (obind runtime f, b).

(** [f]: the slot of the worker that is to run. *)
Definition spawn_blocking_task (f : nat) (b : Bridge) : Result unit * Bridge :=
  let '(runtime, b) := get_runtime b in
  match runtime with
  | Ok rt => (Ok tt, mkBridge (ab_runtime b) (ab_attempts b) (ab_tasks b ++ [(rt, f)]) (ab_stderr b))
  | Err e => (Err e, b)
  | Panic => (Panic, b)
  end.

(** * The requests over the bridge *)

(** [AsyncRequestManager::start_request] with its call of the bridge: no id, no task. *)
Definition start_on_bridge (conn_id : Z) (sql : string) (s : Bridge * AsyncRequestManager) : option Z * (Bridge * AsyncRequestManager) :=
  let '(b, m) := s in
  match allocate_request_id m with
  | (None, m) => (None, (b, m))
  | (Some _, _) =>
      let '(r, b) := spawn_blocking_task (am_next_slot m) b in
      let '(id, m) := start_request (is_ok r) conn_id sql m in
      (id, (b, m))
  end.

(** What can happen in the process, in any order. *)
Inductive BridgeOp :=
| BInit
| BStart (conn_id : Z) (sql : string)
| BAsync (op : AsyncOp).

Definition bridge_step (s : Bridge * AsyncRequestManager) (op : BridgeOp) : Bridge * AsyncRequestManager :=
  match op with
  | BInit => (init_runtime s.1, s.2)
  | BStart conn_id sql => (start_on_bridge conn_id sql s).2
  | BAsync op => (s.1, async_step op s.2)
  end.

Definition bridge_run (ops : list BridgeOp) : Bridge * AsyncRequestManager := foldl bridge_step (bridge_new, async_new) ops.

(** A request starts through the bridge only. *)
Definition starts_here (op : BridgeOp) : Prop := match op with BAsync (OStart _ _ _) => False | _ => True end.

(** ** Invariant *)

Definition bridge_inv (s : Bridge * AsyncRequestManager) : Prop :=
  async_wf s.2 ∧
  match ab_runtime s.1 with
  | None => ab_attempts s.1 = 0%nat ∧ ab_tasks s.1 = [] ∧ am_next_slot s.2 = 0%nat
  | Some r =>
      ab_attempts s.1 = 1%nat ∧ r = make_runtime 0 ∧
      match r with
      | inl rt => ab_tasks s.1 = map (λ n, (rt, n)) (seq 0 (am_next_slot s.2))
      | inr _ => ab_tasks s.1 = [] ∧ am_next_slot s.2 = 0%nat
      end
  end.

(** Asking for the runtime leaves the one there is, or makes the first. *)
Lemma get_runtime_inv b m : bridge_inv (b, m) →
  let b' := (get_runtime b).2 in
  bridge_inv (b', m) ∧ ab_runtime b' = Some (make_runtime 0) ∧ ab_tasks b' = ab_tasks b ∧ ab_stderr b' = ab_stderr b ∧
  (get_runtime b).1 = match make_runtime 0 with inl rt => Ok rt | inr msg => Err (InternalError msg) end.
Proof.
  unfold bridge_inv, get_runtime. cbn [fst snd]. intros [Hw Hb]. destruct (ab_runtime b) as [r|] eqn:Hr; cbn.
  - destruct Hb as (Ha & -> & Ht). rewrite Hr. split_and!; done.
  - destruct Hb as (-> & Ht & Hn). split_and!; try done. rewrite Ht, Hn. by destruct (make_runtime 0).
Qed.

Lemma no_request m id : async_wf m → am_next_slot m = 0%nat → am_requests m !! id = None.
Proof.
  intros Hw Hn. destruct (am_requests m !! id) as [n|] eqn:E; [|done].
  destruct (aw_requests _ Hw _ _ E) as (_ & s & j & [Hs _]%view_Some & _).
  pose proof (aw_below _ Hw n (or_introl (mk_is_Some _ _ Hs))). lia.
Qed.

(** A start that is refused moves no slot. *)
Lemma start_refused conn_id sql m : async_wf m →
  async_wf (start_request false conn_id sql m).2 ∧ (start_request false conn_id sql m).1 = None ∧
  am_next_slot (start_request false conn_id sql m).2 = am_next_slot m.
Proof.
  intros Hw. pose proof (step_wf (OStart false conn_id sql) m Hw). split; [done|].
  unfold start_request, allocate_request_id. case_if; [done|]. destruct (alloc_id _ _ _) as [i nx]. by case_if.
Qed.

(** One that has an id and a task takes the next slot. *)
Lemma start_taken conn_id sql m id m' : async_wf m → allocate_request_id m = (Some id, m') →
  async_wf (start_request true conn_id sql m).2 ∧ am_next_slot (start_request true conn_id sql m).2 = S (am_next_slot m).
Proof.
  intros Hw Ha. pose proof (step_wf (OStart true conn_id sql) m Hw). split; [done|].
  unfold start_request. rewrite Ha. cbn. f_equal. revert Ha. unfold allocate_request_id. case_if; [done|].
  destruct (alloc_id _ _ _) as [i nx]. case_if; [done|]. by intros [= _ <-].
Qed.

(** Without an id only the counter moves. *)
Lemma start_unallocated m m' : async_wf m → allocate_request_id m = (None, m') → async_wf m' ∧ am_next_slot m' = am_next_slot m.
Proof.
  intros Hw Ha. pose proof (step_wf (OStart true 0 "") m Hw) as Hw'. unfold async_step, start_request in Hw'. rewrite Ha in Hw'.
  split; [done|]. revert Ha. unfold allocate_request_id. case_if; [by intros [= <-]|].
  destruct (alloc_id _ _ _) as [i nx]. case_if; [|done]. by intros [= <-].
Qed.

Lemma start_inv conn_id sql s : bridge_inv s → bridge_inv (start_on_bridge conn_id sql s).2.
Proof.
  destruct s as [b m]. intros Hi. pose proof (get_runtime_inv _ _ Hi) as (Hg & Hr & Ht & _ & Hv). pose proof Hi as [Hw Hb].
  unfold start_on_bridge. destruct (allocate_request_id m) as [[id|] m'] eqn:Ha.
  - unfold spawn_blocking_task. destruct (get_runtime b) as [r b'] eqn:Hgr. cbn [fst snd] in *. subst r.
    destruct Hg as [_ Hg]. cbn [fst snd] in Hg. rewrite Hr in Hg.
    destruct (make_runtime 0) as [rt|msg] eqn:Hm; cbn [is_ok].
    + destruct (start_taken conn_id sql m id m' Hw Ha) as [Hw' Hn]. destruct (start_request true conn_id sql m) as [o m2].
      cbn [fst snd] in *. split; [done|]. cbn. rewrite Hr. destruct Hg as (Hat & _ & Htk). split_and!; [done|by rewrite Hm|].
      rewrite Hn, seq_S, map_app, Htk. done.
    + destruct (start_refused conn_id sql m Hw) as (Hw' & _ & Hn). destruct (start_request false conn_id sql m) as [o m2].
      cbn [fst snd] in *. split; [done|]. cbn. rewrite Hr, Hm, Hn. done.
  - destruct (start_unallocated m m' Hw Ha) as [Hw' Hn]. split; [done|]. cbn [fst snd] in *. by rewrite Hn.
Qed.

Lemma bridge_step_inv op s : starts_here op → bridge_inv s → bridge_inv (bridge_step s op).
Proof.
  destruct s as [b m]. destruct op as [|c sql|op]; intros Ho Hi; cbn [bridge_step].
  - pose proof (get_runtime_inv _ _ Hi) as (Hg & _). unfold init_runtime. cbn [fst snd] in *.
    destruct (get_runtime b) as [[rt|e|] b']; done.
  - by apply start_inv.
  - assert (∀ sp c sql, op ≠ OStart sp c sql) as Hop by (by intros sp c sql ->).
    destruct Hi as [Hw Hb]. split; [by apply step_wf|]. cbn [fst snd] in *.
    by destruct (step_frame op m Hop) as (_ & _ & -> & _).
Qed.

Lemma bridge_run_inv ops : Forall starts_here ops → bridge_inv (bridge_run ops).
Proof.
  unfold bridge_run. assert (bridge_inv (bridge_new, async_new)) as Hi by (split; [apply async_new_wf|done]).
  revert Hi. generalize (bridge_new, async_new). induction ops as [|op ops IH]; intros s Hs Hf; [done|].
  apply Forall_cons in Hf as [Ho Hf]. by apply IH; [apply bridge_step_inv|].
Qed.

(** Whatever the process does, tokio is asked for one runtime at most, by whoever comes first. If it makes one,
    that runtime is what everyone gets from then on, and its tasks are the workers of the slots, one each and
    in order; if it does not, everyone gets the error it gave then and there is never a request. *)
Theorem one_runtime (ops : list BridgeOp) :
  Forall starts_here ops →
  let '(b, m) := bridge_run ops in
  (ab_attempts (get_runtime b).2 = 1)%nat ∧
  match tk_new 0 with
  | inl rt => (get_runtime b).1 = Ok rt ∧ ab_tasks b = map (λ n, (rt, n)) (seq 0 (am_next_slot m))
  | inr e => (get_runtime b).1 = Err (InternalError ("Failed to create tokio runtime: " +:+ e)) ∧ ab_tasks b = [] ∧ am_requests m = ∅
  end.
Proof.
  intros Hf. pose proof (bridge_run_inv ops Hf) as Hi. destruct (bridge_run ops) as [b m].
  pose proof (get_runtime_inv _ _ Hi) as (Hg & Hr & Ht & _ & ->). cbn [fst snd] in *.
  destruct Hg as [Hw Hg]. cbn [fst snd] in *. rewrite Hr, Ht in Hg. destruct Hg as (Ha & _ & Hg).
  unfold make_runtime in *. destruct (tk_new 0) as [rt|e]; split_and!; try done; [by destruct Hg|].
  destruct Hg as [_ Hn]. apply map_eq. intros id. by rewrite lookup_empty, no_request.
Qed.
End Bridge.

Definition working_tokio : Tokio := {| tk_new := λ n, inl (Z.of_nat n) |}.

Lemma one_runtime_witness :
  (get_runtime (H := working_tokio) (bridge_run (H := working_tokio) [BStart 1 "SELECT 1"; BInit; BStart 1 "SELECT 2"]).1).1 = Ok 0 ∧
  ab_tasks (bridge_run (H := working_tokio) [BStart 1 "SELECT 1"; BInit; BStart 1 "SELECT 2"]).1 = [(0, 0%nat); (0, 1%nat)].
Proof.
  refine (proj2 (@one_runtime working_tokio [BStart 1 "SELECT 1"; BInit; BStart 1 "SELECT 2"] _)).
  repeat constructor.
Defined.
