(* ===== verification/ArrayBinding.v ===== *)
(** Array inserts (engine/core/array_binding.rs): a prepared INSERT whose bound
    column buffers are filled and executed batch by batch.  The buffers of
    [odbc_api] are an interface with the documented behaviour the code relies on. *)

From S2P Require Import Prelude Wire Errors Text Identifier BulkInsert Handles.

(** * The buffers of a bulk inserter *)

Inductive Scalar := SI32 | SI64 | STimestamp.

Definition scalar_desc (k : Scalar) (nullable : bool) : BufferDesc :=
  match k with
  | SI32 => DescI32 nullable
  | SI64 => DescI64 nullable
  | STimestamp => DescTimestamp nullable
  end.

(** Which view a column gives ([as_slice], [as_nullable_slice], [as_text_view],
    [as_bin_view]), and whether [set_cell] takes a value or panics. *)
Class ColumnBuffers := {
  as_slice : BufferDesc → Scalar → bool;
  as_nullable_slice : BufferDesc → Scalar → bool;
  as_text_view : BufferDesc → bool;
  as_bin_view : BufferDesc → bool;
  set_cell : BufferDesc → list byte → bool;
  as_slice_plain : ∀ k, as_slice (scalar_desc k false) k = true;
  as_nullable_slice_nullable : ∀ k, as_nullable_slice (scalar_desc k true) k = true;
  as_text_view_text : ∀ n, as_text_view (DescText n) = true;
  as_bin_view_binary : ∀ n, as_bin_view (DescBinary n) = true;
  set_cell_text : ∀ n v, len v ≤ n → set_cell (DescText n) v = true;
  set_cell_binary : ∀ n v, len v ≤ n → set_cell (DescBinary n) v = true
}.

(** * Ranges *)

(** [(0..n).step_by(size).map(|s| (s, (s + size).min(n)))]; the fuel bounds the
    number of steps. *)
Fixpoint step_ranges (fuel : nat) (start size n : Z) : list (Z * Z) :=
  match fuel with
  | O => []
  | S fuel => if start <? n then (start, Z.min (start + size) n) :: step_ranges fuel (start + size) size n else []
  end.

(** * The statement *)

Definition DEFAULT_PARAMSET_SIZE : Z := 1000.

(** [ArrayBinding::new] *)
Definition new_binding (paramset_size : Z) : Z := Z.max paramset_size 1.

Definition quote_column_list (columns : list string) : Result string :=
  let? quoted := omap_list quote_identifier_default columns in
  Ok (join ", " quoted).

Definition placeholders (n_cols : nat) : string := join ", " (replicate n_cols "?").

Definition insert_sql (qtable col_list : string) (n_cols : nat) : string :=
  "INSERT INTO " +:+ qtable +:+ " (" +:+ col_list +:+ ") VALUES (" +:+ placeholders n_cols +:+ ")".

Definition validate_i32_bulk_data (columns : list string) (data : list (list Z)) : Result unit :=
  if negb (len data =? len columns) then Err (ValidationError "data length must match columns length")
  else
    match data with
    | [] => Ok tt
    | c :: cols =>
        if existsb (λ col : list Z, negb (len col =? len c)) cols then
          Err (ValidationError "all columns must have same row count")
        else Ok tt
    end.

Definition spec_to_buffer_desc (spec : BulkColumnSpec) : Result BufferDesc :=
  let max_len := Z.max (bs_max_len spec) 1 in
  Ok match bs_type spec with
     | BtI32 => DescI32 (bs_nullable spec)
     | BtI64 => DescI64 (bs_nullable spec)
     | BtText | BtDecimal => DescText max_len
     | BtBinary => DescBinary max_len
     | BtTimestamp => DescTimestamp (bs_nullable spec)
     end.

(** * Filling a column *)

Section Fill.
Context `{ColumnBuffers}.

Definition bind_ts (t : BulkTimestamp) : BindCell :=
  BTime (ts_year t) (ts_month t) (ts_day t) (ts_hour t) (ts_minute t) (ts_second t) (ts_fraction t).

(** [vals[i] = v; inds[i] = if is_null(bm, r) { NULL_DATA } else { 0 }] *)
Definition with_indicator (bm : list byte) (r : nat) (cell : BindCell) : Result BindCell :=
  let? null := is_null bm (Z.of_nat r) in
  Ok (if null then BNull else cell).

(** The integer columns: rows [s] to [s + n - 1]. *)
Definition fill_ints (d : BufferDesc) (k : Scalar) (name : string) (values : list Z) (bm : option (list byte))
    (s n : nat) : Result (list BindCell) :=
  match bm with
  | Some bm =>
      if as_nullable_slice d k then
        let? vals := slice values s (s + n) in
        omap_list (λ '(r, v), with_indicator bm r (BInt v)) (combine (seq s n) vals)
      else Err (InternalError (name +:+ " nullable column expected"))
  | None =>
      if as_slice d k then let? vals := slice values s (s + n) in Ok (map BInt vals)
      else Err (InternalError (name +:+ " column expected"))
  end.

Definition fill_timestamps (d : BufferDesc) (values : list BulkTimestamp) (bm : option (list byte))
    (s n : nat) : Result (list BindCell) :=
  match bm with
  | Some bm =>
      if as_nullable_slice d STimestamp then
        omap_list (λ r, let? v := index values r in with_indicator bm r (bind_ts v)) (seq s n)
      else Err (InternalError "Timestamp nullable column expected")
  | None =>
      if as_slice d STimestamp then omap_list (λ r, let? v := index values r in Ok (bind_ts v)) (seq s n)
      else Err (InternalError "Timestamp column expected")
  end.

(** One [set_cell] of a text or binary view. *)
Definition fill_cell (d : BufferDesc) (rows : list (list byte)) (bm : option (list byte)) (r : nat) : Result BindCell :=
  let? null := match bm with Some bm => is_null bm (Z.of_nat r) | None => Ok false end in
  if null then Ok BNull
  else
    let? bytes := index rows r in
    if set_cell d bytes then Ok (BBytes bytes) else Panic.

Definition fill_column (d : BufferDesc) (spec : BulkColumnSpec) (data : BulkColumnData) (s n : nat) : Result (list BindCell) :=
  let bm := bc_null_bitmap data in
  match bc_cells data, bs_type spec with
  | CI32 values, BtI32 => fill_ints d SI32 "I32" values bm s n
  | CI64 values, BtI64 => fill_ints d SI64 "I64" values bm s n
  | CText rows _, (BtText | BtDecimal) =>
      if as_text_view d then omap_list (fill_cell d rows bm) (seq s n)
      else Err (InternalError "Text column expected")
  | CBinary rows _, BtBinary =>
      if as_bin_view d then omap_list (fill_cell d rows bm) (seq s n)
      else Err (InternalError "Binary column expected")
  | CTimestamp values, BtTimestamp => fill_timestamps d values bm s n
  | _, _ => Err (ValidationError "Column data does not match spec")
  end.

(** * Inserting *)

Context `{Driver}.

(** The loop over the batches: fill the columns, execute, count. *)
Fixpoint insert_batches (phys : Z) (fill : nat → nat → Result (list (list BindCell))) (ranges : list (Z * Z)) (total : Z) : M Z :=
  match ranges with
  | [] => ret total
  | (chunk_start, stop) :: ranges =>
      let chunk_len := stop - chunk_start in
      let! columns := lift (fill (Z.to_nat chunk_start) (Z.to_nat chunk_len)) in
      let! _ := call phys (CBatch columns) in
      insert_batches phys fill ranges (total + chunk_len)
  end.

(** Prepare, bind the buffers, run the batches. *)
Definition insert_rows (phys : Z) (sql : string) (descs : list BufferDesc) (paramset_size n_rows : Z)
    (fill : nat → nat → Result (list (list BindCell))) : M Z :=
  let! _ := call phys (CPrepare sql) in
  let capacity := Z.min paramset_size n_rows in
  let! _ := call phys (CInserter capacity descs) in
  insert_batches phys fill (step_ranges (Z.to_nat n_rows) 0 capacity n_rows) 0.

Definition fill_i32 (d : BufferDesc) (data : list (list Z)) (s n : nat) : Result (list (list BindCell)) :=
  omap_list (λ col, if as_slice d SI32 then let? vals := slice col s (s + n) in Ok (map BInt vals)
                    else Err (InternalError "I32 column expected")) data.

Definition bulk_insert_i32 (paramset_size phys : Z) (table : string) (columns : list string) (data : list (list Z)) : M Z :=
  let! _ := lift (validate_i32_bulk_data columns data) in
  if len columns =? 0 then ret 0
  else
    let! c0 := lift (index data 0) in
    let n_rows := len c0 in
    if n_rows =? 0 then ret 0
    else
      let! col_list := lift (quote_column_list columns) in
      let! qtable := lift (quote_qualified_default table) in
      insert_rows phys (insert_sql qtable col_list (length columns)) (replicate (length columns) (DescI32 false))
        paramset_size n_rows (fill_i32 (DescI32 false) data).

Definition bulk_insert_i32_text (paramset_size phys : Z) (table : string) (columns : list string) (ids : list Z)
    (names : list string) (max_str_len : Z) : M Z :=
  if negb (len ids =? len names) then lift (Err (ValidationError "ids and names must have same length"))
  else
    let n_rows := len ids in
    if n_rows =? 0 then ret 0
    else
      let! qtable := lift (quote_qualified_default table) in
      let! c0 := lift (index columns 0) in
      let! qcol0 := lift (quote_identifier_default c0) in
      let! c1 := lift (index columns 1) in
      let! qcol1 := lift (quote_identifier_default c1) in
      let d := DescText (Z.max max_str_len 1) in
      insert_rows phys (insert_sql qtable (qcol0 +:+ ", " +:+ qcol1) 2) [DescI32 false; d] paramset_size n_rows
        (λ s n,
           let? id_col := fill_ints (DescI32 false) SI32 "I32" ids None s n in
           if as_text_view d then
             let? chunk := slice names s (s + n) in
             let? name_col := omap_list (λ name, if set_cell d (as_bytes name) then Ok (BBytes (as_bytes name)) else Panic) chunk in
             Ok [id_col; name_col]
           else Err (InternalError "Text column expected")).

Definition bulk_insert_generic (paramset_size phys : Z) (payload : BulkInsertPayload) : M Z :=
  let n_rows := bp_row_count payload in
  if n_rows =? 0 then ret 0
  else if negb (len (bp_column_data payload) =? len (bp_columns payload)) then
    lift (Err (ValidationError "column_data length must match columns length"))
  else
    let! quoted_cols := lift (omap_list quote_identifier_default (map bs_name (bp_columns payload))) in
    let! qtable := lift (quote_qualified_default (bp_table payload)) in
    let! descs := lift (omap_list spec_to_buffer_desc (bp_columns payload)) in
    insert_rows phys (insert_sql qtable (join ", " quoted_cols) (length (bp_columns payload))) descs paramset_size n_rows
      (λ s n, omap_list (λ '(d, (spec, data)), fill_column d spec data s n)
                (combine descs (combine (bp_columns payload) (bp_column_data payload)))).
End Fill.

(** * The rows of a column *)

Definition raw_cells (c : BulkCells) : list BindCell :=
  match c with
  | CI32 values | CI64 values => map BInt values
  | CText rows _ | CBinary rows _ => map BBytes rows
  | CTimestamp values => map bind_ts values
  end.

Definition null_at (bm : option (list byte)) (r : nat) : bool :=
  match bm with Some bm => Z.testbit (le_val bm) (Z.of_nat r) | None => false end.

(** The cells a column stands for, one per row: NULL where the bitmap says so. *)
Definition column_cells (d : BulkColumnData) : list BindCell :=
  imap (λ r c, if null_at (bc_null_bitmap d) r then BNull else c) (raw_cells (bc_cells d)).

(** Rows [s] to [s + n - 1]. *)
Definition rows_of {A : Type} (s n : nat) (l : list A) : list A := take n (drop s l).

Lemma rows_of_app {A : Type} (s n m : nat) (l : list A) : rows_of s n l ++ rows_of (s + n) m l = rows_of s (n + m) l.
Proof. unfold rows_of. by rewrite <- drop_drop, take_take_drop. Qed.

(** A loop over row numbers that yields the cells of [l]. *)
Lemma omap_seq_rows {A : Type} (f : nat → Result A) (l : list A) s n :
  (∀ i, (s ≤ i < s + n)%nat → ∃ y, f i = Ok y ∧ l !! i = Some y) →
  omap_list f (seq s n) = Ok (rows_of s n l).
Proof.
  revert s. induction n as [|n IH]; intros s Hf; [done|]. cbn [seq omap_list].
  destruct (Hf s) as (y & -> & Hl); [lia|]. cbn [obind]. rewrite IH by (intros; apply Hf; lia). cbn [obind].
  unfold rows_of. by rewrite (drop_S _ _ _ Hl).
Qed.

Lemma omap_enumerate {A B : Type} (f : nat * A → Result B) (l : list A) s n :
  (s + n ≤ length l)%nat →
  omap_list f (combine (seq s n) (rows_of s n l)) = omap_list (λ r, let? v := index l r in f (r, v)) (seq s n).
Proof.
  revert s. induction n as [|n IH]; intros s Hl; [done|].
  destruct (lookup_lt_is_Some_2 l s) as [v Hv]; [lia|]. unfold rows_of.
  rewrite (drop_S _ _ _ Hv). cbn [seq take combine omap_list]. rewrite (index_lookup _ _ _ Hv). cbn [obind].
  fold (rows_of (S s) n l). by rewrite IH by lia.
Qed.

(** The indicator of a row. *)
Lemma with_indicator_ok (bm : list byte) n r c :
  len bm = null_bitmap_size n → Z.of_nat r < n →
  with_indicator bm r c = Ok (if null_at (Some bm) r then BNull else c).
Proof. intros Hl Hr. unfold with_indicator. destruct (is_null_bit bm n (Z.of_nat r) Hl) as [_ ->]; [lia|done]. Qed.

Lemma column_cells_lookup d r c :
  raw_cells (bc_cells d) !! r = Some c →
  column_cells d !! r = Some (if null_at (bc_null_bitmap d) r then BNull else c).
Proof. intros Hr. unfold column_cells. by rewrite list_lookup_imap, Hr. Qed.

Lemma length_column_cells d : length (column_cells d) = length (raw_cells (bc_cells d)).
Proof. apply length_imap. Qed.

Lemma raw_cells_length s n c : cells_fit s n c → length (raw_cells c) = n.
Proof. intros [_ Hc]. destruct c; cbn; rewrite ?length_map; by destruct Hc as [? _]. Qed.

Lemma slice_rows {A : Type} (l : list A) s n : (s + n ≤ length l)%nat → slice (E := OdbcError) l s (s + n) = Ok (rows_of s n l).
Proof. intros Hl. rewrite slice_Ok by lia. unfold rows_of. do 2 f_equal. lia. Qed.

Section FillSpec.
Context `{ColumnBuffers}.

Lemma fill_ints_ok (d : BufferDesc) k name values spec bm nrows s n col :
  d = scalar_desc k (bs_nullable spec) → bitmap_fit spec nrows bm → Z.of_nat (length values) = nrows →
  raw_cells (bc_cells col) = map BInt values → bc_null_bitmap col = bm →
  (s + n ≤ length values)%nat →
  fill_ints d k name values bm s n = Ok (rows_of s n (column_cells col)).
Proof.
  intros -> Hb Hn Hraw Hbm Hl. unfold fill_ints. destruct bm as [bm|].
  - destruct Hb as [-> Hb]. rewrite as_nullable_slice_nullable, slice_rows by done. cbn [obind].
    rewrite omap_enumerate by done. apply omap_seq_rows. intros i Hi.
    destruct (lookup_lt_is_Some_2 values i) as [v Hv]; [lia|]. rewrite (index_lookup _ _ _ Hv). cbn [obind].
    rewrite (with_indicator_ok bm nrows) by (done || lia). eexists. split; [done|].
    rewrite <- Hbm. apply column_cells_lookup. by rewrite Hraw, list_lookup_fmap, Hv.
  - cbn in Hb. rewrite Hb, as_slice_plain, slice_rows by done. cbn [obind]. f_equal.
    unfold column_cells, rows_of. rewrite Hbm, Hraw. cbn [null_at].
    assert (imap (λ (_ : nat) (c : BindCell), c) (map BInt values) = map BInt values) as ->.
    { apply list_eq. intros i. rewrite list_lookup_imap. by destruct (_ !! i). }
    by rewrite skipn_map, firstn_map.
Qed.

Lemma fill_timestamps_ok values spec bm nrows s n col :
  bitmap_fit spec nrows bm → Z.of_nat (length values) = nrows →
  raw_cells (bc_cells col) = map bind_ts values → bc_null_bitmap col = bm →
  (s + n ≤ length values)%nat →
  fill_timestamps (DescTimestamp (bs_nullable spec)) values bm s n = Ok (rows_of s n (column_cells col)).
Proof.
  intros Hb Hn Hraw Hbm Hl. unfold fill_timestamps.
  assert (∀ i, (s ≤ i < s + n)%nat → ∃ v, values !! i = Some v ∧
            column_cells col !! i = Some (if null_at bm i then BNull else bind_ts v)) as Hv.
  { intros i Hi. destruct (lookup_lt_is_Some_2 values i) as [v Hv]; [lia|]. exists v. split; [done|].
    rewrite <- Hbm. apply column_cells_lookup. by rewrite Hraw, list_lookup_fmap, Hv. }
  destruct bm as [bm|].
  - destruct Hb as [-> Hb]. rewrite (as_nullable_slice_nullable STimestamp : as_nullable_slice (DescTimestamp true) _ = _).
    apply omap_seq_rows. intros i Hi. destruct (Hv i Hi) as (v & Hi1 & Hi2). rewrite (index_lookup _ _ _ Hi1). cbn [obind].
    rewrite (with_indicator_ok bm nrows) by (done || lia). by eexists.
  - cbn in Hb. rewrite Hb, (as_slice_plain STimestamp : as_slice (DescTimestamp false) _ = _).
    apply omap_seq_rows. intros i Hi. destruct (Hv i Hi) as (v & Hi1 & Hi2). rewrite (index_lookup _ _ _ Hi1). by eexists.
Qed.

Lemma fill_cells_ok (d : BufferDesc) rows spec bm nrows s n col :
  Forall (λ r, set_cell d r = true) rows → bitmap_fit spec nrows bm → Z.of_nat (length rows) = nrows →
  raw_cells (bc_cells col) = map BBytes rows → bc_null_bitmap col = bm →
  (s + n ≤ length rows)%nat →
  omap_list (fill_cell d rows bm) (seq s n) = Ok (rows_of s n (column_cells col)).
Proof.
  intros Hset Hb Hn Hraw Hbm Hl. apply omap_seq_rows. intros i Hi.
  destruct (lookup_lt_is_Some_2 rows i) as [v Hv]; [lia|].
  exists (if null_at bm i then BNull else BBytes v). split.
  - unfold fill_cell. rewrite Forall_lookup in Hset. specialize (Hset i v Hv).
    destruct bm as [bm|]; [destruct Hb as [_ Hb]; destruct (is_null_bit bm nrows (Z.of_nat i) Hb) as [_ ->]; [lia|]|];
      cbn [obind null_at]; [case_if; [done|]|]; rewrite (index_lookup _ _ _ Hv); cbn [obind]; by rewrite Hset.
  - rewrite <- Hbm. apply column_cells_lookup. by rewrite Hraw, list_lookup_fmap, Hv.
Qed.

(** A column of a parsed payload is filled with exactly its rows. *)
Lemma fill_column_ok nrows spec col d s n :
  0 ≤ nrows → col_fit nrows spec col → spec_to_buffer_desc spec = Ok d → Z.of_nat (s + n) ≤ nrows →
  fill_column d spec col s n = Ok (rows_of s n (column_cells col)).
Proof.
  intros Hn [[Hm Hc] Hb] [= <-] Hs. unfold fill_column.
  destruct (bc_cells col) as [vs|vs|rows m|rows m|vs] eqn:Hcells, (bs_type spec) eqn:Ht; cbn in Hm; try done.
  - destruct Hc as [Hl _]. by apply (fill_ints_ok _ SI32 _ vs spec _ nrows); rewrite ?Hcells; (done || lia).
  - destruct Hc as [Hl _]. by apply (fill_ints_ok _ SI64 _ vs spec _ nrows); rewrite ?Hcells; (done || lia).
  - destruct Hc as (Hl & -> & Hf). rewrite as_text_view_text.
    apply (fill_cells_ok _ rows spec _ nrows); rewrite ?Hcells; try (done || lia).
    eapply Forall_impl; [exact Hf|]. intros r. apply set_cell_text.
  - destruct Hc as (Hl & -> & Hf). rewrite as_text_view_text.
    apply (fill_cells_ok _ rows spec _ nrows); rewrite ?Hcells; try (done || lia).
    eapply Forall_impl; [exact Hf|]. intros r. apply set_cell_text.
  - destruct Hc as (Hl & -> & Hf). rewrite as_bin_view_binary.
    apply (fill_cells_ok _ rows spec _ nrows); rewrite ?Hcells; try (done || lia).
    eapply Forall_impl; [exact Hf|]. intros r. apply set_cell_binary.
  - destruct Hc as [Hl _]. apply (fill_timestamps_ok vs spec _ nrows); rewrite ?Hcells; (done || lia).
Qed.
End FillSpec.

(** * Ranges partition the rows *)

(** Consecutive nonempty ranges from [lo] to [hi]. *)
Fixpoint consecutive (lo hi : Z) (rs : list (Z * Z)) : Prop :=
  match rs with
  | [] => lo = hi
  | (a, b) :: rs => a = lo ∧ a < b ≤ hi ∧ consecutive b hi rs
  end.

Lemma step_ranges_consecutive fuel start size n :
  1 ≤ size → start ≤ n → n - start ≤ Z.of_nat fuel → consecutive start n (step_ranges fuel start size n).
Proof.
  intros Hs. revert start. induction fuel as [|fuel IH]; intros start Hn Hf; cbn [step_ranges]; [cbn; lia|].
  destruct (Z.ltb_spec start n); cbn [consecutive]; [|lia]. split; [done|]. split; [lia|].
  destruct (Z.leb_spec (start + size) n).
  - rewrite Z.min_l by lia. apply IH; lia.
  - rewrite Z.min_r by lia. destruct fuel; cbn [step_ranges]; [done|]. by destruct (Z.ltb_spec (start + size) n); [lia|].
Qed.

(** * What the driver was sent *)

(** The batches the driver accepted on a connection. *)
Definition batches (phys : Z) (h : History) : list (list (list BindCell)) :=
  flat_map (λ ev, match ev with (p, CBatch cols, true) => if p =? phys then [cols] else [] | _ => [] end) h.

(** Batches put together, column by column. *)
Definition glue (n_cols : nat) (bs : list (list (list BindCell))) : list (list BindCell) :=
  foldr (zip_with app) (replicate n_cols []) bs.

Lemma batches_app phys h k : batches phys (h ++ k) = batches phys h ++ batches phys k.
Proof. apply flat_map_app. Qed.

Lemma zip_with_rows {A : Type} (cols : list (list A)) s n m :
  zip_with app (map (rows_of s n) cols) (map (rows_of (s + n) m) cols) = map (rows_of s (n + m)) cols.
Proof. induction cols as [|c cols IH]; [done|]. cbn. by rewrite IH, rows_of_app. Qed.

(** All the events of [h] are inserts on [phys], with this statement. *)
Definition insert_event (phys : Z) (sql : string) (ev : Z * Call * bool) : Prop :=
  match ev with
  | (p, CPrepare s, _) => p = phys ∧ s = sql
  | (p, (CInserter _ _ | CBatch _), _) => p = phys
  | _ => False
  end.

(** From row [lo] on, the driver accepted the rows before row [k] of every column;
    this is all of them exactly when the insert reports success. *)
Definition inserted (phys lo hi total : Z) (cols : list (list BindCell)) (h : History) (r : Result Z) (k : Z) : Prop :=
  lo ≤ k ≤ hi ∧
  glue (length cols) (batches phys h) = map (rows_of (Z.to_nat lo) (Z.to_nat (k - lo))) cols ∧
  match r with
  | Ok n => k = hi ∧ n = total + (hi - lo)
  | Err _ => k < hi
  | Panic => False
  end.

Lemma glue_nil cols lo : glue (length cols) [] = map (rows_of lo 0) cols.
Proof. cbn. induction cols; [done|]. cbn. by f_equal. Qed.

Section Runs.
Context `{Driver}.

Lemma insert_batches_run phys sql fill cols lo hi rs total w :
  0 ≤ lo → consecutive lo hi rs →
  (∀ s e, lo ≤ s → s < e ≤ hi → fill (Z.to_nat s) (Z.to_nat (e - s)) = Ok (map (rows_of (Z.to_nat s) (Z.to_nat (e - s))) cols)) →
  ∃ h r k, runs (insert_batches phys fill rs total) w h r ∧ Forall (insert_event phys sql) h ∧
    inserted phys lo hi total cols h r k.
Proof.
  revert lo total w. induction rs as [|[a b] rs IH]; intros lo total w Hlo Hc Hfill; cbn [consecutive insert_batches] in *.
  { subst hi. exists [], (Ok total), lo. split; [apply runs_ret|]. split; [done|].
    split; [lia|]. rewrite Z.sub_diag. split; [apply glue_nil|]. split; [done|lia]. }
  destruct Hc as (-> & Hab & Hc). pose proof (Hfill lo b ltac:(lia) ltac:(lia)) as Hf.
  set (cs := map (rows_of (Z.to_nat lo) (Z.to_nat (b - lo))) cols) in *.
  pose proof (runs_call phys (CBatch cs) w) as Hcall.
  destruct (dr_answer (w_trace w) phys (CBatch cs)) as [[]|e|] eqn:Ha; cbn [is_ok] in Hcall; [| |by apply dr_answer_no_panic in Ha].
  - destruct (IH b (total + (b - lo)) (w_ext w [(phys, CBatch cs, true)])) as (h & r & k & Hr & He & (Hk & Hg & Hres));
      [lia|done|intros; apply Hfill; lia|].
    exists ((phys, CBatch cs, true) :: h), r, k. split; [|split; [constructor; done|split; [lia|split]]].
    + eapply runs_bind_nil; [rewrite Hf; apply runs_lift|].
      eapply (runs_bind _ _ _ [_] h); [exact Hcall|]. exact Hr.
    + cbn [batches flat_map]. rewrite Z.eqb_refl. cbn [app glue foldr]. fold (batches phys h) (glue (length cols) (batches phys h)).
      rewrite Hg. unfold cs. replace (Z.to_nat b) with (Z.to_nat lo + Z.to_nat (b - lo))%nat by lia.
      rewrite zip_with_rows. do 2 f_equal. lia.
    + destruct r; [|lia|done]. lia.
  - exists [(phys, CBatch cs, false)], (Err e), lo. split; [|split; [repeat constructor|split; [lia|split; [|lia]]]].
    + eapply runs_bind_nil; [rewrite Hf; apply runs_lift|]. by apply runs_bind_err.
    + cbn [batches flat_map]. rewrite Z.sub_diag. apply glue_nil.
Qed.

Lemma insert_rows_run phys sql descs ps n fill cols w :
  1 ≤ ps → 1 ≤ n →
  (∀ s e, 0 ≤ s → s < e ≤ n → fill (Z.to_nat s) (Z.to_nat (e - s)) = Ok (map (rows_of (Z.to_nat s) (Z.to_nat (e - s))) cols)) →
  ∃ h r k, runs (insert_rows phys sql descs ps n fill) w h r ∧ Forall (insert_event phys sql) h ∧
    inserted phys 0 n 0 cols h r k.
Proof.
  intros Hps Hn Hfill. unfold insert_rows.
  assert (∀ h c e, Forall (insert_event phys sql) h → insert_event phys sql c → batches phys (h ++ [c]) = [] →
            Forall (insert_event phys sql) (h ++ [c]) ∧ inserted phys 0 n 0 cols (h ++ [c]) (Err e) 0) as Hstop.
  { intros h c e Hh Hcc Hb. split; [apply Forall_app; by repeat constructor|]. split; [lia|]. rewrite Hb. split; [apply glue_nil|lia]. }
  pose proof (runs_call phys (CPrepare sql) w) as H1.
  destruct (dr_answer (w_trace w) phys (CPrepare sql)) as [[]|e|] eqn:Ha; cbn [is_ok] in H1; [| |by apply dr_answer_no_panic in Ha].
  2: { eexists _, (Err e), 0. split; [by apply runs_bind_err|]. by apply (Hstop []). }
  set (ci := CInserter (Z.min ps n) descs). set (w1 := w_ext w [(phys, CPrepare sql, true)]).
  pose proof (runs_call phys ci w1) as H2.
  destruct (dr_answer (w_trace w1) phys ci) as [[]|e|] eqn:Ha2; cbn [is_ok] in H2; [| |by apply dr_answer_no_panic in Ha2].
  2: { eexists [_; _], (Err e), 0. split; [eapply (runs_bind _ _ _ [_] [_]); [exact H1|]; by apply runs_bind_err|].
       apply (Hstop [_]); [by repeat constructor|done|done]. }
  destruct (insert_batches_run phys sql fill cols 0 n (step_ranges (Z.to_nat n) 0 (Z.min ps n) n) 0 (w_ext w1 [(phys, ci, true)]))
    as (h & r & k & Hr & He & Hi); [lia|apply step_ranges_consecutive; lia|intros; apply Hfill; lia|].
  exists ((phys, CPrepare sql, true) :: (phys, ci, true) :: h), r, k. split; [|split; [by repeat constructor|]].
  - eapply (runs_bind _ _ _ [_] (_ :: h)); [exact H1|]. eapply (runs_bind _ _ _ [_] h); [exact H2|]. exact Hr.
  - destruct Hi as (Hk & Hg & Hres). split; [done|]. by split.
Qed.
End Runs.

(** * The generic insert *)

Definition column_names (p : BulkInsertPayload) : list string := map bs_name (bp_columns p).

(** The events of an insert of [p]: none, or those of the INSERT with the quoted
    names of the table and the columns. *)
Definition insert_events (phys : Z) (p : BulkInsertPayload) (h : History) : Prop :=
  h = [] ∨
  ∃ qtable qcols, quote_qualified_default (bp_table p) = Ok qtable ∧
    omap_list quote_identifier_default (column_names p) = Ok qcols ∧
    Forall (insert_event phys (insert_sql qtable (join ", " qcols) (length (bp_columns p)))) h.

Section Generic.
Context `{ColumnBuffers}.

Lemma fill_columns_ok nrows specs cols descs s n :
  0 ≤ nrows → Forall2 (col_fit nrows) specs cols → omap_list spec_to_buffer_desc specs = Ok descs → Z.of_nat (s + n) ≤ nrows →
  omap_list (λ '(d, (spec, data)), fill_column d spec data s n) (combine descs (combine specs cols))
  = Ok (map (rows_of s n) (map column_cells cols)).
Proof.
  intros Hn HF. revert descs. induction HF as [|spec col specs cols Hfit HF IH]; intros descs Hd Hs; cbn [omap_list] in Hd.
  { by injection Hd as <-. }
  inv_bind Hd. inv_bind Hd. injection Hd as <-. cbn [combine omap_list map].
  rewrite (fill_column_ok nrows) by done. cbn [obind]. by rewrite IH.
Qed.

Context `{Driver}.

Lemma bulk_insert_generic_run ps phys p w :
  1 ≤ ps → payload_fit p →
  ∃ h r k, runs (bulk_insert_generic ps phys p) w h r ∧
    inserted phys 0 (bp_row_count p) 0 (map column_cells (bp_column_data p)) h r k ∧ insert_events phys p h.
Proof.
  intros Hps [_ _ _ _ Hrows HF]. unfold bulk_insert_generic. destruct (Z.eqb_spec (bp_row_count p) 0) as [Hz|Hz].
  { exists [], (Ok 0), 0. split; [apply runs_ret|]. split; [|by left]. rewrite Hz. split; [lia|]. split; [apply glue_nil|done]. }
  pose proof (Forall2_length _ _ _ HF) as Hlen. rewrite (proj2 (Z.eqb_eq _ _)) by (unfold len; lia). cbn [negb].
  assert (∀ (e : OdbcError), inserted phys 0 (bp_row_count p) 0 (map column_cells (bp_column_data p)) [] (Err e) 0) as Hstop.
  { intros e. split; [lia|]. split; [apply glue_nil|lia]. }
  fold (column_names p).
  destruct (omap_list quote_identifier_default (column_names p)) as [qcols|e|] eqn:Hq.
  3: { by apply quote_all_no_panic in Hq. }
  2: { exists [], (Err e), 0. split; [|split; [done|by left]]. by apply runs_bind_err, runs_lift. }
  destruct (quote_qualified_default (bp_table p)) as [qtable|e|] eqn:Ht; [| |by apply quote_qualified_no_panic in Ht].
  2: { exists [], (Err e), 0. split; [|split; [done|by left]].
       eapply runs_bind_nil; [apply runs_lift|]. by apply runs_bind_err, runs_lift. }
  destruct (omap_list spec_to_buffer_desc (bp_columns p)) as [descs|e|] eqn:Hd.
  3: { exfalso. by apply (omap_list_no_panic spec_to_buffer_desc (bp_columns p)) in Hd. }
  2: { exists [], (Err e), 0. split; [|split; [done|by left]].
       do 2 (eapply runs_bind_nil; [apply runs_lift|]). by apply runs_bind_err, runs_lift. }
  destruct (insert_rows_run phys (insert_sql qtable (join ", " qcols) (length (bp_columns p))) descs ps (bp_row_count p)
    (λ s n, omap_list (λ '(d, (spec, data)), fill_column d spec data s n) (combine descs (combine (bp_columns p) (bp_column_data p))))
    (map column_cells (bp_column_data p)) w) as (h & r & k & Hr & He & Hi); [lia|lia| |].
  { intros s e Hs He. apply (fill_columns_ok (bp_row_count p)); [lia|done|done|lia]. }
  exists h, r, k. split; [|split; [done|right; by exists qtable, qcols]].
  do 3 (eapply runs_bind_nil; [apply runs_lift|]). exact Hr.
Qed.

(** C28: an array insert of a payload as the parser accepts it, whatever the driver
    answers and wherever it fails: the driver has been sent the quoted INSERT only,
    the batches it accepted are, put together, the first [k] rows of every column
    with NULL exactly where the bitmap says so, and the insert reports success
    exactly when these are all the rows, with their number; it never panics. *)
Theorem bulk_insert_generic_spec (ps phys : Z) (p : BulkInsertPayload) (w : World) :
  1 ≤ ps → payload_fit p →
  ∃ h r k, runs (bulk_insert_generic ps phys p) w h r ∧
    inserted phys 0 (bp_row_count p) 0 (map column_cells (bp_column_data p)) h r k ∧ insert_events phys p h.
Proof. apply bulk_insert_generic_run. Qed.
End Generic.

(** * The insert of integer columns *)

(** Every column has [n] values, and there is one per column name. *)
Record i32_fit (columns : list string) (data : list (list Z)) (n : Z) : Prop := {
  i32_columns : columns ≠ [];
  i32_count : length data = length columns;
  i32_rows : Forall (λ col : list Z, len col = n) data
}.

Lemma validate_i32_ok columns data n : i32_fit columns data n → validate_i32_bulk_data columns data = Ok tt.
Proof.
  intros [_ Hl Hr]. unfold validate_i32_bulk_data. rewrite (proj2 (Z.eqb_eq _ _)) by (unfold len; lia). cbn [negb].
  destruct Hr as [|c cols Hc Hr]; [done|]. assert (existsb (λ col : list Z, negb (len col =? len c)) cols = false) as ->; [|done].
  clear Hl. induction Hr as [|x xs Hx Hr IH]; [done|]. cbn [existsb]. rewrite IH. by rewrite (proj2 (Z.eqb_eq _ _)) by congruence.
Qed.

Section I32.
Context `{ColumnBuffers} `{Driver}.

Lemma bulk_insert_i32_unfold ps phys table columns data n w :
  i32_fit columns data n →
  bulk_insert_i32 ps phys table columns data w =
  (if n =? 0 then ret 0
   else
     let! col_list := lift (quote_column_list columns) in
     let! qtable := lift (quote_qualified_default table) in
     insert_rows phys (insert_sql qtable col_list (length columns)) (replicate (length columns) (DescI32 false))
       ps n (fill_i32 (DescI32 false) data)) w.
Proof.
  intros Hfit. unfold bulk_insert_i32. unfold bind at 1, lift at 1. rewrite (validate_i32_ok _ _ _ Hfit).
  destruct Hfit as [Hne Hl Hr]. destruct columns as [|name names]; [done|]. destruct Hr as [|c0 cols Hc0 Hr]; [discriminate Hl|].
  rewrite (proj2 (Z.eqb_neq _ _)) by (rewrite len_cons; pose proof (len_nonneg names); lia).
  unfold bind at 1, lift at 1. rewrite (index_lookup _ _ c0) by done. cbv zeta. by rewrite Hc0.
Qed.

Lemma fill_i32_ok data n s m :
  Forall (λ col : list Z, len col = n) data → Z.of_nat (s + m) ≤ n →
  fill_i32 (DescI32 false) data s m = Ok (map (rows_of s m) (map (map BInt) data)).
Proof.
  intros Hr Hs. unfold fill_i32. induction Hr as [|col cs Hc Hr IH]; [done|]. cbn [omap_list map]. rewrite IH.
  rewrite (as_slice_plain SI32 : as_slice (DescI32 false) _ = _), slice_rows by (unfold len in Hc; lia). cbn [obind].
  do 2 f_equal. unfold rows_of. by rewrite skipn_map, firstn_map.
Qed.

Lemma bulk_insert_i32_run ps phys table columns data n w :
  1 ≤ ps → i32_fit columns data n →
  ∃ h r k sql, runs (bulk_insert_i32 ps phys table columns data) w h r ∧ Forall (insert_event phys sql) h ∧
    inserted phys 0 n 0 (map (map BInt) data) h r k.
Proof.
  intros Hps Hfit. pose proof (bulk_insert_i32_unfold ps phys table _ _ _ w Hfit) as Hu. revert Hu.
  assert (0 ≤ n) as Hn.
  { destruct Hfit as [Hne Hl Hr]. destruct data as [|c cs]; [by destruct columns|]. inversion Hr; subst. apply len_nonneg. }
  destruct (Z.eqb_spec n 0) as [->|Hz]; intros Hu.
  { exists [], (Ok 0), 0, EmptyString. split; [eapply runs_eq; [exact Hu|apply runs_ret]|]. split; [done|]. split; [done|]. by split; [apply glue_nil|]. }
  assert (∀ (e : OdbcError), inserted phys 0 n 0 (map (map BInt) data) [] (Err e) 0) as Hs.
  { intros e. split; [lia|]. split; [apply glue_nil|lia]. }
  destruct (omap_list quote_identifier_default columns) as [qcols|e|] eqn:Hq.
  3: { by apply quote_all_no_panic in Hq. }
  2: { exists [], (Err e), 0, EmptyString. split; [|by split]. eapply runs_eq; [exact Hu|]. unfold quote_column_list; rewrite Hq. by apply runs_bind_err, runs_lift. }
  destruct (quote_qualified_default table) as [qtable|e|] eqn:Ht; [| |by apply quote_qualified_no_panic in Ht].
  2: { exists [], (Err e), 0, EmptyString. split; [|by split]. eapply runs_eq; [exact Hu|]. unfold quote_column_list; rewrite Hq.
       eapply runs_bind_nil; [apply runs_lift|]. by apply runs_bind_err, runs_lift. }
  set (sql := insert_sql qtable (join ", " qcols) (length columns)).
  destruct (insert_rows_run phys sql (replicate (length columns) (DescI32 false)) ps n
              (fill_i32 (DescI32 false) data) (map (map BInt) data) w) as (h & r & k & Hrun & He & Hi); [done|lia| |].
  { intros s e Hs1 Hs2. apply (fill_i32_ok _ n); [apply Hfit|lia]. }
  exists h, r, k, sql. split; [|by split]. eapply runs_eq; [exact Hu|]. unfold quote_column_list; rewrite Hq.
  eapply runs_bind_nil; [apply runs_lift|]. eapply runs_bind_nil; [apply runs_lift|]. exact Hrun.
Qed.
End I32.

(** Buffers that accept exactly what the documentation promises. *)
Definition plain_buffers : ColumnBuffers := {|
  as_slice := λ d k, bool_decide (d = scalar_desc k false);
  as_nullable_slice := λ d k, bool_decide (d = scalar_desc k true);
  as_text_view := λ d, match d with DescText _ => true | _ => false end;
  as_bin_view := λ d, match d with DescBinary _ => true | _ => false end;
  set_cell := λ d v, match d with DescText n | DescBinary n => len v <=? n | _ => false end;
  as_slice_plain := λ k, bool_decide_eq_true_2 _ eq_refl;
  as_nullable_slice_nullable := λ k, bool_decide_eq_true_2 _ eq_refl;
  as_text_view_text := λ n, eq_refl;
  as_bin_view_binary := λ n, eq_refl;
  set_cell_text := λ n v H, proj2 (Z.leb_le _ _) H;
  set_cell_binary := λ n v H, proj2 (Z.leb_le _ _) H
|}.

(** Three rows, the second one NULL in the first column. *)
Definition three_rows : BulkInsertPayload :=
  mkPayload "t" [mkSpec "a" BtI32 true 0; mkSpec "b" BtText false 2] 3
    [mkColData (CI32 [7; 0; -1]) (Some [x02]); mkColData (CText [[x61]; []; [x62; x63]] 2) None].

Lemma three_rows_fit : payload_fit three_rows.
Proof. split; repeat constructor; vm_compute; (reflexivity || discriminate). Qed.

Lemma bulk_insert_generic_spec_witness :
  (bulk_insert_generic (H := plain_buffers) (H0 := ok_driver) 2 0 three_rows sample_world).1 = Ok 3 ∧
  ∃ h r k, runs (bulk_insert_generic (H := plain_buffers) (H0 := ok_driver) 2 0 three_rows) sample_world h r ∧
    inserted 0 0 3 0 [[BInt 7; BNull; BInt (-1)]; [BBytes [x61]; BBytes []; BBytes [x62; x63]]] h r k ∧ insert_events 0 three_rows h.
Proof.
  split; [vm_compute; reflexivity|].
  exact (@bulk_insert_generic_spec plain_buffers ok_driver 2 0 three_rows sample_world ltac:(lia) three_rows_fit).
Defined.
