(* ===== verification/BulkLoad.v ===== *)
(** Bulk loading by a plugin (plugins/capabilities/bulk_loader.rs and the [BulkLoader] of Oracle,
    PostgreSQL and MySQL): the options, and an array insert with a batch size of the engine's own. *)

From S2P Require Import Prelude Wire Errors Text Identifier BulkInsert SqlText Plugins Handles ArrayBinding.

Record BulkLoadOptions := mkBulkLoadOptions {
  bo_batch_size : Z;
  null_marker : string;
  delimiter : ascii;
  bo_timeout_secs : option Z;
  keep_temp_on_failure : bool
}.

(** [BulkLoadOptions::new] *)
Definition bulk_options (batch_size : Z) : BulkLoadOptions :=
  mkBulkLoadOptions (Z.max batch_size 1) "\N" (chr 9) None false.

Definition bulk_options_default : BulkLoadOptions := bulk_options 10000.

(** [clamp(lo, hi)] of numbers. *)
Definition clamp (lo hi n : Z) : Z := if n <? lo then lo else if hi <? n then hi else n.

(** [technique] of the plugins that load in bulk; the others do not implement the trait. *)
Definition technique (p : PluginId) : option string :=
  match p with
  | Oracle => Some "direct_path_append"
  | Postgres | MySql => Some "array_binding_optimised"
  | _ => None
  end.

Section Load.
Context `{ColumnBuffers} `{Driver}.

Definition oracle_bulk (phys : Z) (payload : BulkInsertPayload) (options : BulkLoadOptions) : M Z :=
  let batch := clamp 1 5000 (bo_batch_size options) in
  bulk_insert_generic (new_binding batch) phys payload.

Definition postgres_bulk (phys : Z) (payload : BulkInsertPayload) (options : BulkLoadOptions) : M Z :=
  let batch := clamp 1 5000 (bo_batch_size options) in
  bulk_insert_generic (new_binding batch) phys payload.

Definition mysql_bulk (phys : Z) (payload : BulkInsertPayload) (options : BulkLoadOptions) : M Z :=
  let batch := clamp 1 2000 (bo_batch_size options) in
  bulk_insert_generic (new_binding batch) phys payload.

Definition execute_bulk_native (p : PluginId) : option (Z → BulkInsertPayload → BulkLoadOptions → M Z) :=
  match p with
  | Oracle => Some oracle_bulk
  | Postgres => Some postgres_bulk
  | MySql => Some mysql_bulk
  | _ => None
  end.

Lemma clamp_range lo hi n : lo ≤ hi → lo ≤ clamp lo hi n ≤ hi.
Proof. unfold clamp. destruct (Z.ltb_spec n lo), (Z.ltb_spec hi n); lia. Qed.

(** Whatever batch size the options ask for, zero and absurd ones included, a plugin that loads in
    bulk inserts a payload as the parser accepts it like any array insert: the quoted INSERT only,
    batches of at most 5000 rows that are, put together, a prefix of the rows, and all of them when it
    reports success. *)
Theorem bulk_native_spec (p : PluginId) (load : Z → BulkInsertPayload → BulkLoadOptions → M Z)
    (phys : Z) (payload : BulkInsertPayload) (options : BulkLoadOptions) (w : World) :
  execute_bulk_native p = Some load → payload_fit payload →
  is_Some (technique p) ∧
  (∃ batch, 1 ≤ batch ≤ 5000 ∧ load phys payload options = bulk_insert_generic batch phys payload) ∧
  ∃ h r k, runs (load phys payload options) w h r ∧
    inserted phys 0 (bp_row_count payload) 0 (map column_cells (bp_column_data payload)) h r k ∧ insert_events phys payload h.
Proof.
  intros Hl Hfit.
  assert (is_Some (technique p) ∧ ∃ hi, 1 ≤ hi ≤ 5000 ∧ load = λ phys payload options, bulk_insert_generic (new_binding (clamp 1 hi (bo_batch_size options))) phys payload) as (? & hi & Hhi & ->).
  { destruct p; try discriminate Hl; injection Hl as <-; (split; [by eexists|]); [exists 5000|exists 5000|exists 2000]; by (split; [lia|]). }
  pose proof (clamp_range 1 hi (bo_batch_size options) ltac:(lia)) as Hc. split; [done|]. unfold new_binding. split.
  - eexists. split; [|reflexivity]. lia.
  - apply bulk_insert_generic_run; [lia|done].
Qed.
End Load.

(** A batch size of zero is served with batches of one row. *)
Lemma bulk_native_spec_witness :
  (oracle_bulk (H := plain_buffers) (H0 := ok_driver) 0 three_rows (bulk_options 0) sample_world).1 = Ok 3 ∧
  is_Some (technique Oracle).
Proof.
  split; [vm_compute; reflexivity|].
  exact (proj1 (@bulk_native_spec plain_buffers ok_driver Oracle _ 0 three_rows (bulk_options 0) sample_world eq_refl three_rows_fit)).
Defined.
