(* ===== verification/BulkCopy.v ===== *)
(** Bulk copy of a payload into SQL Server (engine/core/bulk_copy.rs): the native path where there is one,
    and the array insert when it fails.

    The class [NativeBcp] is the interface of the native path: what the probe finds, and what its copy
    does.  Bcp.v, engine/core/sqlserver_bcp.rs, implements it. *)

From S2P Require Import Prelude Wire Errors Text BulkInsert Handles ArrayBinding.

Inductive BulkCopyFormat := Native | Character | Unicode.

(** How the engine is built: without the feature sqlserver-bcp, or with it, for Windows or for another system. *)
Inductive Build := Stub | BcpWindows | BcpOther.

Class NativeBcp := {
  bcp_probe : Result unit;
  bcp_execute : string → BulkInsertPayload → Z → M Z
}.

Definition is_sql_server_conn_str (conn_str : string) : bool :=
  let lowered := to_lowercase conn_str in
  str_contains "sql server" lowered || str_contains "odbc driver 17 for sql server" lowered || str_contains "odbc driver 18 for sql server" lowered
  || (str_contains "server=" lowered && str_contains "database=" lowered).

(** [raw] is the value of ODBC_ENABLE_UNSTABLE_NATIVE_BCP. *)
Definition is_native_bcp_runtime_enabled (raw : option string) : bool :=
  match raw with
  | Some raw => bool_decide (trim raw ∈ ["1"; "true"; "TRUE"; "yes"; "YES"])
  | None => false
  end.

Definition column_row_count (d : BulkColumnData) : Z :=
  match bc_cells d with
  | CI32 values | CI64 values => len values
  | CText rows _ | CBinary rows _ => len rows
  | CTimestamp values => len values
  end.

Fixpoint validate_columns (row_count idx : Z) (columns : list BulkColumnSpec) (data : list BulkColumnData) : Result unit :=
  match data with
  | [] => Ok tt
  | d :: data =>
      match columns with
      | [] => Panic
      | s :: columns =>
          let actual_rows := column_row_count d in
          if negb (actual_rows =? row_count) then
            Err (ValidationError ("Bulk insert payload column '" +:+ bs_name s +:+ "' (index " +:+ fmt_Z idx +:+ ") has " +:+ fmt_Z actual_rows
              +:+ " rows, expected " +:+ fmt_Z row_count))
          else validate_columns row_count (idx + 1) columns data
      end
  end.

Definition validate_payload (p : BulkInsertPayload) : Result unit :=
  if String.eqb (trim (bp_table p)) EmptyString then Err (ValidationError "Bulk insert payload table cannot be empty")
  else if len (bp_columns p) =? 0 then Err (ValidationError "Bulk insert payload must contain at least one column")
  else if negb (len (bp_column_data p) =? len (bp_columns p)) then
    Err (ValidationError ("Bulk insert payload column_data count (" +:+ fmt_Z (len (bp_column_data p))
      +:+ ") does not match columns count (" +:+ fmt_Z (len (bp_columns p)) +:+ ")"))
  else validate_columns (bp_row_count p) 0 (bp_columns p) (bp_column_data p).

Definition should_fallback_to_array_binding (e : OdbcError) : bool :=
  match e with
  | ValidationError _ | MalformedPayload _ | Cancelled | NoMoreResults => false
  | UnsupportedFeature _ | InternalError _ | OdbcApi _ | Structured _ _ _ | PoolError _ | InvalidHandle _ | EmptyConnectionString
  | EnvironmentNotInitialized | RollbackFailed _ => true
  | ResourceLimitReached _ | WorkerCrashed _ | BulkPartialFailure _ _ _ => false
  end.

Section Copy.
Context `{ColumnBuffers} `{Driver} `{NativeBcp} (build : Build) (raw : option string).

(** [BulkCopyExecutor::new(n).batch_size()] *)
Definition copy_batch_size (n : Z) : Z := match build with Stub => 0 | _ => Z.max n 1 end.

Definition try_native_sqlserver_bcp (batch_size : Z) (payload : BulkInsertPayload) (conn_str : option string) : M Z :=
  match build with
  | BcpWindows =>
      if negb (is_native_bcp_runtime_enabled raw) then
        lift (Err (UnsupportedFeature "Native SQL Server BCP is disabled by default due to known stability issues. Set ODBC_ENABLE_UNSTABLE_NATIVE_BCP=1 to enable experimental native path"))
      else
        let! _ := lift bcp_probe in
        match conn_str with
        | None => lift (Err (UnsupportedFeature "Native SQL Server BCP requires connection string for pre-connect SQL_COPT_SS_BCP; not available in this context"))
        | Some conn_str =>
            if negb (is_sql_server_conn_str conn_str) then
              lift (Err (UnsupportedFeature "Native SQL Server BCP path only applies to SQL Server connections"))
            else bcp_execute conn_str payload batch_size
        end
  | _ => lift (Err (UnsupportedFeature "Native SQL Server BCP is currently supported only on Windows builds"))
  end.

Definition bulk_copy_native (batch_size : Z) (payload : BulkInsertPayload) (conn_str : option string) : M Z :=
  let! _ := lift (validate_payload payload) in
  try_native_sqlserver_bcp batch_size payload conn_str.

Definition bulk_copy_from_memory (phys : Z) (table : string) (data : list (list byte)) : Result Z :=
  match build with
  | Stub => Err (InternalError "Enable 'sqlserver-bcp' feature for BCP support")
  | _ => Err (InternalError "bulk_copy_from_memory requires native BCP row bindings and is not implemented; use bulk_copy_from_payload")
  end.

(** The error of both paths. *)
Definition both_failed (native_error fallback_error : OdbcError) : OdbcError :=
  InternalError ("Bulk copy native failed ('" +:+ to_string native_error +:+ "'), and fallback ArrayBinding also failed ('"
    +:+ to_string fallback_error +:+ "')").

Definition array_fallback (batch_size phys : Z) (payload : BulkInsertPayload) (native_error : OdbcError) : M Z :=
  if negb (should_fallback_to_array_binding native_error) then lift (Err native_error)
  else
    let! r := try_m (bulk_insert_generic (new_binding batch_size) phys payload) in
    lift (match r with Err fallback_error => Err (both_failed native_error fallback_error) | r => r end).

Definition bulk_copy_from_payload (n phys : Z) (payload : BulkInsertPayload) (conn_str : option string) : M Z :=
  match build with
  | Stub => lift (Err (InternalError "Enable 'sqlserver-bcp' feature for BCP support"))
  | _ =>
      let batch_size := copy_batch_size n in
      if bp_row_count payload =? 0 then ret 0
      else
        let! r := try_m (bulk_copy_native batch_size payload conn_str) in
        match r with
        | Err native_error => array_fallback batch_size phys payload native_error
        | r => lift r
        end
  end.

(** * What reaches the table *)

Lemma cells_fit_count s n d : cells_fit s n (bc_cells d) → column_row_count d = Z.of_nat n.
Proof. intros [_ Hc]. unfold column_row_count, len. destruct (bc_cells d); destruct Hc as [<- _]; reflexivity. Qed.

Lemma validate_columns_fit rc specs data idx :
  0 ≤ rc → Forall2 (col_fit rc) specs data → validate_columns rc idx specs data = Ok tt.
Proof.
  intros Hrc HF. revert idx. induction HF as [|s d specs data [Hc _] _ IH]; intros idx; [done|]. cbn [validate_columns].
  rewrite (cells_fit_count _ _ _ Hc), Z2Nat.id, Z.eqb_refl by done. apply IH.
Qed.

(** A payload that the parser accepted is valid if it names a table and a column. *)
Lemma validate_fit p : payload_fit p → trim (bp_table p) ≠ EmptyString → bp_columns p ≠ [] → validate_payload p = Ok tt.
Proof.
  intros [_ _ _ _ [Hrc _] HF] Ht Hc. unfold validate_payload. destruct (String.eqb_spec (trim (bp_table p)) EmptyString) as [|_]; [done|].
  destruct (Z.eqb_spec (len (bp_columns p)) 0) as [Hz|_]; [by destruct (bp_columns p)|]. unfold len. rewrite (Forall2_length _ _ _ HF), Z.eqb_refl.
  cbn [negb]. by apply validate_columns_fit.
Qed.

(** A bulk copy of a parsed payload.  Whatever the native path does: if it succeeds, nothing else happens; if it
    fails with an error that is not retried, that is the answer; and with any other error the array
    insert starts from the first row, whatever rows the native path has left in the table, and ends as
    it does on its own, an error of its own reported together with the first. *)
Theorem bulk_copy_spec (n phys : Z) (p : BulkInsertPayload) (conn_str : option string) (w : World) (h0 : History) (r0 : Result Z) :
  build ≠ Stub → payload_fit p → trim (bp_table p) ≠ EmptyString → bp_columns p ≠ [] → bp_row_count p ≠ 0 →
  runs (try_native_sqlserver_bcp (copy_batch_size n) p conn_str) w h0 r0 →
  match r0 with
  | Err e =>
      if should_fallback_to_array_binding e then
        ∃ h r k, runs (bulk_copy_from_payload n phys p conn_str) w (h0 ++ h) (omap_err (both_failed e) r) ∧
          inserted phys 0 (bp_row_count p) 0 (map column_cells (bp_column_data p)) h r k ∧ insert_events phys p h
      else runs (bulk_copy_from_payload n phys p conn_str) w h0 (Err e)
  | r0 => runs (bulk_copy_from_payload n phys p conn_str) w h0 r0
  end.
Proof.
  intros Hb Hfit Ht Hc Hrc Hnative.
  assert (runs (bulk_copy_native (copy_batch_size n) p conn_str) w h0 r0) as Hn.
  { unfold bulk_copy_native. rewrite validate_fit by done. eapply runs_bind_nil; [apply runs_lift|exact Hnative]. }
  assert (bulk_copy_from_payload n phys p conn_str =
    (let! r := try_m (bulk_copy_native (copy_batch_size n) p conn_str) in
     match r with Err native_error => array_fallback (copy_batch_size n) phys p native_error | r => lift r end)) as Hdef.
  { unfold bulk_copy_from_payload. destruct build; [done|..]; by destruct (Z.eqb_spec (bp_row_count p) 0). }
  rewrite Hdef. clear Hdef. destruct r0 as [k|e|].
  - rewrite <- (app_nil_r h0). eapply runs_bind; [apply (runs_try _ w h0 (Ok k) ltac:(discriminate) Hn)|]. apply runs_lift.
  - pose proof (runs_try _ w h0 (Err e) ltac:(discriminate) Hn) as Htry. destruct (should_fallback_to_array_binding e) eqn:Ef.
    + destruct (bulk_insert_generic_run (new_binding (copy_batch_size n)) phys p (w_ext w h0)) as (h & r & k & Hrun & Hins & Hev); [unfold new_binding; lia|done|].
      exists h, r, k. split; [|done]. eapply runs_bind; [exact Htry|]. unfold array_fallback. rewrite Ef. cbn [negb].
      assert (r ≠ Panic) as Hr by (destruct Hins as (_ & _ & Hins); by destruct r).
      rewrite <- (app_nil_r h). eapply runs_bind; [apply runs_try; [exact Hr|exact Hrun]|]. destruct r; [apply runs_lift..|done].
    + rewrite <- (app_nil_r h0). eapply runs_bind; [exact Htry|]. unfold array_fallback. rewrite Ef. apply runs_lift.
  - unfold runs, bind, try_m in *. by rewrite Hn.
Qed.
End Copy.

(** A driver whose native path loads a row and then loses the connection. *)
Definition lossy_bcp : NativeBcp := {|
  bcp_probe := Ok tt;
  bcp_execute := λ _ _ _ w, (Err (OdbcApi "connection lost"), w_ext w [(0, CBatch [[BInt 7]; [BBytes [x61]]], true)])
|}.

(** Its row is inserted a second time, with all the others, and the copy reports three rows. *)
Lemma bulk_copy_spec_witness :
  let '(r, w) := bulk_copy_from_payload (H := plain_buffers) (H0 := ok_driver) (H1 := lossy_bcp) BcpWindows (Some "1") 100 0 three_rows (Some "Driver={SQL Server}") sample_world in
  r = Ok 3 ∧ ∃ h r k,
    runs (bulk_copy_from_payload (H := plain_buffers) (H0 := ok_driver) (H1 := lossy_bcp) BcpWindows (Some "1") 100 0 three_rows (Some "Driver={SQL Server}"))
      sample_world ([(0, CBatch [[BInt 7]; [BBytes [x61]]], true)] ++ h) (omap_err (both_failed (OdbcApi "connection lost")) r) ∧
    inserted 0 0 3 0 (map column_cells (bp_column_data three_rows)) h r k ∧ insert_events 0 three_rows h.
Proof.
  split; [vm_compute; reflexivity|].
  apply (@bulk_copy_spec plain_buffers ok_driver lossy_bcp BcpWindows (Some "1") 100 0 three_rows (Some "Driver={SQL Server}") sample_world
    [(0, CBatch [[BInt 7]; [BBytes [x61]]], true)] (Err (OdbcApi "connection lost"))); [discriminate|exact three_rows_fit|vm_compute; discriminate..|].
  vm_compute. reflexivity.
Defined.

(** A batch size of zero is one row at a time; on other systems the copy is the array insert. *)
Example other_build :
  (bulk_copy_from_payload (H := plain_buffers) (H0 := ok_driver) (H1 := lossy_bcp) BcpOther (Some "1") 0 0 three_rows None sample_world).1 = Ok 3.
Proof. vm_compute. reflexivity. Qed.
