(* ===== verification/Bcp.v ===== *)
(** The native bulk copy of SQL Server (engine/core/sqlserver_bcp.rs): a connection of its own, through the
    functions bcp_* of the client library, which takes integer columns only.

    The library, the driver manager and the server are not the engine's: the class [BcpLibrary] says which
    files and symbols are found, and what every call answers, for all the calls made so far.  Texts go
    to them as NUL-terminated UTF-16; here a call carries the text itself. *)

From S2P Require Import Prelude Wire Errors Text BulkInsert Handles ArrayBinding BulkCopy.

Definition CANDIDATE_LIBRARIES : list string := ["sqlncli11.dll"; "msodbcsql17.dll"; "msodbcsql18.dll"].

Definition REQUIRED_SYMBOL_SETS : list (list string) :=
  [["bcp_initW"; "bcp_init"]; ["bcp_bind"]; ["bcp_collen"]; ["bcp_sendrow"]; ["bcp_done"]].

Definition SQLINT4 : Z := 56.
Definition SQLINT8 : Z := 127.
Definition SQL_NULL_DATA : Z := -1.

(** Handles are numbers, 0 the null handle; a row is sent as the cells bound hold it. *)
Inductive BcpCall :=
| AllocEnv
| SetVersion (env : Z)
| AllocDbc (env : Z)
| SetBcpAttr (dbc : Z)
| DriverConnect (dbc : Z) (conn_str : string)
| BcpInit (dbc : Z) (table : string)
| BcpBind (dbc cb_data e_data_type col : Z)
| BcpCollen (dbc cb_data col : Z)
| BcpSendRow (dbc : Z) (cells : list Z)
| BcpDone (dbc : Z)
| Disconnect (dbc : Z)
| FreeDbc (dbc : Z)
| FreeEnv (env : Z).

(** A call, its return code, and the handle it yields. *)
Abbreviation BcpTrace := (list (BcpCall * (Z * Z))).

Class BcpLibrary := {
  bl_library : string → option string;
  bl_symbol : string → string → bool;
  bl_answer : History → BcpTrace → BcpCall → Z * Z
}.

(** * Columns *)

Inductive BoundColumnRef :=
| BoundI32 (values : list Z) (null_bitmap : option (list byte))
| BoundI64 (values : list Z) (null_bitmap : option (list byte)).

Definition bound_values (c : BoundColumnRef) : list Z := match c with BoundI32 values _ | BoundI64 values _ => values end.
Definition bound_bitmap (c : BoundColumnRef) : option (list byte) := match c with BoundI32 _ bm | BoundI64 _ bm => bm end.

Definition bound_len (c : BoundColumnRef) : Z := len (bound_values c).

(** The size and the type code that [bcp_bind] is given. *)
Definition bind_args (c : BoundColumnRef) : Z * Z := match c with BoundI32 _ _ => (4, SQLINT4) | BoundI64 _ _ => (8, SQLINT8) end.

Definition null_row (c : BoundColumnRef) (row_idx : nat) : Result bool :=
  match bound_bitmap c with Some bm => is_null bm (Z.of_nat row_idx) | None => Ok false end.

(** The cell after [write_row]. *)
Definition write_row (c : BoundColumnRef) (row_idx : nat) : Result Z :=
  let? null := null_row c row_idx in
  if null then Ok 0 else match bound_values c !! row_idx with Some v => Ok v | None => Panic end.

Definition row_collen_for_bcp (c : BoundColumnRef) (row_idx : nat) : Result Z :=
  let? null := null_row c row_idx in
  Ok (if null then SQL_NULL_DATA else (bind_args c).1).

Definition validate_null_bitmap (bitmap : option (list byte)) (row_count : Z) (column_name : string) : Result (option (list byte)) :=
  match bitmap with
  | None => Ok None
  | Some bitmap =>
      let expected := div_ceil row_count 8 in
      if negb (len bitmap =? expected) then
        Err (ValidationError ("Native BCP null bitmap size mismatch for column '" +:+ column_name +:+ "': got " +:+ fmt_Z (len bitmap)
          +:+ ", expected " +:+ fmt_Z expected))
      else Ok (Some bitmap)
  end.

Definition bulk_type_name (t : BulkColumnType) : string :=
  match t with
  | BtI32 => "I32" | BtI64 => "I64" | BtText => "Text" | BtDecimal => "Decimal" | BtBinary => "Binary" | BtTimestamp => "Timestamp"
  end.

Definition bound_column (spec : BulkColumnSpec) (data : BulkColumnData) : Result BoundColumnRef :=
  match bs_type spec, bc_cells data with
  | BtI32, CI32 values => let? bm := validate_null_bitmap (bc_null_bitmap data) (len values) (bs_name spec) in Ok (BoundI32 values bm)
  | BtI64, CI64 values => let? bm := validate_null_bitmap (bc_null_bitmap data) (len values) (bs_name spec) in Ok (BoundI64 values bm)
  | (BtI32 | BtI64), _ => Err (UnsupportedFeature ("Native BCP currently requires matching payload type for '" +:+ bs_name spec +:+ "'"))
  | t, _ => Err (UnsupportedFeature ("Native BCP currently supports only I32/I64 columns; '" +:+ bs_name spec +:+ "' uses " +:+ bulk_type_name t))
  end.

Definition build_bound_columns (p : BulkInsertPayload) : Result (list BoundColumnRef) :=
  if negb (len (bp_column_data p) =? len (bp_columns p)) then
    Err (ValidationError ("Native BCP payload mismatch: " +:+ fmt_Z (len (bp_columns p)) +:+ " columns vs " +:+ fmt_Z (len (bp_column_data p))
      +:+ " data blocks"))
  else omap_list (λ x, bound_column x.1 x.2) (combine (bp_columns p) (bp_column_data p)).

(** The loop that checks the lengths. *)
Fixpoint check_lengths (row_count : Z) (idx : Z) (cols : list BoundColumnRef) : Result unit :=
  match cols with
  | [] => Ok tt
  | c :: cols =>
      if negb (bound_len c =? row_count) then
        Err (ValidationError ("Native BCP payload column " +:+ fmt_Z idx +:+ " has " +:+ fmt_Z (bound_len c) +:+ " rows, expected " +:+ fmt_Z row_count))
      else check_lengths row_count (idx + 1) cols
  end.

Section Bcp.
Context `{BcpLibrary}.

(** * Libraries and symbols *)

Definition probe_library (name : string) : Result unit :=
  match bl_library name with
  | Some err => Err (UnsupportedFeature ("failed to load library '" +:+ name +:+ "': " +:+ err))
  | None =>
      match List.find (λ symbols, negb (existsb (bl_symbol name) symbols)) REQUIRED_SYMBOL_SETS with
      | Some symbols => Err (UnsupportedFeature ("library '" +:+ name +:+ "' missing required symbol(s): " +:+ join " or " symbols))
      | None => Ok tt
      end
  end.

Fixpoint probe_loop (candidates load_errors : list string) : Result unit :=
  match candidates with
  | [] => Err (UnsupportedFeature ("Unable to load SQL Server BCP libraries from PATH. Tried: " +:+ join " | " load_errors))
  | c :: candidates =>
      match probe_library c with
      | Err e => probe_loop candidates (load_errors ++ [c +:+ ": " +:+ to_string e])
      | r => r
      end
  end.

Definition probe_native_bcp_support : Result unit := probe_loop CANDIDATE_LIBRARIES [].

(** The first library that loads, whatever symbols it has. *)
Fixpoint load_loop (candidates errors : list string) : Result string :=
  match candidates with
  | [] => Err (UnsupportedFeature ("Unable to load SQL Server BCP library. Tried: " +:+ join " | " errors))
  | c :: candidates =>
      match bl_library c with
      | None => Ok c
      | Some err => load_loop candidates (errors ++ [c +:+ ": " +:+ err])
      end
  end.

Definition load_bcp_library : Result string := load_loop CANDIDATE_LIBRARIES [].

Definition get_symbol (lib : string) (names : list string) : Result string :=
  match List.find (bl_symbol lib) names with
  | Some name => Ok name
  | None => Err (UnsupportedFeature ("Required BCP symbol not found: " +:+ join " or " names))
  end.

(** * The copy *)

Context (past : History).

Definition E (A : Type) : Type := BcpTrace → Result A * BcpTrace.

Definition e_ret {A : Type} (r : Result A) : E A := λ t, (r, t).

Definition e_bind {A B : Type} (m : E A) (k : A → E B) : E B := λ t,
  match m t with
  | (Ok a, t) => k a t
  | (Err e, t) => (Err e, t)
  | (Panic, t) => (Panic, t)
  end.

Notation "'let%' x ':=' m 'in' k" := (e_bind m (λ x, k)) (at level 10, x binder, m at level 100, k at level 200).

Definition bcp (c : BcpCall) : E (Z * Z) := λ t, let a := bl_answer past t c in (Ok a, t ++ [(c, a)]).

Definition sql_ok (rc : Z) : bool := (rc =? 0) || (rc =? 1).

Definition ensure_success (rc : Z) (step : string) : Result unit :=
  if sql_ok rc then Ok tt else Err (InternalError (step +:+ " failed with SQL return code " +:+ fmt_Z rc)).

(** The calls that clean up, none for a null handle. *)
Definition free_env_silent (env : Z) : E unit := if env =? 0 then e_ret (Ok tt) else let% _ := bcp (FreeEnv env) in e_ret (Ok tt).

Definition disconnect_and_free_silent (dbc env : Z) : E unit :=
  let% _ := (if dbc =? 0 then e_ret (Ok tt) else
               let% _ := bcp (Disconnect dbc) in
               let% _ := bcp (FreeDbc dbc) in
               e_ret (Ok tt)) in
  free_env_silent env.

(** [if failed { cleanup; return Err(..) }] *)
Definition or_cleanup {A : Type} (r : Result A) (cleanup : E unit) : E A := λ t,
  match r with
  | Err e => (Err e, (cleanup t).2)
  | r => (r, t)
  end.

(** An ODBC call that must succeed, and a bcp_* call that must not answer 0. *)
Definition sql_step (c : BcpCall) (step : string) (cleanup : E unit) : E Z :=
  let% a := bcp c in
  let% _ := or_cleanup (ensure_success a.1 step) cleanup in
  e_ret (Ok a.2).

Definition bcp_step (c : BcpCall) (message : string) (cleanup : E unit) : E unit :=
  let% a := bcp c in
  or_cleanup (if a.1 =? 0 then Err (InternalError message) else Ok tt) cleanup.

Fixpoint bind_columns (dbc env idx : Z) (cols : list BoundColumnRef) : E unit :=
  match cols with
  | [] => e_ret (Ok tt)
  | c :: cols =>
      let '(cb_data, e_data_type) := bind_args c in
      let% _ := bcp_step (BcpBind dbc cb_data e_data_type (idx + 1))
        ("bcp_bind failed for native BCP execution at column " +:+ fmt_Z (idx + 1)) (disconnect_and_free_silent dbc env) in
      bind_columns dbc env (idx + 1) cols
  end.

(** The columns of a row: the cell is written, then its length announced. *)
Fixpoint row_columns (dbc env : Z) (row_idx : nat) (idx : Z) (cols : list BoundColumnRef) : E (list Z) :=
  match cols with
  | [] => e_ret (Ok [])
  | c :: cols =>
      let% cell := e_ret (write_row c row_idx) in
      let% collen := e_ret (row_collen_for_bcp c row_idx) in
      let% _ := bcp_step (BcpCollen dbc collen (idx + 1))
        ("bcp_collen failed during native BCP execution at row " +:+ fmt_Z (Z.of_nat row_idx) +:+ " column " +:+ fmt_Z (idx + 1))
        (disconnect_and_free_silent dbc env) in
      let% cells := row_columns dbc env row_idx (idx + 1) cols in
      e_ret (Ok (cell :: cells))
  end.

Fixpoint send_rows (dbc env : Z) (rows : list nat) (cols : list BoundColumnRef) : E unit :=
  match rows with
  | [] => e_ret (Ok tt)
  | row_idx :: rows =>
      let% cells := row_columns dbc env row_idx 0 cols in
      let% _ := bcp_step (BcpSendRow dbc cells)
        ("bcp_sendrow failed at row " +:+ fmt_Z (Z.of_nat row_idx) +:+ " during native BCP execution") (disconnect_and_free_silent dbc env) in
      send_rows dbc env rows cols
  end.

Definition execute_native_bcp (conn_str : string) (p : BulkInsertPayload) (batch_size : Z) : E Z :=
  match bp_columns p with
  | [] => e_ret (Ok 0)
  | _ =>
      let% cols := e_ret (build_bound_columns p) in
      let% _ := e_ret (check_lengths (bp_row_count p) 0 cols) in
      let% lib := e_ret load_bcp_library in
      let% _ := e_ret (get_symbol lib ["bcp_initW"]) in
      let% _ := e_ret (get_symbol lib ["bcp_bind"]) in
      let% _ := e_ret (get_symbol lib ["bcp_collen"]) in
      let% _ := e_ret (get_symbol lib ["bcp_sendrow"]) in
      let% _ := e_ret (get_symbol lib ["bcp_done"]) in
      let% env := sql_step AllocEnv "SQLAllocHandle(SQL_HANDLE_ENV)" (e_ret (Ok tt)) in
      let% _ := sql_step (SetVersion env) "SQLSetEnvAttr(SQL_ATTR_ODBC_VERSION)" (free_env_silent env) in
      let% dbc := sql_step (AllocDbc env) "SQLAllocHandle(SQL_HANDLE_DBC)" (free_env_silent env) in
      let% _ := sql_step (SetBcpAttr dbc) "SQLSetConnectAttr(SQL_COPT_SS_BCP)" (disconnect_and_free_silent dbc env) in
      let% _ := sql_step (DriverConnect dbc conn_str) "SQLDriverConnectW" (disconnect_and_free_silent dbc env) in
      let% _ := bcp_step (BcpInit dbc (bp_table p)) "bcp_initW failed for native BCP execution" (disconnect_and_free_silent dbc env) in
      let% _ := bind_columns dbc env 0 cols in
      let% _ := send_rows dbc env (seq 0 (Z.to_nat (bp_row_count p))) cols in
      let% done_rows := bcp (BcpDone dbc) in
      if done_rows.1 <? 0 then or_cleanup (Err (InternalError "bcp_done failed during native BCP execution")) (disconnect_and_free_silent dbc env)
      else
        let% _ := disconnect_and_free_silent dbc env in
        e_ret (Ok done_rows.1)
  end.
End Bcp.

(** The native path of the bulk copy: its own calls, from the state of the process at that point. *)
Definition native_bcp `{BcpLibrary} : NativeBcp := {|
  bcp_probe := probe_native_bcp_support;
  bcp_execute := λ conn_str p batch_size w, ((execute_native_bcp (w_trace w) conn_str p batch_size []).1, w)
|}.

(** * What the server has, and what is still held *)

(** The server keeps the length announced last for each column, and takes a row with them: a column whose
    length is that of NULL is NULL. *)
Record Server := mkServer { sv_lens : gmap Z Z; sv_rows : list (list BindCell) }.

Definition server_step (s : Server) (c : BcpCall * (Z * Z)) : Server :=
  match c.1 with
  | BcpCollen _ l col => if c.2.1 =? 0 then s else mkServer (<[col := l]> (sv_lens s)) (sv_rows s)
  | BcpSendRow _ cells =>
      if c.2.1 =? 0 then s
      else mkServer (sv_lens s) (sv_rows s ++ [imap (λ i v, if decide (sv_lens s !! (Z.of_nat i + 1) = Some SQL_NULL_DATA) then BNull else BInt v) cells])
  | _ => s
  end.

Definition server (t : BcpTrace) : Server := fold_left server_step t (mkServer ∅ []).

Inductive Resource := EnvHandle (n : Z) | DbcHandle (n : Z).

#[global] Instance Resource_eq_dec : EqDecision Resource.
Proof. solve_decision. Defined.

(** The handles allocated and not freed. *)
Definition hold_step (h : list Resource) (c : BcpCall * (Z * Z)) : list Resource :=
  match c.1 with
  | AllocEnv => if sql_ok c.2.1 && negb (c.2.2 =? 0) then EnvHandle c.2.2 :: h else h
  | AllocDbc _ => if sql_ok c.2.1 && negb (c.2.2 =? 0) then DbcHandle c.2.2 :: h else h
  | FreeEnv n => filter (λ r, r ≠ EnvHandle n) h
  | FreeDbc n => filter (λ r, r ≠ DbcHandle n) h
  | _ => h
  end.

Definition held (t : BcpTrace) : list Resource := fold_left hold_step t [].

Lemma server_app t c : server (t ++ [c]) = server_step (server t) c.
Proof. unfold server. by rewrite fold_left_app. Qed.

Lemma held_app t c : held (t ++ [c]) = hold_step (held t) c.
Proof. unfold held. by rewrite fold_left_app. Qed.

Definition owned_env (env : Z) : list Resource := if env =? 0 then [] else [EnvHandle env].
Definition owned (env dbc : Z) : list Resource := (if dbc =? 0 then [] else [DbcHandle dbc]) ++ owned_env env.

Section Spec.
Context `{BcpLibrary} (past : History).

(** A program leads from a trace to a result and a trace of which [Q] holds. *)
Definition wpe {A : Type} (m : E A) (t : BcpTrace) (Q : Result A → BcpTrace → Prop) : Prop := let '(r, t') := m t in Q r t'.

Lemma wpe_bind {A B : Type} (m : E A) (k : A → E B) t Q :
  wpe m t (λ r t', match r with Ok a => wpe (k a) t' Q | Err e => Q (Err e) t' | Panic => Q Panic t' end) → wpe (e_bind m k) t Q.
Proof. unfold wpe, e_bind. by destruct (m t) as [[a|e|] t']. Qed.

Lemma wpe_ret {A : Type} (r : Result A) t (Q : Result A → BcpTrace → Prop) : Q r t → wpe (e_ret r) t Q.
Proof. done. Qed.

Lemma wpe_bcp c t (Q : Result (Z * Z) → BcpTrace → Prop) : (∀ a, Q (Ok a) (t ++ [(c, a)])) → wpe (bcp past c) t Q.
Proof. intros HQ. apply HQ. Qed.

Lemma wpe_mono {A : Type} (m : E A) t (Q Q' : Result A → BcpTrace → Prop) : wpe m t Q → (∀ r t', Q r t' → Q' r t') → wpe m t Q'.
Proof. unfold wpe. destruct (m t) as [r t']. eauto. Qed.

(** Two traces after which the server has the same. *)
Definition same_rows (t t' : BcpTrace) : Prop := sv_rows (server t') = sv_rows (server t).

#[local] Instance same_rows_preorder : PreOrder same_rows.
Proof. split; [intros t; reflexivity|intros a b c Ha Hb; unfold same_rows in *; congruence]. Qed.

(** The end of a step that failed: nothing is held. *)
Definition cleaned (t0 t : BcpTrace) : Prop := held t = [] ∧ same_rows t0 t.

Lemma free_env_spec env t : held t = owned_env env → wpe (free_env_silent past env) t (λ r t', r = Ok tt ∧ cleaned t t').
Proof.
  intros Hh. unfold free_env_silent, owned_env in *. destruct (Z.eqb_spec env 0) as [->|Hne]; [by split; [done|split]|].
  apply wpe_bind, wpe_bcp. intros a. apply wpe_ret. split; [done|]. split; [|unfold same_rows; by rewrite server_app].
  rewrite held_app, Hh. unfold hold_step; cbn [fst]. rewrite filter_cons_False by (intros Hc; by apply Hc). done.
Qed.

Lemma cleanup_spec dbc env t : held t = owned env dbc → wpe (disconnect_and_free_silent past dbc env) t (λ r t', r = Ok tt ∧ cleaned t t').
Proof.
  intros Hh. unfold disconnect_and_free_silent, owned in *. apply wpe_bind. destruct (Z.eqb_spec dbc 0) as [->|Hne].
  { apply wpe_ret. by apply free_env_spec. }
  apply wpe_bind, wpe_bcp. intros a1. apply wpe_bind, wpe_bcp. intros a2. apply wpe_ret.
  eapply wpe_mono; [apply free_env_spec|].
  - rewrite !held_app, Hh. unfold hold_step; cbn [fst app]. rewrite filter_cons_False by (intros Hc; by apply Hc).
    unfold owned_env. destruct (env =? 0); [done|]. by rewrite filter_cons_True.
  - intros r t' [-> [H1 H2]]. split; [done|]. split; [done|]. etrans; [|exact H2]. unfold same_rows. by rewrite !server_app.
Qed.

(** A step that fails cleans up; one that succeeds has made its call. *)
Lemma sql_step_spec c step cleanup t Q :
  (∀ rc out, sql_ok rc = true → Q (Ok out) (t ++ [(c, (rc, out))])) →
  (∀ rc out, sql_ok rc = false → wpe cleanup (t ++ [(c, (rc, out))]) (λ _ t', ∀ e, Q (Err e) t')) →
  wpe (sql_step past c step cleanup) t Q.
Proof.
  intros Hok Hbad. unfold sql_step, wpe, e_bind, bcp, or_cleanup, e_ret, ensure_success. destruct (bl_answer past t c) as [rc out]. cbn [fst snd].
  specialize (Hok rc out). specialize (Hbad rc out). destruct (sql_ok rc); [by apply Hok|]. unfold wpe in Hbad. specialize (Hbad eq_refl).
  destruct (cleanup _) as [r t']. cbn. apply Hbad.
Qed.

Lemma bcp_step_spec c message cleanup t Q :
  (∀ rc out, (rc =? 0) = false → Q (Ok tt) (t ++ [(c, (rc, out))])) →
  (∀ out, wpe cleanup (t ++ [(c, (0, out))]) (λ _ t', ∀ e, Q (Err e) t')) →
  wpe (bcp_step past c message cleanup) t Q.
Proof.
  intros Hok Hbad. unfold bcp_step, wpe, e_bind, bcp, or_cleanup. destruct (bl_answer past t c) as [rc out]. cbn [fst].
  specialize (Hok rc out). destruct (Z.eqb_spec rc 0) as [->|Hne]; [|by apply Hok]. specialize (Hbad out). unfold wpe in Hbad.
  destruct (cleanup _) as [r t']. cbn. apply Hbad.
Qed.

(** * The rows *)

(** The cell of a row, as it should arrive. *)
Definition bound_cell (c : BoundColumnRef) (r : nat) : BindCell :=
  if null_at (bound_bitmap c) r then BNull else BInt (default 0 (bound_values c !! r)).

Definition column_ok (n : Z) (c : BoundColumnRef) : Prop :=
  bound_len c = n ∧ match bound_bitmap c with Some bm => len bm = null_bitmap_size n | None => True end.

Lemma column_row n c r : column_ok n c → Z.of_nat r < n →
  ∃ v, write_row c r = Ok v ∧ row_collen_for_bcp c r = Ok (if null_at (bound_bitmap c) r then SQL_NULL_DATA else (bind_args c).1) ∧
    bound_cell c r = if null_at (bound_bitmap c) r then BNull else BInt v.
Proof.
  intros [Hl Hb] Hr. assert (null_row c r = Ok (null_at (bound_bitmap c) r)) as Hn.
  { unfold null_row, null_at. destruct (bound_bitmap c) as [bm|]; [|done]. apply (is_null_bit bm n); [done|lia]. }
  unfold write_row, row_collen_for_bcp, bound_cell. rewrite Hn. cbn [obind]. destruct (null_at (bound_bitmap c) r); [by eexists|].
  assert (r < length (bound_values c))%nat as Hlt by (unfold bound_len, len in Hl; lia).
  apply lookup_lt_is_Some in Hlt as [v ->]. by exists v.
Qed.

Definition announced (c : BoundColumnRef) (r : nat) : Z := if null_at (bound_bitmap c) r then SQL_NULL_DATA else (bind_args c).1.

Definition written (c : BoundColumnRef) (r : nat) (v : Z) : Prop := bound_cell c r = if null_at (bound_bitmap c) r then BNull else BInt v.

Lemma row_columns_spec n dbc env r idx cols t :
  Forall (column_ok n) cols → Z.of_nat r < n → 0 ≤ idx → held t = owned env dbc →
  wpe (row_columns past dbc env r idx cols) t (λ res t',
    match res with
    | Ok cells =>
        held t' = owned env dbc ∧ same_rows t t' ∧ Forall2 (λ c v, written c r v) cols cells ∧
        (∀ i c, cols !! i = Some c → sv_lens (server t') !! (idx + Z.of_nat i + 1) = Some (announced c r)) ∧
        (∀ j, j ≤ idx → sv_lens (server t') !! j = sv_lens (server t) !! j)
    | Err _ => cleaned t t'
    | Panic => False
    end).
Proof.
  intros Hc Hr. revert idx t. induction Hc as [|c cols Hc _ IH]; intros idx t Hi Hh; cbn [row_columns].
  { apply wpe_ret. split_and!; try done; constructor. }
  destruct (column_row n c r Hc Hr) as (v & Hv & Hl & Hcell). fold (announced c r) in Hl. apply wpe_bind, wpe_ret. rewrite Hv.
  apply wpe_bind, wpe_ret. rewrite Hl. apply wpe_bind. apply bcp_step_spec.
  - intros rc out Hrc. set (t1 := t ++ [_]). apply wpe_bind. eapply wpe_mono; [apply (IH (idx + 1) t1); [lia|]|].
    { unfold t1. by rewrite held_app. }
    assert (server t1 = mkServer (<[idx + 1 := announced c r]> (sv_lens (server t))) (sv_rows (server t))) as Hs1.
    { unfold t1. rewrite server_app. unfold server_step. cbn [fst snd]. by rewrite Hrc. }
    assert (same_rows t t1) as Hsame by (unfold same_rows; by rewrite Hs1).
    intros [cells|e|] t' Hres; [|destruct Hres as [? ?]; split; [done|by etrans]|done].
    destruct Hres as (H1 & H2 & H3 & H4 & H5). apply wpe_ret. split_and!; [done|by etrans|by constructor| |].
    + intros [|i] c' Hc'; cbn in Hc'.
      * injection Hc' as ->. rewrite Z.add_0_r, H5 by lia. rewrite Hs1. cbn. by rewrite lookup_insert_eq.
      * specialize (H4 i c' Hc'). by replace (idx + Z.of_nat (S i) + 1) with (idx + 1 + Z.of_nat i + 1) by lia.
    + intros j Hj. rewrite H5 by lia. rewrite Hs1. cbn. by rewrite lookup_insert_ne by lia.
  - intros out. eapply wpe_mono; [apply cleanup_spec; by rewrite held_app|].
    intros _ t' [_ [H1 H2]] e. split; [done|]. etrans; [|exact H2]. unfold same_rows. by rewrite server_app.
Qed.

Lemma bind_columns_spec dbc env idx cols t : held t = owned env dbc →
  wpe (bind_columns past dbc env idx cols) t (λ res t',
    match res with Ok _ => held t' = owned env dbc ∧ same_rows t t' | Err _ => cleaned t t' | Panic => False end).
Proof.
  revert idx t. induction cols as [|c cols IH]; intros idx t Hh; cbn [bind_columns].
  { apply wpe_ret. by split. }
  destruct (bind_args c) as [cb ty]. apply wpe_bind, bcp_step_spec.
  - intros rc out Hrc. set (t1 := t ++ [_]). assert (same_rows t t1) as Hs by (unfold same_rows, t1; by rewrite server_app).
    eapply wpe_mono; [apply (IH (idx + 1) t1); unfold t1; by rewrite held_app|].
    intros [|e|] t' Hres; [|destruct Hres as [? ?]; split; [done|by etrans]|done]. destruct Hres as [? ?]. split; [done|by etrans].
  - intros out. eapply wpe_mono; [apply cleanup_spec; by rewrite held_app|].
    intros _ t' [_ [H1 H2]] e. split; [done|]. etrans; [|exact H2]. unfold same_rows. by rewrite server_app.
Qed.

(** The row the server takes is the row of the columns. *)
Lemma sent_row s cols cells r :
  Forall2 (λ c v, written c r v) cols cells →
  (∀ i c, cols !! i = Some c → sv_lens s !! (Z.of_nat i + 1) = Some (announced c r)) →
  imap (λ i v, if decide (sv_lens s !! (Z.of_nat i + 1) = Some SQL_NULL_DATA) then BNull else BInt v) cells = map (λ c, bound_cell c r) cols.
Proof.
  intros HF Hl. apply list_eq. intros i. rewrite list_lookup_imap. change (map ?f cols) with (f <$> cols). rewrite list_lookup_fmap.
  destruct (cols !! i) as [c|] eqn:Hc.
  - destruct (Forall2_lookup_l _ _ _ _ _ HF Hc) as (v & -> & Hw). cbn. f_equal. rewrite Hw. rewrite (Hl i c Hc).
    unfold announced. destruct (null_at (bound_bitmap c) r); [by rewrite decide_True|]. rewrite decide_False; [done|]. by destruct c.
  - apply lookup_ge_None in Hc. rewrite (Forall2_length _ _ _ HF) in Hc. apply lookup_ge_None in Hc. by rewrite Hc.
Qed.

Lemma send_rows_spec n dbc env rows cols t :
  Forall (column_ok n) cols → Forall (λ r, Z.of_nat r < n) rows → held t = owned env dbc →
  wpe (send_rows past dbc env rows cols) t (λ res t',
    match res with
    | Ok _ => held t' = owned env dbc ∧ sv_rows (server t') = sv_rows (server t) ++ map (λ r, map (λ c, bound_cell c r) cols) rows
    | Err _ => held t' = [] ∧ ∃ k, (k < length rows)%nat ∧ sv_rows (server t') = sv_rows (server t) ++ map (λ r, map (λ c, bound_cell c r) cols) (take k rows)
    | Panic => False
    end).
Proof.
  intros Hc Hr. revert t. induction Hr as [|r rows Hr _ IH]; intros t Hh; cbn [send_rows].
  { apply wpe_ret. split; [done|]. by rewrite app_nil_r. }
  apply wpe_bind. eapply wpe_mono; [by apply (row_columns_spec n)|]. intros [cells|e|] t1 Hres; [|destruct Hres as [? ->]; split; [done|exists 0%nat]; cbn; split; [lia|by rewrite app_nil_r]|done].
  destruct Hres as (H1 & H2 & H3 & H4 & _). apply wpe_bind, bcp_step_spec.
  - intros rc out Hrc. set (t2 := t1 ++ [_]).
    assert (sv_rows (server t2) = sv_rows (server t) ++ [map (λ c, bound_cell c r) cols]) as Hs2.
    { unfold t2. rewrite server_app. unfold server_step. cbn [fst snd]. rewrite Hrc. cbn [sv_rows]. rewrite (sent_row _ cols cells r H3 H4). by rewrite H2. }
    eapply wpe_mono; [apply (IH t2); unfold t2; by rewrite held_app|]. rewrite Hs2.
    intros [|e|] t' Hres; [|destruct Hres as (Hh' & k & Hk & Hrows); split; [done|exists (S k)]; cbn; split; [lia|by rewrite Hrows, <- app_assoc]|done].
    destruct Hres as [Hh' Hrows]. split; [done|]. by rewrite Hrows, <- app_assoc.
  - intros out. eapply wpe_mono; [apply cleanup_spec; by rewrite held_app|].
    intros _ t' [_ [H5 H6]] e. split; [done|]. exists 0%nat. cbn. split; [lia|]. rewrite app_nil_r, H6, server_app. unfold server_step. by rewrite <- H2.
Qed.

(** * The columns of a payload *)

(** A row of the payload. *)
Definition payload_row (p : BulkInsertPayload) (r : nat) : list BindCell := map (λ d, default BNull (column_cells d !! r)) (bp_column_data p).

Lemma bound_column_ok s d c : bound_column s d = Ok c →
  column_ok (bound_len c) c ∧ ∀ r, Z.of_nat r < bound_len c → bound_cell c r = default BNull (column_cells d !! r).
Proof.
  intros Hb.
  assert (∃ values bm, (c = BoundI32 values bm ∧ bc_cells d = CI32 values ∨ c = BoundI64 values bm ∧ bc_cells d = CI64 values) ∧
            validate_null_bitmap (bc_null_bitmap d) (len values) (bs_name s) = Ok bm) as (values & bm & Hc & Hv).
  { unfold bound_column in Hb. destruct (bs_type s); try discriminate; destruct (bc_cells d) eqn:Ec; try discriminate;
      apply obind_Ok_inv in Hb as (bm & Hv & [= <-]); eexists _, _; (split; [eauto|exact Hv]). }
  assert (bound_values c = values ∧ bound_bitmap c = bm) as [Hvs Hbm] by (destruct Hc as [[-> _]|[-> _]]; done).
  assert (raw_cells (bc_cells d) = map BInt values) as Hraw by (destruct Hc as [[_ ->]|[_ ->]]; done).
  assert (bm = bc_null_bitmap d ∧ match bm with Some b => len b = null_bitmap_size (len values) | None => True end) as [-> Hlen].
  { unfold validate_null_bitmap in Hv. destruct (bc_null_bitmap d) as [b|]; [|by injection Hv as <-].
    destruct (Z.eqb_spec (len b) (div_ceil (len values) 8)) as [Hl|]; [|discriminate]. by injection Hv as <-. }
  unfold column_ok, bound_len, bound_cell. rewrite Hvs, Hbm. split; [done|]. intros r Hr.
  assert (r < length values)%nat as Hlt by (unfold len in Hr; lia). apply lookup_lt_is_Some in Hlt as [v Hv'].
  rewrite (column_cells_lookup d r (BInt v)); [by rewrite Hv'|]. rewrite Hraw. change (map ?f values) with (f <$> values). by rewrite list_lookup_fmap, Hv'.
Qed.

Lemma check_lengths_ok rc idx cols : check_lengths rc idx cols = Ok tt → Forall (λ c, bound_len c = rc) cols.
Proof.
  revert idx. induction cols as [|c cols IH]; intros idx Hc; [constructor|]. cbn [check_lengths] in Hc.
  destruct (Z.eqb_spec (bound_len c) rc) as [He|]; [|discriminate]. constructor; [done|exact (IH _ Hc)].
Qed.

Lemma bound_rows p cols idx : build_bound_columns p = Ok cols → check_lengths (bp_row_count p) idx cols = Ok tt →
  Forall (column_ok (bp_row_count p)) cols ∧
  ∀ r, Z.of_nat r < bp_row_count p → map (λ c, bound_cell c r) cols = payload_row p r.
Proof.
  unfold build_bound_columns, payload_row. intros Hb Hl. apply check_lengths_ok in Hl.
  destruct (Z.eqb_spec (len (bp_column_data p)) (len (bp_columns p))) as [He|]; [|discriminate]. cbn [negb] in Hb.
  assert (length (bp_column_data p) = length (bp_columns p)) as He' by (unfold len in He; lia). clear He. revert Hb Hl He'.
  generalize (bp_columns p) (bp_column_data p) (bp_row_count p). intros specs data rc. revert specs cols.
  induction data as [|d data IH]; intros [|s specs] cols Hb Hl He; try discriminate; cbn [combine omap_list] in Hb.
  - injection Hb as <-. split; [constructor|done].
  - apply obind_Ok_inv in Hb as (c & Hc & Hb). apply obind_Ok_inv in Hb as (cs & Hcs & [= <-]). apply Forall_cons in Hl as [<- Hl].
    destruct (bound_column_ok s d c Hc) as [Hok Hcell]. destruct (IH specs cs Hcs Hl) as [Hoks Hcells]; [by injection He|].
    split; [by constructor|]. intros r Hr. cbn. by rewrite Hcell, Hcells.
Qed.

(** * The whole copy *)

Lemma build_never_panics p : build_bound_columns p ≠ Panic.
Proof.
  unfold build_bound_columns. case_match; [done|]. generalize (combine (bp_columns p) (bp_column_data p)). intros l.
  induction l as [|[s d] l IH]; [done|]. cbn [omap_list fst snd]. unfold bound_column, validate_null_bitmap.
  repeat case_match; cbn [obind]; try done; by destruct (omap_list _ l).
Qed.

Lemma check_never_panics rc idx cols : check_lengths rc idx cols ≠ Panic.
Proof. revert idx. induction cols as [|c cols IH]; intros idx; [done|]. cbn. by case_match. Qed.

Lemma load_never_panics : load_bcp_library ≠ Panic.
Proof. unfold load_bcp_library, CANDIDATE_LIBRARIES. cbn [load_loop]. by repeat case_match. Qed.

Lemma get_symbol_answers lib names : (∃ n, get_symbol lib names = Ok n) ∨ (∃ e, get_symbol lib names = Err e).
Proof. unfold get_symbol. case_match; eauto. Qed.

Lemma cleanup_prefix dbc env t : ∃ l, (disconnect_and_free_silent past dbc env t).2 = t ++ l.
Proof.
  unfold disconnect_and_free_silent, free_env_silent, e_bind, bcp, e_ret. destruct (dbc =? 0), (env =? 0); cbn; rewrite <- ?app_assoc; eauto.
  exists []. by rewrite app_nil_r.
Qed.

(** What a copy ends with: no handle held, and the rows of the payload on the server, all of them when it
    succeeds with the number that [bcp_done] reports, the first ones when it fails. *)
Definition copied (p : BulkInsertPayload) (r : Result Z) (t : BcpTrace) : Prop :=
  match r with
  | Ok n => held t = [] ∧ sv_rows (server t) = map (payload_row p) (seq 0 (Z.to_nat (bp_row_count p))) ∧
      0 ≤ n ∧ ∃ dbc out, (BcpDone dbc, (n, out)) ∈ t
  | Err _ => held t = [] ∧ ∃ k, (k ≤ Z.to_nat (bp_row_count p))%nat ∧ sv_rows (server t) = map (payload_row p) (seq 0 k)
  | Panic => False
  end.

Lemma copied_none p e t : held t = [] → sv_rows (server t) = [] → copied p (Err e) t.
Proof. intros Hh Hs. split; [done|]. exists 0%nat. split; [lia|done]. Qed.

(** A call that moves neither a handle nor a row. *)
Definition neutral (c : BcpCall) : Prop := ∀ a t, held (t ++ [(c, a)]) = held t ∧ sv_rows (server (t ++ [(c, a)])) = sv_rows (server t).

Ltac neutral := intros ? ?; rewrite held_app, server_app; split; reflexivity.

Lemma sql_step_neutral p c step cleanup (k : E Z) t h :
  neutral c → held t = h → sv_rows (server t) = [] →
  (∀ t, held t = h → sv_rows (server t) = [] → wpe cleanup t (λ r t', r = Ok tt ∧ cleaned t t')) →
  (∀ t, held t = h → sv_rows (server t) = [] → wpe k t (copied p)) →
  wpe (e_bind (sql_step past c step cleanup) (λ _, k)) t (copied p).
Proof.
  intros Hn Hh Hs Hclean Hk. apply wpe_bind, sql_step_spec; intros rc out _; destruct (Hn (rc, out) t) as [H1 H2]; rewrite Hh in H1; rewrite Hs in H2.
  - by apply Hk.
  - eapply wpe_mono; [by apply Hclean|]. intros _ t' [_ [H3 H4]] e. apply copied_none; [done|by rewrite H4].
Qed.

(** From the connection on. *)
Lemma copy_rows_spec p cols dbc env t :
  Forall (column_ok (bp_row_count p)) cols → (∀ r, Z.of_nat r < bp_row_count p → map (λ c, bound_cell c r) cols = payload_row p r) →
  held t = owned env dbc → sv_rows (server t) = [] →
  wpe (e_bind (bind_columns past dbc env 0 cols) (λ _,
       e_bind (send_rows past dbc env (seq 0 (Z.to_nat (bp_row_count p))) cols) (λ _,
       e_bind (bcp past (BcpDone dbc)) (λ done_rows,
         if done_rows.1 <? 0 then or_cleanup (Err (InternalError "bcp_done failed during native BCP execution")) (disconnect_and_free_silent past dbc env)
         else e_bind (disconnect_and_free_silent past dbc env) (λ _, e_ret (Ok done_rows.1)))))) t (copied p).
Proof.
  intros Hok Hrows Hh Hs. set (n := Z.to_nat (bp_row_count p)).
  assert (∀ k, (k ≤ n)%nat → map (λ r, map (λ c, bound_cell c r) cols) (seq 0 k) = map (payload_row p) (seq 0 k)) as Hmap.
  { intros k Hk. apply map_ext_in. intros r Hr. apply in_seq in Hr. apply Hrows. lia. }
  apply wpe_bind. eapply wpe_mono; [by apply bind_columns_spec|]. intros [_|e|] t1 Hres; [|destruct Hres as [? H1]; apply copied_none; [done|by rewrite H1]|done].
  destruct Hres as [Hh1 Hs1]. unfold same_rows in Hs1. apply wpe_bind. eapply wpe_mono.
  { apply (send_rows_spec (bp_row_count p)); [done| |done]. apply Forall_forall. intros r Hr. apply list_elem_of_In, in_seq in Hr. lia. }
  rewrite Hs1, Hs. cbn [app]. intros [_|e|] t2 Hres; [| |done].
  2: { destruct Hres as (? & k & Hk & Hrs). split; [done|]. rewrite length_seq in Hk. exists k. split; [lia|]. rewrite Hrs, take_seq, Nat.min_l by lia. apply Hmap. lia. }
  destruct Hres as [Hh2 Hs2]. rewrite Hmap in Hs2 by done. apply wpe_bind, wpe_bcp. intros [nr out]. set (t3 := t2 ++ [_]). cbn [fst].
  assert (held t3 = owned env dbc ∧ sv_rows (server t3) = sv_rows (server t2)) as [Hh3 Hs3] by (unfold t3; by rewrite held_app, server_app).
  assert (Hcl := cleanup_spec dbc env t3 Hh3). unfold wpe, or_cleanup, e_bind, e_ret in *.
  destruct (disconnect_and_free_silent past dbc env t3) as [r t4] eqn:Ed. destruct Hcl as [-> [Hh4 Hs4]]. unfold same_rows in Hs4.
  destruct (Z.ltb_spec nr 0) as [Hneg|Hpos]; cbn [copied snd fst]; rewrite Ed; cbn [copied snd fst].
  - split; [done|]. exists n. split; [done|]. by rewrite Hs4, Hs3.
  - split; [done|]. split; [by rewrite Hs4, Hs3|]. split; [done|]. exists dbc, out.
    destruct (cleanup_prefix dbc env t3) as [l Hl]. rewrite Ed in Hl. cbn in Hl. rewrite Hl. unfold t3. set_solver.
Qed.

(** C40: Whatever the libraries, the driver manager and the server answer, a native copy ends with an answer and frees
    every handle it was given; the rows on the server are the first rows of the payload, cell by cell and NULL
    where the bitmap says so, and all of them when it succeeds. *)
Theorem native_bcp_spec (conn_str : string) (p : BulkInsertPayload) (batch_size : Z) :
  bp_columns p ≠ [] → wpe (execute_native_bcp past conn_str p batch_size) [] (copied p).
Proof.
  intros Hne. unfold execute_native_bcp. destruct (bp_columns p) as [|s0 ss]; [done|]. clear Hne.
  assert (∀ e, copied p (Err e) []) as Hnone by (intros e; by apply copied_none).
  destruct (build_bound_columns p) as [cols|e|] eqn:Hb; [|apply Hnone|by apply build_never_panics in Hb].
  destruct (check_lengths (bp_row_count p) 0 cols) as [[]|e|] eqn:Hl; [|apply wpe_bind, wpe_ret; cbn; apply wpe_bind, wpe_ret; rewrite Hl; apply Hnone|by apply check_never_panics in Hl].
  destruct (bound_rows p cols 0 Hb Hl) as [Hok Hrows].
  apply wpe_bind, wpe_ret. apply wpe_bind, wpe_ret. rewrite Hl.
  apply wpe_bind, wpe_ret. destruct load_bcp_library as [lib|e|] eqn:El; [|apply Hnone|by apply load_never_panics in El].
  do 5 (apply wpe_bind, wpe_ret; match goal with |- context [get_symbol ?l ?ns] => destruct (get_symbol_answers l ns) as [[? ->]|[? ->]] end; [|apply Hnone]).
  apply wpe_bind, sql_step_spec; intros rc env Hrc; [|intros e; apply copied_none; [cbn; by rewrite Hrc|done]].
  assert (held [(AllocEnv, (rc, env))] = owned_env env) as Hh by (unfold held, owned_env; cbn; rewrite Hrc; by destruct (env =? 0)).
  apply sql_step_neutral with (h := owned_env env); [neutral|done|done|by intros; apply free_env_spec|]. clear Hh. intros t Hh Hs.
  apply wpe_bind, sql_step_spec; intros rc' dbc Hrc'.
  2: { eapply wpe_mono; [apply free_env_spec|].
       - rewrite held_app, Hh. unfold hold_step. cbn [fst snd]. by rewrite Hrc'.
       - intros _ t' [_ [H1 H2]] e. apply copied_none; [done|]. rewrite H2, server_app. exact Hs. }
  set (t1 := t ++ [_]).
  assert (held t1 = owned env dbc ∧ sv_rows (server t1) = []) as [Hh1 Hs1].
  { unfold t1. rewrite held_app, server_app. split; [|exact Hs]. unfold hold_step. cbn [fst snd]. rewrite Hrc', Hh. unfold owned. by destruct (dbc =? 0). }
  clearbody t1. do 2 (apply sql_step_neutral with (h := owned env dbc); [neutral|done|done|by intros; apply cleanup_spec|]; clear Hh1 Hs1; clear t1; intros t1 Hh1 Hs1).
  apply wpe_bind, bcp_step_spec; [intros rc2 out _|intros out].
  - apply copy_rows_spec; [done|done|by rewrite held_app|by rewrite server_app].
  - eapply wpe_mono; [apply cleanup_spec; by rewrite held_app|]. intros _ t' [_ [H1 H2]] e. apply copied_none; [done|]. rewrite H2, server_app. exact Hs1.
Qed.
End Spec.

(** A machine whose newest driver is not installed, and a server that takes two rows. *)
Definition two_row_server : BcpLibrary := {|
  bl_library := λ name, if String.eqb name "sqlncli11.dll" then Some "module not found" else None;
  bl_symbol := λ _ _, true;
  bl_answer := λ _ t c,
    match c with
    | AllocEnv => (0, 1) | AllocDbc _ => (0, 2) | BcpInit _ _ | BcpBind _ _ _ _ | BcpCollen _ _ _ => (1, 0)
    | BcpSendRow _ _ => (if len (sv_rows (server t)) <? 2 then 1 else 0, 0)
    | BcpDone _ => (len (sv_rows (server t)), 0)
    | _ => (0, 0)
    end
|}.

Definition int_payload (a b : list Z) (bm : list byte) : BulkInsertPayload :=
  mkPayload "t" [mkSpec "a" BtI32 false 0; mkSpec "b" BtI64 true 0] (len a)
    [mkColData (CI32 a) None; mkColData (CI64 b) (Some bm)].

Lemma native_bcp_spec_witness :
  let '(r, t) := execute_native_bcp (H := two_row_server) [] "Server=s;Database=d" (int_payload [1; 2] [3; 4] [x01]) 100 [] in
  r = Ok 2 ∧ sv_rows (server t) = [[BInt 1; BNull]; [BInt 2; BInt 4]] ∧ copied (int_payload [1; 2] [3; 4] [x01]) r t.
Proof.
  assert (bp_columns (int_payload [1; 2] [3; 4] [x01]) ≠ []) as Hne by discriminate.
  pose proof (@native_bcp_spec two_row_server [] "Server=s;Database=d" _ 100 Hne) as Hspec. unfold wpe in Hspec.
  destruct (execute_native_bcp _ _ _ _ _) as [r t] eqn:He. vm_compute in He. injection He as <- <-.
  split; [reflexivity|]. split; [vm_compute; reflexivity|exact Hspec].
Defined.

(** The third row is refused: two are on the server, and nothing is held. *)
Example third_row_refused :
  let '(r, t) := execute_native_bcp (H := two_row_server) [] "Server=s;Database=d" (int_payload [1; 2; 5] [3; 4; 6] [x00]) 100 [] in
  r = Err (InternalError "bcp_sendrow failed at row 2 during native BCP execution") ∧ len (sv_rows (server t)) = 2 ∧ held t = [].
Proof. vm_compute. split_and!; reflexivity. Qed.

(** A library with [bcp_init] only is supported by the probe, and refused by the copy. *)
Definition ansi_library : BcpLibrary := {|
  bl_library := λ _, None; bl_symbol := λ _ name, negb (String.eqb name "bcp_initW"); bl_answer := λ _ _ _, (0, 0)
|}.

Example probed_then_refused :
  probe_native_bcp_support (H := ansi_library) = Ok tt ∧
  (execute_native_bcp (H := ansi_library) [] "" (int_payload [1] [2] [x00]) 100 []).1
  = Err (UnsupportedFeature "Required BCP symbol not found: bcp_initW").
Proof. split; vm_compute; reflexivity. Qed.
