(* ===== verification/Chunking.v ===== *)
(** Parallel bulk inserts: how the rows are split over workers
    (engine/core/parallel_insert.rs and the bulk helpers of ffi/mod.rs), how a
    payload is cut, what a worker does on its connection, and how the results are
    put together in the order of the ranges. *)

From S2P Require Import Prelude Wire Errors Text Identifier BulkInsert Handles ArrayBinding.

(** * Ranges *)

Definition chunk_ranges (row_count parallelism : Z) : list (Z * Z) :=
  if row_count =? 0 then []
  else
    let chunk_size := Z.min (Z.max (div_ceil row_count (Z.max parallelism 1)) 1) row_count in
    step_ranges (Z.to_nat row_count) 0 chunk_size row_count.

(** The FFI's own copy. *)
Definition row_chunk_ranges (row_count parallelism : Z) : list (Z * Z) :=
  if row_count =? 0 then []
  else
    let workers := Z.min (Z.max parallelism 1) row_count in
    let chunk_size := Z.max (div_ceil row_count workers) 1 in
    step_ranges (Z.to_nat row_count) 0 chunk_size row_count.

(** * Cutting a payload *)

(** [out[i / 8] |= 1u8 << (i % 8)] *)
Definition set_bit (out : list byte) (i : Z) : Result (list byte) :=
  let? b := index out (Z.to_nat (i / 8)) in
  Ok (<[Z.to_nat (i / 8) := z2b (Z.lor (b2z b) (Z.shiftl 1 (i mod 8)))]> out).

Definition slice_null_bitmap (bitmap : list byte) (start n : Z) : Result (list byte) :=
  ofold (λ out i,
    let? null := is_null bitmap (start + Z.of_nat i) in
    if null then set_bit out (Z.of_nat i) else Ok out)
    (seq 0 (Z.to_nat n)) (replicate (Z.to_nat (div_ceil n 8)) x00).

Definition slice_cells (c : BulkCells) (start stop : Z) : Result BulkCells :=
  let i := Z.to_nat start in let j := Z.to_nat stop in
  match c with
  | CI32 values => let? v := slice values i j in Ok (CI32 v)
  | CI64 values => let? v := slice values i j in Ok (CI64 v)
  | CText rows max_len => let? r := slice rows i j in Ok (CText r max_len)
  | CBinary rows max_len => let? r := slice rows i j in Ok (CBinary r max_len)
  | CTimestamp values => let? v := slice values i j in Ok (CTimestamp v)
  end.

Definition slice_column (start stop : Z) (col : BulkColumnData) : Result BulkColumnData :=
  let? cells := slice_cells (bc_cells col) start stop in
  let? bm :=
    match bc_null_bitmap col with
    | Some bm => let? b := slice_null_bitmap bm start (stop - start) in Ok (Some b)
    | None => Ok None
    end in
  Ok (mkColData cells bm).

Definition slice_payload_rows (payload : BulkInsertPayload) (start stop : Z) : Result BulkInsertPayload :=
  let total_rows := bp_row_count payload in
  if (stop <? start) || (total_rows <? stop) then Err (ValidationError "Invalid bulk insert chunk range")
  else
    let? chunk_data := omap_list (slice_column start stop) (bp_column_data payload) in
    Ok (mkPayload (bp_table payload) (bp_columns payload) (stop - start) chunk_data).

(** * Putting results together *)

(** The loop over the enumerated results: rows inserted, and the failed chunks. A
    worker that panics makes the whole parallel iterator panic. *)
Fixpoint tally (idx : nat) (results : list (Result Z)) : Result (Z * list (nat * string)) :=
  match results with
  | [] => Ok (0, [])
  | Panic :: _ => Panic
  | Ok n :: results => let? '(total, errors) := tally (S idx) results in Ok (n + total, errors)
  | Err e :: results => let? '(total, errors) := tally (S idx) results in Ok (total, (idx, to_string e) :: errors)
  end.

Definition error_detail (errors : list (nat * string)) : string :=
  join "; " (map (λ '(idx, err), "chunk[" +:+ fmt_Z (Z.of_nat idx) +:+ "]: " +:+ err) errors).

Definition collect_partial_failure (total : Z) (errors : list (nat * string)) : Result Z :=
  if len errors =? 0 then Ok total
  else Err (BulkPartialFailure total (len errors) (error_detail errors)).

(** * Workers *)

Inductive ParallelMode := Independent | PerChunkTransactional.

(** [ParallelBulkInsert], less the pool *)
Record ParallelBulkInsert := mkParallel { pi_batch_size : Z; pi_parallelism : Z; pi_mode : ParallelMode }.

Definition DEFAULT_BATCH_SIZE : Z := 10000.

Definition new_parallel (parallelism : Z) : ParallelBulkInsert := mkParallel DEFAULT_BATCH_SIZE (Z.max parallelism 1) Independent.
Definition with_batch_size (batch_size : Z) (p : ParallelBulkInsert) : ParallelBulkInsert :=
  mkParallel (Z.max batch_size 1) (pi_parallelism p) (pi_mode p).
Definition with_mode (mode : ParallelMode) (p : ParallelBulkInsert) : ParallelBulkInsert :=
  mkParallel (pi_batch_size p) (pi_parallelism p) mode.

(** What a worker meets when it runs: what [pool.get] answers, the world at that
    moment, and the driver as this worker sees it. The workers run side by side, so
    each has a driver of its own: its answers may depend on what the others do. *)
Record Worker := mkWorker { wk_pool_get : Result Z; wk_world : World; wk_driver : Driver }.

Section Workers.
Context `{ColumnBuffers}.

(** The insert of one chunk on a borrowed connection, by mode. *)
Definition insert_i32_chunk `{Driver} (mode : ParallelMode) (batch_size phys : Z) (table : string) (columns : list string)
    (chunk : list (list Z)) : M Z :=
  match mode with
  | Independent => bulk_insert_i32 (new_binding batch_size) phys table columns chunk
  | PerChunkTransactional =>
      let! _ := call phys (CAutocommit false) in
      let! result := try_m (bulk_insert_i32 (new_binding batch_size) phys table columns chunk) in
      match result with
      | Ok n =>
          let! _ := call phys CCommit in
          let! _ := try_m (call phys (CAutocommit true)) in
          ret n
      | Err e =>
          let! _ := try_m (call phys CRollback) in
          let! _ := try_m (call phys (CAutocommit true)) in
          lift (Err e)
      | Panic => lift Panic
      end
  end.

Definition validate_i32_parallel_input (columns : list string) (data : list (list Z)) : Result unit :=
  if negb (len data =? len columns) then Err (ValidationError "data length must match columns length")
  else
    match data with
    | [] => Ok tt
    | c :: cols =>
        if existsb (λ col : list Z, negb (len col =? len c)) cols then
          Err (ValidationError "all columns must have same row count")
        else Ok tt
    end.

Definition build_i32_chunk (data : list (list Z)) (range : Z * Z) : Result (list (list Z)) :=
  omap_list (λ col, slice col (Z.to_nat range.1) (Z.to_nat range.2)) data.

(** The worker of a range: its result, and the world it leaves. *)
Definition i32_worker (p : ParallelBulkInsert) (wk : Worker) (table : string) (columns : list string) (data : list (list Z))
    (range : Z * Z) : Result Z * World :=
  (let! chunk := lift (build_i32_chunk data range) in
   let! phys := lift (wk_pool_get wk) in
   insert_i32_chunk (H0 := wk_driver wk) (pi_mode p) (pi_batch_size p) phys table columns chunk) (wk_world wk).

Definition insert_i32_parallel (p : ParallelBulkInsert) (wk : Z * Z → Worker) (table : string) (columns : list string)
    (data : list (list Z)) : Result Z :=
  let? _ := validate_i32_parallel_input columns data in
  if len columns =? 0 then Ok 0
  else
    let? c0 := index data 0 in
    let n_rows := len c0 in
    if n_rows =? 0 then Ok 0
    else
      let results := map (λ range, (i32_worker p (wk range) table columns data range).1) (chunk_ranges n_rows (pi_parallelism p)) in
      let? '(total, errors) := tally 0 results in
      collect_partial_failure total errors.

(** Built without the native SQL Server bulk copy, as by default. *)
Definition bulk_insert_payload `{Driver} (phys : Z) (payload : BulkInsertPayload) : M Z :=
  bulk_insert_generic (new_binding DEFAULT_PARAMSET_SIZE) phys payload.

Definition bulk_worker (wk : Worker) (payload : BulkInsertPayload) (range : Z * Z) : Result Z * World :=
  (let! phys := lift (wk_pool_get wk) in
   let! chunk := lift (slice_payload_rows payload range.1 range.2) in
   bulk_insert_payload (H0 := wk_driver wk) phys chunk) (wk_world wk).

Definition bulk_insert_parallel_with_pool (wk : Z * Z → Worker) (payload : BulkInsertPayload) (parallelism : Z) : Result Z :=
  let row_count := bp_row_count payload in
  if row_count =? 0 then Ok 0
  else
    let results := map (λ range, (bulk_worker (wk range) payload range).1) (row_chunk_ranges row_count parallelism) in
    let? '(total, errors) := tally 0 results in
    if len errors =? 0 then Ok total
    else Err (InternalError ("Parallel bulk insert: " +:+ fmt_Z (len errors) +:+ " failed chunk(s) (" +:+ fmt_Z total
                +:+ " rows inserted before failure): " +:+ error_detail errors)).
End Workers.

(** * Ranges partition the rows *)

(** The number of ranges is the number of steps that stay below [n]. *)
Lemma step_ranges_count fuel start size n k :
  1 ≤ size → n - start ≤ size * Z.of_nat k → (length (step_ranges fuel start size n) ≤ k)%nat.
Proof.
  intros Hs. revert start k. induction fuel as [|fuel IH]; intros start k Hk; cbn [step_ranges]; [simpl; lia|].
  destruct (Z.ltb_spec start n); [|simpl; lia]. destruct k as [|k]; [lia|].
  cbn [length]. apply le_n_S, IH. lia.
Qed.

Lemma div_ceil_spec a b : 0 < b → b * div_ceil a b - b < a ≤ b * div_ceil a b.
Proof.
  intros Hb. unfold div_ceil. pose proof (Z.div_mod (a + b - 1) b ltac:(lia)).
  pose proof (Z.mod_pos_bound (a + b - 1) b Hb). lia.
Qed.

Lemma chunk_sizes_agree n p :
  1 ≤ n → Z.min (Z.max (div_ceil n (Z.max p 1)) 1) n = Z.max (div_ceil n (Z.min (Z.max p 1) n)) 1.
Proof.
  intros Hn. pose proof (div_ceil_spec n (Z.max p 1) ltac:(lia)) as H1.
  destruct (Z.leb_spec (Z.max p 1) n).
  - rewrite (Z.min_l (Z.max p 1) n) by lia. assert (1 ≤ div_ceil n (Z.max p 1)) by nia. nia.
  - rewrite (Z.min_r (Z.max p 1) n) by lia. pose proof (div_ceil_spec n n ltac:(lia)).
    assert (div_ceil n n = 1) by nia. assert (div_ceil n (Z.max p 1) = 1) by nia. lia.
Qed.

Lemma row_chunk_ranges_eq n p : 0 ≤ n → row_chunk_ranges n p = chunk_ranges n p.
Proof.
  intros Hn. unfold row_chunk_ranges, chunk_ranges. destruct (Z.eqb_spec n 0); [done|].
  by rewrite chunk_sizes_agree by lia.
Qed.

Lemma chunk_ranges_partition n p :
  0 ≤ n → consecutive 0 n (chunk_ranges n p) ∧ (length (chunk_ranges n p) ≤ Z.to_nat (Z.max p 1))%nat.
Proof.
  intros Hn. unfold chunk_ranges. destruct (Z.eqb_spec n 0) as [->|Hn0]; [cbn; split; [done|lia]|].
  pose proof (div_ceil_spec n (Z.max p 1) ltac:(lia)) as Hd.
  assert (1 ≤ div_ceil n (Z.max p 1)) as Hd1 by nia.
  set (size := Z.min _ n). assert (1 ≤ size) as Hs by (unfold size; lia).
  split.
  - apply step_ranges_consecutive; lia.
  - apply step_ranges_count; [done|]. rewrite Z2Nat.id by lia. unfold size. nia.
Qed.

(** Both splits give the same ranges, and these cover the rows exactly once, in
    order, without an empty chunk, with at most one chunk per worker. *)
Theorem ranges_partition (n p : Z) :
  0 ≤ n →
  row_chunk_ranges n p = chunk_ranges n p ∧ consecutive 0 n (chunk_ranges n p) ∧
  (length (chunk_ranges n p) ≤ Z.to_nat (Z.max p 1))%nat.
Proof. intros Hn. split; [by apply row_chunk_ranges_eq|by apply chunk_ranges_partition]. Qed.

Lemma ranges_partition_witness :
  chunk_ranges 10 4 = [(0, 3); (3, 6); (6, 9); (9, 10)] ∧ consecutive 0 10 (chunk_ranges 10 4).
Proof. split; [vm_compute; reflexivity|]. apply (ranges_partition 10 4). lia. Defined.

(** * Cutting a payload *)

Lemma testbit_shiftl_1 k j : 0 ≤ k → 0 ≤ j → Z.testbit (Z.shiftl 1 k) j = (j =? k).
Proof.
  intros Hk Hj. rewrite Z.shiftl_1_l. destruct (Z.eqb_spec j k) as [->|Hne].
  - by apply Z.pow2_bits_true.
  - by apply Z.pow2_bits_false.
Qed.

(** [set_bit] sets that bit of the bitmap and no other. *)
Lemma set_bit_spec out i :
  0 ≤ i < 8 * len out →
  ∃ out', set_bit out i = Ok out' ∧ length out' = length out ∧
    ∀ j, 0 ≤ j < 8 * len out → Z.testbit (le_val out') j = Z.testbit (le_val out) j || (j =? i).
Proof.
  intros Hi. unfold set_bit. destruct (le_val_testbit out i Hi) as (b & Hb & _).
  rewrite (index_lookup _ _ _ Hb). cbn [obind]. eexists. split; [done|]. split; [apply length_insert|].
  intros j Hj. set (v := Z.lor _ _). set (out' := <[_ := z2b v]> out).
  assert (length out' = length out) as Hl by apply length_insert.
  destruct (le_val_testbit out j Hj) as (c & Hc & ->).
  destruct (le_val_testbit out' j) as (c' & Hc' & ->); [unfold len in *; lia|].
  pose proof (Z.mod_pos_bound i 8 ltac:(lia)) as Hmi. pose proof (Z.mod_pos_bound j 8 ltac:(lia)) as Hmj.
  pose proof (Z.div_mod i 8 ltac:(lia)) as Hdi. pose proof (Z.div_mod j 8 ltac:(lia)) as Hdj.
  unfold out' in Hc'. destruct (decide (Z.to_nat (j / 8) = Z.to_nat (i / 8))) as [He|He].
  - rewrite He in Hc, Hc'. rewrite list_lookup_insert_eq in Hc' by (apply lookup_lt_is_Some_1; by exists b).
    injection Hc' as <-. assert (c = b) as -> by congruence.
    assert (j / 8 = i / 8) as He'. { apply Z2Nat.inj; [apply Z.div_pos; lia|apply Z.div_pos; lia|done]. }
    rewrite b2z_z2b. change 256 with (2 ^ 8). rewrite Z.mod_pow2_bits_low by lia. unfold v. rewrite Z.lor_spec, testbit_shiftl_1 by lia. f_equal.
    destruct (Z.eqb_spec (j mod 8) (i mod 8)), (Z.eqb_spec j i); try done; lia.
  - rewrite list_lookup_insert_ne in Hc' by done. assert (c' = c) as -> by congruence.
    destruct (Z.eqb_spec j i) as [->|]; [done|]. by rewrite orb_false_r.
Qed.

Lemma le_val_zeros n : le_val (replicate n x00) = 0.
Proof. induction n as [|n IH]; [reflexivity|]. cbn [replicate]. rewrite le_val_cons, IH. done. Qed.

Lemma ltb_S_ne j m : j ≠ Z.of_nat m → (j <? Z.of_nat (S m)) = (j <? Z.of_nat m).
Proof. intros H. by destruct (Z.ltb_spec j (Z.of_nat (S m))), (Z.ltb_spec j (Z.of_nat m)); try lia. Qed.

Lemma slice_null_bitmap_spec bm rows start n :
  len bm = null_bitmap_size rows → 0 ≤ start → 0 ≤ n → start + n ≤ rows →
  ∃ out, slice_null_bitmap bm start n = Ok out ∧ len out = null_bitmap_size n ∧
    ∀ j, 0 ≤ j < n → Z.testbit (le_val out) j = Z.testbit (le_val bm) (start + j).
Proof.
  intros Hl Hs Hn Hr. unfold slice_null_bitmap. set (zs := replicate _ x00).
  assert (len zs = null_bitmap_size n) as Hz.
  { unfold zs, len. rewrite length_replicate. unfold null_bitmap_size. pose proof (div_ceil_spec n 8 ltac:(lia)). lia. }
  pose proof (div_ceil_spec n 8 ltac:(lia)) as Hd. fold (null_bitmap_size n) in Hd.
  set (step := λ out i, obind (is_null bm (start + Z.of_nat i)) _).
  assert (∀ m, (m ≤ Z.to_nat n)%nat → ∃ out, ofold step (seq 0 m) zs = Ok out ∧ length out = length zs ∧
            ∀ j, 0 ≤ j < 8 * len zs → Z.testbit (le_val out) j = (j <? Z.of_nat m) && Z.testbit (le_val bm) (start + j)) as Hloop.
  { induction m as [|m IH]; intros Hm.
    - exists zs. split; [done|]. split; [done|]. intros j Hj. unfold zs. rewrite le_val_zeros, Z.bits_0.
      by destruct (Z.ltb_spec j (Z.of_nat 0)); [lia|].
    - destruct IH as (out & Ho & Hlo & Ht); [lia|]. rewrite seq_S, ofold_app, Ho. cbn [obind ofold].
      unfold step. rewrite Nat.add_0_l. destruct (is_null_bit bm rows (start + Z.of_nat m) Hl) as [_ ->]; [lia|]. cbn [obind].
      destruct (Z.testbit (le_val bm) (start + Z.of_nat m)) eqn:Hb.
      + destruct (set_bit_spec out (Z.of_nat m)) as (out' & Hs' & Hl' & Ht'); [unfold len in *; lia|].
        rewrite Hs'. exists out'. split; [done|]. split; [lia|]. intros j Hj.
        rewrite Ht', Ht by (unfold len in *; lia).
        destruct (Z.eqb_spec j (Z.of_nat m)) as [->|Hne]; [|by rewrite orb_false_r, (ltb_S_ne j m Hne)].
        rewrite Hb, orb_true_r. by destruct (Z.ltb_spec (Z.of_nat m) (Z.of_nat (S m))); [|lia].
      + exists out. split; [done|]. split; [done|]. intros j Hj. rewrite Ht by done.
        destruct (Z.eqb_spec j (Z.of_nat m)) as [->|Hne]; [rewrite Hb; by rewrite !andb_false_r|]. by rewrite (ltb_S_ne j m Hne). }
  destruct (Hloop (Z.to_nat n) ltac:(lia)) as (out & Ho & Hlo & Ht). exists out.
  split; [done|]. split; [unfold len in *; lia|]. intros j Hj. rewrite Ht by lia.
  by destruct (Z.ltb_spec j (Z.of_nat (Z.to_nat n))); [|lia].
Qed.

Lemma rows_of_map {A B : Type} (f : A → B) s n l : map f (rows_of s n l) = rows_of s n (map f l).
Proof. unfold rows_of. by rewrite skipn_map, firstn_map. Qed.

Lemma rows_of_length {A : Type} s n (l : list A) : (s + n ≤ length l)%nat → length (rows_of s n l) = n.
Proof. intros Hl. unfold rows_of. rewrite length_take, length_drop. lia. Qed.

Lemma rows_of_Forall {A : Type} (P : A → Prop) s n l : Forall P l → Forall P (rows_of s n l).
Proof. intros H. by apply Forall_take, Forall_drop. Qed.

Lemma rows_of_lookup {A : Type} s n (l : list A) r : (r < n)%nat → rows_of s n l !! r = l !! (s + r)%nat.
Proof. intros H. unfold rows_of. by rewrite lookup_take_lt, lookup_drop by done. Qed.

Section Cut.
Variables (nrows start stop : Z).
Hypothesis Hrange : 0 ≤ start ≤ stop ∧ stop ≤ nrows.

Let s := Z.to_nat start.
Let n := Z.to_nat (stop - start).

Lemma slice_rows_Z {A : Type} (l : list A) :
  length l = Z.to_nat nrows → slice (E := OdbcError) l (Z.to_nat start) (Z.to_nat stop) = Ok (rows_of s n l).
Proof using Hrange.
  intros Hl. replace (Z.to_nat stop) with (s + n)%nat by (unfold s, n; lia). apply slice_rows. unfold s, n. lia.
Qed.

Lemma slice_cells_ok spec c :
  cells_fit spec (Z.to_nat nrows) c →
  ∃ c', slice_cells c start stop = Ok c' ∧ cells_fit spec n c' ∧ raw_cells c' = rows_of s n (raw_cells c).
Proof using Hrange.
  intros [Hm Hc].
  destruct c as [vs|vs|rows m|rows m|vs]; cbn [slice_cells raw_cells];
    (destruct Hc as [Hl Hc]; rewrite slice_rows_Z by done; cbn [obind]; eexists; split; [done|]; cbn [raw_cells];
     split; [|by rewrite rows_of_map]; split; [done|]; split; [apply rows_of_length; unfold s, n; lia|]).
  3, 4: destruct Hc as [-> Hc]; split; [done|].
  all: by apply rows_of_Forall.
Qed.

Lemma slice_column_ok spec d :
  col_fit nrows spec d →
  ∃ d', slice_column start stop d = Ok d' ∧ col_fit (stop - start) spec d' ∧ column_cells d' = rows_of s n (column_cells d).
Proof using Hrange.
  intros [Hc Hb]. destruct (slice_cells_ok spec _ Hc) as (c' & Hs & Hc' & Hraw). unfold slice_column. rewrite Hs. cbn [obind].
  pose proof (raw_cells_length _ _ _ Hc) as Hl.
  assert (∀ bm', bitmap_fit spec (stop - start) bm' →
            (∀ r, (r < n)%nat → null_at bm' r = null_at (bc_null_bitmap d) (s + r)) →
            col_fit (stop - start) spec (mkColData c' bm') ∧ column_cells (mkColData c' bm') = rows_of s n (column_cells d)) as Hdone.
  { intros bm' Hb' Hn. split; [by split|]. apply list_eq. intros r.
    destruct (decide (r < n)%nat) as [Hr|Hr].
    - rewrite rows_of_lookup by done. unfold column_cells. rewrite !list_lookup_imap. cbn [bc_cells bc_null_bitmap].
      rewrite Hraw, rows_of_lookup by done. rewrite Hn by done. done.
    - rewrite !lookup_ge_None_2; [done| |rewrite length_column_cells; cbn [bc_cells]; rewrite Hraw];
        rewrite rows_of_length; rewrite ?length_column_cells, ?Hl; unfold s, n in *; lia. }
  destruct (bc_null_bitmap d) as [bm|] eqn:Hbm.
  - destruct Hb as [Hnull Hb].
    destruct (slice_null_bitmap_spec bm nrows start (stop - start)) as (out & -> & Ho & Ht); [done|lia..|]. cbn [obind].
    eexists. split; [done|]. apply Hdone; [by split|]. intros r Hr. cbn [null_at]. unfold s, n in *.
    rewrite Ht by lia. f_equal. lia.
  - cbn [obind]. eexists. split; [done|]. by apply Hdone.
Qed.
End Cut.

Lemma slice_payload_rows_ok p start stop :
  payload_fit p → 0 ≤ start ≤ stop → stop ≤ bp_row_count p →
  ∃ q, slice_payload_rows p start stop = Ok q ∧ payload_fit q ∧ bp_row_count q = stop - start ∧
    bp_table q = bp_table p ∧ bp_columns q = bp_columns p ∧
    map column_cells (bp_column_data q)
    = map (rows_of (Z.to_nat start) (Z.to_nat (stop - start))) (map column_cells (bp_column_data p)).
Proof.
  intros [Ht Htl Hc Hs Hr Hd] H1 H2. unfold slice_payload_rows.
  destruct (Z.ltb_spec stop start); [lia|]. destruct (Z.ltb_spec (bp_row_count p) stop); [lia|]. cbn [orb].
  assert (∃ ds, omap_list (slice_column start stop) (bp_column_data p) = Ok ds ∧
            Forall2 (col_fit (stop - start)) (bp_columns p) ds ∧
            map column_cells ds = map (rows_of (Z.to_nat start) (Z.to_nat (stop - start))) (map column_cells (bp_column_data p)))
    as (ds & -> & HF & Hm).
  { induction Hd as [|spec d specs ds Hfit Hd IH]; [by exists []|]. cbn [omap_list].
    destruct (slice_column_ok (bp_row_count p) start stop ltac:(lia) spec d Hfit) as (d' & -> & Hf' & Hm').
    inversion Hs; subst. destruct IH as (ds' & -> & HF & Hm); [|done|]. { unfold len in *. cbn in Hc. lia. }
    cbn [obind]. exists (d' :: ds'). split; [done|]. split; [by constructor|]. cbn [map]. by rewrite Hm, Hm'. }
  cbn [obind]. eexists. split; [done|]. split; [|by cbn]. by split; cbn; try done; lia.
Qed.

(** * Putting the results together *)

(** A worker of the range [(a, b)] returns its number of rows, or an error. *)
Definition range_result (range : Z * Z) (r : Result Z) : Prop :=
  match r with Ok m => m = range.2 - range.1 | Err _ => True | Panic => False end.

Lemma tally_ranges lo hi rs results idx :
  consecutive lo hi rs → Forall2 range_result rs results →
  ∃ total errors, tally idx results = Ok (total, errors) ∧
    (Forall (λ r, is_ok r = true) results ∧ errors = [] ∧ total = hi - lo ∨
     ¬ Forall (λ r, is_ok r = true) results ∧ errors ≠ []).
Proof.
  intros Hc HF. revert lo idx Hc. induction HF as [|[a b] r rs results Hr HF IH]; intros lo idx Hc; cbn [consecutive tally] in *.
  { subst. eexists _, _. split; [done|]. left. split; [done|]. split; [done|lia]. }
  destruct Hc as (-> & Hab & Hc). destruct (IH b (S idx) Hc) as (total & errors & Ht & Hcase).
  destruct r as [m|e|]; [| |done]; rewrite Ht; cbn [obind]; eexists _, _; (split; [done|]).
  - cbn in Hr. subst m. destruct Hcase as [(Hall & -> & ->)|(Hn & He)]; [left|right].
    + split; [by constructor|]. split; [done|lia].
    + split; [|done]. by rewrite Forall_cons; intros [_ ?].
  - right. split; [|done]. by rewrite Forall_cons; intros [? _].
Qed.

Lemma glue_ranges (cols : list (list BindCell)) lo hi rs :
  0 ≤ lo → consecutive lo hi rs →
  glue (length cols) (map (λ '(a, b), map (rows_of (Z.to_nat a) (Z.to_nat (b - a))) cols) rs)
  = map (rows_of (Z.to_nat lo) (Z.to_nat (hi - lo))) cols.
Proof.
  intros Hlo Hc. revert lo Hlo Hc. induction rs as [|[a b] rs IH]; intros lo Hlo Hc; cbn [consecutive] in Hc.
  - subst. rewrite Z.sub_diag. apply glue_nil.
  - destruct Hc as (-> & Hab & Hc). cbn [map glue foldr]. fold (glue (length cols) (map (λ '(a, b), map (rows_of (Z.to_nat a) (Z.to_nat (b - a))) cols) rs)).
    rewrite (IH b) by (done || lia). replace (Z.to_nat b) with (Z.to_nat lo + Z.to_nat (b - lo))%nat by lia.
    rewrite zip_with_rows. do 2 f_equal. lia.
Qed.

Lemma consecutive_bounds lo hi rs : consecutive lo hi rs → Forall (λ '(a, b), lo ≤ a < b ∧ b ≤ hi) rs.
Proof.
  revert lo. induction rs as [|[a b] rs IH]; intros lo Hc; [done|]. destruct Hc as (-> & Hab & Hc).
  constructor; [lia|]. eapply Forall_impl; [exact (IH b Hc)|]. intros [x y]. lia.
Qed.

(** * Workers on a payload *)

Section Parallel.
Context `{ColumnBuffers}.

(** The rows of its range that the driver accepted from a worker. *)
Definition worker_sent (wk : Worker) (p : BulkInsertPayload) (range : Z * Z) : list (list BindCell) :=
  match wk_pool_get wk with
  | Ok phys =>
      let w' := (bulk_worker wk p range).2 in
      glue (length (bp_column_data p)) (batches phys (drop (length (w_trace (wk_world wk))) (w_trace w')))
  | _ => replicate (length (bp_column_data p)) []
  end.

(** A worker inserts a prefix of its rows, all of them exactly when it succeeds. *)
Definition worker_ok (wk : Worker) (p : BulkInsertPayload) (range : Z * Z) : Prop :=
  ∃ k, 0 ≤ k ≤ range.2 - range.1 ∧
    worker_sent wk p range = map (rows_of (Z.to_nat range.1) (Z.to_nat k)) (map column_cells (bp_column_data p)) ∧
    match (bulk_worker wk p range).1 with
    | Ok m => m = range.2 - range.1 ∧ k = m
    | Err _ => k < range.2 - range.1
    | Panic => False
    end.

Lemma rows_of_rows_of {A : Type} a n k (l : list A) : (k ≤ n)%nat → rows_of 0 k (rows_of a n l) = rows_of a k l.
Proof. intros Hk. unfold rows_of. rewrite drop_0, take_take. f_equal. lia. Qed.

Lemma bulk_worker_ok wk p a b :
  payload_fit p → wk_pool_get wk ≠ Panic → 0 ≤ a < b → b ≤ bp_row_count p → worker_ok wk p (a, b).
Proof.
  intros Hp Hg Hab Hb. unfold worker_ok, worker_sent, bulk_worker. cbn [fst snd].
  unfold bind at 1 2, lift at 1 2. destruct (wk_pool_get wk) as [phys|e|] eqn:Hpg; [| |done]; cbn [fst snd].
  2: { exists 0. split; [lia|]. split; [|cbn; lia]. rewrite <- (length_map column_cells). apply glue_nil. }
  destruct (slice_payload_rows_ok p a b Hp) as (q & Hq & Hfit & Hn & _ & _ & Hcols); [lia|done|].
  unfold bind, lift. rewrite Hq. unfold bulk_insert_payload, new_binding, DEFAULT_PARAMSET_SIZE.
  destruct (bulk_insert_generic_run (H0 := wk_driver wk) (Z.max 1000 1) phys q (wk_world wk) ltac:(lia) Hfit) as (h & r & k & Hr & (Hk & Hgl & Hres) & _).
  unfold runs in Hr. rewrite Hr. cbn [fst snd]. rewrite Hn in *. exists k. split; [lia|].
  assert (length (bp_column_data p) = length (map column_cells (bp_column_data q))) as ->.
  { rewrite Hcols. by rewrite !length_map. }
  split.
  - cbn [w_ext w_trace]. rewrite drop_app_length, Hgl, Hcols, map_map, Z.sub_0_r. apply map_ext_in. intros l _.
    change (Z.to_nat 0) with 0%nat. apply rows_of_rows_of. lia.
  - destruct r; [|done..]. lia.
Qed.

(** C27: a parallel insert of a payload as the parser accepts it.  Every worker
    inserts a prefix of the rows of its own range, wherever its driver fails.  When
    all workers succeed the result is the number of rows of the payload, and the
    batches of the workers put together in the order of the ranges are the payload,
    every row once, NULLs included; otherwise the result is an error, never a count. *)
Theorem bulk_insert_parallel_spec (wk : Z * Z → Worker) (p : BulkInsertPayload) (parallelism : Z) :
  payload_fit p → (∀ range, wk_pool_get (wk range) ≠ Panic) →
  let rs := row_chunk_ranges (bp_row_count p) parallelism in
  let cols := map column_cells (bp_column_data p) in
  let result := bulk_insert_parallel_with_pool wk p parallelism in
  Forall (λ range, worker_ok (wk range) p range) rs ∧
  (Forall (λ range, is_ok (bulk_worker (wk range) p range).1 = true) rs ∧ result = Ok (bp_row_count p) ∧
     glue (length cols) (map (λ range, worker_sent (wk range) p range) rs) = cols ∨
   ¬ Forall (λ range, is_ok (bulk_worker (wk range) p range).1 = true) rs ∧ ∃ m, result = Err (InternalError m)).
Proof.
  intros Hp Hg. cbv zeta. set (rs := row_chunk_ranges _ _). set (cols := map column_cells _).
  pose proof (pf_rows p Hp) as Hn. pose proof (chunk_ranges_partition (bp_row_count p) parallelism ltac:(lia)) as [Hc _].
  rewrite <- row_chunk_ranges_eq in Hc by lia. fold rs in Hc.
  assert (Forall (λ range, worker_ok (wk range) p range) rs) as Hw.
  { eapply Forall_impl; [exact (consecutive_bounds _ _ _ Hc)|]. intros [a b] Hab. apply bulk_worker_ok; (done || lia). }
  split; [done|].
  destruct (tally_ranges 0 (bp_row_count p) rs (map (λ range, (bulk_worker (wk range) p range).1) rs) 0 Hc) as (total & errors & Ht & Hcase).
  { apply Forall2_fmap_r, Forall_Forall2_diag. eapply Forall_impl; [exact Hw|]. intros range (k & Hk & _ & Hr).
    unfold range_result, compose. destruct (bulk_worker (wk range) p range).1; [by destruct Hr|done|done]. }
  rewrite Forall_fmap in Hcase. unfold bulk_insert_parallel_with_pool. cbv zeta. fold rs.
  destruct Hcase as [(Hall & -> & ->)|(Hnot & He)]; [left|right]; (split; [done|]).
  - split.
    + destruct (Z.eqb_spec (bp_row_count p) 0) as [Hz|_]; [by rewrite Hz|]. rewrite Ht. cbn [obind]. rewrite len_nil. cbn. f_equal. lia.
    + assert (map (λ range, worker_sent (wk range) p range) rs
              = map (λ '(a, b), map (rows_of (Z.to_nat a) (Z.to_nat (b - a))) cols) rs) as ->.
      { apply map_ext_Forall. rewrite Forall_forall in *. intros [a b] Hin. destruct (Hw _ Hin) as (k & Hk & -> & Hr).
        specialize (Hall _ Hin). unfold compose in Hall.
        destruct (bulk_worker (wk (a, b)) p (a, b)).1; [|done|done]. cbn [fst snd] in *. by destruct Hr as [-> ->]. }
      rewrite (glue_ranges cols 0 (bp_row_count p)) by (done || lia). rewrite Z.sub_0_r.
      unfold cols. rewrite map_map. apply map_ext_Forall, Forall_forall. intros d Hd.
      unfold rows_of. rewrite drop_0. apply take_ge. rewrite length_column_cells.
      pose proof (pf_data p Hp) as HF. apply list_elem_of_lookup_1 in Hd as [i Hi].
      destruct (Forall2_lookup_r _ _ _ _ _ HF Hi) as (s & _ & [Hcf _]). by rewrite (raw_cells_length _ _ _ Hcf).
  - destruct (Z.eqb_spec (bp_row_count p) 0) as [Hz|_].
    { destruct Hnot. unfold rs, row_chunk_ranges. by rewrite Hz. }
    rewrite Ht. cbn [obind]. destruct (Z.eqb_spec (len errors) 0) as [Hz|_]; [|by eexists].
    destruct errors as [|x xs]; [done|]. rewrite len_cons in Hz. pose proof (len_nonneg xs). lia.
Qed.
End Parallel.

Definition ok_worker : Worker := mkWorker (Ok 0) sample_world ok_driver.

Lemma bulk_insert_parallel_spec_witness :
  let wk := λ _ : Z * Z, ok_worker in
  let rs := row_chunk_ranges 3 2 in
  rs = [(0, 2); (2, 3)] ∧
  Forall (λ range, worker_ok (H := plain_buffers) (wk range) three_rows range) rs ∧
  (Forall (λ range, is_ok (bulk_worker (H := plain_buffers) (wk range) three_rows range).1 = true) rs ∧
     bulk_insert_parallel_with_pool (H := plain_buffers) wk three_rows 2 = Ok 3 ∧
     glue 2 (map (λ range, worker_sent (H := plain_buffers) (wk range) three_rows range) rs)
     = [[BInt 7; BNull; BInt (-1)]; [BBytes [x61]; BBytes []; BBytes [x62; x63]]] ∨
   ¬ Forall (λ range, is_ok (bulk_worker (H := plain_buffers) (wk range) three_rows range).1 = true) rs ∧
     ∃ m, bulk_insert_parallel_with_pool (H := plain_buffers) wk three_rows 2 = Err (InternalError m)).
Proof.
  split; [vm_compute; reflexivity|].
  exact (@bulk_insert_parallel_spec plain_buffers (λ _, ok_worker) three_rows 2 three_rows_fit ltac:(done)).
Defined.

(** * A chunk in its own transaction *)

Section Chunk.
Context `{ColumnBuffers} `{Driver}.

(** The events of one chunk, from the calls [hi] of its insert and the outcome [r]:
    autocommit off, the insert, commit or rollback, autocommit on. *)
Inductive chunk_events (phys : Z) : Result Z → History → History → Result Z → Prop :=
| ChunkRefused e r hi : chunk_events phys r hi [(phys, CAutocommit false, false)] (Err e)
| ChunkCommitted n hi b :
    chunk_events phys (Ok n) hi ((phys, CAutocommit false, true) :: hi ++ [(phys, CCommit, true); (phys, CAutocommit true, b)]) (Ok n)
| ChunkRolledBack e hi a b :
    chunk_events phys (Err e) hi ((phys, CAutocommit false, true) :: hi ++ [(phys, CRollback, a); (phys, CAutocommit true, b)]) (Err e)
| ChunkCommitFailed n hi e :
    chunk_events phys (Ok n) hi ((phys, CAutocommit false, true) :: hi ++ [(phys, CCommit, false)]) (Err e).

Lemma runs_ignored phys c {A : Type} (k : outcome OdbcError unit → M A) w h r :
  (∀ a, runs (k a) (w_ext w [(phys, c, is_ok (dr_answer (w_trace w) phys c))]) h r) →
  runs (bind (try_m (call phys c)) k) w ((phys, c, is_ok (dr_answer (w_trace w) phys c)) :: h) r.
Proof.
  intros Hk. eapply (runs_bind _ _ _ [_] h); [apply runs_try; [apply dr_answer_no_panic|apply runs_call]|apply Hk].
Qed.

(** In the per-chunk mode a chunk whose insert fails is rolled back and one whose
    insert succeeds is committed, each between autocommit off and on, and success is
    reported only after a successful commit.  When the commit itself fails the worker
    neither rolls back nor switches autocommit back on: the connection goes back to
    the pool as it is. *)
Theorem insert_i32_chunk_transactional (batch_size phys : Z) (table : string) (columns : list string)
    (chunk : list (list Z)) (n : Z) (w : World) :
  i32_fit columns chunk n →
  ∃ hi ri h r k, runs (insert_i32_chunk PerChunkTransactional batch_size phys table columns chunk) w h r ∧
    chunk_events phys ri hi h r ∧ inserted phys 0 n 0 (map (map BInt) chunk) hi ri k.
Proof.
  intros Hfit. unfold insert_i32_chunk. set (off := CAutocommit false). pose proof (runs_call phys off w) as Hoff.
  set (w1 := w_ext w [(phys, off, true)]).
  destruct (bulk_insert_i32_run (new_binding batch_size) phys table columns chunk n w1) as (hi & ri & k & sql & Hr & _ & Hins);
    [unfold new_binding; lia|done|].
  destruct (dr_answer (w_trace w) phys off) as [[]|e|] eqn:Ha; cbn [is_ok] in Hoff; [| |by apply dr_answer_no_panic in Ha].
  2: { exists hi, ri, [(phys, off, false)], (Err e), k. split; [by apply runs_bind_err|]. split; [constructor|done]. }
  destruct ri as [m|e|]; [| |by destruct Hins as (_ & _ & [])].
  - set (w2 := w_ext w1 hi). pose proof (runs_call phys CCommit w2) as Hc.
    destruct (dr_answer (w_trace w2) phys CCommit) as [[]|e|] eqn:Hac; cbn [is_ok] in Hc; [| |by apply dr_answer_no_panic in Hac].
    + exists hi, (Ok m). eexists _, (Ok m), k. split; [|split; [apply ChunkCommitted|done]].
      eapply (runs_bind _ _ _ [_]); [exact Hoff|]. eapply runs_bind; [apply runs_try; [|exact Hr]; done|]. fold w1. cbn beta iota.
      eapply (runs_bind _ _ _ [_]); [exact Hc|]. apply runs_ignored. intros _. apply runs_ret.
    + exists hi, (Ok m). eexists _, (Err e), k. split; [|split; [apply ChunkCommitFailed|done]].
      eapply (runs_bind _ _ _ [_]); [exact Hoff|]. eapply runs_bind; [apply runs_try; [|exact Hr]; done|]. fold w1. cbn beta iota.
      by apply runs_bind_err.
  - exists hi, (Err e). eexists _, (Err e), k. split; [|split; [apply ChunkRolledBack|done]].
    eapply (runs_bind _ _ _ [_]); [exact Hoff|]. eapply runs_bind; [apply runs_try; [|exact Hr]; done|]. fold w1. cbn beta iota.
    apply runs_ignored. intros _. apply runs_ignored. intros _. apply runs_lift.
Qed.
End Chunk.

Lemma insert_i32_chunk_transactional_witness :
  (insert_i32_chunk (H := plain_buffers) (H0 := ok_driver) PerChunkTransactional 2 0 "t" ["a"] [[5; 6; 7]] sample_world).1 = Ok 3 ∧
  ∃ hi ri h r k, runs (insert_i32_chunk (H := plain_buffers) (H0 := ok_driver) PerChunkTransactional 2 0 "t" ["a"] [[5; 6; 7]]) sample_world h r ∧
    chunk_events 0 ri hi h r ∧ inserted 0 0 3 0 (map (map BInt) [[5; 6; 7]]) hi ri k.
Proof.
  split; [vm_compute; reflexivity|].
  apply (@insert_i32_chunk_transactional plain_buffers ok_driver 2 0 "t" ["a"] [[5; 6; 7]] 3).
  split; [discriminate|reflexivity|by repeat constructor].
Defined.

(** * The count of a partial failure *)

(** A driver that refuses one batch. *)
Definition refusing (cols : list (list BindCell)) (c : Call) : outcome OdbcError unit :=
  if bool_decide (c = CBatch cols) then Err (InternalError "gone") else Ok tt.

Lemma refusing_no_panic cols c : refusing cols c ≠ Panic.
Proof. unfold refusing. by case_if. Qed.

Definition batch_fails (cols : list (list BindCell)) : Driver := {|
  dr_answer := λ _ _ c, refusing cols c;
  dr_dbms_name := λ _ _, Ok "PostgreSQL";
  dr_name_len := λ _ _ _, Ok 63;
  dr_catalog := λ _ _, Ok "main";
  dr_rows := λ _ _ _, Ok [];
  dr_answer_no_panic := λ _ _ c, refusing_no_panic cols c;
  dr_dbms_name_no_panic := λ _ _ H, match H with end
|}.

Definition second_row_fails : Worker := mkWorker (Ok 0) sample_world (batch_fails [[BInt 6]]).

(** Rows that a failing chunk inserted before it failed, and that autocommit keeps,
    are not in [rows_inserted_before_failure]: row 5 is in the table, the count is 0. *)
Lemma partial_rows_not_counted :
  let p := mkParallel 1 1 Independent in
  (∃ detail, insert_i32_parallel (H := plain_buffers) p (λ _, second_row_fails) "t" ["a"] [[5; 6]]
             = Err (BulkPartialFailure 0 1 detail)) ∧
  batches 0 (w_trace (i32_worker (H := plain_buffers) p second_row_fails "t" ["a"] [[5; 6]] (0, 2)).2) = [[[BInt 5]]].
Proof. split; [eexists|]; vm_compute; reflexivity. Qed.
