(* ===== verification/Transaction.v ===== *)
(** Local transactions (engine/transaction.rs): what reaches the driver when a
    transaction begins, finishes, is dropped or uses savepoints, for every driver. *)

From S2P Require Import Prelude Wire Errors Text Identifier Capabilities Handles.

(** * Options *)

Inductive IsolationLevel := ReadUncommitted | ReadCommitted | RepeatableRead | Serializable.

Inductive TransactionAccessMode := ReadWrite | ReadOnly.

Definition access_mode_from_u32 (v : Z) : TransactionAccessMode :=
  match v with 1 => ReadOnly | _ => ReadWrite end.

Definition access_keyword (a : TransactionAccessMode) : string :=
  match a with ReadOnly => "READ ONLY" | ReadWrite => "READ WRITE" end.

Definition is_read_only (a : TransactionAccessMode) : bool :=
  match a with ReadOnly => true | ReadWrite => false end.

(** [LockTimeout]: milliseconds, [None] for the engine default. *)
Abbreviation LockTimeout := (option Z).

Definition engine_default : LockTimeout := None.

Definition from_millis (millis : Z) : LockTimeout := if millis =? 0 then None else Some millis.

(** A [Duration] in nanoseconds; [as_millis] rounds down. *)
Definition from_duration (nanos : Z) : LockTimeout :=
  let raw_ms := nanos / 1000000 in
  if (raw_ms =? 0) && negb (nanos =? 0) then Some 1
  else if raw_ms =? 0 then engine_default
  else Some (if raw_ms <=? 2 ^ 32 - 1 then raw_ms else 2 ^ 32 - 1).

Definition is_engine_default (t : LockTimeout) : bool := match t with None => true | Some _ => false end.

Definition millis_as_seconds_rounded_up (t : LockTimeout) : option Z :=
  (λ ms, Z.max (div_ceil ms 1000) 1) <$> t.

Definition isolation_from_u32 (v : Z) : option IsolationLevel :=
  match v with
  | 0 => Some ReadUncommitted
  | 1 => Some ReadCommitted
  | 2 => Some RepeatableRead
  | 3 => Some Serializable
  | _ => None
  end.

Definition isolation_keyword (l : IsolationLevel) : string :=
  match l with
  | ReadUncommitted => "READ UNCOMMITTED"
  | ReadCommitted => "READ COMMITTED"
  | RepeatableRead => "REPEATABLE READ"
  | Serializable => "SERIALIZABLE"
  end.

Definition to_db2_keyword (l : IsolationLevel) : string :=
  match l with ReadUncommitted => "UR" | ReadCommitted => "CS" | RepeatableRead => "RS" | Serializable => "RR" end.

(** The derived [Debug]. *)
Definition debug_isolation (l : IsolationLevel) : string :=
  match l with
  | ReadUncommitted => "ReadUncommitted" | ReadCommitted => "ReadCommitted"
  | RepeatableRead => "RepeatableRead" | Serializable => "Serializable"
  end.

Inductive TransactionState := TxNone | TxActive | TxCommitted | TxRolledBack.

#[export] Instance TransactionState_eq_dec : EqDecision TransactionState.
Proof. solve_decision. Defined.

Definition debug_state (s : TransactionState) : string :=
  match s with TxNone => "None" | TxActive => "Active" | TxCommitted => "Committed" | TxRolledBack => "RolledBack" end.

Inductive SavepointDialect := DAuto | DSql92 | DSqlServer.

#[export] Instance SavepointDialect_eq_dec : EqDecision SavepointDialect.
Proof. solve_decision. Defined.

Definition dialect_from_u32 (v : Z) : SavepointDialect :=
  match v with 1 => DSqlServer | 2 => DSql92 | _ => DAuto end.

Inductive IsolationStrategy := IsSql92 | IsSqlitePragma | IsDb2SetCurrent | IsOracleRestricted | IsSkip.

Definition for_engine (engine : string) : IsolationStrategy :=
  if String.eqb engine ENGINE_SQLITE then IsSqlitePragma
  else if String.eqb engine ENGINE_DB2 then IsDb2SetCurrent
  else if String.eqb engine ENGINE_ORACLE then IsOracleRestricted
  else if String.eqb engine ENGINE_SNOWFLAKE then IsSkip
  else IsSql92.

Definition resolve_savepoint_dialect_for_engine (engine : string) : SavepointDialect :=
  if String.eqb engine ENGINE_SQLSERVER then DSqlServer else DSql92.

(** [Transaction]; the state is behind a mutex that can be poisoned. *)
Record Transaction := mkTx {
  t_conn_id : Z;
  t_state : TransactionState;
  t_state_poisoned : bool;
  t_isolation : IsolationLevel;
  t_dialect : SavepointDialect;
  t_access : TransactionAccessMode;
  t_lock_timeout : LockTimeout
}.

Section Transactions.
Context `{Driver}.

(** * Begin *)

Definition detect_engine_and_dialect (conn_id : Z) (requested : SavepointDialect) : M (string * SavepointDialect) :=
  match requested with
  | DSql92 => ret (ENGINE_UNKNOWN, DSql92)
  | DSqlServer => ret (ENGINE_SQLSERVER, DSqlServer)
  | DAuto =>
      let! r := try_m (detect_for_conn_id conn_id) in
      match r with
      | Ok info => ret (di_engine info, resolve_savepoint_dialect_for_engine (di_engine info))
      | _ => ret (ENGINE_UNKNOWN, DSql92)
      end
  end.

Definition apply_isolation (phys : Z) (engine_id : string) (level : IsolationLevel) : M unit :=
  match for_engine engine_id with
  | IsSql92 => exec phys ("SET TRANSACTION ISOLATION LEVEL " +:+ isolation_keyword level)
  | IsSqlitePragma =>
      exec phys (match level with
                 | ReadUncommitted => "PRAGMA read_uncommitted = 1"
                 | _ => "PRAGMA read_uncommitted = 0"
                 end)
  | IsDb2SetCurrent => exec phys ("SET CURRENT ISOLATION = " +:+ to_db2_keyword level)
  | IsOracleRestricted =>
      match level with
      | ReadCommitted => exec phys "SET TRANSACTION ISOLATION LEVEL READ COMMITTED"
      | Serializable => exec phys "SET TRANSACTION ISOLATION LEVEL SERIALIZABLE"
      | ReadUncommitted | RepeatableRead =>
          lift (Err (ValidationError ("Oracle does not support isolation level " +:+ debug_isolation level
                 +:+ "; only ReadCommitted and Serializable are supported")))
      end
  | IsSkip => ret tt
  end.

Definition apply_access_mode (phys : Z) (engine_id : string) (access_mode : TransactionAccessMode) : M unit :=
  if negb (is_read_only access_mode) then ret tt
  else if existsb (String.eqb engine_id) [ENGINE_POSTGRES; ENGINE_MYSQL; ENGINE_MARIADB; ENGINE_DB2; ENGINE_ORACLE] then
    exec phys ("SET TRANSACTION " +:+ access_keyword access_mode)
  else ret tt.

Definition apply_lock_timeout (phys : Z) (engine_id : string) (lock_timeout : LockTimeout) : M unit :=
  if is_engine_default lock_timeout then ret tt
  else
    match lock_timeout with
    | None => lift Panic
    | Some ms =>
        if String.eqb engine_id ENGINE_SQLSERVER then exec phys ("SET LOCK_TIMEOUT " +:+ fmt_Z ms)
        else if String.eqb engine_id ENGINE_POSTGRES then exec phys ("SET LOCAL lock_timeout = '" +:+ fmt_Z ms +:+ "ms'")
        else if String.eqb engine_id ENGINE_MYSQL || String.eqb engine_id ENGINE_MARIADB then
          match millis_as_seconds_rounded_up lock_timeout with
          | Some secs => exec phys ("SET SESSION innodb_lock_wait_timeout = " +:+ fmt_Z secs)
          | None => lift Panic
          end
        else if String.eqb engine_id ENGINE_DB2 then
          match millis_as_seconds_rounded_up lock_timeout with
          | Some secs => exec phys ("SET CURRENT LOCK TIMEOUT " +:+ fmt_Z secs)
          | None => lift Panic
          end
        else if String.eqb engine_id ENGINE_SQLITE then exec phys ("PRAGMA busy_timeout = " +:+ fmt_Z ms)
        else ret tt
    end.

Definition begin_with_lock_timeout (conn_id : Z) (isolation_level : IsolationLevel)
    (savepoint_dialect : SavepointDialect) (access_mode : TransactionAccessMode) (lock_timeout : LockTimeout) :
    M Transaction :=
  let! '(engine_id, resolved_dialect) := detect_engine_and_dialect conn_id savepoint_dialect in
  let! phys := open_connection "Failed to lock handles" conn_id in
  let! _ := apply_isolation phys engine_id isolation_level in
  let! _ := apply_access_mode phys engine_id access_mode in
  let! _ := apply_lock_timeout phys engine_id lock_timeout in
  let! _ := call phys (CAutocommit false) in
  ret (mkTx conn_id TxActive false isolation_level resolved_dialect access_mode lock_timeout).

Definition begin_with_access_mode (conn_id : Z) (level : IsolationLevel) (d : SavepointDialect)
    (access_mode : TransactionAccessMode) : M Transaction :=
  begin_with_lock_timeout conn_id level d access_mode engine_default.

Definition begin_with_dialect (conn_id : Z) (level : IsolationLevel) (d : SavepointDialect) : M Transaction :=
  begin_with_access_mode conn_id level d ReadWrite.

Definition begin (conn_id : Z) (level : IsolationLevel) : M Transaction := begin_with_dialect conn_id level DAuto.

(** * The end of a transaction *)

Definition set_state (t : Transaction) (s : TransactionState) : Transaction :=
  mkTx (t_conn_id t) s (t_state_poisoned t) (t_isolation t) (t_dialect t) (t_access t) (t_lock_timeout t).

(** [Drop for Transaction]: nothing but an active transaction does anything, and no
    failure escapes. *)
Definition drop_tx (t : Transaction) : M unit :=
  let s := if t_state_poisoned t then TxNone else t_state t in
  if negb (bool_decide (s = TxActive)) then ret tt
  else
    let! r := try_m (open_connection "" (t_conn_id t)) in
    match r with
    | Ok phys =>
        let! _ := try_m (call phys CRollback) in
        let! _ := try_m (call phys (CAutocommit true)) in
        ret tt
    | _ => ret tt
    end.

(** [self] is consumed: whatever the result, the value is dropped at the end, in
    the state its body left it. *)
Definition consume (body : M (outcome OdbcError unit * Transaction)) : M unit :=
  let! '(r, t) := body in
  let! _ := drop_tx t in
  lift r.

(** The bodies of [commit] and [rollback]: the result and the state left behind. *)
Definition commit_body (t : Transaction) : M (outcome OdbcError unit * Transaction) :=
  if t_state_poisoned t then ret (Err (InternalError "Failed to lock transaction state"), t)
  else if negb (bool_decide (t_state t = TxActive)) then
    ret (Err (ValidationError ("Cannot commit: transaction state is " +:+ debug_state (t_state t))), t)
  else
    let! c := try_m (open_connection "Failed to lock handles for commit" (t_conn_id t)) in
    match c with
    | Ok phys =>
        let! commit_result := try_m (call phys CCommit) in
        let! _ := try_m (call phys (CAutocommit true)) in
        match commit_result with
        | Ok _ => ret (Ok tt, set_state t TxCommitted)
        | Err e => ret (Err e, set_state t TxRolledBack)
        | Panic => lift Panic
        end
    | Err e => ret (Err e, t)
    | Panic => lift Panic
    end.

Definition rollback_body (t : Transaction) : M (outcome OdbcError unit * Transaction) :=
  if t_state_poisoned t then ret (Err (InternalError "Failed to lock transaction state"), t)
  else if negb (bool_decide (t_state t = TxActive)) then
    ret (Err (ValidationError ("Cannot rollback: transaction state is " +:+ debug_state (t_state t))), t)
  else
    let! c := try_m (open_connection "Failed to lock handles for rollback" (t_conn_id t)) in
    match c with
    | Ok phys =>
        let! rollback_result := try_m (call phys CRollback) in
        let! _ := try_m (call phys (CAutocommit true)) in
        ret (rollback_result, set_state t TxRolledBack)
    | Err e => ret (Err e, t)
    | Panic => lift Panic
    end.

Definition commit (t : Transaction) : M unit := consume (commit_body t).
Definition rollback (t : Transaction) : M unit := consume (rollback_body t).

(** * Closures in a transaction *)

(** A panic of the closure unwinds through the function and drops the transaction. *)
Definition execute_with_lock_timeout {T : Type} (conn_id : Z) (isolation : IsolationLevel)
    (savepoint_dialect : SavepointDialect) (access_mode : TransactionAccessMode) (lock_timeout : LockTimeout)
    (f : Transaction → M T) : M T :=
  let! txn := begin_with_lock_timeout conn_id isolation savepoint_dialect access_mode lock_timeout in
  λ w,
    match f txn w with
    | (Ok result, w) => (let! _ := commit txn in ret result) w
    | (Err original, w) => (let! _ := try_m (rollback txn) in lift (Err original)) w
    | (Panic, w) => (let! _ := drop_tx txn in lift Panic) w
    end.

Definition execute_with_access_mode {T : Type} (conn_id : Z) (isolation : IsolationLevel)
    (d : SavepointDialect) (access_mode : TransactionAccessMode) (f : Transaction → M T) : M T :=
  execute_with_lock_timeout conn_id isolation d access_mode engine_default f.

Definition execute_with_dialect {T : Type} (conn_id : Z) (isolation : IsolationLevel) (d : SavepointDialect)
    (f : Transaction → M T) : M T :=
  execute_with_access_mode conn_id isolation d ReadWrite f.

Definition execute {T : Type} (conn_id : Z) (isolation : IsolationLevel) (f : Transaction → M T) : M T :=
  execute_with_dialect conn_id isolation DAuto f.

(** * Statements and savepoints *)

Definition execute_sql (t : Transaction) (sql : string) : M unit :=
  let! phys := open_connection "Failed to lock handles for execute_sql" (t_conn_id t) in
  exec phys sql.

Definition quoting_for (d : SavepointDialect) : IdentifierQuoting :=
  match d with DSql92 | DAuto => DoubleQuote | DSqlServer => Brackets end.

Definition savepoint_create (t : Transaction) (name : string) : M unit :=
  let! _ := lift (validate_identifier name) in
  let! qname := lift (quote_identifier name (quoting_for (t_dialect t))) in
  execute_sql t (match t_dialect t with
                 | DSqlServer => "SAVE TRANSACTION " +:+ qname
                 | DSql92 | DAuto => "SAVEPOINT " +:+ qname
                 end).

Definition savepoint_rollback_to (t : Transaction) (name : string) : M unit :=
  let! _ := lift (validate_identifier name) in
  let! qname := lift (quote_identifier name (quoting_for (t_dialect t))) in
  execute_sql t (match t_dialect t with
                 | DSqlServer => "ROLLBACK TRANSACTION " +:+ qname
                 | DSql92 | DAuto => "ROLLBACK TO SAVEPOINT " +:+ qname
                 end).

Definition savepoint_release (t : Transaction) (name : string) : M unit :=
  let! _ := lift (validate_identifier name) in
  match t_dialect t with
  | DSqlServer => ret tt
  | DSql92 | DAuto =>
      let! qname := lift (quote_identifier name DoubleQuote) in
      execute_sql t ("RELEASE SAVEPOINT " +:+ qname)
  end.

Definition is_active (t : Transaction) : bool :=
  if t_state_poisoned t then false else bool_decide (t_state t = TxActive).

(** [Savepoint]: it exists once its creation succeeded. *)
Definition savepoint_new (t : Transaction) (name : string) : M string :=
  let! _ := savepoint_create t name in ret name.
End Transactions.

(** * Lock timeouts *)

(** The override never relaxes or drops the caller's bound: zero and only zero
    means "no override", a positive duration below a millisecond becomes one, and
    the seconds used for MySQL and DB2 are the least number that covers the
    milliseconds. *)
Theorem lock_timeout_never_relaxed (nanos : Z) :
  0 ≤ nanos →
  (from_duration nanos = None ↔ nanos = 0) ∧
  (∀ ms, from_duration nanos = Some ms → 0 < ms < 2 ^ 32 ∧ (ms < 2 ^ 32 - 1 → (ms - 1) * 1000000 < nanos) ∧
     ∃ s, millis_as_seconds_rounded_up (Some ms) = Some s ∧ ms ≤ 1000 * s ∧ 1000 * (s - 1) < ms).
Proof.
  intros Hn. unfold from_duration, engine_default.
  pose proof (Z.div_mod nanos 1000000 ltac:(lia)) as Hd. pose proof (Z.mod_pos_bound nanos 1000000 ltac:(lia)) as Hm.
  assert (∀ ms, 0 < ms → ∃ s, millis_as_seconds_rounded_up (Some ms) = Some s ∧ ms ≤ 1000 * s ∧ 1000 * (s - 1) < ms) as Hs.
  { intros ms Hms. eexists; split; [reflexivity|]. unfold div_ceil.
    pose proof (Z.div_mod (ms + 1000 - 1) 1000 ltac:(lia)). pose proof (Z.mod_pos_bound (ms + 1000 - 1) 1000 ltac:(lia)). lia. }
  destruct (Z.eqb_spec (nanos / 1000000) 0) as [H0|H0], (Z.eqb_spec nanos 0) as [H1|H1]; cbn [negb andb]; try lia.
  - split; [done|]. done.
  - split; [split; [done|lia]|]. intros ms [= <-]. repeat split; try lia. apply Hs. lia.
  - split; [split; [done|lia]|]. intros ms [= <-].
    destruct (Z.leb_spec (nanos / 1000000) (2 ^ 32 - 1)); repeat split; try lia; apply Hs; lia.
Qed.

Lemma lock_timeout_never_relaxed_witness :
  from_duration 2500000000 = Some 2500 ∧
  ∃ s, millis_as_seconds_rounded_up (Some 2500) = Some s ∧ 2500 ≤ 1000 * s ∧ 1000 * (s - 1) < 2500.
Proof.
  split; [vm_compute; reflexivity|].
  destruct (lock_timeout_never_relaxed 2500000000) as [_ H]; [lia|].
  destruct (H 2500) as (_ & _ & Hs); [vm_compute; reflexivity|exact Hs].
Defined.

(** * What a transaction sets up *)

(** The statements sent for the isolation level, the access mode and the lock
    timeout; [None] where the engine refuses the level. *)
Definition isolation_stmts (engine : string) (level : IsolationLevel) : option (list string) :=
  match for_engine engine with
  | IsSql92 => Some ["SET TRANSACTION ISOLATION LEVEL " +:+ isolation_keyword level]
  | IsSqlitePragma =>
      Some [match level with ReadUncommitted => "PRAGMA read_uncommitted = 1" | _ => "PRAGMA read_uncommitted = 0" end]
  | IsDb2SetCurrent => Some ["SET CURRENT ISOLATION = " +:+ to_db2_keyword level]
  | IsOracleRestricted =>
      match level with
      | ReadCommitted => Some ["SET TRANSACTION ISOLATION LEVEL READ COMMITTED"]
      | Serializable => Some ["SET TRANSACTION ISOLATION LEVEL SERIALIZABLE"]
      | _ => None
      end
  | IsSkip => Some []
  end.

Definition has_read_only (engine : string) : bool :=
  existsb (String.eqb engine) [ENGINE_POSTGRES; ENGINE_MYSQL; ENGINE_MARIADB; ENGINE_DB2; ENGINE_ORACLE].

Definition access_stmts (engine : string) (a : TransactionAccessMode) : list string :=
  if is_read_only a && has_read_only engine then ["SET TRANSACTION READ ONLY"] else [].

(** Seconds, rounded up. *)
Definition secs (ms : Z) : Z := Z.max (div_ceil ms 1000) 1.

Definition lock_stmts (engine : string) (t : LockTimeout) : list string :=
  match t with
  | None => []
  | Some ms =>
      if String.eqb engine ENGINE_SQLSERVER then ["SET LOCK_TIMEOUT " +:+ fmt_Z ms]
      else if String.eqb engine ENGINE_POSTGRES then ["SET LOCAL lock_timeout = '" +:+ fmt_Z ms +:+ "ms'"]
      else if String.eqb engine ENGINE_MYSQL || String.eqb engine ENGINE_MARIADB then
        ["SET SESSION innodb_lock_wait_timeout = " +:+ fmt_Z (secs ms)]
      else if String.eqb engine ENGINE_DB2 then ["SET CURRENT LOCK TIMEOUT " +:+ fmt_Z (secs ms)]
      else if String.eqb engine ENGINE_SQLITE then ["PRAGMA busy_timeout = " +:+ fmt_Z ms]
      else []
  end.

(** The engine and dialect a request resolves to, given the DBMS name when it was asked for. *)
Definition resolves (d : SavepointDialect) (engine : string) (d' : SavepointDialect) : Prop :=
  match d with
  | DSql92 => engine = ENGINE_UNKNOWN ∧ d' = DSql92
  | DSqlServer => engine = ENGINE_SQLSERVER ∧ d' = DSqlServer
  | DAuto => (engine = ENGINE_UNKNOWN ∧ d' = DSql92) ∨
             (∃ name, engine = Capabilities.engine (from_driver_name name) ∧ d' = resolve_savepoint_dialect_for_engine engine)
  end.

Section TransactionSpecs.
Context `{Driver}.

Lemma exec_one phys sql w : exec phys sql w = exec_all phys [sql] w.
Proof.
  cbn [exec_all]. unfold bind. destruct (exec phys sql w) as [[[]|e|] w'] eqn:He; done.
Qed.

Lemma apply_isolation_stmts phys e l w :
  match isolation_stmts e l with
  | Some sqls => apply_isolation phys e l w = exec_all phys sqls w
  | None => ∃ m, runs (apply_isolation phys e l) w [] (Err (ValidationError m))
  end.
Proof.
  unfold isolation_stmts, apply_isolation. destruct (for_engine e), l; try apply exec_one; try done.
  all: eexists; apply runs_lift.
Qed.

Lemma apply_access_stmts phys e a w : apply_access_mode phys e a w = exec_all phys (access_stmts e a) w.
Proof.
  unfold apply_access_mode, access_stmts, has_read_only. destruct a; cbn [is_read_only negb andb]; [done|].
  destruct (existsb _ _); [apply exec_one|done].
Qed.

Lemma apply_lock_stmts phys e t w : apply_lock_timeout phys e t w = exec_all phys (lock_stmts e t) w.
Proof.
  unfold apply_lock_timeout, lock_stmts. destruct t as [ms|]; cbn [is_engine_default]; [|done].
  unfold millis_as_seconds_rounded_up. cbn [fmap option_fmap option_map]. fold (secs ms).
  repeat case_if; try apply exec_one; done.
Qed.

(** No event of [h] switches autocommit successfully. *)
Definition keeps_autocommit (h : History) : Prop := Forall (λ ev, match ev with (_, CAutocommit _, true) => False | _ => True end) h.

Lemma executed_keeps phys ok sqls : keeps_autocommit (map (executed phys ok) sqls).
Proof. induction sqls; constructor; done. Qed.

Lemma queries_keep phys h : Forall (λ ev, is_query phys ev = true) h → keeps_autocommit h.
Proof. intros Hq. eapply Forall_impl; [exact Hq|]. by intros [[p []] []]. Qed.

(** Engine detection makes only queries. *)
Lemma detect_engine_cases id d w :
  ∃ h e d', runs (detect_engine_and_dialect id d) w h (Ok (e, d')) ∧ resolves d e d' ∧
    (h = [] ∨ ∃ phys, live w id phys ∧ Forall (λ ev, is_query phys ev = true) h).
Proof.
  destruct d; cbn [detect_engine_and_dialect resolves].
  2, 3: eexists [], _, _; split; [apply runs_ret|]; (split; [done|by left]).
  assert (∃ h r, runs (detect_for_conn_id id) w h r ∧ r ≠ Panic ∧ (h = [] ∨ ∃ phys, live w id phys ∧ Forall (λ ev, is_query phys ev = true) h) ∧
    match r with Ok info => ∃ name, di_engine info = engine (from_driver_name name) | _ => True end) as (h & r & Hr & Hnp & Hh & Hi).
  { unfold detect_for_conn_id. destruct (open_cases "Failed to lock handles" id w) as [(p & Hl & Ho)|(_ & e & Ho)].
    - destruct (detect_cases p w) as [(h & info & Hq & Hr & name & _ & Hn)|(h & e & Hq & Hr)].
      + exists h, (Ok info). split; [exact (runs_bind_nil _ _ _ _ _ _ Ho Hr)|]. split; [done|]. split; [right; by exists p|by exists name].
      + exists h, (Err e). split; [exact (runs_bind_nil _ _ _ _ _ _ Ho Hr)|]. split; [done|]. split; [right; by exists p|done].
    - exists [], (Err e). split; [exact (runs_bind_err _ _ _ _ _ Ho)|]. split; [done|]. by split; [left|]. }
  pose proof (runs_try _ _ _ _ Hnp Hr) as Ht.
  destruct r as [info|e|]; [| |done].
  - destruct Hi as [name Hn]. exists h. eexists _, _. split; [|split; [|exact Hh]].
    + rewrite <- (app_nil_r h). refine (runs_bind _ _ _ _ _ _ _ Ht _). apply runs_ret.
    + right. by exists name.
  - exists h. eexists _, _. split; [|split; [|exact Hh]].
    + rewrite <- (app_nil_r h). refine (runs_bind _ _ _ _ _ _ _ Ht _). apply runs_ret.
    + by left.
Qed.

(** The three groups of statements, one after the other. *)
Lemma setup_cases phys e l a t (k : M Transaction) w :
  (let! _ := apply_isolation phys e l in let! _ := apply_access_mode phys e a in
   let! _ := apply_lock_timeout phys e t in k) w
  = match isolation_stmts e l with
    | Some sqls => (let! _ := exec_all phys (sqls ++ access_stmts e a ++ lock_stmts e t) in k) w
    | None => match apply_isolation phys e l w with (Err m, w) => (Err m, w) | (_, w) => (Panic, w) end
    end.
Proof.
  assert (∀ xs ys w, exec_all phys (xs ++ ys) w = (let! _ := exec_all phys xs in exec_all phys ys) w) as Happ.
  { induction xs as [|x xs IH]; intros ys w'; [done|]. cbn [app exec_all]. unfold bind in *.
    destruct (exec phys x w') as [[]]; [apply IH|done..]. }
  pose proof (apply_isolation_stmts phys e l w) as Hi.
  destruct (isolation_stmts e l) as [sqls|].
  - unfold bind. rewrite Hi, !Happ. unfold bind. destruct (exec_all phys sqls w) as [[]]; [|done..].
    rewrite apply_access_stmts, Happ. unfold bind. destruct (exec_all phys (access_stmts e a) _) as [[]]; [|done..].
    by rewrite apply_lock_stmts.
  - destruct Hi as [m Hr]. unfold bind. by rewrite Hr.
Qed.

(** The shape of every run of [begin]. *)
Lemma begin_cases id l d a t w :
  (∃ h txn, runs (begin_with_lock_timeout id l d a t) w h (Ok txn) ∧
     ∃ phys e d' q sqls, live w id phys ∧ resolves d e d' ∧ Forall (λ ev, is_query phys ev = true) q ∧
       isolation_stmts e l = Some sqls ∧
       h = q ++ map (executed phys true) (sqls ++ access_stmts e a ++ lock_stmts e t) ++ [(phys, CAutocommit false, true)] ∧
       txn = mkTx id TxActive false l d' a t) ∨
  (∃ h err, runs (begin_with_lock_timeout id l d a t) w h (Err err) ∧ keeps_autocommit h).
Proof.
  unfold begin_with_lock_timeout.
  destruct (detect_engine_cases id d w) as (q & e & d' & Hdet & Hres & Hq).
  assert (keeps_autocommit q) as Hqk.
  { destruct Hq as [->|(p & _ & Hq)]; [constructor|by eapply queries_keep]. }
  destruct (open_cases "Failed to lock handles" id (w_ext w q)) as [(phys & Hl & Ho)|(_ & err & Ho)].
  2: { right. exists (q ++ []), err. split; [exact (runs_bind _ _ _ _ _ _ _ Hdet (runs_bind_err _ _ _ _ _ Ho))|].
       by rewrite app_nil_r. }
  pose proof (setup_cases phys e l a t
    (let! _ := call phys (CAutocommit false) in ret (mkTx id TxActive false l d' a t)) (w_ext w q)) as Hsetup.
  pose proof (apply_isolation_stmts phys e l (w_ext w q)) as Hi.
  destruct (isolation_stmts e l) as [sqls|] eqn:Hiso.
  2: { right. destruct Hi as [m Hi]. rewrite Hi in Hsetup. exists (q ++ []), (ValidationError m).
       split; [exact (runs_bind _ _ _ _ _ _ _ Hdet (runs_bind_nil _ _ _ _ _ _ Ho Hsetup))|by rewrite app_nil_r]. }
  set (stmts := sqls ++ _ ++ _) in *.
  destruct (exec_all_cases phys stmts (w_ext w q)) as [Hex|(pre & sql & post & err & _ & Hex)].
  - set (w1 := w_ext (w_ext w q) (map (executed phys true) stmts)).
    pose proof (runs_call phys (CAutocommit false) w1) as Hc.
    destruct (dr_answer (w_trace w1) phys (CAutocommit false)) as [[]|err|] eqn:Ha; [| |by apply dr_answer_no_panic in Ha].
    + left. exists (q ++ map (executed phys true) stmts ++ [(phys, CAutocommit false, true)]), (mkTx id TxActive false l d' a t).
      split.
      * eapply runs_bind; [exact Hdet|]. eapply runs_bind_nil; [exact Ho|]. unfold runs. rewrite Hsetup.
        eapply (runs_bind _ _ _ _ [_]); [exact Hex|]. eapply (runs_bind _ _ _ [_] []); [exact Hc|apply runs_ret].
      * exists phys, e, d', q, sqls. repeat (split; [done|]). split; [|done].
        destruct Hq as [->|(p & Hp & Hq)]; [constructor|]. destruct Hl as (_ & Hl & _), Hp as (_ & Hp & _). cbn in Hl.
        assert (p = phys) as -> by congruence. done.
    + right. exists (q ++ map (executed phys true) stmts ++ [(phys, CAutocommit false, false)]), err. split.
      * eapply runs_bind; [exact Hdet|]. eapply runs_bind_nil; [exact Ho|]. unfold runs. rewrite Hsetup.
        eapply (runs_bind _ _ _ _ [_]); [exact Hex|]. exact (runs_bind_err _ _ _ _ _ Hc).
      * apply Forall_app. split; [done|]. apply Forall_app. split; [apply executed_keeps|by repeat constructor].
  - right. exists (q ++ map (executed phys true) pre ++ [executed phys false sql]), err. split.
    + eapply runs_bind; [exact Hdet|]. eapply runs_bind_nil; [exact Ho|]. unfold runs. rewrite Hsetup.
      exact (runs_bind_err _ _ _ _ _ Hex).
    + apply Forall_app. split; [done|]. apply Forall_app. split; [apply executed_keeps|by repeat constructor].
Qed.

(** * The end *)

(** The two calls that end a transaction on [phys]. *)
Definition finish_events (fin : Call) (phys : Z) (w : World) : History :=
  let ok := is_ok (dr_answer (w_trace w) phys fin) in
  [(phys, fin, ok); (phys, CAutocommit true, is_ok (dr_answer (w_trace w ++ [(phys, fin, ok)]) phys (CAutocommit true)))].

Lemma runs_call_ignored phys c w :
  runs (try_m (call phys c)) w [(phys, c, is_ok (dr_answer (w_trace w) phys c))] (Ok (dr_answer (w_trace w) phys c)).
Proof. apply runs_try; [apply dr_answer_no_panic|apply runs_call]. Qed.

(** The final call and the autocommit reset, whatever comes next. *)
Lemma runs_finish {A : Type} phys fin (k : outcome OdbcError unit → M A) w r :
  runs (k (dr_answer (w_trace w) phys fin)) (w_ext w (finish_events fin phys w)) [] r →
  runs (let! c := try_m (call phys fin) in let! _ := try_m (call phys (CAutocommit true)) in k c) w
    (finish_events fin phys w) r.
Proof.
  intros Hk. refine (runs_bind _ _ _ [_] [_] _ _ (runs_call_ignored _ _ _) _).
  rewrite <- (app_nil_r [(phys, CAutocommit true, _)]).
  refine (runs_bind _ _ _ [_] [] _ _ (runs_call_ignored _ _ _) _). by rewrite w_ext_app.
Qed.

Lemma drop_quiet t w :
  t_state_poisoned t = true ∨ t_state t ≠ TxActive → runs (drop_tx t) w [] (Ok tt).
Proof.
  intros Ht. unfold drop_tx. rewrite (bool_decide_eq_false_2 (_ = TxActive)); [apply runs_ret|].
  destruct (t_state_poisoned t); [done|]. by destruct Ht.
Qed.

Lemma drop_active t w phys :
  t_state_poisoned t = false → t_state t = TxActive → live w (t_conn_id t) phys →
  runs (drop_tx t) w (finish_events CRollback phys w) (Ok tt).
Proof.
  intros Hp Hs Hl. unfold drop_tx. rewrite Hp, Hs, bool_decide_eq_true_2 by done. cbn [negb].
  eapply runs_bind_nil; [apply runs_try; [|by apply runs_open]; done|].
  apply (runs_finish phys CRollback (λ _, ret tt)), runs_ret.
Qed.

Lemma drop_unreachable t w :
  (∀ phys, ¬ live w (t_conn_id t) phys) → runs (drop_tx t) w [] (Ok tt).
Proof.
  intros Hn. unfold drop_tx. destruct (negb _); [apply runs_ret|].
  destruct (open_cases "" (t_conn_id t) w) as [(p & Hl & _)|(_ & e & Ho)]; [by destruct (Hn p)|].
  eapply runs_bind_nil; [apply runs_try; [|exact Ho]; done|]. apply runs_ret.
Qed.

Lemma runs_consume body w h r t :
  runs body w h (Ok (r, t)) → (t_state t ≠ TxActive ∨ (∀ phys, ¬ live w (t_conn_id t) phys) ∨ t_state_poisoned t = true) →
  runs (consume body) w h r.
Proof.
  intros Hb Ht. unfold consume. rewrite <- (app_nil_r h). eapply runs_bind; [exact Hb|]. cbn beta iota.
  eapply runs_bind_nil; [|apply runs_lift].
  destruct Ht as [Ht|[Ht|Ht]]; [apply drop_quiet; by right|by apply drop_unreachable|apply drop_quiet; by left].
Qed.

Definition active (t : Transaction) : Prop := t_state_poisoned t = false ∧ t_state t = TxActive.

Lemma commit_active t w phys :
  active t → live w (t_conn_id t) phys →
  runs (commit t) w (finish_events CCommit phys w) (dr_answer (w_trace w) phys CCommit).
Proof.
  intros [Hp Hs] Hl. unfold commit.
  pose proof (dr_answer_no_panic (w_trace w) phys CCommit) as Hnp.
  eapply (runs_consume _ _ _ _ (set_state t match dr_answer (w_trace w) phys CCommit with Ok _ => TxCommitted | _ => TxRolledBack end));
    [|left; cbn; by destruct (dr_answer _ _ _)].
  unfold commit_body. rewrite Hp, Hs, bool_decide_eq_true_2 by done. cbn [negb].
  eapply runs_bind_nil; [apply runs_try; [|by apply runs_open]; done|].
  apply (runs_finish phys CCommit). destruct (dr_answer (w_trace w) phys CCommit) as [[]|e|]; [apply runs_ret..|done].
Qed.

Lemma rollback_active t w phys :
  active t → live w (t_conn_id t) phys →
  runs (rollback t) w (finish_events CRollback phys w) (dr_answer (w_trace w) phys CRollback).
Proof.
  intros [Hp Hs] Hl. unfold rollback. eapply (runs_consume _ _ _ _ (set_state t TxRolledBack)); [|by left].
  unfold rollback_body. rewrite Hp, Hs, bool_decide_eq_true_2 by done. cbn [negb].
  eapply runs_bind_nil; [apply runs_try; [|by apply runs_open]; done|].
  apply (runs_finish phys CRollback), runs_ret.
Qed.

Lemma execute_sql_run t sql w phys :
  live w (t_conn_id t) phys →
  runs (execute_sql t sql) w [(phys, CExec sql, is_ok (dr_answer (w_trace w) phys (CExec sql)))]
    (dr_answer (w_trace w) phys (CExec sql)).
Proof. intros Hl. eapply runs_bind_nil; [by apply runs_open|]. apply runs_call. Qed.

(** C16: beginning a transaction, with any driver: either it succeeds on the
    connection of the id, and then the calls made are detection queries, the
    statements of the isolation level, the access mode and the lock timeout in
    this order, and last the switch of autocommit to off, all successful; or it
    fails and no call has changed autocommit. *)
Theorem begin_spec (id : Z) (l : IsolationLevel) (d : SavepointDialect) (a : TransactionAccessMode) (t : LockTimeout) (w : World) :
  (∃ h txn, runs (begin_with_lock_timeout id l d a t) w h (Ok txn) ∧
     ∃ phys e d' q sqls, live w id phys ∧ resolves d e d' ∧ Forall (λ ev, is_query phys ev = true) q ∧
       isolation_stmts e l = Some sqls ∧
       h = q ++ map (executed phys true) (sqls ++ access_stmts e a ++ lock_stmts e t) ++ [(phys, CAutocommit false, true)] ∧
       txn = mkTx id TxActive false l d' a t) ∨
  (∃ h err, runs (begin_with_lock_timeout id l d a t) w h (Err err) ∧ keeps_autocommit h).
Proof. apply begin_cases. Qed.

(** [commit] and [rollback] of an active transaction make exactly two calls, the
    end of the transaction and the return to autocommit, also when the first one
    fails; the result is the driver's answer, and dropping the value adds no
    second rollback. *)
Theorem finish_spec (t : Transaction) (w : World) (phys : Z) :
  active t → live w (t_conn_id t) phys →
  runs (commit t) w (finish_events CCommit phys w) (dr_answer (w_trace w) phys CCommit) ∧
  runs (rollback t) w (finish_events CRollback phys w) (dr_answer (w_trace w) phys CRollback).
Proof. intros Ht Hl. split; [by apply commit_active|by apply rollback_active]. Qed.

(** A transaction that is not active, or whose connection is gone, cannot reach
    the driver: commit and rollback are errors, and the drop makes no call. *)
Theorem finish_inactive (t : Transaction) (w : World) :
  ¬ active t ∨ (∀ phys, ¬ live w (t_conn_id t) phys) →
  (∃ e, runs (commit t) w [] (Err e)) ∧ (∃ e, runs (rollback t) w [] (Err e)) ∧ runs (drop_tx t) w [] (Ok tt).
Proof.
  intros Ht. assert (runs (drop_tx t) w [] (Ok tt)) as Hdrop.
  { destruct Ht as [Ht|Ht]; [|by apply drop_unreachable]. apply drop_quiet. unfold active in Ht.
    destruct (t_state_poisoned t); [by left|right]. intros Hs. by apply Ht. }
  assert (∀ body, (∃ e, runs body w [] (Ok (Err e, t))) → ∃ e, runs (consume body) w [] (Err e)) as Hc.
  { intros body [e Hb]. exists e. unfold consume. eapply runs_bind_nil; [exact Hb|]. cbn beta iota.
    eapply runs_bind_nil; [exact Hdrop|apply runs_lift]. }
  split; [|split; [|done]]; apply Hc; unfold commit_body, rollback_body;
    (destruct (t_state_poisoned t) eqn:Hp; [eexists; apply runs_ret|]);
    (destruct (decide (t_state t = TxActive)) as [Hs|Hs];
      [rewrite bool_decide_eq_true_2 by done; cbn [negb]
      |rewrite bool_decide_eq_false_2 by done; cbn [negb]; eexists; apply runs_ret]);
    (destruct Ht as [Ht|Ht]; [by destruct Ht|]).
  - destruct (open_cases "Failed to lock handles for commit" (t_conn_id t) w) as [(p & Hl & _)|(_ & e & Ho)]; [by destruct (Ht p)|].
    exists e. eapply runs_bind_nil; [apply runs_try; [|exact Ho]; done|apply runs_ret].
  - destruct (open_cases "Failed to lock handles for rollback" (t_conn_id t) w) as [(p & Hl & _)|(_ & e & Ho)]; [by destruct (Ht p)|].
    exists e. eapply runs_bind_nil; [apply runs_try; [|exact Ho]; done|apply runs_ret].
Qed.


(** The statement of a savepoint operation, up to the name. *)
Definition savepoint_verb (op : nat) (d : SavepointDialect) : string :=
  match op, d with
  | O, DSqlServer => "SAVE TRANSACTION "
  | O, _ => "SAVEPOINT "
  | S _, DSqlServer => "ROLLBACK TRANSACTION "
  | S _, _ => "ROLLBACK TO SAVEPOINT "
  end.

Definition savepoint_op (op : nat) : Transaction → string → M unit :=
  match op with O => savepoint_create | S _ => savepoint_rollback_to end.

Lemma savepoint_op_unfold op t name w :
  savepoint_op op t name w =
  (let! _ := lift (validate_identifier name) in
   let! qname := lift (quote_identifier name (quoting_for (t_dialect t))) in
   execute_sql t (savepoint_verb op (t_dialect t) +:+ qname)) w.
Proof. destruct op; cbn [savepoint_op]; [unfold savepoint_create|unfold savepoint_rollback_to]; by destruct (t_dialect t). Qed.

(** C19: creating or rolling back to a savepoint is injection-safe: for a name that
    is not an identifier nothing reaches the driver; otherwise exactly one
    statement does, the fixed verb of the dialect followed by a quoted name that
    a SQL lexer reads back as the given name with nothing after it. *)
Theorem savepoint_safe (op : nat) (t : Transaction) (name : string) (w : World) (phys : Z) :
  live w (t_conn_id t) phys →
  (¬ is_identifier name ∧ ∃ m, runs (savepoint_op op t name) w [] (Err (ValidationError m))) ∨
  (is_identifier name ∧ ∃ q, lex_quoted (quoting_for (t_dialect t)) q = Some (name, EmptyString) ∧
     let sql := savepoint_verb op (t_dialect t) +:+ q in
     let r := dr_answer (w_trace w) phys (CExec sql) in
     runs (savepoint_op op t name) w [(phys, CExec sql, is_ok r)] r).
Proof.
  intros Hl. unfold runs. setoid_rewrite savepoint_op_unfold.
  destruct (validate_identifier_cases name) as [[Hv Hi]|[[m Hv] Hi]]; [right|left]; (split; [done|]).
  - exists (wrap (quoting_for (t_dialect t)) name). split.
    { rewrite <- (string_app_nil_r (wrap _ _)). by apply lex_wrap. }
    cbv zeta. unfold bind, lift, quote_identifier. rewrite Hv. cbn [obind].
    by rewrite (execute_sql_run _ _ _ _ Hl).
  - exists m. unfold bind, lift. rewrite Hv. by rewrite w_ext_nil.
Qed.

(** With the dialect given explicitly as SQL-92 no engine is detected, so a
    read-only access mode and a lock timeout are silently dropped: nothing but the
    isolation level and autocommit reaches the driver, on any engine. *)
Theorem explicit_dialect_drops_options (id : Z) (l : IsolationLevel) (a : TransactionAccessMode) (t : LockTimeout)
    (w w' : World) (txn : Transaction) :
  begin_with_lock_timeout id l DSql92 a t w = (Ok txn, w') →
  t_access txn = a ∧ t_lock_timeout txn = t ∧
  ∃ phys q, Forall (λ ev, is_query phys ev = true) q ∧
    w_trace w' = w_trace w ++ q ++ [executed phys true ("SET TRANSACTION ISOLATION LEVEL " +:+ isolation_keyword l);
                                     (phys, CAutocommit false, true)].
Proof.
  intros Hb. destruct (begin_cases id l DSql92 a t w) as [(h & x & Hr & p & e & d' & q & sqls & Hx)|(h & e & Hr & _)];
    unfold runs in Hr; rewrite Hb in Hr; [|done]. injection Hr as <- ->.
  destruct Hx as (_ & [-> ->] & Hq & Hi & -> & ->). cbn. split; [done|]. split; [done|].
  exists p, q. split; [done|]. cbn in Hi. injection Hi as <-.
  assert (access_stmts ENGINE_UNKNOWN a = []) as -> by by destruct a.
  assert (lock_stmts ENGINE_UNKNOWN t = []) as -> by by destruct t. done.
Qed.
End TransactionSpecs.

(** * Witnesses *)

(** The driver that fails every commit. *)
Definition commit_fails : Driver := {|
  dr_answer := λ _ _ c, match c with CCommit => Err (InternalError "gone") | _ => Ok tt end;
  dr_dbms_name := λ _ _, Ok "PostgreSQL";
  dr_name_len := λ _ _ _, Ok 63;
  dr_catalog := λ _ _, Ok "main";
  dr_rows := λ _ _ _, Ok [];
  dr_answer_no_panic := λ _ _ c, match c with CCommit => λ H, match H with end | _ => λ H, match H with end end;
  dr_dbms_name_no_panic := λ _ _ H, match H with end
|}.

Definition sample_tx : Transaction := mkTx 1 TxActive false Serializable DSqlServer ReadOnly (Some 1500).

Lemma sample_live : live sample_world 1 0.
Proof. repeat split. cbn. set_solver. Defined.

Lemma finish_spec_witness :
  runs (commit (H := commit_fails) sample_tx) sample_world [(0, CCommit, false); (0, CAutocommit true, true)]
    (Err (InternalError "gone")) ∧
  runs (rollback (H := commit_fails) sample_tx) sample_world [(0, CRollback, true); (0, CAutocommit true, true)] (Ok tt).
Proof. apply (@finish_spec commit_fails sample_tx sample_world 0); [split; reflexivity|apply sample_live]. Defined.

Lemma finish_inactive_witness :
  (∃ e, runs (commit (H := ok_driver) (set_state sample_tx TxCommitted)) sample_world [] (Err e)) ∧
  (∃ e, runs (rollback (H := ok_driver) (set_state sample_tx TxCommitted)) sample_world [] (Err e)) ∧
  runs (drop_tx (H := ok_driver) (set_state sample_tx TxCommitted)) sample_world [] (Ok tt).
Proof. apply (@finish_inactive ok_driver). left. intros [_ Hs]. discriminate Hs. Defined.


Lemma savepoint_safe_witness :
  (¬ is_identifier "x]; DROP" ∧ ∃ m, runs (savepoint_op (H := ok_driver) 0 sample_tx "x]; DROP") sample_world [] (Err (ValidationError m))) ∨
  (is_identifier "x]; DROP" ∧ ∃ q, lex_quoted Brackets q = Some ("x]; DROP", EmptyString) ∧
     runs (savepoint_op (H := ok_driver) 0 sample_tx "x]; DROP") sample_world [(0, CExec ("SAVE TRANSACTION " +:+ q), true)] (Ok tt)).
Proof. apply (@savepoint_safe ok_driver 0 sample_tx "x]; DROP" sample_world 0), sample_live. Defined.

Lemma explicit_dialect_drops_options_witness :
  ∃ phys q, Forall (λ ev, is_query phys ev = true) q ∧
    w_trace (begin_with_lock_timeout (H := ok_driver) 1 Serializable DSql92 ReadOnly (Some 500) sample_world).2
    = [] ++ q ++ [executed phys true "SET TRANSACTION ISOLATION LEVEL SERIALIZABLE"; (phys, CAutocommit false, true)].
Proof.
  apply (@explicit_dialect_drops_options ok_driver 1 Serializable ReadOnly (Some 500) sample_world _
    (mkTx 1 TxActive false Serializable DSql92 ReadOnly (Some 500))). reflexivity.
Defined.
