(* ===== verification/Xid.v ===== *)
(** Global transaction ids (engine/xa_transaction.rs, the [Xid] type): validation,
    the three engine encodings and the rows of a recovery scan. *)

From Stdlib Require Import DecimalString DecimalZ DecimalPos.
From S2P Require Import Prelude Wire Errors Text.

Definition XID_MAX_GTRID_LEN : Z := 64.
Definition XID_MAX_BQUAL_LEN : Z := 64.

Record Xid := mkXid { xid_format_id : Z; xid_gtrid : list byte; xid_bqual : list byte }.

#[export] Instance Xid_eq_dec : EqDecision Xid.
Proof. solve_decision. Defined.

Definition xid_new (format_id : Z) (gtrid bqual : list byte) : Result Xid :=
  if len gtrid =? 0 then Err (ValidationError "Xid: gtrid must be non-empty (1..=64 bytes)")
  else if XID_MAX_GTRID_LEN <? len gtrid then
    Err (ValidationError ("Xid: gtrid is " +:+ fmt_Z (len gtrid) +:+ " bytes; X/Open limit is " +:+ fmt_Z XID_MAX_GTRID_LEN))
  else if XID_MAX_BQUAL_LEN <? len bqual then
    Err (ValidationError ("Xid: bqual is " +:+ fmt_Z (len bqual) +:+ " bytes; X/Open limit is " +:+ fmt_Z XID_MAX_BQUAL_LEN))
  else Ok (mkXid format_id gtrid bqual).

(** [Result::ok] *)
Definition ok {E A : Type} (m : outcome E A) : option A := match m with Ok a => Some a | _ => None end.

(** * Hexadecimal *)

Definition HEX_LUT : string := "0123456789abcdef".
Definition HEX_LUT_UPPER : string := "0123456789ABCDEF".

Definition lut_get (lut : string) (n : Z) : ascii :=
  match String.get (Z.to_nat n) lut with Some c => c | None => "000"%char end.

Fixpoint hex_with (lut : string) (bs : list byte) : string :=
  match bs with
  | [] => EmptyString
  | b :: bs =>
      String (lut_get lut (Z.shiftr (b2z b) 4)) (String (lut_get lut (Z.land (b2z b) 0x0F)) (hex_with lut bs))
  end.

Definition hex_encode (bs : list byte) : string := hex_with HEX_LUT bs.
Definition hex_encode_upper (bs : list byte) : string := hex_with HEX_LUT_UPPER bs.

Definition hex_nibble (c : ascii) : option Z :=
  let z := code c in
  if (48 <=? z) && (z <=? 57) then Some (z - 48)
  else if (97 <=? z) && (z <=? 102) then Some (z - 97 + 10)
  else if (65 <=? z) && (z <=? 70) then Some (z - 65 + 10)
  else None.

(** [chunks_exact(2)] over a string of even length. *)
Fixpoint hex_pairs (s : string) : option (list byte) :=
  match s with
  | String a (String b s) =>
      match hex_nibble a, hex_nibble b with
      | Some hi, Some lo =>
          match hex_pairs s with
          | Some bs => Some (z2b (Z.lor (Z.shiftl hi 4) lo) :: bs)
          | None => None
          end
      | _, _ => None
      end
  | _ => Some []
  end.

Definition hex_decode (s : string) : option (list byte) :=
  if negb (Nat.even (String.length s)) then None else hex_pairs s.

(** * Integers in text *)

(** [parse_ascii_int] for [i32] and [usize]. *)
Definition parse_ascii_int (lo hi : Z) (bs : list byte) : option Z :=
  match from_utf8 bs with Some s => parse_int lo hi (trim s) | None => None end.

Definition ascii_i32 (bs : list byte) : Z := default 0 (parse_ascii_int (- 2 ^ 31) (2 ^ 31 - 1) bs).
Definition ascii_usize (bs : list byte) : Z := default 0 (parse_ascii_int 0 usize_max bs).

(** * The encodings *)

Definition encode_postgres (x : Xid) : string :=
  fmt_Z (xid_format_id x) +:+ "_" +:+ hex_encode (xid_gtrid x) +:+ "_" +:+ hex_encode (xid_bqual x).

(** [splitn(n, c)]: at most [n] parts, the last one unsplit. *)
Fixpoint splitn (n : nat) (c : ascii) (s : string) : list string :=
  match n with
  | O => []
  | S O => [s]
  | S n =>
      (fix go (s : string) : list string :=
         match s with
         | EmptyString => [EmptyString]
         | String d r =>
             if Ascii.eqb c d then EmptyString :: splitn n c r
             else match go r with p :: ps => String d p :: ps | [] => [] end
         end) s
  end.

Definition decode_postgres (s : string) : option Xid :=
  match splitn 3 "_" s with
  | [f; g; b] =>
      match parse_i32 f, hex_decode g, hex_decode b with
      | Some f, Some g, Some b => ok (xid_new f g b)
      | _, _, _ => None
      end
  | _ => None
  end.

Definition encode_mysql_components (x : Xid) : string * string * Z :=
  (hex_encode (xid_gtrid x), hex_encode (xid_bqual x), xid_format_id x).

Definition decode_mysql_components (gtrid_hex bqual_hex : string) (format_id : Z) : option Xid :=
  match hex_decode gtrid_hex, hex_decode bqual_hex with
  | Some g, Some b => ok (xid_new format_id g b)
  | _, _ => None
  end.

Definition encode_oracle_components (x : Xid) : Z * string * string :=
  (xid_format_id x, hex_encode_upper (xid_gtrid x), hex_encode_upper (xid_bqual x)).

Definition decode_oracle_components (format_id : Z) (gtrid_hex bqual_hex : string) : option Xid :=
  match hex_decode gtrid_hex, hex_decode bqual_hex with
  | Some g, Some b => ok (xid_new format_id g b)
  | _, _ => None
  end.

(** * Rows of a recovery scan *)

Definition column (row : list (list byte)) (i : nat) : list byte := default [] (row !! (i - 1)%nat).

Definition recover_postgres_row (row : list (list byte)) : Result (option Xid) :=
  Ok (match from_utf8 (column row 1) with Some s => decode_postgres s | None => None end).

(** The sum of the two lengths wraps like [usize] addition in a release build. *)
Definition recover_mysql_row (row : list (list byte)) : Result (option Xid) :=
  let format_id := ascii_i32 (column row 1) in
  let gtrid_len := ascii_usize (column row 2) in
  let bqual_len := ascii_usize (column row 3) in
  let data := column row 4 in
  let total := (gtrid_len + bqual_len) mod 2 ^ 64 in
  if len data <? total then Ok None
  else
    let? g := slice data 0 (Z.to_nat gtrid_len) in
    let? b := slice data (Z.to_nat gtrid_len) (Z.to_nat total) in
    Ok (match from_utf8 g, from_utf8 b with
        | Some g, Some b => decode_mysql_components g b format_id
        | _, _ => None
        end).

Definition recover_oracle_row (row : list (list byte)) : Result (option Xid) :=
  let format_id := ascii_i32 (column row 1) in
  let g := default EmptyString (from_utf8 (column row 2)) in
  let b := default EmptyString (from_utf8 (column row 3)) in
  Ok (decode_oracle_components format_id g b).

(** The scan: rows that do not decode are skipped. *)
Definition recover_rows (decode : list (list byte) → Result (option Xid)) (rows : list (list (list byte))) :
    Result (list Xid) :=
  let? xs := omap_list decode rows in
  Ok (omap id xs).

(** * Round trips *)

(** What [xid_new] guarantees, with an [i32] format id. *)
Record xid_wf (x : Xid) : Prop := {
  xw_format : i32_range (xid_format_id x);
  xw_gtrid : 1 ≤ len (xid_gtrid x) ≤ XID_MAX_GTRID_LEN;
  xw_bqual : len (xid_bqual x) ≤ XID_MAX_BQUAL_LEN
}.

Lemma xid_new_wf x : xid_wf x → xid_new (xid_format_id x) (xid_gtrid x) (xid_bqual x) = Ok x.
Proof.
  intros [_ Hg Hb]. unfold xid_new.
  destruct (Z.eqb_spec (len (xid_gtrid x)) 0); [lia|].
  destruct (Z.ltb_spec XID_MAX_GTRID_LEN (len (xid_gtrid x))); [lia|].
  destruct (Z.ltb_spec XID_MAX_BQUAL_LEN (len (xid_bqual x))); [lia|]. by destruct x.
Qed.

Lemma hex_byte_roundtrip lut b :
  lut = HEX_LUT ∨ lut = HEX_LUT_UPPER →
  ∃ hi lo, hex_nibble (lut_get lut (Z.shiftr (b2z b) 4)) = Some hi ∧
    hex_nibble (lut_get lut (Z.land (b2z b) 0x0F)) = Some lo ∧ z2b (Z.lor (Z.shiftl hi 4) lo) = b.
Proof. intros [-> | ->]; destruct b; eexists _, _; (split; [reflexivity|]); (split; [reflexivity|]); reflexivity. Qed.

Lemma hex_pairs_with lut bs :
  lut = HEX_LUT ∨ lut = HEX_LUT_UPPER → hex_pairs (hex_with lut bs) = Some bs.
Proof.
  intros Hl. induction bs as [|b bs IH]; [done|]. cbn [hex_with hex_pairs].
  destruct (hex_byte_roundtrip lut b Hl) as (hi & lo & -> & -> & Hb). by rewrite IH, Hb.
Qed.

Lemma hex_with_length lut bs : String.length (hex_with lut bs) = (2 * length bs)%nat.
Proof. induction bs as [|b bs IH]; [done|]. cbn [hex_with String.length length]. lia. Qed.

Lemma hex_decode_with lut bs :
  lut = HEX_LUT ∨ lut = HEX_LUT_UPPER → hex_decode (hex_with lut bs) = Some bs.
Proof.
  intros Hl. unfold hex_decode. rewrite hex_with_length, Nat.even_mul. cbn. by apply hex_pairs_with.
Qed.

(** ** Numbers *)

Lemma fmt_Z_no_underscore z : no_char "_" (fmt_Z z).
Proof. apply fmt_Z_no_char. set_solver. Qed.

(** ** Splitting *)

Lemma splitn_app n c p r : no_char c p → splitn (S (S n)) c (p +:+ String c r) = p :: splitn (S n) c r.
Proof.
  intros Hp. induction p as [|d p IH].
  - rewrite string_app_nil_l. cbn [splitn]. by rewrite Ascii.eqb_refl.
  - destruct Hp as [Hd Hp]. rewrite string_app_cons. cbn [splitn] in IH |- *.
    destruct (Ascii.eqb_spec c d) as [->|_]; [done|]. by rewrite (IH Hp).
Qed.

Lemma hex_no_underscore lut bs : lut = HEX_LUT ∨ lut = HEX_LUT_UPPER → no_char "_" (hex_with lut bs).
Proof.
  intros Hl. induction bs as [|b bs IH]; [done|]. cbn [hex_with no_char].
  destruct (hex_byte_roundtrip lut b Hl) as (hi & lo & Hhi & Hlo & _).
  split; [intros H; rewrite H in Hhi; discriminate Hhi|]. split; [intros H; rewrite H in Hlo; discriminate Hlo|done].
Qed.

Lemma decode_encode_postgres x : xid_wf x → decode_postgres (encode_postgres x) = Some x.
Proof.
  intros Hx. unfold decode_postgres, encode_postgres, hex_encode.
  change ("_" +:+ hex_with HEX_LUT (xid_gtrid x) +:+ "_" +:+ hex_with HEX_LUT (xid_bqual x))
    with (String "_" (hex_with HEX_LUT (xid_gtrid x) +:+ String "_" (hex_with HEX_LUT (xid_bqual x)))).
  rewrite splitn_app by apply fmt_Z_no_underscore.
  rewrite splitn_app by (apply hex_no_underscore; by left). cbn [splitn].
  unfold parse_i32. destruct (xw_format x Hx). rewrite parse_int_fmt by lia.
  rewrite !hex_decode_with by (by left). by rewrite xid_new_wf.
Qed.

(** Every encoding of a global transaction id is decoded back to it: the
    PostgreSQL identifier, the MySQL/DB2 components, the Oracle components. *)
Theorem xid_roundtrip (x : Xid) :
  xid_wf x →
  decode_postgres (encode_postgres x) = Some x ∧
  (let '(g, b, f) := encode_mysql_components x in decode_mysql_components g b f = Some x) ∧
  (let '(f, g, b) := encode_oracle_components x in decode_oracle_components f g b = Some x).
Proof.
  intros Hx. split; [by apply decode_encode_postgres|].
  unfold encode_mysql_components, decode_mysql_components, encode_oracle_components, decode_oracle_components.
  unfold hex_encode, hex_encode_upper.
  rewrite !hex_decode_with by auto. rewrite xid_new_wf by done. done.
Qed.

Lemma xid_roundtrip_witness :
  decode_postgres (encode_postgres (mkXid (-7) [x00; xff] [])) = Some (mkXid (-7) [x00; xff] []) ∧
  decode_mysql_components "00ff" "" (-7) = Some (mkXid (-7) [x00; xff] []) ∧
  decode_oracle_components (-7) "00FF" "" = Some (mkXid (-7) [x00; xff] []).
Proof. apply (xid_roundtrip (mkXid (-7) [x00; xff] [])). split; vm_compute; (done || (split; (reflexivity || discriminate))). Defined.

(** ** What the validation does not bound *)

(** The identifier that reaches the engine is longer than the validated one: the
    hexadecimal components have twice the bytes. *)
Lemma hex_doubles bs : len (as_bytes (hex_encode bs)) = 2 * len bs.
Proof.
  unfold hex_encode, len. rewrite length_as_bytes, hex_with_length. lia.
Qed.

(** Validation does not bound what reaches MySQL and DB2: a valid id whose gtrid
    is longer than 32 bytes is sent with a gtrid over the 64-byte limit that the
    validation enforces. *)
Theorem mysql_gtrid_over_limit (x : Xid) :
  xid_wf x → 32 < len (xid_gtrid x) →
  xid_new (xid_format_id x) (xid_gtrid x) (xid_bqual x) = Ok x ∧
  XID_MAX_GTRID_LEN < len (as_bytes (encode_mysql_components x).1.1).
Proof.
  intros Hx Hl. split; [by apply xid_new_wf|]. cbn [encode_mysql_components fst].
  rewrite hex_doubles. unfold XID_MAX_GTRID_LEN. lia.
Qed.
