(* ===== verification/Xa.v ===== *)
(** Distributed transactions (engine/xa_transaction.rs): the branch state machine
    and the statements each step sends, for every driver.  The model is the build
    without the Windows-only [xa-dtc] feature, where no branch is an MSDTC one. *)

From S2P Require Import Prelude Wire Errors Text Capabilities Handles Xid.

Inductive XaState := XaNone | XaActive | XaIdle | XaPrepared | XaCommitted | XaRolledBack | XaFailed.

#[export] Instance XaState_eq_dec : EqDecision XaState.
Proof. solve_decision. Defined.

Definition debug_xa_state (s : XaState) : string :=
  match s with
  | XaNone => "None" | XaActive => "Active" | XaIdle => "Idle" | XaPrepared => "Prepared"
  | XaCommitted => "Committed" | XaRolledBack => "RolledBack" | XaFailed => "Failed"
  end.

(** [XaTransaction]; its state is behind a mutex that can be poisoned. *)
Record XaTransaction := mkXa {
  xa_conn_id : Z;
  xa_xid : Xid;
  xa_engine : string;
  xa_state : XaState;
  xa_poisoned : bool
}.

Record PreparingXa := mkPreparing { px_inner : XaTransaction }.

(** [PreparedXa]: the same fields, but no destructor. *)
Record PreparedXa := mkPrepared {
  pd_conn_id : Z;
  pd_xid : Xid;
  pd_engine : string;
  pd_state : XaState;
  pd_poisoned : bool
}.

(** * The statements, by engine *)

Definition oracle_xid_literal (x : Xid) : string :=
  let '(f, g, b) := encode_oracle_components x in
  "SYS.DBMS_XA_XID(" +:+ fmt_Z f +:+ ", HEXTORAW('" +:+ g +:+ "'), HEXTORAW('" +:+ b +:+ "'))".

Definition oracle_xa_block (call : string) (allow_rcs : list Z) : string :=
  let allow_clause := foldr (λ rc s, " AND rc <> " +:+ fmt_Z rc +:+ s) EmptyString allow_rcs in
  "BEGIN DECLARE rc PLS_INTEGER; BEGIN rc := " +:+ call +:+ "; IF rc <> 0" +:+ allow_clause
    +:+ " THEN RAISE_APPLICATION_ERROR(-20100, 'DBMS_XA rc=' || rc); END IF; END; END;".

Definition ORACLE_XA_RDONLY : Z := 3.
Definition ORACLE_XAER_NOTA : Z := -4.

Definition unsupported_sqlserver : OdbcError :=
  UnsupportedFeature "XA / 2PC on SQL Server requires MSDTC enlistment via Windows COM (SQLSetConnectAttr(SQL_ATTR_ENLIST_IN_DTC, ITransaction*)). Build with `--features xa-dtc` on a Windows host with MSDTC enabled to activate the integration — see doc/Features/PENDING_IMPLEMENTATIONS.md §1.1 for prerequisites.".

Definition unsupported_other (engine_id : string) : OdbcError :=
  UnsupportedFeature ("XA / 2PC is not supported on engine " +:+ debug_str engine_id
    +:+ ". Supported engines: postgres, mysql, mariadb, db2, oracle (via DBMS_XA). SQL Server requires MSDTC enlistment (xa-dtc feature, Phase 2 pending).").

(** The engine families of the [match engine_id] of every emitter. *)
Inductive XaFamily := FPostgres | FSqlXa | FOracle.

Definition xa_family (engine_id : string) : Result XaFamily :=
  if String.eqb engine_id ENGINE_POSTGRES then Ok FPostgres
  else if String.eqb engine_id ENGINE_MYSQL || String.eqb engine_id ENGINE_MARIADB || String.eqb engine_id ENGINE_DB2 then Ok FSqlXa
  else if String.eqb engine_id ENGINE_SQLSERVER then Err unsupported_sqlserver
  else if String.eqb engine_id ENGINE_ORACLE then Ok FOracle
  else Err (unsupported_other engine_id).

(** [XA <verb> 'gtrid', 'bqual', format]. *)
Definition xa_positional (verb : string) (x : Xid) (suffix : string) : string :=
  let '(g, b, f) := encode_mysql_components x in
  if String.eqb b EmptyString then "XA " +:+ verb +:+ " '" +:+ g +:+ "', '', " +:+ fmt_Z f +:+ suffix
  else "XA " +:+ verb +:+ " '" +:+ g +:+ "', '" +:+ b +:+ "', " +:+ fmt_Z f +:+ suffix.

(** What each emitter executes; [None] for no statement. *)
Definition sql_xa_start (engine_id : string) (x : Xid) : Result (option string) :=
  let? f := xa_family engine_id in
  Ok (Some match f with
           | FPostgres => "BEGIN"
           | FSqlXa => xa_positional "START" x ""
           | FOracle => oracle_xa_block ("DBMS_XA.XA_START(" +:+ oracle_xid_literal x +:+ ", DBMS_XA.TMNOFLAGS)") []
           end).

Definition sql_xa_end (engine_id : string) (x : Xid) : Result (option string) :=
  let? f := xa_family engine_id in
  Ok match f with
     | FPostgres => None
     | FSqlXa => Some (xa_positional "END" x "")
     | FOracle => Some (oracle_xa_block ("DBMS_XA.XA_END(" +:+ oracle_xid_literal x +:+ ", DBMS_XA.TMSUCCESS)") [])
     end.

Definition sql_xa_prepare (engine_id : string) (x : Xid) : Result (option string) :=
  let? f := xa_family engine_id in
  Ok (Some match f with
           | FPostgres => "PREPARE TRANSACTION '" +:+ encode_postgres x +:+ "'"
           | FSqlXa => xa_positional "PREPARE" x ""
           | FOracle => oracle_xa_block ("DBMS_XA.XA_PREPARE(" +:+ oracle_xid_literal x +:+ ")") [ORACLE_XA_RDONLY]
           end).

Definition sql_xa_commit (one_phase : bool) (engine_id : string) (x : Xid) : Result (option string) :=
  let? f := xa_family engine_id in
  Ok (Some match f with
           | FPostgres => if one_phase then "COMMIT" else "COMMIT PREPARED '" +:+ encode_postgres x +:+ "'"
           | FSqlXa => xa_positional "COMMIT" x (if one_phase then " ONE PHASE" else "")
           | FOracle =>
               oracle_xa_block ("DBMS_XA.XA_COMMIT(" +:+ oracle_xid_literal x +:+ ", " +:+ (if one_phase then "TRUE" else "FALSE") +:+ ")")
                 (if one_phase then [] else [ORACLE_XAER_NOTA])
           end).

Definition sql_xa_rollback (engine_id : string) (x : Xid) : Result (option string) :=
  let? f := xa_family engine_id in
  Ok (Some match f with
           | FPostgres => "ROLLBACK"
           | FSqlXa => xa_positional "ROLLBACK" x ""
           | FOracle =>
               let l := oracle_xid_literal x in
               "BEGIN DECLARE rc PLS_INTEGER; BEGIN rc := DBMS_XA.XA_END(" +:+ l
               +:+ ", DBMS_XA.TMSUCCESS); IF rc <> 0 THEN RAISE_APPLICATION_ERROR(-20100, 'DBMS_XA xa_end rc=' || rc); END IF; rc := DBMS_XA.XA_ROLLBACK("
               +:+ l +:+ "); IF rc <> 0 THEN RAISE_APPLICATION_ERROR(-20101, 'DBMS_XA xa_rollback rc=' || rc); END IF; END; END;"
           end).

Definition sql_xa_rollback_prepared (engine_id : string) (x : Xid) : Result (option string) :=
  let? f := xa_family engine_id in
  match f with
  | FPostgres => Ok (Some ("ROLLBACK PREPARED '" +:+ encode_postgres x +:+ "'"))
  | FSqlXa => sql_xa_rollback engine_id x
  | FOracle => Ok (Some (oracle_xa_block ("DBMS_XA.XA_ROLLBACK(" +:+ oracle_xid_literal x +:+ ")") [ORACLE_XAER_NOTA]))
  end.

Section Branches.
Context `{Driver}.

(** An emitter: an error before the driver, or at most one statement. *)
Definition emit (stmt : string → Xid → Result (option string)) (phys : Z) (engine_id : string) (x : Xid) : M unit :=
  match stmt engine_id x with
  | Ok (Some sql) => exec phys sql
  | Ok None => ret tt
  | Err e => lift (Err e)
  | Panic => lift Panic
  end.

Definition apply_xa_start := emit sql_xa_start.
Definition apply_xa_end := emit sql_xa_end.
Definition apply_xa_prepare := emit sql_xa_prepare.
Definition apply_xa_commit (phys : Z) (engine_id : string) (x : Xid) (one_phase : bool) : M unit :=
  emit (sql_xa_commit one_phase) phys engine_id x.
Definition apply_xa_rollback := emit sql_xa_rollback.
Definition apply_xa_rollback_prepared := emit sql_xa_rollback_prepared.

Definition apply_xa_recover (phys : Z) (engine_id : string) : M (list Xid) :=
  match xa_family engine_id with
  | Ok FPostgres =>
      let! rows := query_rows phys "SELECT gid FROM pg_prepared_xacts" in lift (recover_rows recover_postgres_row rows)
  | Ok FSqlXa => let! rows := query_rows phys "XA RECOVER" in lift (recover_rows recover_mysql_row rows)
  | Ok FOracle =>
      let! rows := query_rows phys "SELECT FORMATID, RAWTOHEX(GLOBALID), RAWTOHEX(BRANCHID) FROM DBA_PENDING_TRANSACTIONS" in
      lift (recover_rows recover_oracle_row rows)
  | Err e => lift (Err e)
  | Panic => lift Panic
  end.

(** * The active branch *)

Definition detect_engine_id (conn_id : Z) : M string :=
  let! r := try_m (detect_for_conn_id conn_id) in
  ret match r with Ok info => di_engine info | _ => ENGINE_UNKNOWN end.

Definition xa_start (conn_id : Z) (x : Xid) : M XaTransaction :=
  let! engine_id := detect_engine_id conn_id in
  let! phys := open_connection "Failed to lock handles" conn_id in
  let! _ := call phys (CAutocommit false) in
  let! _ := apply_xa_start phys engine_id x in
  ret (mkXa conn_id x engine_id XaActive false).

(** The state seen through the mutex; a poisoned one counts as failed. *)
Definition state_of (s : XaState) (poisoned : bool) : XaState := if poisoned then XaFailed else s.

Definition assert_xa_state (what : string) (actual expected : XaState) (op : string) : Result unit :=
  if negb (bool_decide (actual = expected)) then
    Err (ValidationError (what +:+ "::" +:+ op +:+ ": expected state " +:+ debug_xa_state expected +:+ ", got " +:+ debug_xa_state actual))
  else Ok tt.

Definition assert_state (t : XaTransaction) (expected : XaState) (op : string) : Result unit :=
  assert_xa_state "XaTransaction" (state_of (xa_state t) (xa_poisoned t)) expected op.

Definition set_xa_state (t : XaTransaction) (s : XaState) : Result XaTransaction :=
  if xa_poisoned t then Err (InternalError "XA state lock poisoned")
  else Ok (mkXa (xa_conn_id t) (xa_xid t) (xa_engine t) s (xa_poisoned t)).

Definition run_on_conn (t : XaTransaction) (f : Z → string → Xid → M unit) : M unit :=
  let! phys := open_connection "Failed to lock handles" (xa_conn_id t) in
  f phys (xa_engine t) (xa_xid t).

Definition try_restore_autocommit (t : XaTransaction) : M unit :=
  let! phys := open_connection "Failed to lock handles" (xa_conn_id t) in
  let! _ := try_m (call phys (CAutocommit true)) in
  ret tt.

(** [Drop for XaTransaction] *)
Definition drop_xa (t : XaTransaction) : M unit :=
  let s := state_of (xa_state t) (xa_poisoned t) in
  if bool_decide (s = XaActive) || bool_decide (s = XaIdle) then
    let! _ := try_m (run_on_conn t (λ c e x, let! _ := try_m (apply_xa_end c e x) in apply_xa_rollback c e x)) in
    let! _ := try_m (try_restore_autocommit t) in
    ret tt
  else ret tt.

(** Leaving a function that consumed [t] with a result: [t] is dropped in its
    final state. *)
Definition leave {A : Type} (t : XaTransaction) (r : outcome OdbcError A) : M A :=
  let! _ := drop_xa t in lift r.

(** [?] on a pure check: an error leaves the function. *)
Definition check {A B : Type} (t : XaTransaction) (m : Result A) (k : A → M B) : M B :=
  match m with
  | Ok a => k a
  | Err e => leave t (Err e)
  | Panic => leave t Panic
  end.

Definition xa_end (t : XaTransaction) : M PreparingXa :=
  check t (assert_state t XaActive "end") (λ _,
  let! r := try_m (run_on_conn t apply_xa_end) in
  check t r (λ _,
  check t (set_xa_state t XaIdle) (λ t, ret (mkPreparing t)))).

(** The last lines shared by the ending operations: record the outcome, drop. *)
Definition conclude (t : XaTransaction) (r : outcome OdbcError unit) (success : XaState) : M unit :=
  match r with
  | Ok _ => check t (set_xa_state t success) (λ t, leave t (Ok tt))
  | Err e => check t (set_xa_state t XaFailed) (λ t, leave t (Err e))
  | Panic => lift Panic
  end.

Definition commit_one_phase (t : XaTransaction) : M unit :=
  check t (assert_state t XaActive "commit_one_phase") (λ _,
  let! e := try_m (run_on_conn t apply_xa_end) in
  check t e (λ _,
  let! r := try_m (run_on_conn t (λ c e x, apply_xa_commit c e x true)) in
  let! _ := try_m (try_restore_autocommit t) in
  conclude t r XaCommitted)).

Definition xa_rollback (t : XaTransaction) : M unit :=
  check t (assert_state t XaActive "rollback") (λ _,
  let! _ := try_m (run_on_conn t apply_xa_end) in
  let! r := try_m (run_on_conn t apply_xa_rollback) in
  let! _ := try_m (try_restore_autocommit t) in
  conclude t r XaRolledBack).

(** * The idle branch *)

Definition prepare (p : PreparingXa) : M PreparedXa :=
  let t := px_inner p in
  check t (assert_state t XaIdle "prepare") (λ _,
  let! r := try_m (run_on_conn t apply_xa_prepare) in
  match r with
  | Ok _ =>
      check t (set_xa_state t XaPrepared) (λ t,
      let! _ := try_m (try_restore_autocommit t) in
      leave t (Ok (mkPrepared (xa_conn_id t) (xa_xid t) (xa_engine t) (xa_state t) (xa_poisoned t))))
  | Err e =>
      check t (set_xa_state t XaFailed) (λ t,
      let! _ := try_m (try_restore_autocommit t) in
      leave t (Err e))
  | Panic => lift Panic
  end).

Definition preparing_rollback (p : PreparingXa) : M unit :=
  let t := px_inner p in
  check t (assert_state t XaIdle "rollback") (λ _,
  let! r := try_m (run_on_conn t apply_xa_rollback) in
  let! _ := try_m (try_restore_autocommit t) in
  conclude t r XaRolledBack).

(** * The prepared branch *)

Definition prepared_run (p : PreparedXa) (f : Z → string → Xid → M unit) : M unit :=
  let! phys := open_connection "Failed to lock handles" (pd_conn_id p) in
  f phys (pd_engine p) (pd_xid p).

(** Both ways of phase 2; the state of the consumed value is not observable
    afterwards, only whether recording it failed. *)
Definition phase_two (op : string) (p : PreparedXa) (f : Z → string → Xid → M unit) : M unit :=
  let! _ := lift (assert_xa_state "PreparedXa" (state_of (pd_state p) (pd_poisoned p)) XaPrepared op) in
  let! r := try_m (prepared_run p f) in
  if pd_poisoned p then lift (Err (InternalError "XA state lock poisoned")) else lift r.

Definition commit_prepared (p : PreparedXa) : M unit := phase_two "commit" p (λ c e x, apply_xa_commit c e x false).
Definition rollback_prepared (p : PreparedXa) : M unit := phase_two "rollback" p apply_xa_rollback_prepared.

Definition recover_prepared_xids (conn_id : Z) : M (list Xid) :=
  let! engine_id := detect_engine_id conn_id in
  let! phys := open_connection "Failed to lock handles" conn_id in
  apply_xa_recover phys engine_id.

Definition resume_prepared (conn_id : Z) (x : Xid) : M PreparedXa :=
  let! engine_id := detect_engine_id conn_id in
  ret (mkPrepared conn_id x engine_id XaPrepared false).
End Branches.

(** * Runs of the steps *)

(** The event of an emitter: its statement, if it has one, and the driver's verdict. *)
Definition ev (phys : Z) (s : option string) (ok : bool) : History :=
  match s with Some sql => [(phys, CExec sql, ok)] | None => [] end.

Definition restored (phys : Z) (ok : bool) : Z * Call * bool := (phys, CAutocommit true, ok).

Definition in_state (t : XaTransaction) (s : XaState) : Prop := xa_state t = s ∧ xa_poisoned t = false.

Section Runs.
Context `{Driver}.

Lemma emit_cases stmt phys e x w s :
  stmt e x = Ok s →
  runs (emit stmt phys e x) w (ev phys s true) (Ok tt) ∨
  ∃ err, runs (emit stmt phys e x) w (ev phys s false) (Err err).
Proof.
  intros Hs. unfold emit. rewrite Hs. destruct s as [sql|]; [|left; apply runs_ret].
  pose proof (runs_call phys (CExec sql) w) as Hc. unfold exec.
  destruct (dr_answer (w_trace w) phys (CExec sql)) as [[]|err|] eqn:Ha;
    [by left|right; by exists err|by apply dr_answer_no_panic in Ha].
Qed.

(** An emitter on the connection of a branch, its result kept. *)
Lemma run_cases t stmt w phys s :
  live w (xa_conn_id t) phys → stmt (xa_engine t) (xa_xid t) = Ok s →
  runs (try_m (run_on_conn t (emit stmt))) w (ev phys s true) (Ok (Ok tt)) ∨
  ∃ err, runs (try_m (run_on_conn t (emit stmt))) w (ev phys s false) (Ok (Err err)).
Proof.
  intros Hl Hs. destruct (emit_cases stmt phys (xa_engine t) (xa_xid t) w s Hs) as [Hr|[err Hr]]; [left|right; exists err];
    (apply runs_try; [done|]); (eapply runs_bind_nil; [by apply runs_open|exact Hr]).
Qed.

Lemma restore_runs t w phys :
  live w (xa_conn_id t) phys → ∃ b, runs (try_m (try_restore_autocommit t)) w [restored phys b] (Ok (Ok tt)).
Proof.
  intros Hl. eexists. apply runs_try; [done|]. eapply runs_bind_nil; [by apply runs_open|].
  eapply (runs_bind _ _ _ [_] []); [apply runs_try; [apply dr_answer_no_panic|apply runs_call]|apply runs_ret].
Qed.

Lemma drop_xa_quiet t w : xa_state t ≠ XaActive → xa_state t ≠ XaIdle → runs (drop_xa t) w [] (Ok tt).
Proof.
  intros H1 H2. unfold drop_xa, state_of.
  rewrite !bool_decide_eq_false_2 by (by destruct (xa_poisoned t)). apply runs_ret.
Qed.

Lemma leave_quiet {A : Type} t w (r : outcome OdbcError A) :
  xa_state t ≠ XaActive → xa_state t ≠ XaIdle → runs (leave t r) w [] r.
Proof. intros H1 H2. eapply runs_bind_nil; [by apply drop_xa_quiet|apply runs_lift]. Qed.

(** Dropping an unfinished branch ends it, rolls it back and restores autocommit. *)
Lemma drop_xa_open t w phys sE sR :
  in_state t XaActive ∨ in_state t XaIdle → live w (xa_conn_id t) phys →
  sql_xa_end (xa_engine t) (xa_xid t) = Ok sE → sql_xa_rollback (xa_engine t) (xa_xid t) = Ok sR →
  ∃ b1 b2 b3, runs (drop_xa t) w (ev phys sE b1 ++ ev phys sR b2 ++ [restored phys b3]) (Ok tt).
Proof.
  intros Hs Hl HE HR.
  assert ((bool_decide (state_of (xa_state t) (xa_poisoned t) = XaActive)
    || bool_decide (state_of (xa_state t) (xa_poisoned t) = XaIdle)) = true) as Hb.
  { destruct Hs as [[-> ->]|[-> ->]]; reflexivity. }
  unfold drop_xa. rewrite Hb.
  assert (∃ b1 r1, runs (try_m (apply_xa_end phys (xa_engine t) (xa_xid t))) w (ev phys sE b1) (Ok r1)) as (b1 & r1 & H1).
  { destruct (emit_cases sql_xa_end phys _ _ w sE HE) as [Hr|[err Hr]]; [exists true|exists false];
      eexists; (eapply runs_try; [|exact Hr]; done). }
  assert (∃ b2 r2, r2 ≠ Panic ∧ runs (apply_xa_rollback phys (xa_engine t) (xa_xid t)) (w_ext w (ev phys sE b1)) (ev phys sR b2) r2)
    as (b2 & r2 & Hn2 & H2).
  { destruct (emit_cases sql_xa_rollback phys _ _ (w_ext w (ev phys sE b1)) sR HR) as [Hr|[err Hr]];
      [exists true|exists false]; eexists; (split; [|exact Hr]; done). }
  set (w2 := w_ext w (ev phys sE b1 ++ ev phys sR b2)).
  destruct (restore_runs t w2 phys Hl) as [b3 H3].
  exists b1, b2, b3. rewrite app_assoc. eapply runs_bind.
  - apply (runs_try _ _ _ r2 Hn2). eapply runs_bind_nil; [by apply runs_open|].
    eapply runs_bind; [exact H1|exact H2].
  - rewrite <- (app_nil_r [restored phys b3]). eapply runs_bind; [exact H3|apply runs_ret].
Qed.

Lemma set_state_ok t s0 s :
  in_state t s0 → set_xa_state t s = Ok (mkXa (xa_conn_id t) (xa_xid t) (xa_engine t) s false).
Proof. intros [_ Hp]. unfold set_xa_state. by rewrite Hp. Qed.

Lemma assert_state_ok t s op : in_state t s → assert_state t s op = Ok tt.
Proof.
  intros [Hs Hp]. unfold assert_state, assert_xa_state, state_of. rewrite Hs, Hp. by rewrite bool_decide_eq_true_2.
Qed.

(** ** The steps on a live branch *)

Lemma xa_end_cases t w phys sE sR :
  in_state t XaActive → live w (xa_conn_id t) phys →
  sql_xa_end (xa_engine t) (xa_xid t) = Ok sE → sql_xa_rollback (xa_engine t) (xa_xid t) = Ok sR →
  runs (xa_end t) w (ev phys sE true) (Ok (mkPreparing (mkXa (xa_conn_id t) (xa_xid t) (xa_engine t) XaIdle false))) ∨
  ∃ err b1 b2 b3, runs (xa_end t) w (ev phys sE false ++ ev phys sE b1 ++ ev phys sR b2 ++ [restored phys b3]) (Err err).
Proof.
  intros Ht Hl HE HR. unfold xa_end. rewrite (assert_state_ok t _ _ Ht). cbn [check].
  destruct (run_cases t sql_xa_end w phys sE Hl HE) as [Hr|[err Hr]].
  - left. rewrite <- (app_nil_r (ev phys sE true)). eapply runs_bind; [exact Hr|]. cbn [check].
    rewrite (set_state_ok _ _ _ Ht). apply runs_ret.
  - right. destruct (drop_xa_open t (w_ext w (ev phys sE false)) phys sE sR (or_introl Ht) Hl HE HR) as (b1 & b2 & b3 & Hd).
    exists err, b1, b2, b3. eapply runs_bind; [exact Hr|]. cbn [check].
    rewrite <- (app_nil_r (ev phys sE b1 ++ _)). eapply runs_bind; [exact Hd|apply runs_lift].
Qed.

Lemma prepare_cases p w phys sP :
  let t := px_inner p in
  in_state t XaIdle → live w (xa_conn_id t) phys → sql_xa_prepare (xa_engine t) (xa_xid t) = Ok sP →
  ∃ b, runs (prepare p) w (ev phys sP true ++ [restored phys b])
         (Ok (mkPrepared (xa_conn_id t) (xa_xid t) (xa_engine t) XaPrepared false)) ∨
       ∃ err, runs (prepare p) w (ev phys sP false ++ [restored phys b]) (Err err).
Proof.
  cbv zeta. intros Ht Hl HP. unfold prepare. rewrite (assert_state_ok _ _ _ Ht). cbn [check].
  destruct (run_cases (px_inner p) sql_xa_prepare w phys sP Hl HP) as [Hr|[err Hr]].
  - pose proof (restore_runs (mkXa (xa_conn_id (px_inner p)) (xa_xid (px_inner p)) (xa_engine (px_inner p)) XaPrepared false)
      (w_ext w (ev phys sP true)) phys Hl) as [b Hb].
    exists b. left. eapply runs_bind; [exact Hr|]. cbn beta iota. rewrite (set_state_ok _ _ _ Ht). cbn [check].
    rewrite <- (app_nil_r [restored phys b]). eapply runs_bind; [exact Hb|]. by apply leave_quiet.
  - pose proof (restore_runs (mkXa (xa_conn_id (px_inner p)) (xa_xid (px_inner p)) (xa_engine (px_inner p)) XaFailed false)
      (w_ext w (ev phys sP false)) phys Hl) as [b Hb].
    exists b. right. exists err. eapply runs_bind; [exact Hr|]. cbn beta iota. rewrite (set_state_ok _ _ _ Ht). cbn [check].
    rewrite <- (app_nil_r [restored phys b]). eapply runs_bind; [exact Hb|]. by apply leave_quiet.
Qed.

Lemma commit_prepared_cases p w phys sC :
  pd_state p = XaPrepared → pd_poisoned p = false → live w (pd_conn_id p) phys →
  sql_xa_commit false (pd_engine p) (pd_xid p) = Ok sC →
  runs (commit_prepared p) w (ev phys sC true) (Ok tt) ∨ ∃ err, runs (commit_prepared p) w (ev phys sC false) (Err err).
Proof.
  intros Hs Hp Hl HC. unfold commit_prepared, phase_two. rewrite Hs, Hp.
  assert (∀ h r, r ≠ Panic → runs (emit (sql_xa_commit false) phys (pd_engine p) (pd_xid p)) w h r →
    runs (let! _ := lift (assert_xa_state "PreparedXa" (state_of XaPrepared false) XaPrepared "commit") in
          let! r := try_m (prepared_run p (λ c e x, apply_xa_commit c e x false)) in lift r) w h r) as Hgo.
  { intros h r Hn Hr. eapply runs_bind_nil; [apply runs_lift|]. rewrite <- (app_nil_r h).
    eapply runs_bind; [|apply runs_lift]. apply runs_try; [done|]. eapply runs_bind_nil; [by apply runs_open|exact Hr]. }
  destruct (emit_cases (sql_xa_commit false) phys _ _ w sC HC) as [Hr|[err Hr]]; [left|right; exists err]; by apply Hgo.
Qed.

(** The client's two-phase commit of an active branch. *)
Definition two_phase_commit (t : XaTransaction) : M unit :=
  let! p := xa_end t in
  let! d := prepare p in
  commit_prepared d.

(** C17: the two-phase commit of an active branch, with any driver, sends the end, the
    prepare and the commit of the branch in this order, each only after the driver
    accepted the one before; autocommit is restored right after the prepare; a
    failed end rolls the branch back; a branch whose prepare succeeded is never
    rolled back, also when its commit fails; and success is reported exactly when
    the commit was accepted. *)
Theorem two_phase_order (t : XaTransaction) (w : World) (phys : Z) (sE sP sC sR : option string) :
  in_state t XaActive → live w (xa_conn_id t) phys →
  sql_xa_end (xa_engine t) (xa_xid t) = Ok sE → sql_xa_prepare (xa_engine t) (xa_xid t) = Ok sP →
  sql_xa_commit false (xa_engine t) (xa_xid t) = Ok sC → sql_xa_rollback (xa_engine t) (xa_xid t) = Ok sR →
  ∃ h r, runs (two_phase_commit t) w h r ∧
    ((r = Ok tt ∧ ∃ b, h = ev phys sE true ++ ev phys sP true ++ [restored phys b] ++ ev phys sC true) ∨
     ((∃ err, r = Err err) ∧
      ((∃ b, h = ev phys sE true ++ ev phys sP true ++ [restored phys b] ++ ev phys sC false) ∨
       (∃ b, h = ev phys sE true ++ ev phys sP false ++ [restored phys b]) ∨
       (∃ b1 b2 b3, h = ev phys sE false ++ ev phys sE b1 ++ ev phys sR b2 ++ [restored phys b3])))).
Proof.
  intros Ht Hl HE HP HC HR. unfold two_phase_commit.
  destruct (xa_end_cases t w phys sE sR Ht Hl HE HR) as [H1|(err & b1 & b2 & b3 & H1)].
  2: { eexists _, _. split; [eapply runs_bind_err; exact H1|]. right. split; [by exists err|]. right. right. by exists b1, b2, b3. }
  set (p := mkPreparing _) in H1. set (w1 := w_ext w (ev phys sE true)).
  destruct (prepare_cases p w1 phys sP) as (b & [H2|(err & H2)]); [done|exact Hl|exact HP| |].
  2: { eexists _, _. split; [eapply runs_bind; [exact H1|eapply runs_bind_err; exact H2]|]. right. split; [by exists err|].
       right. left. by exists b. }
  set (d := mkPrepared _ _ _ _ _) in H2. set (w2 := w_ext w1 (ev phys sP true ++ [restored phys b])).
  destruct (commit_prepared_cases d w2 phys sC eq_refl eq_refl Hl HC) as [H3|[err H3]].
  - eexists _, _. split; [eapply runs_bind; [exact H1|eapply runs_bind; [exact H2|exact H3]]|].
    left. split; [done|]. exists b. by rewrite <- !app_assoc.
  - eexists _, _. split; [eapply runs_bind; [exact H1|eapply runs_bind; [exact H2|exact H3]]|].
    right. split; [by exists err|]. left. exists b. by rewrite <- !app_assoc.
Qed.

(** A branch that is started on an engine without XA support fails after
    autocommit was switched off, and nothing switches it back on: the connection is
    left out of autocommit with no transaction value to restore it. *)
Theorem xa_start_leaves_autocommit_off (id : Z) (x : Xid) (w : World) (phys : Z) (q : History) (e : string) (err : OdbcError) :
  live w id phys → runs (detect_engine_id id) w q (Ok e) → sql_xa_start e x = Err err →
  dr_answer (w_trace w ++ q) phys (CAutocommit false) = Ok tt →
  runs (xa_start id x) w (q ++ [(phys, CAutocommit false, true)]) (Err err).
Proof.
  intros Hl Hq Hs Ha. unfold xa_start. eapply runs_bind; [exact Hq|]. eapply runs_bind_nil; [by apply runs_open|].
  pose proof (runs_call phys (CAutocommit false) (w_ext w q)) as Hc. cbn in Hc. rewrite Ha in Hc.
  rewrite <- (app_nil_r [_]). eapply runs_bind; [exact Hc|].
  apply runs_bind_err. unfold apply_xa_start, emit. rewrite Hs. apply runs_lift.
Qed.

(** A branch value that is dropped before it is prepared is ended and rolled
    back and the connection returns to autocommit; one that is prepared, finished
    or failed is left alone. *)
Theorem drop_xa_spec (t : XaTransaction) (w : World) (phys : Z) (sE sR : option string) :
  live w (xa_conn_id t) phys → xa_poisoned t = false →
  sql_xa_end (xa_engine t) (xa_xid t) = Ok sE → sql_xa_rollback (xa_engine t) (xa_xid t) = Ok sR →
  if bool_decide (xa_state t = XaActive ∨ xa_state t = XaIdle)
  then ∃ b1 b2 b3, runs (drop_xa t) w (ev phys sE b1 ++ ev phys sR b2 ++ [restored phys b3]) (Ok tt)
  else runs (drop_xa t) w [] (Ok tt).
Proof.
  intros Hl Hp HE HR. case_bool_decide as Hs.
  - apply drop_xa_open; [|done..]. unfold in_state. tauto.
  - apply drop_xa_quiet; tauto.
Qed.
End Runs.

(** ** Witnesses *)

Definition sample_xid : Xid := mkXid 1 [xab] [].
Definition sample_branch : XaTransaction := mkXa 1 sample_xid ENGINE_POSTGRES XaActive false.

Definition sqlite_driver : Driver := {|
  dr_answer := λ _ _ _, Ok tt;
  dr_dbms_name := λ _ _, Ok "SQLite";
  dr_name_len := λ _ _ _, Ok 63;
  dr_catalog := λ _ _, Ok "main";
  dr_rows := λ _ _ _, Ok [];
  dr_answer_no_panic := λ _ _ _ H, match H with end;
  dr_dbms_name_no_panic := λ _ _ H, match H with end
|}.

Lemma live_sample : live sample_world 1 0.
Proof. repeat split. cbn. set_solver. Defined.

Lemma two_phase_order_witness :
  ∃ h r, runs (two_phase_commit (H := ok_driver) sample_branch) sample_world h r ∧
    ((r = Ok tt ∧ ∃ b, h = [] ++ [(0, CExec "PREPARE TRANSACTION '1_ab_'", true)] ++ [restored 0 b] ++ [(0, CExec "COMMIT PREPARED '1_ab_'", true)]) ∨
     ((∃ err, r = Err err) ∧
      ((∃ b, h = [] ++ [(0, CExec "PREPARE TRANSACTION '1_ab_'", true)] ++ [restored 0 b] ++ [(0, CExec "COMMIT PREPARED '1_ab_'", false)]) ∨
       (∃ b, h = [] ++ [(0, CExec "PREPARE TRANSACTION '1_ab_'", false)] ++ [restored 0 b]) ∨
       (∃ b1 b2 b3 : bool, h = [] ++ [] ++ [(0, CExec "ROLLBACK", b2)] ++ [restored 0 b3])))).
Proof.
  apply (@two_phase_order ok_driver sample_branch sample_world 0 None
    (Some "PREPARE TRANSACTION '1_ab_'") (Some "COMMIT PREPARED '1_ab_'") (Some "ROLLBACK"));
    [split; reflexivity|apply live_sample|vm_compute; reflexivity..].
Defined.

Lemma xa_start_leaves_autocommit_off_witness :
  ∃ q, runs (xa_start (H := sqlite_driver) 1 sample_xid) sample_world (q ++ [(0, CAutocommit false, true)])
    (Err (unsupported_other "sqlite")).
Proof.
  eexists. apply (@xa_start_leaves_autocommit_off sqlite_driver 1 sample_xid sample_world 0 _ "sqlite");
    [apply live_sample|vm_compute; reflexivity|reflexivity|reflexivity].
Defined.

Lemma drop_xa_spec_witness :
  ∃ b1 b2 b3 : bool, runs (drop_xa (H := ok_driver) sample_branch) sample_world
    ([] ++ [(0, CExec "ROLLBACK", b2)] ++ [restored 0 b3]) (Ok tt).
Proof.
  apply (@drop_xa_spec ok_driver sample_branch sample_world 0 None (Some "ROLLBACK"));
    [apply live_sample|reflexivity..].
Defined.
