(* ===== verification/XaOci.v ===== *)
(** Distributed branches through Oracle's own XA library (engine/xa_oci.rs, built with the feature xa-oci).

    The library is loaded at run time and is not the engine's: the class [OciLibrary] says which of its
    files and symbols are found, and what each call returns, for the calls made so far.  The files are
    those of Linux.  [checks] tells whether the build checks for overflow. *)

From S2P Require Import Prelude Wire Errors Text Xid.

(** [xid_t]: the lengths are C ints, the data 128 bytes. *)
Record OciXid := mkOciXid { ox_format_id : Z; ox_gtrid_length : Z; ox_bqual_length : Z; ox_data : list byte }.

Definition TMNOFLAGS : Z := 0.
Definition TMSUSPEND : Z := 0x02000000.
Definition TMSUCCESS : Z := 0x04000000.
Definition TMONEPHASE : Z := 0x40000000.

(** The loops write the bytes at their places; one that is not there is a panic. *)
Definition from_xid (xid : Xid) : outcome OdbcError OciXid :=
  let g := xid_gtrid xid in
  let b := xid_bqual xid in
  if 128 <? len g + len b then Panic
  else Ok (mkOciXid (xid_format_id xid) (len g) (len b) (g ++ b ++ replicate (Z.to_nat (128 - len g - len b)) x00)).

Inductive OciCall :=
| XaOpen (info : string) (rmid flags : Z)
| XaClose (info : string) (rmid flags : Z)
| XaStart (xid : OciXid) (rmid flags : Z)
| XaEnd (xid : OciXid) (rmid flags : Z)
| XaPrepare (xid : OciXid) (rmid flags : Z)
| XaCommit (xid : OciXid) (rmid flags : Z)
| XaRollback (xid : OciXid) (rmid flags : Z)
| XaRecover (count rmid flags : Z).

Abbreviation OciTrace := (list (OciCall * Z)).

Class OciLibrary := {
  (** The message with which a file does not load, or a symbol is not found. *)
  ol_library : string → option string;
  ol_symbol : string → option string;
  ol_call : OciTrace → OciCall → Z;
  (** The buffer as [xa_recover] leaves it. *)
  ol_recovered : OciTrace → list OciXid
}.

Section Oci.
Context `{OciLibrary} (checks : bool).

Definition O (A : Type) : Type := OciTrace → Result A * OciTrace.

Definition o_ret {A : Type} (r : Result A) : O A := λ t, (r, t).

Definition o_bind {A B : Type} (m : O A) (k : A → O B) : O B := λ t,
  match m t with
  | (Ok a, t) => k a t
  | (Err e, t) => (Err e, t)
  | (Panic, t) => (Panic, t)
  end.

Notation "'let*' x ':=' m 'in' k" := (o_bind m (λ x, k)) (at level 10, x binder, m at level 100, k at level 200).

Definition oci (c : OciCall) : O Z := λ t, let rc := ol_call t c in (Ok rc, t ++ [(c, rc)]).

(** ** Loading *)

Definition candidates : list string := ["libclntsh.so"; "libclntsh.so.19.1"; "libclntsh.so.18.1"].

Definition symbols : list string := ["xaosw"; "xaocl"; "xaostart"; "xaoend"; "xaoprep"; "xaocommit"; "xaoroll"; "xaorecover"].

(** [find_map] over the candidates: found, or the last error. *)
Fixpoint find_library (names : list string) (last_err : string) : option string :=
  match names with
  | [] => Some last_err
  | name :: names => match ol_library name with None => None | Some e => find_library names (name +:+ ": " +:+ e) end
  end.

Fixpoint find_symbols (names : list string) : outcome string unit :=
  match names with
  | [] => Ok tt
  | name :: names =>
      match ol_symbol name with
      | None => find_symbols names
      | Some e => Err ("xa_oci: symbol " +:+ name +:+ " not found in OCI library: " +:+ e)
      end
  end.

Definition load_oci : outcome string unit :=
  match find_library candidates EmptyString with
  | Some last_err =>
      Err ("xa_oci: failed to load Oracle Instant Client. Tried [" +:+ join ", " (map debug_str candidates) +:+ "]; last error: " +:+ last_err
        +:+ ". Install Oracle Instant Client and ensure the loader can find the library (LD_LIBRARY_PATH on Linux, PATH on Windows).")
  | None => find_symbols symbols
  end.

Definition ensure_loaded : Result unit := omap_err UnsupportedFeature load_oci.

(** [CString::new] *)
Definition c_string (s : string) : Result string :=
  if existsb (λ b, b2z b =? 0) (as_bytes s) then Err (ValidationError "xa_oci: open string must not contain interior NULs") else Ok s.

Definition xa_failed (what : string) (rc : Z) : OdbcError := InternalError ("xa_oci: " +:+ what +:+ " failed with XA error code " +:+ fmt_Z rc).

(** [if rc != 0 { return Err(..) }] *)
Definition accepted (what : string) (rc : Z) : O unit := o_ret (if rc =? 0 then Ok tt else Err (xa_failed what rc)).

(** ** A branch *)

Record OciXaBranch := mkOciBranch { ob_info : string; ob_rmid : Z; ob_oci_xid : OciXid; ob_terminated : bool }.

Definition begin_oci_branch (info : string) (xid : Xid) (rmid : Z) : O OciXaBranch :=
  let* _ := o_ret ensure_loaded in
  let* info_c := o_ret (c_string info) in
  let* rc := oci (XaOpen info_c rmid TMNOFLAGS) in
  if negb (rc =? 0) then
    o_ret (Err (InternalError ("xa_oci: xa_open failed with XA error code " +:+ fmt_Z rc +:+ " (see oraxa.h XA_OK / XAER_* for the meaning)")))
  else
    let* oci_xid := o_ret (from_xid xid) in
    let* rc := oci (XaStart oci_xid rmid TMNOFLAGS) in
    if negb (rc =? 0) then
      let* _ := oci (XaClose info_c rmid TMNOFLAGS) in
      o_ret (Err (xa_failed "xa_start" rc))
    else o_ret (Ok (mkOciBranch info_c rmid oci_xid false)).

Definition end_success (b : OciXaBranch) : O unit :=
  let* rc := oci (XaEnd (ob_oci_xid b) (ob_rmid b) TMSUCCESS) in accepted "xa_end(TMSUCCESS)" rc.

Definition oci_prepare (b : OciXaBranch) : O unit :=
  let* _ := end_success b in
  let* rc := oci (XaPrepare (ob_oci_xid b) (ob_rmid b) TMNOFLAGS) in
  accepted "xa_prepare" rc.

Definition oci_drop (b : OciXaBranch) : O unit :=
  if ob_terminated b then o_ret (Ok tt)
  else
    let* _ := oci (XaRollback (ob_oci_xid b) (ob_rmid b) TMNOFLAGS) in
    let* _ := oci (XaClose (ob_info b) (ob_rmid b) TMNOFLAGS) in
    o_ret (Ok tt).

(** The value is dropped when the method that takes it ends. *)
Definition dropping {A : Type} (b : OciXaBranch) (m : O A) : O A := λ t, let '(r, t) := m t in (r, (oci_drop b t).2).

Definition terminated (b : OciXaBranch) : OciXaBranch := mkOciBranch (ob_info b) (ob_rmid b) (ob_oci_xid b) true.

Definition oci_finish (b : OciXaBranch) (c : OciCall) (what : string) : O unit :=
  let* rc := oci c in
  let* _ := oci (XaClose (ob_info b) (ob_rmid b) TMNOFLAGS) in
  dropping (terminated b) (accepted what rc).

Definition oci_commit (b : OciXaBranch) : O unit := oci_finish b (XaCommit (ob_oci_xid b) (ob_rmid b) TMNOFLAGS) "xa_commit".

Definition oci_rollback (b : OciXaBranch) : O unit := oci_finish b (XaRollback (ob_oci_xid b) (ob_rmid b) TMNOFLAGS) "xa_rollback".

Definition oci_commit_one_phase (b : OciXaBranch) : O unit := λ t,
  match end_success b t with
  | (Ok _, t) => oci_finish b (XaCommit (ob_oci_xid b) (ob_rmid b) TMONEPHASE) "xa_commit(TMONEPHASE)" t
  | (r, t) => dropping b (o_ret r) t
  end.

(** ** Recovery *)

(** [as usize] of a C int. *)
Definition as_usize (n : Z) : Z := n mod 2 ^ 64.

(** One entry of the buffer: the lengths are checked, the data cut, and what is no identifier left out. *)
Definition recovered_xid (o : OciXid) : Result (option Xid) :=
  let g_len := as_usize (ox_gtrid_length o) in
  let b_len := as_usize (ox_bqual_length o) in
  if g_len =? 0 then Ok None
  else if checks && (usize_max <? g_len + b_len) then Panic
  else
    let stop := (g_len + b_len) mod 2 ^ 64 in
    if 128 <? stop then Ok None
    else if (128 <? g_len) || (stop <? g_len) then Panic
    else
      let gtrid := take (Z.to_nat g_len) (ox_data o) in
      let bqual := take (Z.to_nat (stop - g_len)) (drop (Z.to_nat g_len) (ox_data o)) in
      Ok (match xid_new (ox_format_id o) gtrid bqual with Ok x => Some x | _ => None end).

Fixpoint recovered_xids (os : list OciXid) : Result (list Xid) :=
  match os with
  | [] => Ok []
  | o :: os =>
      let? x := recovered_xid o in
      let? xs := recovered_xids os in
      Ok (match x with Some x => x :: xs | None => xs end)
  end.

Definition recover_oci_xids (info : string) (rmid max : Z) : O (list Xid) :=
  let* _ := o_ret ensure_loaded in
  let* info_c := o_ret (c_string info) in
  let* rc := oci (XaOpen info_c rmid TMNOFLAGS) in
  if negb (rc =? 0) then o_ret (Err (xa_failed "xa_open(recover)" rc))
  else
    λ t,
      let buffer := ol_recovered t in
      (let* count := oci (XaRecover max rmid TMNOFLAGS) in
       let* _ := oci (XaClose info_c rmid TMNOFLAGS) in
       if count <? 0 then o_ret (Err (xa_failed "xa_recover" count))
       else o_ret (recovered_xids (take (Z.to_nat count) buffer))) t.

(** * An identifier and its C form *)

Definition valid_xid (x : Xid) : Prop := 1 ≤ len (xid_gtrid x) ≤ 64 ∧ len (xid_bqual x) ≤ 64.

Lemma from_xid_ok x : valid_xid x → ∃ o, from_xid x = Ok o ∧ length (ox_data o) = 128%nat.
Proof.
  intros [[Hg1 Hg2] Hb]. pose proof (len_nonneg (xid_bqual x)) as Hb0. unfold from_xid. destruct (Z.ltb_spec 128 (len (xid_gtrid x) + len (xid_bqual x))); [lia|].
  eexists. split; [reflexivity|]. cbn [ox_data]. rewrite !length_app, length_replicate. unfold len in *. lia.
Qed.

(** A valid identifier is laid out in 128 bytes, and recovery reads it back. *)
Lemma oci_xid_roundtrip_lemma x : valid_xid x → ∃ o, from_xid x = Ok o ∧ recovered_xid o = Ok (Some x).
Proof.
  intros [[Hg1 Hg2] Hb]. pose proof (len_nonneg (xid_bqual x)) as Hb0. unfold from_xid. destruct (Z.ltb_spec 128 (len (xid_gtrid x) + len (xid_bqual x))); [lia|].
  eexists. split; [reflexivity|]. unfold recovered_xid, as_usize. cbn [ox_gtrid_length ox_bqual_length ox_data ox_format_id]. rewrite !Z.mod_small by lia.
  destruct (Z.eqb_spec (len (xid_gtrid x)) 0); [lia|]. assert (usize_max = 2 ^ 64 - 1) as Hmax by reflexivity.
  destruct (Z.ltb_spec usize_max (len (xid_gtrid x) + len (xid_bqual x))); [lia|]. rewrite andb_false_r.
  destruct (Z.ltb_spec 128 (len (xid_gtrid x) + len (xid_bqual x))); [lia|]. destruct (Z.ltb_spec 128 (len (xid_gtrid x))); [lia|].
  destruct (Z.ltb_spec (len (xid_gtrid x) + len (xid_bqual x)) (len (xid_gtrid x))); [lia|]. cbn [orb].
  assert (∀ l : list byte, Z.to_nat (len l) = length l) as Hlen by (intros l; unfold len; lia).
  replace (len (xid_gtrid x) + len (xid_bqual x) - len (xid_gtrid x)) with (len (xid_bqual x)) by lia.
  rewrite !Hlen, take_app_length, drop_app_length, take_app_length.
  unfold xid_new. destruct (Z.eqb_spec (len (xid_gtrid x)) 0); [lia|]. unfold XID_MAX_GTRID_LEN, XID_MAX_BQUAL_LEN.
  destruct (Z.ltb_spec 64 (len (xid_gtrid x))); [lia|]. destruct (Z.ltb_spec 64 (len (xid_bqual x))); [lia|]. by destruct x.
Qed.

Theorem oci_recovery_roundtrip (xs : list Xid) :
  Forall valid_xid xs → ∃ os, Forall2 (λ x o, from_xid x = Ok o) xs os ∧ recovered_xids os = Ok xs.
Proof.
  induction 1 as [|x xs Hx _ (os & Hos & IH)]; [by exists []|]. destruct (oci_xid_roundtrip_lemma x Hx) as (o & Ho & Hr).
  exists (o :: os). split; [by constructor|]. cbn [recovered_xids]. by rewrite Hr, IH.
Qed.

(** * The life of a branch *)

Inductive Ending := Commit | Rollback | OnePhase | Dropped.

Definition end_branch (e : Ending) (b : OciXaBranch) : O unit :=
  match e with
  | Commit => oci_commit b
  | Rollback => oci_rollback b
  | OnePhase => oci_commit_one_phase b
  | Dropped => oci_drop b
  end.

(** A client: it begins a branch, prepares it any number of times, whatever that answers, and ends it. *)
Fixpoint prepare_times (n : nat) (b : OciXaBranch) (t : OciTrace) : OciTrace :=
  match n with
  | 0%nat => t
  | S n => prepare_times n b (oci_prepare b t).2
  end.

Definition client (info : string) (xid : Xid) (rmid : Z) (n : nat) (e : Ending) : O unit := λ t,
  match begin_oci_branch info xid rmid t with
  | (Ok b, t) => end_branch e b (prepare_times n b t)
  | (Err err, t) => (Err err, t)
  | (Panic, t) => (Panic, t)
  end.

(** Calls that work on the branch without ending it. *)
Definition working (o : OciXid) (rmid : Z) (c : OciCall * Z) : Prop := c.1 = XaEnd o rmid TMSUCCESS ∨ c.1 = XaPrepare o rmid TMNOFLAGS.

Lemma prepare_working b t : ∃ r h, oci_prepare b t = (r, t ++ h) ∧ Forall (working (ob_oci_xid b) (ob_rmid b)) h.
Proof.
  unfold oci_prepare, end_success, accepted, o_bind, oci, o_ret. destruct (ol_call t (XaEnd (ob_oci_xid b) (ob_rmid b) TMSUCCESS) =? 0).
  - eexists _, [_; _]. split; [by rewrite <- app_assoc|]. constructor; [by left|]. constructor; [by right|constructor].
  - eexists _, [_]. split; [reflexivity|]. constructor; [by left|constructor].
Qed.

Lemma prepare_times_working n b t : ∃ h, prepare_times n b t = t ++ h ∧ Forall (working (ob_oci_xid b) (ob_rmid b)) h.
Proof.
  revert t. induction n as [|n IH]; intros t; [exists []; by rewrite app_nil_r|]. cbn [prepare_times].
  destruct (prepare_working b t) as (r & h & -> & Hh). cbn [snd]. destruct (IH (t ++ h)) as (h' & -> & Hh').
  exists (h ++ h'). rewrite app_assoc. split; [done|by apply Forall_app].
Qed.

(** How a branch ends: the call that ends it with its answer, and the result of the method. *)
Definition ended (e : Ending) (o : OciXid) (rmid : Z) (h : OciTrace) (c : OciCall) (rc : Z) (r : Result unit) : Prop :=
  match e with
  | Commit => h = [] ∧ c = XaCommit o rmid TMNOFLAGS ∧ r = (if rc =? 0 then Ok tt else Err (xa_failed "xa_commit" rc))
  | Rollback => h = [] ∧ c = XaRollback o rmid TMNOFLAGS ∧ r = (if rc =? 0 then Ok tt else Err (xa_failed "xa_rollback" rc))
  | Dropped => h = [] ∧ c = XaRollback o rmid TMNOFLAGS ∧ r = Ok tt
  | OnePhase => ∃ end_rc, h = [(XaEnd o rmid TMSUCCESS, end_rc)] ∧
      if end_rc =? 0 then c = XaCommit o rmid TMONEPHASE ∧ r = (if rc =? 0 then Ok tt else Err (xa_failed "xa_commit(TMONEPHASE)" rc))
      else c = XaRollback o rmid TMNOFLAGS ∧ r = Err (xa_failed "xa_end(TMSUCCESS)" end_rc)
  end.

Lemma end_branch_spec e b t : ob_terminated b = false →
  ∃ h c rc close_rc r, end_branch e b t = (r, t ++ h ++ [(c, rc); (XaClose (ob_info b) (ob_rmid b) TMNOFLAGS, close_rc)]) ∧
    ended e (ob_oci_xid b) (ob_rmid b) h c rc r.
Proof.
  intros Hb. destruct e; cbn [end_branch ended].
  - eexists [], _, _, _, _. split; [|split; [done|split; reflexivity]]. unfold oci_commit, oci_finish, dropping, accepted, o_bind, oci, o_ret. cbn. by rewrite <- app_assoc.
  - eexists [], _, _, _, _. split; [|split; [done|split; reflexivity]]. unfold oci_rollback, oci_finish, dropping, accepted, o_bind, oci, o_ret. cbn. by rewrite <- app_assoc.
  - unfold oci_commit_one_phase, end_success, accepted, o_bind, oci, o_ret. set (rc := ol_call t (XaEnd (ob_oci_xid b) (ob_rmid b) TMSUCCESS)).
    destruct (rc =? 0) eqn:Erc.
    + eexists [_], _, _, _, _. split; [|exists rc; split; [reflexivity|rewrite Erc; split; reflexivity]].
      unfold oci_finish, dropping, accepted, o_bind, oci, o_ret. cbn. by rewrite <- !app_assoc.
    + eexists [_], _, _, _, _. split; [|exists rc; split; [reflexivity|rewrite Erc; split; reflexivity]].
      unfold dropping, oci_drop. rewrite Hb. unfold o_bind, oci, o_ret. cbn. by rewrite <- !app_assoc.
  - eexists [], _, _, _, _. split; [|split; [done|split; reflexivity]]. unfold oci_drop. rewrite Hb. unfold o_bind, oci, o_ret. cbn. by rewrite <- app_assoc.
Qed.

(** Every branch is ended once and its resource manager closed.  Whatever the library answers to any call, with a
    valid identifier: if the manager does not open, nothing else is called; if the branch does not start,
    the manager is closed; and a branch that starts is ended by exactly one commit or rollback, after the
    calls that only work on it, with the close as the last call.  It is a commit only where the client
    asked for one, in one phase only if the end of the branch was accepted; the client hears of success
    only where the library accepted the call. *)
Theorem oci_branch_ended_once (info : string) (xid : Xid) (rmid : Z) (n : nat) (e : Ending) (t : OciTrace) :
  ensure_loaded = Ok tt → c_string info = Ok info → valid_xid xid →
  ∃ o r h, from_xid xid = Ok o ∧ client info xid rmid n e t = (r, t ++ h) ∧
    ((∃ rc, rc ≠ 0 ∧ h = [(XaOpen info rmid TMNOFLAGS, rc)] ∧ ¬ is_ok r) ∨
     (∃ rc close_rc, rc ≠ 0 ∧ h = [(XaOpen info rmid TMNOFLAGS, 0); (XaStart o rmid TMNOFLAGS, rc); (XaClose info rmid TMNOFLAGS, close_rc)] ∧ ¬ is_ok r) ∨
     (∃ work last c rc close_rc, Forall (working o rmid) work ∧ ended e o rmid last c rc r ∧
        h = [(XaOpen info rmid TMNOFLAGS, 0); (XaStart o rmid TMNOFLAGS, 0)] ++ work ++ last ++ [(c, rc); (XaClose info rmid TMNOFLAGS, close_rc)])).
Proof.
  intros Hl Hi Hx. destruct (from_xid_ok xid Hx) as (o & Ho & _). exists o.
  unfold client, begin_oci_branch. rewrite Hl, Hi, Ho. unfold o_bind, oci, o_ret. set (rc := ol_call t (XaOpen info rmid TMNOFLAGS)).
  destruct (Z.eqb_spec rc 0) as [Hrc|Hrc]; cbn [negb].
  2:{ eexists _, [_]. split; [done|]. split; [reflexivity|]. left. exists rc. split; [done|]. split; [done|]. intros []. }
  rewrite Hrc. set (rs := ol_call (t ++ [(XaOpen info rmid TMNOFLAGS, 0)]) (XaStart o rmid TMNOFLAGS)). destruct (Z.eqb_spec rs 0) as [Hrs|Hrs]; cbn [negb].
  2:{ eexists _, [_; _; _]. split; [done|]. split; [by rewrite <- !app_assoc|]. right. left. exists rs, (ol_call ((t ++ [(XaOpen info rmid TMNOFLAGS, 0)]) ++ [(XaStart o rmid TMNOFLAGS, rs)]) (XaClose info rmid TMNOFLAGS)).
      split; [done|]. split; [by rewrite <- !app_assoc|]. intros []. }
  rewrite Hrs. set (b := mkOciBranch info rmid o false). destruct (prepare_times_working n b ((t ++ [(XaOpen info rmid TMNOFLAGS, 0)]) ++ [(XaStart o rmid TMNOFLAGS, 0)])) as (work & -> & Hwork).
  destruct (end_branch_spec e b (((t ++ [(XaOpen info rmid TMNOFLAGS, 0)]) ++ [(XaStart o rmid TMNOFLAGS, 0)]) ++ work) eq_refl) as (last & c & rc' & close_rc & r & -> & Hend).
  eexists r, _. split; [done|]. split; [by rewrite <- !app_assoc|]. right. right. by exists work, last, c, rc', close_rc.
Qed.
End Oci.

(** A library that accepts everything, and one on which preparing fails. *)
Definition good_oci : OciLibrary := {| ol_library := λ _, None; ol_symbol := λ _, None; ol_call := λ _ _, 0; ol_recovered := λ _, [] |}.

Lemma oci_branch_ended_once_witness :
  ∃ o r h, from_xid (mkXid 1 [x67] [x62]) = Ok o ∧ client (H := good_oci) "Oracle_XA+DB=x" (mkXid 1 [x67] [x62]) 7 1 Commit [] = (r, [] ++ h) ∧
    r = Ok tt ∧ map fst h = [XaOpen "Oracle_XA+DB=x" 7 TMNOFLAGS; XaStart o 7 TMNOFLAGS; XaEnd o 7 TMSUCCESS; XaPrepare o 7 TMNOFLAGS;
      XaCommit o 7 TMNOFLAGS; XaClose "Oracle_XA+DB=x" 7 TMNOFLAGS].
Proof.
  destruct (oci_branch_ended_once (H := good_oci) "Oracle_XA+DB=x" (mkXid 1 [x67] [x62]) 7 1 Commit []) as (o & r & h & Ho & Hc & _);
    [reflexivity|reflexivity|split; [split|]; vm_compute; discriminate|].
  exists o, r, h. split; [exact Ho|]. split; [exact Hc|]. vm_compute in Ho. injection Ho as <-. vm_compute in Hc. injection Hc as <- <-. split; reflexivity.
Defined.

(** A prepared branch that is dropped is rolled back. *)
Example prepared_then_dropped :
  map fst (client (H := good_oci) "x" (mkXid 1 [x67] []) 7 1 Dropped []).2 =
  let o := mkOciXid 1 1 0 (x67 :: replicate 127 x00) in
  [XaOpen "x" 7 TMNOFLAGS; XaStart o 7 TMNOFLAGS; XaEnd o 7 TMSUCCESS; XaPrepare o 7 TMNOFLAGS; XaRollback o 7 TMNOFLAGS; XaClose "x" 7 TMNOFLAGS].
Proof. reflexivity. Qed.

(** A negative length in the recovered buffer: without overflow checks the sum goes round, the limit does not stop
    it, and cutting the data panics. *)
Example negative_length : recovered_xid false (mkOciXid 1 (-1) 5 (replicate 128 x00)) = Panic.
Proof. reflexivity. Qed.
