(* ===== verification/XaDtc.v ===== *)
(** Distributed branches of SQL Server through Microsoft's transaction coordinator (engine/xa_dtc.rs, built
    with the feature xa-dtc on Windows).

    The coordinator, COM and the ODBC call that enlists a connection are not the engine's: the class
    [Coordinator] gives their answers, each for the calls made so far.  An HRESULT is a C int, zero and
    above for success; an error comes with its message. *)

From S2P Require Import Prelude Wire Errors Xid.

Definition SQL_ATTR_ENLIST_IN_DTC : Z := 1207.
Definition ISOLATIONLEVEL_READCOMMITTED : Z := 4096.
Definition S_FALSE : Z := 1.
Definition XACT_E_NOTRANSACTION : Z := to_signed 32 0x8004D00B.

(** A transaction and a dispenser are the numbers of their interfaces. *)
Inductive DtcCall :=
| CoInitialize
| GetTransactionManager
| BeginTransaction (dispenser isolation : Z)
| Enlist (phys transaction : Z)
| Unenlist (phys : Z)
| TxCommit (transaction : Z)
| TxAbort (transaction : Z)
| Release (interface : Z).

Abbreviation DtcTrace := (list DtcCall).

Record ComError := mkComError { ce_code : Z; ce_message : string }.

Class Coordinator := {
  dc_com_init : Z;
  (** The out-pointer, null or an interface. *)
  dc_manager : DtcTrace → outcome ComError (option Z);
  dc_begin : DtcTrace → Z → outcome ComError Z;
  (** The return code of [SQLSetConnectAttr], with the name it is printed by. *)
  dc_set_attr : DtcTrace → Z → option Z → Z * string;
  dc_commit : DtcTrace → Z → outcome ComError unit;
  dc_abort : DtcTrace → Z → outcome ComError unit
}.

#[global] Instance DtcCall_eq_dec : EqDecision DtcCall.
Proof. solve_decision. Defined.

Section Dtc.
Context `{Coordinator}.

Definition T (A : Type) : Type := DtcTrace → Result A * DtcTrace.

Definition t_ret {A : Type} (r : Result A) : T A := λ t, (r, t).

Definition t_bind {A B : Type} (m : T A) (k : A → T B) : T B := λ t,
  match m t with
  | (Ok a, t) => k a t
  | (Err e, t) => (Err e, t)
  | (Panic, t) => (Panic, t)
  end.

Notation "'let^' x ':=' m 'in' k" := (t_bind m (λ x, k)) (at level 10, x binder, m at level 100, k at level 200).

Definition dtc {A : Type} (c : DtcCall) (answer : DtcTrace → A) : T A := λ t, (Ok (answer t), t ++ [c]).

(** [0x{:08X}] of an HRESULT. *)
Definition hresult (z : Z) : string := "0x" +:+ fmt_HEX 8 (z mod 2 ^ 32).

(** [SUCCESS] or [SUCCESS_WITH_INFO] *)
Definition sql_success (r : Z) : bool := (r =? 0) || (r =? 1).

Definition enlist_connection_in_dtc (phys transaction : Z) : T unit :=
  let^ r := dtc (Enlist phys transaction) (λ t, dc_set_attr t phys (Some transaction)) in
  t_ret (if sql_success r.1 then Ok tt else Err (InternalError ("xa_dtc: SQLSetConnectAttr(SQL_ATTR_ENLIST_IN_DTC) failed: " +:+ r.2))).

Definition unenlist_from_dtc (phys : Z) : T unit :=
  let^ r := dtc (Unenlist phys) (λ t, dc_set_attr t phys None) in
  t_ret (if sql_success r.1 then Ok tt
         else Err (InternalError ("xa_dtc: SQLSetConnectAttr(SQL_ATTR_ENLIST_IN_DTC, NULL) (unenlist) failed: " +:+ r.2))).

(** The call is made once in the process: its result is kept. *)
Definition ensure_com_initialised : T unit := λ t,
  let hr := dc_com_init in
  (if (0 <=? hr) || (hr =? S_FALSE) then Ok tt
   else Err (InternalError ("xa_dtc: CoInitializeEx failed with HRESULT " +:+ hresult hr
     +:+ "; cannot enlist in MSDTC. Is the MSDTC service running?")),
   if existsb (λ c, match c with CoInitialize => true | _ => false end) t then t else t ++ [CoInitialize]).

Definition acquire_transaction_dispenser : T Z :=
  let^ _ := ensure_com_initialised in
  let^ r := dtc GetTransactionManager dc_manager in
  t_ret (match r with
         | Err e => Err (InternalError ("xa_dtc: DtcGetTransactionManagerExA failed with HRESULT " +:+ hresult (ce_code e) +:+ " (" +:+ ce_message e
             +:+ "). The MSDTC service may not be running, or the host is missing distributed-transaction permissions."))
         | Ok None => Err (InternalError "xa_dtc: DtcGetTransactionManagerExA returned S_OK but the out-pointer is null — host appears to have a misconfigured MSDTC.")
         | Ok (Some dispenser) => Ok dispenser
         | Panic => Panic
         end).

Definition com_failed (what : string) (e : ComError) : OdbcError :=
  InternalError ("xa_dtc: " +:+ what +:+ " failed with HRESULT " +:+ hresult (ce_code e) +:+ " (" +:+ ce_message e +:+ ")").

Definition begin_msdtc_transaction (dispenser : Z) (xid : Xid) : T Z :=
  let^ r := dtc (BeginTransaction dispenser ISOLATIONLEVEL_READCOMMITTED) (λ t, dc_begin t dispenser) in
  t_ret (omap_err (com_failed "ITransactionDispenser::BeginTransaction") r).

Record DtcXaBranch := mkDtcBranch { db_dispenser : Z; db_transaction : Z }.

(** [Release] of an interface when its owner goes. *)
Definition release_interface (i : Z) : T unit := dtc (Release i) (λ _, tt).

Definition begin_dtc_branch (xid : Xid) : T DtcXaBranch :=
  let^ dispenser := acquire_transaction_dispenser in
  λ t, match begin_msdtc_transaction dispenser xid t with
       | (Ok transaction, t) => (Ok (mkDtcBranch dispenser transaction), t)
       | (Err e, t) => (Err e, (release_interface dispenser t).2)
       | (Panic, t) => (Panic, (release_interface dispenser t).2)
       end.

(** [Drop]: the transaction is aborted whatever was done before, a failure is only logged (but for
    XACT_E_NOTRANSACTION, which is not), and both interfaces are released. *)
Definition drop_dtc (b : DtcXaBranch) (t : DtcTrace) : DtcTrace :=
  t ++ [TxAbort (db_transaction b); Release (db_dispenser b); Release (db_transaction b)].

Definition drop_warns (b : DtcXaBranch) (t : DtcTrace) : bool :=
  match dc_abort t (db_transaction b) with Err e => negb (ce_code e =? XACT_E_NOTRANSACTION) | _ => false end.

Definition dtc_commit (b : DtcXaBranch) : T unit := λ t,
  let '(r, t') := dtc (TxCommit (db_transaction b)) (λ t, dc_commit t (db_transaction b)) t in
  (match r with Ok r => omap_err (com_failed "ITransaction::Commit") r | Err e => Err e | Panic => Panic end, drop_dtc b t').

Definition dtc_abort (b : DtcXaBranch) : T unit := λ t,
  let '(r, t') := dtc (TxAbort (db_transaction b)) (λ t, dc_abort t (db_transaction b)) t in
  (match r with Ok r => omap_err (com_failed "ITransaction::Abort") r | Err e => Err e | Panic => Panic end, drop_dtc b t').

(** * The life of a branch *)

Inductive DtcEnding := DtcCommit | DtcAbort | DtcDropped.

Definition end_dtc (e : DtcEnding) (b : DtcXaBranch) : T unit :=
  match e with
  | DtcCommit => dtc_commit b
  | DtcAbort => dtc_abort b
  | DtcDropped => λ t, (Ok tt, drop_dtc b t)
  end.

Definition dtc_client (xid : Xid) (e : DtcEnding) : T unit := let^ b := begin_dtc_branch xid in end_dtc e b.

(** The call that ends the branch, if the client makes one, and what the client hears. *)
Definition ending_call (e : DtcEnding) (x : Z) (t : DtcTrace) : list DtcCall * Result unit :=
  match e with
  | DtcCommit => ([TxCommit x], omap_err (com_failed "ITransaction::Commit") (dc_commit t x))
  | DtcAbort => ([TxAbort x], omap_err (com_failed "ITransaction::Abort") (dc_abort t x))
  | DtcDropped => ([], Ok tt)
  end.

(** COM is initialised before, at most once. *)
Definition com_calls (t : DtcTrace) : list DtcCall := if existsb (λ c, match c with CoInitialize => true | _ => false end) t then [] else [CoInitialize].

(** Whatever the coordinator answers: without COM nothing is called; a dispenser that was acquired is released
    exactly once; a transaction that began is ended as the client asked, then aborted, also after a commit,
    and both interfaces are released, in this order and as the last calls; and the client hears of success
    exactly where the coordinator accepted the call it asked for. *)
Theorem dtc_branch_ended (xid : Xid) (e : DtcEnding) (t : DtcTrace) :
  let t1 := t ++ com_calls t in
  let '(r, t') := dtc_client xid e t in
  if (0 <=? dc_com_init) || (dc_com_init =? S_FALSE) then
    match dc_manager t1 with
    | Ok (Some d) =>
        match dc_begin (t1 ++ [GetTransactionManager]) d with
        | Ok x =>
            let t2 := t1 ++ [GetTransactionManager; BeginTransaction d ISOLATIONLEVEL_READCOMMITTED] in
            let '(c, answer) := ending_call e x t2 in
            r = answer ∧ t' = t2 ++ c ++ [TxAbort x; Release d; Release x]
        | _ => ¬ is_ok r ∧ t' = t1 ++ [GetTransactionManager; BeginTransaction d ISOLATIONLEVEL_READCOMMITTED; Release d]
        end
    | _ => ¬ is_ok r ∧ t' = t1 ++ [GetTransactionManager]
    end
  else ¬ is_ok r ∧ t' = t1.
Proof.
  intros t1. unfold dtc_client, begin_dtc_branch, acquire_transaction_dispenser, t_bind, ensure_com_initialised.
  assert ((if existsb (λ c, match c with CoInitialize => true | _ => false end) t then t else t ++ [CoInitialize]) = t1) as ->.
  { unfold t1, com_calls. by destruct (existsb _ t); rewrite ?app_nil_r. }
  destruct ((0 <=? dc_com_init) || (dc_com_init =? S_FALSE)); [|by split; [intros []|]].
  unfold dtc at 1, t_ret. destruct (dc_manager t1) as [[d|]|er|]; [|by split; [intros []|]..].
  unfold begin_msdtc_transaction, t_bind, dtc, t_ret, release_interface, dtc. destruct (dc_begin (t1 ++ [GetTransactionManager]) d) as [x|er|]; cbn [omap_err].
  2,3: split; [by intros []|]; cbn; by rewrite <- !app_assoc.
  assert ((t1 ++ [GetTransactionManager]) ++ [BeginTransaction d ISOLATIONLEVEL_READCOMMITTED]
    = t1 ++ [GetTransactionManager; BeginTransaction d ISOLATIONLEVEL_READCOMMITTED]) as -> by by rewrite <- app_assoc.
  destruct e; cbn [end_dtc ending_call]; unfold dtc_commit, dtc_abort, dtc, drop_dtc; cbn [db_transaction db_dispenser]; (split; [done|]); by rewrite <- ?app_assoc.
Qed.
End Dtc.

(** The coordinator of a commit that is accepted: the abort that follows is refused with XACT_E_NOTRANSACTION, and
    the drop is silent. *)
Definition good_coordinator : Coordinator := {|
  dc_com_init := 0;
  dc_manager := λ _, Ok (Some 1);
  dc_begin := λ _ _, Ok 2;
  dc_set_attr := λ _ _ _, (0, "SUCCESS");
  dc_commit := λ _ _, Ok tt;
  dc_abort := λ t _, if bool_decide (last t = Some (TxCommit 2)) then Err (mkComError XACT_E_NOTRANSACTION "no transaction") else Ok tt
|}.

Example committed_then_aborted :
  let '(r, t) := dtc_client (H := good_coordinator) (mkXid 1 [x67] []) DtcCommit [] in
  r = Ok tt ∧ t = [CoInitialize; GetTransactionManager; BeginTransaction 1 4096; TxCommit 2; TxAbort 2; Release 1; Release 2] ∧
  drop_warns (H := good_coordinator) (mkDtcBranch 1 2) [TxCommit 2] = false.
Proof. split; [|split]; reflexivity. Qed.

Example hresult_text : hresult (-2147168245) = "0x8004D00B".
Proof. reflexivity. Qed.
