(* ===== verification/XaMsdtc.v ===== *)
(** Distributed transactions in the build with the feature xa-dtc on Windows (engine/xa_transaction.rs): a branch
    on SQL Server is one of Microsoft's transaction coordinator, every other branch is as in Xa.

    A step makes calls on the driver and calls on the coordinator, so the monad [D] threads both the world of
    the one and the trace of the other. *)

From S2P Require Import Prelude Wire Errors Text Capabilities Handles Xid Xa XaDtc.

(** [unsupported_sqlserver] of this build. *)
Definition unsupported_sqlserver_dtc : OdbcError :=
  UnsupportedFeature "XA / 2PC on SQL Server: the `xa-dtc` feature ships the MSDTC COM scaffolding (engine::xa_dtc) but Phase 2 wiring into the apply_xa_* matrix is pending. Track doc/Features/PENDING_IMPLEMENTATIONS.md §1.1 for follow-ups.".

(** An emitter of Xa in this build: only that text differs. *)
Definition in_dtc_build (stmt : string → Xid → Result (option string)) (engine_id : string) (x : Xid) : Result (option string) :=
  omap_err (λ e, if decide (e = unsupported_sqlserver) then unsupported_sqlserver_dtc else e) (stmt engine_id x).

(** [XaTransaction] and [PreparedXa] with their field [dtc_branch]. *)
Record XaBranch := mkBranch { xb_inner : XaTransaction; xb_dtc : option DtcXaBranch }.
Record PreparedBranch := mkPreparedBranch { pb_inner : PreparedXa; pb_dtc : option DtcXaBranch }.

Definition is_mssql_mdtc (b : XaBranch) : bool := String.eqb (xa_engine (xb_inner b)) ENGINE_SQLSERVER && bool_decide (is_Some (xb_dtc b)).

Section Msdtc.
Context `{Driver} `{Coordinator}.

Definition D (A : Type) : Type := World * DtcTrace → Result A * (World * DtcTrace).

Definition d_ret {A : Type} (r : Result A) : D A := λ s, (r, s).

Definition d_bind {A B : Type} (m : D A) (k : A → D B) : D B := λ s,
  match m s with
  | (Ok a, s) => k a s
  | (Err e, s) => (Err e, s)
  | (Panic, s) => (Panic, s)
  end.

Notation "'let~' x ':=' m 'in' k" := (d_bind m (λ x, k)) (at level 10, x binder, m at level 100, k at level 200).

Definition on_driver {A : Type} (m : M A) : D A := λ s, let '(r, w) := m s.1 in (r, (w, s.2)).
Definition on_dtc {A : Type} (m : T A) : D A := λ s, let '(r, t) := m s.2 in (r, (s.1, t)).

Definition try_d {A : Type} (m : D A) : D (Result A) := λ s,
  match m s with
  | (Panic, s) => (Panic, s)
  | (r, s) => (Ok r, s)
  end.

(** * The branch *)

Definition msdtc_start (conn_id : Z) (x : Xid) : D XaBranch :=
  let~ engine_id := on_driver (detect_engine_id conn_id) in
  let~ phys := on_driver (open_connection "Failed to lock handles" conn_id) in
  let~ _ := on_driver (call phys (CAutocommit false)) in
  let t := mkXa conn_id x engine_id XaActive false in
  if String.eqb engine_id ENGINE_SQLSERVER then
    let~ branch := on_dtc (begin_dtc_branch x) in
    let~ r := try_d (on_dtc (enlist_connection_in_dtc phys (db_transaction branch))) in
    match r with
    | Ok _ => d_ret (Ok (mkBranch t (Some branch)))
    | Err e => λ s, (Err e, (s.1, drop_dtc branch s.2))
    | Panic => d_ret Panic
    end
  else
    let~ _ := on_driver (emit (in_dtc_build sql_xa_start) phys engine_id x) in
    d_ret (Ok (mkBranch t None)).

(** [run_on_conn(|c, _e, _x| mssql_mdtc_unenlist(c))] *)
Definition unenlist (t : XaTransaction) : D unit :=
  let~ phys := on_driver (open_connection "Failed to lock handles" (xa_conn_id t)) in
  on_dtc (unenlist_from_dtc phys).

Definition restore (t : XaTransaction) : D unit := let~ _ := try_d (on_driver (try_restore_autocommit t)) in d_ret (Ok tt).

(** [if let Some(b) = self.dtc_branch.take() { .. }] *)
Definition take_dtc (b : option DtcXaBranch) (f : DtcXaBranch → T unit) : D unit :=
  match b with Some b => on_dtc (f b) | None => d_ret (Ok tt) end.

(** The field, when its owner goes. *)
Definition drop_field (b : option DtcXaBranch) : D unit := λ s,
  (Ok tt, match b with Some b => (s.1, drop_dtc b s.2) | None => s end).

(** [Drop for XaTransaction], and then its field. *)
Definition drop_branch (b : XaBranch) : D unit :=
  let t := xb_inner b in
  let s := state_of (xa_state t) (xa_poisoned t) in
  if bool_decide (s = XaActive) || bool_decide (s = XaIdle) then
    if is_mssql_mdtc b then
      let~ _ := try_d (unenlist t) in
      let~ _ := try_d (take_dtc (xb_dtc b) dtc_abort) in
      restore t
    else
      let~ _ := try_d (on_driver (run_on_conn t (λ c e x,
                  let! _ := try_m (emit (in_dtc_build sql_xa_end) c e x) in emit (in_dtc_build sql_xa_rollback) c e x))) in
      let~ _ := restore t in
      drop_field (xb_dtc b)
  else drop_field (xb_dtc b).

Definition leave_branch {A : Type} (b : XaBranch) (r : Result A) : D A :=
  let~ _ := drop_branch b in d_ret r.

(** [?] with [b] to be dropped on the way out. *)
Definition or_leave {A B : Type} (b : XaBranch) (r : Result A) (k : A → D B) : D B :=
  match r with
  | Ok a => k a
  | Err e => leave_branch b (Err e)
  | Panic => leave_branch b Panic
  end.

Definition with_inner (b : XaBranch) (t : XaTransaction) : XaBranch := mkBranch t (xb_dtc b).
Definition taken (b : XaBranch) : XaBranch := mkBranch (xb_inner b) None.

Definition set_branch_state {B : Type} (b : XaBranch) (s : XaState) (k : XaBranch → D B) : D B :=
  or_leave b (set_xa_state (xb_inner b) s) (λ t, k (with_inner b t)).

Definition msdtc_end (b : XaBranch) : D XaBranch :=
  let t := xb_inner b in
  or_leave b (assert_state t XaActive "end") (λ _,
  let~ r := try_d (if is_mssql_mdtc b then unenlist t else on_driver (run_on_conn t (emit (in_dtc_build sql_xa_end)))) in
  or_leave b r (λ _,
  set_branch_state b XaIdle (λ b, d_ret (Ok b)))).

Definition conclude_branch (b : XaBranch) (r : Result unit) (success : XaState) : D unit :=
  match r with
  | Ok _ => set_branch_state b success (λ b, leave_branch b (Ok tt))
  | Err e => set_branch_state b XaFailed (λ b, leave_branch b (Err e))
  | Panic => d_ret Panic
  end.

Definition msdtc_commit_one_phase (b : XaBranch) : D unit :=
  let t := xb_inner b in
  or_leave b (assert_state t XaActive "commit_one_phase") (λ _,
  if is_mssql_mdtc b then
    let~ r := try_d (unenlist t) in
    or_leave b r (λ _,
    let~ r := try_d (take_dtc (xb_dtc b) dtc_commit) in
    or_leave (taken b) r (λ _,
    set_branch_state (taken b) XaCommitted (λ b,
    let~ _ := restore t in
    leave_branch b (Ok tt))))
  else
    let~ e := try_d (on_driver (run_on_conn t (emit (in_dtc_build sql_xa_end)))) in
    or_leave b e (λ _,
    let~ r := try_d (on_driver (run_on_conn t (emit (in_dtc_build (sql_xa_commit true))))) in
    let~ _ := restore t in
    conclude_branch b r XaCommitted)).

Definition msdtc_rollback (b : XaBranch) : D unit :=
  let t := xb_inner b in
  or_leave b (assert_state t XaActive "rollback") (λ _,
  if is_mssql_mdtc b then
    let~ _ := try_d (unenlist t) in
    let~ _ := try_d (take_dtc (xb_dtc b) dtc_abort) in
    let~ _ := restore t in
    set_branch_state (taken b) XaRolledBack (λ b, leave_branch b (Ok tt))
  else
    let~ _ := try_d (on_driver (run_on_conn t (emit (in_dtc_build sql_xa_end)))) in
    let~ r := try_d (on_driver (run_on_conn t (emit (in_dtc_build sql_xa_rollback)))) in
    let~ _ := restore t in
    conclude_branch b r XaRolledBack).

(** [PreparingXa]: the branch after [msdtc_end]. *)
Definition prepared_of (b : XaBranch) : PreparedXa :=
  let t := xb_inner b in mkPrepared (xa_conn_id t) (xa_xid t) (xa_engine t) (xa_state t) (xa_poisoned t).

Definition msdtc_prepare (b : XaBranch) : D PreparedBranch :=
  let t := xb_inner b in
  or_leave b (assert_state t XaIdle "prepare") (λ _,
  if is_mssql_mdtc b then
    set_branch_state b XaPrepared (λ b,
    let~ _ := restore t in
    leave_branch (taken b) (Ok (mkPreparedBranch (prepared_of b) (xb_dtc b))))
  else
    let~ r := try_d (on_driver (run_on_conn t (emit (in_dtc_build sql_xa_prepare)))) in
    match r with
    | Ok _ =>
        set_branch_state b XaPrepared (λ b,
        let~ _ := restore t in
        leave_branch b (Ok (mkPreparedBranch (prepared_of b) None)))
    | Err e =>
        set_branch_state b XaFailed (λ b,
        let~ _ := restore t in
        leave_branch b (Err e))
    | Panic => d_ret Panic
    end).

Definition msdtc_preparing_rollback (b : XaBranch) : D unit :=
  let t := xb_inner b in
  or_leave b (assert_state t XaIdle "rollback") (λ _,
  if is_mssql_mdtc b then
    let~ _ := try_d (unenlist t) in
    let~ _ := try_d (take_dtc (xb_dtc b) dtc_abort) in
    let~ _ := restore t in
    set_branch_state (taken b) XaRolledBack (λ b, leave_branch b (Ok tt))
  else
    let~ r := try_d (on_driver (run_on_conn t (emit (in_dtc_build sql_xa_rollback)))) in
    let~ _ := restore t in
    conclude_branch b r XaRolledBack).

(** Both ways of phase 2: the branch of the coordinator if there is one, a statement otherwise. *)
Definition msdtc_phase_two (op : string) (f : DtcXaBranch → T unit) (stmt : string → Xid → Result (option string)) (p : PreparedBranch) : D unit :=
  let d := pb_inner p in
  match assert_xa_state "PreparedXa" (state_of (pd_state d) (pd_poisoned d)) XaPrepared op with
  | Ok _ =>
      let~ r := try_d (match pb_dtc p with
                       | Some b => on_dtc (f b)
                       | None => on_driver (prepared_run d (emit (in_dtc_build stmt)))
                       end) in
      d_ret (if pd_poisoned d then Err (InternalError "XA state lock poisoned") else r)
  | Err e => let~ _ := drop_field (pb_dtc p) in d_ret (Err e)
  | Panic => d_ret Panic
  end.

Definition msdtc_commit_prepared : PreparedBranch → D unit := msdtc_phase_two "commit" dtc_commit (sql_xa_commit false).
Definition msdtc_rollback_prepared : PreparedBranch → D unit := msdtc_phase_two "rollback" dtc_abort sql_xa_rollback_prepared.

(** A branch resumed after a crash is none of the coordinator's. *)
Definition msdtc_resume_prepared (conn_id : Z) (x : Xid) : D PreparedBranch :=
  let~ p := on_driver (resume_prepared conn_id x) in d_ret (Ok (mkPreparedBranch p None)).

Definition msdtc_recover_prepared_xids (conn_id : Z) : M (list Xid) :=
  let! engine_id := detect_engine_id conn_id in
  let! phys := open_connection "Failed to lock handles" conn_id in
  if String.eqb engine_id ENGINE_SQLSERVER then lift (Err unsupported_sqlserver_dtc) else apply_xa_recover phys engine_id.

(** * The life of a branch of the coordinator *)

(** What a client does with an active branch. *)
Inductive MsEnding := MsOnePhase | MsTwoPhase | MsRollback | MsIdleRollback | MsPreparedRollback | MsDropActive | MsDropIdle | MsDropPrepared.

Definition drop_prepared (p : PreparedBranch) : D unit := drop_field (pb_dtc p).

Definition ms_client (e : MsEnding) (b : XaBranch) : D unit :=
  match e with
  | MsOnePhase => msdtc_commit_one_phase b
  | MsTwoPhase => let~ b := msdtc_end b in let~ p := msdtc_prepare b in msdtc_commit_prepared p
  | MsRollback => msdtc_rollback b
  | MsIdleRollback => let~ b := msdtc_end b in msdtc_preparing_rollback b
  | MsPreparedRollback => let~ b := msdtc_end b in let~ p := msdtc_prepare b in msdtc_rollback_prepared p
  | MsDropActive => drop_branch b
  | MsDropIdle => let~ b := msdtc_end b in drop_branch b
  | MsDropPrepared => let~ b := msdtc_end b in let~ p := msdtc_prepare b in drop_prepared p
  end.

(** The calls it makes on the coordinator; [left] tells whether the connection left the transaction when asked
    first. *)
Definition ms_calls (e : MsEnding) (left : bool) (phys : Z) (b : DtcXaBranch) : list DtcCall :=
  let x := db_transaction b in
  let aborted := [Unenlist phys; Unenlist phys; TxAbort x] in
  (match e, left with
   | (MsOnePhase | MsTwoPhase), true => [Unenlist phys; TxCommit x]
   | (MsRollback | MsDropActive), _ | MsPreparedRollback, true => [Unenlist phys; TxAbort x]
   | MsDropPrepared, true => [Unenlist phys]
   | _, _ => aborted
   end) ++ [TxAbort x; Release (db_dispenser b); Release x].

(** What it hears. *)
Definition ms_result (e : MsEnding) (phys : Z) (x : Z) (t : DtcTrace) : Result unit :=
  let r := (unenlist_from_dtc phys t).1 in
  let t := t ++ [Unenlist phys] in
  match e with
  | MsOnePhase | MsTwoPhase => let? _ := r in omap_err (com_failed "ITransaction::Commit") (dc_commit t x)
  | MsPreparedRollback => let? _ := r in omap_err (com_failed "ITransaction::Abort") (dc_abort t x)
  | MsRollback | MsDropActive => Ok tt
  | MsIdleRollback | MsDropIdle | MsDropPrepared => r
  end.

Definition started (conn_id : Z) (x : Xid) (branch : DtcXaBranch) : XaBranch := mkBranch (mkXa conn_id x ENGINE_SQLSERVER XaActive false) (Some branch).
End Msdtc.

#[local] Notation "'let~' x ':=' m 'in' k" := (d_bind m (λ x, k)) (at level 10, x binder, m at level 100, k at level 200).

Section Life.
Context `{Driver} `{Coordinator}.
Hypothesis com_returns : ∀ t x, dc_commit t x ≠ Panic ∧ dc_abort t x ≠ Panic.

Lemma unenlist_cases phys t : (unenlist_from_dtc phys t).1 = Ok tt ∨ ∃ e, (unenlist_from_dtc phys t).1 = Err e.
Proof. unfold unenlist_from_dtc, t_bind, dtc, t_ret. cbn. destruct (sql_success _); eauto. Qed.

Lemma unenlist_live t w phys tr : live w (xa_conn_id t) phys →
  unenlist t (w, tr) = ((unenlist_from_dtc phys tr).1, (w, tr ++ [Unenlist phys])).
Proof.
  intros Hl. unfold unenlist, d_bind, on_driver. cbn [fst snd]. rewrite (runs_open "Failed to lock handles" _ w _ Hl), w_ext_nil.
  unfold on_dtc. cbn [fst snd]. unfold unenlist_from_dtc, t_bind, dtc, t_ret. reflexivity.
Qed.

Lemma restore_live w id phys : live w id phys →
  ∃ ok, ∀ t tr, xa_conn_id t = id → restore t (w, tr) = (Ok tt, (w_ext w [restored phys ok], tr)).
Proof.
  intros Hl. exists (is_ok (dr_answer (w_trace w) phys (CAutocommit true))). intros t tr <-. unfold restore, d_bind, try_d, on_driver, try_restore_autocommit, bind at 1.
  cbn [fst snd]. rewrite (runs_open "Failed to lock handles" _ w _ Hl), w_ext_nil. unfold try_m, bind, call. cbn.
  pose proof (dr_answer_no_panic (w_trace w) phys (CAutocommit true)). by destruct (dr_answer (w_trace w) phys (CAutocommit true)) as [[]|e|].
Qed.

(** Without its branch, SQL Server has no statement to end or to roll back with. *)
Lemma no_statement t w phys tr : live w (xa_conn_id t) phys → xa_engine t = ENGINE_SQLSERVER →
  ∃ r, r ≠ Panic ∧ on_driver (run_on_conn t (λ c e x, let! _ := try_m (emit (in_dtc_build sql_xa_end) c e x) in emit (in_dtc_build sql_xa_rollback) c e x)) (w, tr) = (r, (w, tr)).
Proof.
  intros Hl He. eexists. split; [|unfold on_driver, run_on_conn, bind; cbn [fst snd]; rewrite (runs_open "Failed to lock handles" _ w _ Hl), w_ext_nil, He; reflexivity].
  discriminate.
Qed.

(** ** The steps *)

Context (id : Z) (x : Xid) (branch : DtcXaBranch) (w : World) (phys : Z) (ok : bool).
Hypothesis conn_live : live w id phys.

Let t (s : XaState) : XaTransaction := mkXa id x ENGINE_SQLSERVER s false.
Let b (s : XaState) : XaBranch := mkBranch (t s) (Some branch).
Let tx : Z := db_transaction branch.
Let closed : list DtcCall := [TxAbort tx; Release (db_dispenser branch); Release tx].
Let w' : World := w_ext w [restored phys ok].
Let un (tr : DtcTrace) : Result unit := (unenlist_from_dtc phys tr).1.

Hypothesis restored_once : ∀ t tr, xa_conn_id t = id → restore t (w, tr) = (Ok tt, (w', tr)).

Lemma unenlist_b s tr : unenlist (t s) (w, tr) = (un tr, (w, tr ++ [Unenlist phys])).
Proof. by apply unenlist_live. Qed.

Lemma try_unenlist s tr : try_d (unenlist (t s)) (w, tr) = (Ok (un tr), (w, tr ++ [Unenlist phys])).
Proof. unfold try_d. rewrite unenlist_b. unfold un. by destruct (unenlist_cases phys tr) as [->|[e ->]]. Qed.

Lemma dtc_commit_run tr : dtc_commit branch tr = (omap_err (com_failed "ITransaction::Commit") (dc_commit tr tx), tr ++ [TxCommit tx] ++ closed).
Proof. unfold dtc_commit, dtc, drop_dtc. by rewrite <- app_assoc. Qed.

Lemma dtc_abort_run tr : dtc_abort branch tr = (omap_err (com_failed "ITransaction::Abort") (dc_abort tr tx), tr ++ [TxAbort tx] ++ closed).
Proof. unfold dtc_abort, dtc, drop_dtc. by rewrite <- app_assoc. Qed.

Lemma try_on_dtc (f : T unit) tr r tr' : f tr = (r, tr') → r ≠ Panic → try_d (on_dtc f) (w, tr) = (Ok r, (w, tr')).
Proof. intros Hf Hr. unfold try_d, on_dtc. cbn [fst snd]. rewrite Hf. by destruct r. Qed.

Lemma commit_answers tr : omap_err (com_failed "ITransaction::Commit") (dc_commit tr tx) ≠ Panic.
Proof. destruct (com_returns tr tx) as [Hc _]. by destruct (dc_commit tr tx). Qed.

Lemma abort_answers tr : omap_err (com_failed "ITransaction::Abort") (dc_abort tr tx) ≠ Panic.
Proof. destruct (com_returns tr tx) as [_ Hc]. by destruct (dc_abort tr tx). Qed.

Lemma try_abort tr : try_d (take_dtc (Some branch) dtc_abort) (w, tr)
  = (Ok (omap_err (com_failed "ITransaction::Abort") (dc_abort tr tx)), (w, tr ++ [TxAbort tx] ++ closed)).
Proof. apply try_on_dtc; [apply dtc_abort_run|apply abort_answers]. Qed.

Lemma drop_unfinished s tr : s = XaActive ∨ s = XaIdle → drop_branch (b s) (w, tr) = (Ok tt, (w', tr ++ [Unenlist phys; TxAbort tx] ++ closed)).
Proof.
  intros Hs. assert (drop_branch (b s) = (let~ _ := try_d (unenlist (t s)) in let~ _ := try_d (take_dtc (Some branch) dtc_abort) in restore (t s))) as ->
    by by destruct Hs as [-> | ->].
  unfold d_bind. rewrite try_unenlist, try_abort, restored_once by done. by rewrite <- app_assoc.
Qed.

Lemma end_run tr : msdtc_end (b XaActive) (w, tr) =
  match un tr with
  | Ok _ => (Ok (b XaIdle), (w, tr ++ [Unenlist phys]))
  | Err e => (Err e, (w', tr ++ [Unenlist phys; Unenlist phys; TxAbort tx] ++ closed))
  | Panic => (Panic, (w', tr ++ [Unenlist phys; Unenlist phys; TxAbort tx] ++ closed))
  end.
Proof.
  unfold msdtc_end. change (assert_state _ _ _) with (@Ok OdbcError unit tt). cbn [or_leave]. change (is_mssql_mdtc _) with true. cbv iota.
  unfold d_bind at 1. change (xb_inner (b XaActive)) with (t XaActive). rewrite try_unenlist.
  destruct (un tr) as [[]|e|]; [reflexivity|..]; unfold or_leave, leave_branch, d_bind; rewrite drop_unfinished by auto; by rewrite <- app_assoc.
Qed.

Lemma prepare_run tr : msdtc_prepare (b XaIdle) (w, tr) = (Ok (mkPreparedBranch (mkPrepared id x ENGINE_SQLSERVER XaPrepared false) (Some branch)), (w', tr)).
Proof.
  unfold msdtc_prepare. change (assert_state _ _ _) with (@Ok OdbcError unit tt). cbn [or_leave]. change (is_mssql_mdtc _) with true. cbv iota.
  unfold set_branch_state. change (set_xa_state _ _) with (@Ok OdbcError _ (t XaPrepared)). cbn [or_leave]. unfold d_bind. by rewrite restored_once.
Qed.

Lemma phase_two_run op f stmt u tr r tr' : f branch tr = (r, tr') → r ≠ Panic →
  msdtc_phase_two op f stmt (mkPreparedBranch (mkPrepared id x ENGINE_SQLSERVER XaPrepared false) (Some branch)) (u, tr) = (r, (u, tr')).
Proof.
  intros Hf Hr. unfold msdtc_phase_two. cbn [pb_inner pb_dtc pd_state pd_poisoned]. change (assert_xa_state _ _ _ _) with (@Ok OdbcError unit tt). cbv iota.
  unfold d_bind, try_d, on_dtc. cbn [fst snd]. rewrite Hf. by destruct r.
Qed.

Lemma rollback_run tr : msdtc_rollback (b XaActive) (w, tr) = (Ok tt, (w', tr ++ [Unenlist phys; TxAbort tx] ++ closed)).
Proof.
  unfold msdtc_rollback. change (assert_state _ _ _) with (@Ok OdbcError unit tt). cbn [or_leave]. change (is_mssql_mdtc _) with true. cbv iota.
  unfold d_bind. change (xb_inner (b XaActive)) with (t XaActive). change (xb_dtc (b XaActive)) with (Some branch).
  rewrite try_unenlist, try_abort, restored_once by done. by rewrite <- app_assoc.
Qed.

Lemma preparing_rollback_run tr : msdtc_preparing_rollback (b XaIdle) (w, tr) = (Ok tt, (w', tr ++ [Unenlist phys; TxAbort tx] ++ closed)).
Proof.
  unfold msdtc_preparing_rollback. change (assert_state _ _ _) with (@Ok OdbcError unit tt). cbn [or_leave]. change (is_mssql_mdtc _) with true. cbv iota.
  unfold d_bind. change (xb_inner (b XaIdle)) with (t XaIdle). change (xb_dtc (b XaIdle)) with (Some branch).
  rewrite try_unenlist, try_abort, restored_once by done. by rewrite <- app_assoc.
Qed.

(** A failed commit leaves an active branch without its transaction: its destructor finds no statement for it. *)
Lemma drop_taken tr : drop_branch (taken (b XaActive)) (w, tr) = (Ok tt, (w', tr)).
Proof.
  unfold drop_branch. cbn [taken b xb_inner]. change (bool_decide _ || bool_decide _) with true. change (is_mssql_mdtc _) with false. cbv iota.
  destruct (no_statement (t XaActive) w phys tr conn_live eq_refl) as (r & Hr & Hrun).
  unfold d_bind, try_d at 1. rewrite Hrun. destruct r; [|rewrite restored_once by done; reflexivity|done]; rewrite restored_once by done; reflexivity.
Qed.

Lemma one_phase_run tr : msdtc_commit_one_phase (b XaActive) (w, tr) =
  match un tr with
  | Ok _ => (omap_err (com_failed "ITransaction::Commit") (dc_commit (tr ++ [Unenlist phys]) tx), (w', tr ++ [Unenlist phys; TxCommit tx] ++ closed))
  | Err e => (Err e, (w', tr ++ [Unenlist phys; Unenlist phys; TxAbort tx] ++ closed))
  | Panic => (Panic, (w', tr ++ [Unenlist phys; Unenlist phys; TxAbort tx] ++ closed))
  end.
Proof.
  unfold msdtc_commit_one_phase. change (assert_state _ _ _) with (@Ok OdbcError unit tt). cbn [or_leave]. change (is_mssql_mdtc _) with true. cbv iota.
  unfold d_bind at 1. change (xb_inner (b XaActive)) with (t XaActive). rewrite try_unenlist.
  destruct (un tr) as [[]|e|]; [|unfold or_leave, leave_branch, d_bind; rewrite drop_unfinished by auto; by rewrite <- app_assoc..].
  cbn [or_leave]. unfold d_bind at 1. change (take_dtc (xb_dtc (b XaActive)) dtc_commit) with (on_dtc (dtc_commit branch)).
  rewrite (try_on_dtc _ _ _ _ (dtc_commit_run _) (commit_answers _)). rewrite <- !app_assoc.
  destruct (omap_err _ _) as [[]|e|]; [|unfold or_leave, leave_branch, d_bind; rewrite drop_taken; reflexivity..].
  unfold set_branch_state. cbn [or_leave]. change (set_xa_state _ _) with (@Ok OdbcError _ (t XaCommitted)). cbn [or_leave]. unfold d_bind. by rewrite restored_once.
Qed.
End Life.

Section Ended.
Context `{Driver} `{Coordinator}.

End Ended.

(** Its abort refused, the rollback of an active branch still reports success; that of a prepared one does not. *)
Definition stuck_coordinator : Coordinator := {|
  dc_com_init := 0;
  dc_manager := λ _, Ok (Some 1);
  dc_begin := λ _ _, Ok 2;
  dc_set_attr := λ _ _ _, (0, "SUCCESS");
  dc_commit := λ _ _, Ok tt;
  dc_abort := λ _ _, Err (mkComError (-2147418113) "unexpected")
|}.

Definition sqlserver_driver : Driver := {|
  dr_answer := λ _ _ _, Ok tt;
  dr_dbms_name := λ _ _, Ok "Microsoft SQL Server";
  dr_name_len := λ _ _ _, Ok 128;
  dr_catalog := λ _ _, Ok "master";
  dr_rows := λ _ _ _, Ok [];
  dr_answer_no_panic := λ _ _ _ H, match H with end;
  dr_dbms_name_no_panic := λ _ _ H, match H with end
|}.

Definition msdtc_session (e : MsEnding) : Result unit * DtcTrace :=
  let '(r, (w, t)) := msdtc_start (H := sqlserver_driver) (H0 := stuck_coordinator) 1 sample_xid (sample_world, []) in
  match r with
  | Ok b => let '(r, (_, t)) := ms_client (H := sqlserver_driver) (H0 := stuck_coordinator) e b (w, t) in (r, t)
  | _ => (Ok tt, [])
  end.

Example refused_abort :
  (msdtc_session MsRollback).1 = Ok tt ∧ is_ok (msdtc_session MsPreparedRollback).1 = false ∧
  (msdtc_session MsRollback).2 = [CoInitialize; GetTransactionManager; BeginTransaction 1 4096; Enlist 0 2; Unenlist 0; TxAbort 2; TxAbort 2; Release 1; Release 2].
Proof. vm_compute. split_and!; reflexivity. Qed.

(** A prepared branch is nothing more than an open transaction: when its value goes, it is aborted. *)
Example prepared_is_not_kept :
  (msdtc_session MsDropPrepared).2 = [CoInitialize; GetTransactionManager; BeginTransaction 1 4096; Enlist 0 2; Unenlist 0; TxAbort 2; Release 1; Release 2].
Proof. vm_compute. reflexivity. Qed.

