(* ===== verification/FfiState.v ===== *)
(** The global state behind the C entry points (ffi/mod.rs) and the way they run.

    Every entry point is a function of the process state [Ffi]: it locks the one global
    mutex, returns early on an error, may release and take the mutex again, writes through
    the pointers it was given, and is wrapped so that a panic becomes a return code.  The
    monad [F] is that: it threads the state, the held lock and what was written, and ends
    in a value, in an early [return] or in a panic. *)

From S2P Require Import Prelude Wire Errors ParamValue Compression Text Capabilities SessionInit Security Caches OutputParams DiskSpill Streaming.
From S2P Require Import Handles Transaction Xid Xa Execution Pool AsyncRequests ArrayBinding.

(** * Third-party code, and the machine *)

(** What [serde_json] writes and reads here; [None] is an error of the crate.  An audit event
    comes with its time in milliseconds. *)
Class Json := {
  json_audit_events : list (Z * AuditEvent) → option (list byte);
  json_audit_status : bool → Z → option (list byte);
  json_cache_stats : MetadataCacheStats → option (list byte);
  json_capabilities : DriverCapabilities → option string;
  json_dbms_info : DbmsInfo → option string;
  json_strings : list string → option string;
  json_upsert_payload : string → option (list string * list string * option (list string));
  json_session_options : string → option SessionOptions
}.

(** The crates the entry points call, [std::hash], the clocks ([clock n] is the [n]-th
    reading in the process, in nanoseconds) and the environment variables. *)
Class Platform := {
  #[global] pf_lru_statements :: Lru string unit;
  #[global] pf_lru_schemas :: Lru string TableSchema;
  #[global] pf_lru_payloads :: Lru string CachedPayload;
  #[global] pf_driver :: Driver;
  #[global] pf_queries :: QueryDriver;
  #[global] pf_pools :: PoolDriver;
  #[global] pf_buffers :: ColumnBuffers;
  pf_codec : CodecOps;
  #[global] pf_json :: Json;
  pf_environment : History → outcome OdbcError unit;
  hash_bytes : list byte → Z;
  clock : nat → Z;
  pf_pool_env : PoolEnv;
  pf_spill_threshold_mb : option Z;
  pf_temp_dir : string
}.

(** * Data *)

(** A C string: [None] is a null pointer. *)
Abbreviation CString := (option (list byte)).

Record OdbcConnection := mkConnection { oc_conn_id : Z }.

Record StatementHandle := mkStatement { sh_conn_id : Z; sh_sql : string; sh_timeout_ms : Z }.

Definition timeout_sec (s : StatementHandle) : option Z :=
  if sh_timeout_ms s =? 0 then None else Some (Z.max (sh_timeout_ms s / 1000) 1).

Record ConnectionError := mkConnectionError {
  ce_simple_message : string;
  ce_structured : option StructuredError;
  ce_timestamp : Z
}.

(** A stream with a worker comes with the flag that asks it to stop. *)
Inductive StreamKind :=
| SkBuffer (s : StreamState)
| SkBatched (s : WorkerStream) (cancel_requested : bool)
| SkAsyncBatched (s : WorkerStream) (cancel_requested : bool).

Record PendingStreamChunk := mkPendingChunk { pc_data : list byte; pc_has_more : bool }.

Inductive PendingResultKey :=
| KeyExecQuery (conn_id sql_hash : Z)
| KeyExecQueryParams (conn_id sql_hash params_hash : Z)
| KeyExecQueryMulti (conn_id sql_hash : Z)
| KeyExecute (stmt_id params_hash timeout_override_ms fetch_size : Z).

#[export] Instance PendingResultKey_eq_dec : EqDecision PendingResultKey.
Proof. solve_decision. Defined.

#[export] Instance PendingResultKey_countable : Countable PendingResultKey.
Proof.
  refine (inj_countable'
    (λ k, match k with
          | KeyExecQuery c s => inl (inl (c, s))
          | KeyExecQueryParams c s p => inl (inr (c, s, p))
          | KeyExecQueryMulti c s => inr (inl (c, s))
          | KeyExecute s p t f => inr (inr (s, p, t, f))
          end)
    (λ k : (Z * Z + Z * Z * Z) + (Z * Z + Z * Z * Z * Z), match k with
          | inl (inl (c, s)) => KeyExecQuery c s
          | inl (inr (c, s, p)) => KeyExecQueryParams c s p
          | inr (inl (c, s)) => KeyExecQueryMulti c s
          | inr (inr (s, p, t, f)) => KeyExecute s p t f
          end) _).
  by intros [].
Defined.

Record PendingResultBuffer := mkPendingResult { pr_data : list byte; pr_created_at : Z }.

Definition PENDING_RESULT_TTL : Z := 2 * 1000000000.
Definition CANCEL_UNSUPPORTED_NATIVE_CODE : Z := 5001.
Definition DEFAULT_METADATA_CACHE_SIZE : Z := 100.
Definition DEFAULT_METADATA_CACHE_TTL_SECS : Z := 300.

Definition FFI_PANIC : Z := -4.

(** The out-pointers of the entry points, and what a call wrote through them, in order. *)
Inductive Target := ToBuffer | ToWritten | ToStatus | ToHasMore | ToFormatId | ToGtrid | ToGtridLen | ToBqual | ToBqualLen | ToRows | ToSize | ToIdle.

#[export] Instance Target_eq_dec : EqDecision Target.
Proof. solve_decision. Defined.

Inductive Write :=
| WBytes (t : Target) (data : list byte)
| WInt (t : Target) (z : Z).

Abbreviation Out := (list Write).

(** What the caller finds there. *)
Fixpoint bytes_at (t : Target) (o : Out) : option (list byte) :=
  match o with
  | [] => None
  | WBytes t' d :: o =>
      match bytes_at t o with Some d' => Some d' | None => if decide (t' = t) then Some d else None end
  | WInt _ _ :: o => bytes_at t o
  end.

Fixpoint int_at (t : Target) (o : Out) : option Z :=
  match o with
  | [] => None
  | WInt t' z :: o =>
      match int_at t o with Some z' => Some z' | None => if decide (t' = t) then Some z else None end
  | WBytes _ _ :: o => int_at t o
  end.

Section Ffi.
Context `{P : Platform}.

Record GlobalState := mkGlobal {
  g_env : option bool;
  g_connections : gmap Z OdbcConnection;
  g_transactions : gmap Z Transaction;
  g_xa_active : gmap Z XaTransaction;
  g_xa_preparing : gmap Z PreparingXa;
  g_xa_prepared : gmap Z PreparedXa;
  g_statements : gmap Z StatementHandle;
  g_streams : gmap Z StreamKind;
  g_stream_connections : gmap Z Z;
  g_pending_stream_chunks : gmap Z PendingStreamChunk;
  g_pending_result_buffers : gmap PendingResultKey PendingResultBuffer;
  g_pools : gmap Z ConnectionPool;
  g_pooled_connections : gmap Z (Z * PooledConnectionWrapper);
  g_pooled_free_ids : gmap Z (list Z);
  g_next_stream_id : Z;
  g_next_pool_id : Z;
  g_next_pooled_conn_id : Z;
  g_next_txn_id : Z;
  g_next_xa_id : Z;
  g_next_stmt_id : Z;
  g_last_error : option string;
  g_last_structured_error : option StructuredError;
  g_connection_errors : gmap Z ConnectionError;
  g_async_requests : AsyncRequestManager;
  g_metadata_cache : MetadataCache;
  g_metrics : Metrics;
  g_audit_logger : AuditLogger
}.

Definition set_g_env (v : option bool) (g : GlobalState) : GlobalState :=
  mkGlobal v (g_connections g) (g_transactions g) (g_xa_active g) (g_xa_preparing g) (g_xa_prepared g) (g_statements g)
    (g_streams g) (g_stream_connections g) (g_pending_stream_chunks g) (g_pending_result_buffers g) (g_pools g)
    (g_pooled_connections g) (g_pooled_free_ids g) (g_next_stream_id g) (g_next_pool_id g) (g_next_pooled_conn_id g)
    (g_next_txn_id g) (g_next_xa_id g) (g_next_stmt_id g) (g_last_error g) (g_last_structured_error g)
    (g_connection_errors g) (g_async_requests g) (g_metadata_cache g) (g_metrics g) (g_audit_logger g).

Definition set_g_connections (v : gmap Z OdbcConnection) (g : GlobalState) : GlobalState :=
  mkGlobal (g_env g) v (g_transactions g) (g_xa_active g) (g_xa_preparing g) (g_xa_prepared g) (g_statements g)
    (g_streams g) (g_stream_connections g) (g_pending_stream_chunks g) (g_pending_result_buffers g) (g_pools g)
    (g_pooled_connections g) (g_pooled_free_ids g) (g_next_stream_id g) (g_next_pool_id g) (g_next_pooled_conn_id g)
    (g_next_txn_id g) (g_next_xa_id g) (g_next_stmt_id g) (g_last_error g) (g_last_structured_error g)
    (g_connection_errors g) (g_async_requests g) (g_metadata_cache g) (g_metrics g) (g_audit_logger g).

Definition set_g_transactions (v : gmap Z Transaction) (g : GlobalState) : GlobalState :=
  mkGlobal (g_env g) (g_connections g) v (g_xa_active g) (g_xa_preparing g) (g_xa_prepared g) (g_statements g)
    (g_streams g) (g_stream_connections g) (g_pending_stream_chunks g) (g_pending_result_buffers g) (g_pools g)
    (g_pooled_connections g) (g_pooled_free_ids g) (g_next_stream_id g) (g_next_pool_id g) (g_next_pooled_conn_id g)
    (g_next_txn_id g) (g_next_xa_id g) (g_next_stmt_id g) (g_last_error g) (g_last_structured_error g)
    (g_connection_errors g) (g_async_requests g) (g_metadata_cache g) (g_metrics g) (g_audit_logger g).

Definition set_g_xa_active (v : gmap Z XaTransaction) (g : GlobalState) : GlobalState :=
  mkGlobal (g_env g) (g_connections g) (g_transactions g) v (g_xa_preparing g) (g_xa_prepared g) (g_statements g)
    (g_streams g) (g_stream_connections g) (g_pending_stream_chunks g) (g_pending_result_buffers g) (g_pools g)
    (g_pooled_connections g) (g_pooled_free_ids g) (g_next_stream_id g) (g_next_pool_id g) (g_next_pooled_conn_id g)
    (g_next_txn_id g) (g_next_xa_id g) (g_next_stmt_id g) (g_last_error g) (g_last_structured_error g)
    (g_connection_errors g) (g_async_requests g) (g_metadata_cache g) (g_metrics g) (g_audit_logger g).

Definition set_g_xa_preparing (v : gmap Z PreparingXa) (g : GlobalState) : GlobalState :=
  mkGlobal (g_env g) (g_connections g) (g_transactions g) (g_xa_active g) v (g_xa_prepared g) (g_statements g)
    (g_streams g) (g_stream_connections g) (g_pending_stream_chunks g) (g_pending_result_buffers g) (g_pools g)
    (g_pooled_connections g) (g_pooled_free_ids g) (g_next_stream_id g) (g_next_pool_id g) (g_next_pooled_conn_id g)
    (g_next_txn_id g) (g_next_xa_id g) (g_next_stmt_id g) (g_last_error g) (g_last_structured_error g)
    (g_connection_errors g) (g_async_requests g) (g_metadata_cache g) (g_metrics g) (g_audit_logger g).

Definition set_g_xa_prepared (v : gmap Z PreparedXa) (g : GlobalState) : GlobalState :=
  mkGlobal (g_env g) (g_connections g) (g_transactions g) (g_xa_active g) (g_xa_preparing g) v (g_statements g)
    (g_streams g) (g_stream_connections g) (g_pending_stream_chunks g) (g_pending_result_buffers g) (g_pools g)
    (g_pooled_connections g) (g_pooled_free_ids g) (g_next_stream_id g) (g_next_pool_id g) (g_next_pooled_conn_id g)
    (g_next_txn_id g) (g_next_xa_id g) (g_next_stmt_id g) (g_last_error g) (g_last_structured_error g)
    (g_connection_errors g) (g_async_requests g) (g_metadata_cache g) (g_metrics g) (g_audit_logger g).

Definition set_g_statements (v : gmap Z StatementHandle) (g : GlobalState) : GlobalState :=
  mkGlobal (g_env g) (g_connections g) (g_transactions g) (g_xa_active g) (g_xa_preparing g) (g_xa_prepared g) v
    (g_streams g) (g_stream_connections g) (g_pending_stream_chunks g) (g_pending_result_buffers g) (g_pools g)
    (g_pooled_connections g) (g_pooled_free_ids g) (g_next_stream_id g) (g_next_pool_id g) (g_next_pooled_conn_id g)
    (g_next_txn_id g) (g_next_xa_id g) (g_next_stmt_id g) (g_last_error g) (g_last_structured_error g)
    (g_connection_errors g) (g_async_requests g) (g_metadata_cache g) (g_metrics g) (g_audit_logger g).

Definition set_g_streams (v : gmap Z StreamKind) (g : GlobalState) : GlobalState :=
  mkGlobal (g_env g) (g_connections g) (g_transactions g) (g_xa_active g) (g_xa_preparing g) (g_xa_prepared g)
    (g_statements g) v (g_stream_connections g) (g_pending_stream_chunks g) (g_pending_result_buffers g) (g_pools g)
    (g_pooled_connections g) (g_pooled_free_ids g) (g_next_stream_id g) (g_next_pool_id g) (g_next_pooled_conn_id g)
    (g_next_txn_id g) (g_next_xa_id g) (g_next_stmt_id g) (g_last_error g) (g_last_structured_error g)
    (g_connection_errors g) (g_async_requests g) (g_metadata_cache g) (g_metrics g) (g_audit_logger g).

Definition set_g_stream_connections (v : gmap Z Z) (g : GlobalState) : GlobalState :=
  mkGlobal (g_env g) (g_connections g) (g_transactions g) (g_xa_active g) (g_xa_preparing g) (g_xa_prepared g)
    (g_statements g) (g_streams g) v (g_pending_stream_chunks g) (g_pending_result_buffers g) (g_pools g)
    (g_pooled_connections g) (g_pooled_free_ids g) (g_next_stream_id g) (g_next_pool_id g) (g_next_pooled_conn_id g)
    (g_next_txn_id g) (g_next_xa_id g) (g_next_stmt_id g) (g_last_error g) (g_last_structured_error g)
    (g_connection_errors g) (g_async_requests g) (g_metadata_cache g) (g_metrics g) (g_audit_logger g).

Definition set_g_pending_stream_chunks (v : gmap Z PendingStreamChunk) (g : GlobalState) : GlobalState :=
  mkGlobal (g_env g) (g_connections g) (g_transactions g) (g_xa_active g) (g_xa_preparing g) (g_xa_prepared g)
    (g_statements g) (g_streams g) (g_stream_connections g) v (g_pending_result_buffers g) (g_pools g)
    (g_pooled_connections g) (g_pooled_free_ids g) (g_next_stream_id g) (g_next_pool_id g) (g_next_pooled_conn_id g)
    (g_next_txn_id g) (g_next_xa_id g) (g_next_stmt_id g) (g_last_error g) (g_last_structured_error g)
    (g_connection_errors g) (g_async_requests g) (g_metadata_cache g) (g_metrics g) (g_audit_logger g).

Definition set_g_pending_result_buffers (v : gmap PendingResultKey PendingResultBuffer) (g : GlobalState) : GlobalState :=
  mkGlobal (g_env g) (g_connections g) (g_transactions g) (g_xa_active g) (g_xa_preparing g) (g_xa_prepared g)
    (g_statements g) (g_streams g) (g_stream_connections g) (g_pending_stream_chunks g) v (g_pools g)
    (g_pooled_connections g) (g_pooled_free_ids g) (g_next_stream_id g) (g_next_pool_id g) (g_next_pooled_conn_id g)
    (g_next_txn_id g) (g_next_xa_id g) (g_next_stmt_id g) (g_last_error g) (g_last_structured_error g)
    (g_connection_errors g) (g_async_requests g) (g_metadata_cache g) (g_metrics g) (g_audit_logger g).

Definition set_g_pools (v : gmap Z ConnectionPool) (g : GlobalState) : GlobalState :=
  mkGlobal (g_env g) (g_connections g) (g_transactions g) (g_xa_active g) (g_xa_preparing g) (g_xa_prepared g)
    (g_statements g) (g_streams g) (g_stream_connections g) (g_pending_stream_chunks g) (g_pending_result_buffers g) v
    (g_pooled_connections g) (g_pooled_free_ids g) (g_next_stream_id g) (g_next_pool_id g) (g_next_pooled_conn_id g)
    (g_next_txn_id g) (g_next_xa_id g) (g_next_stmt_id g) (g_last_error g) (g_last_structured_error g)
    (g_connection_errors g) (g_async_requests g) (g_metadata_cache g) (g_metrics g) (g_audit_logger g).

Definition set_g_pooled_connections (v : gmap Z (Z * PooledConnectionWrapper)) (g : GlobalState) : GlobalState :=
  mkGlobal (g_env g) (g_connections g) (g_transactions g) (g_xa_active g) (g_xa_preparing g) (g_xa_prepared g)
    (g_statements g) (g_streams g) (g_stream_connections g) (g_pending_stream_chunks g) (g_pending_result_buffers g)
    (g_pools g) v (g_pooled_free_ids g) (g_next_stream_id g) (g_next_pool_id g) (g_next_pooled_conn_id g) (g_next_txn_id
    g) (g_next_xa_id g) (g_next_stmt_id g) (g_last_error g) (g_last_structured_error g) (g_connection_errors g)
    (g_async_requests g) (g_metadata_cache g) (g_metrics g) (g_audit_logger g).

Definition set_g_pooled_free_ids (v : gmap Z (list Z)) (g : GlobalState) : GlobalState :=
  mkGlobal (g_env g) (g_connections g) (g_transactions g) (g_xa_active g) (g_xa_preparing g) (g_xa_prepared g)
    (g_statements g) (g_streams g) (g_stream_connections g) (g_pending_stream_chunks g) (g_pending_result_buffers g)
    (g_pools g) (g_pooled_connections g) v (g_next_stream_id g) (g_next_pool_id g) (g_next_pooled_conn_id g)
    (g_next_txn_id g) (g_next_xa_id g) (g_next_stmt_id g) (g_last_error g) (g_last_structured_error g)
    (g_connection_errors g) (g_async_requests g) (g_metadata_cache g) (g_metrics g) (g_audit_logger g).

Definition set_g_next_stream_id (v : Z) (g : GlobalState) : GlobalState :=
  mkGlobal (g_env g) (g_connections g) (g_transactions g) (g_xa_active g) (g_xa_preparing g) (g_xa_prepared g)
    (g_statements g) (g_streams g) (g_stream_connections g) (g_pending_stream_chunks g) (g_pending_result_buffers g)
    (g_pools g) (g_pooled_connections g) (g_pooled_free_ids g) v (g_next_pool_id g) (g_next_pooled_conn_id g)
    (g_next_txn_id g) (g_next_xa_id g) (g_next_stmt_id g) (g_last_error g) (g_last_structured_error g)
    (g_connection_errors g) (g_async_requests g) (g_metadata_cache g) (g_metrics g) (g_audit_logger g).

Definition set_g_next_pool_id (v : Z) (g : GlobalState) : GlobalState :=
  mkGlobal (g_env g) (g_connections g) (g_transactions g) (g_xa_active g) (g_xa_preparing g) (g_xa_prepared g)
    (g_statements g) (g_streams g) (g_stream_connections g) (g_pending_stream_chunks g) (g_pending_result_buffers g)
    (g_pools g) (g_pooled_connections g) (g_pooled_free_ids g) (g_next_stream_id g) v (g_next_pooled_conn_id g)
    (g_next_txn_id g) (g_next_xa_id g) (g_next_stmt_id g) (g_last_error g) (g_last_structured_error g)
    (g_connection_errors g) (g_async_requests g) (g_metadata_cache g) (g_metrics g) (g_audit_logger g).

Definition set_g_next_pooled_conn_id (v : Z) (g : GlobalState) : GlobalState :=
  mkGlobal (g_env g) (g_connections g) (g_transactions g) (g_xa_active g) (g_xa_preparing g) (g_xa_prepared g)
    (g_statements g) (g_streams g) (g_stream_connections g) (g_pending_stream_chunks g) (g_pending_result_buffers g)
    (g_pools g) (g_pooled_connections g) (g_pooled_free_ids g) (g_next_stream_id g) (g_next_pool_id g) v (g_next_txn_id
    g) (g_next_xa_id g) (g_next_stmt_id g) (g_last_error g) (g_last_structured_error g) (g_connection_errors g)
    (g_async_requests g) (g_metadata_cache g) (g_metrics g) (g_audit_logger g).

Definition set_g_next_txn_id (v : Z) (g : GlobalState) : GlobalState :=
  mkGlobal (g_env g) (g_connections g) (g_transactions g) (g_xa_active g) (g_xa_preparing g) (g_xa_prepared g)
    (g_statements g) (g_streams g) (g_stream_connections g) (g_pending_stream_chunks g) (g_pending_result_buffers g)
    (g_pools g) (g_pooled_connections g) (g_pooled_free_ids g) (g_next_stream_id g) (g_next_pool_id g)
    (g_next_pooled_conn_id g) v (g_next_xa_id g) (g_next_stmt_id g) (g_last_error g) (g_last_structured_error g)
    (g_connection_errors g) (g_async_requests g) (g_metadata_cache g) (g_metrics g) (g_audit_logger g).

Definition set_g_next_xa_id (v : Z) (g : GlobalState) : GlobalState :=
  mkGlobal (g_env g) (g_connections g) (g_transactions g) (g_xa_active g) (g_xa_preparing g) (g_xa_prepared g)
    (g_statements g) (g_streams g) (g_stream_connections g) (g_pending_stream_chunks g) (g_pending_result_buffers g)
    (g_pools g) (g_pooled_connections g) (g_pooled_free_ids g) (g_next_stream_id g) (g_next_pool_id g)
    (g_next_pooled_conn_id g) (g_next_txn_id g) v (g_next_stmt_id g) (g_last_error g) (g_last_structured_error g)
    (g_connection_errors g) (g_async_requests g) (g_metadata_cache g) (g_metrics g) (g_audit_logger g).

Definition set_g_next_stmt_id (v : Z) (g : GlobalState) : GlobalState :=
  mkGlobal (g_env g) (g_connections g) (g_transactions g) (g_xa_active g) (g_xa_preparing g) (g_xa_prepared g)
    (g_statements g) (g_streams g) (g_stream_connections g) (g_pending_stream_chunks g) (g_pending_result_buffers g)
    (g_pools g) (g_pooled_connections g) (g_pooled_free_ids g) (g_next_stream_id g) (g_next_pool_id g)
    (g_next_pooled_conn_id g) (g_next_txn_id g) (g_next_xa_id g) v (g_last_error g) (g_last_structured_error g)
    (g_connection_errors g) (g_async_requests g) (g_metadata_cache g) (g_metrics g) (g_audit_logger g).

Definition set_g_last_error (v : option string) (g : GlobalState) : GlobalState :=
  mkGlobal (g_env g) (g_connections g) (g_transactions g) (g_xa_active g) (g_xa_preparing g) (g_xa_prepared g)
    (g_statements g) (g_streams g) (g_stream_connections g) (g_pending_stream_chunks g) (g_pending_result_buffers g)
    (g_pools g) (g_pooled_connections g) (g_pooled_free_ids g) (g_next_stream_id g) (g_next_pool_id g)
    (g_next_pooled_conn_id g) (g_next_txn_id g) (g_next_xa_id g) (g_next_stmt_id g) v (g_last_structured_error g)
    (g_connection_errors g) (g_async_requests g) (g_metadata_cache g) (g_metrics g) (g_audit_logger g).

Definition set_g_last_structured_error (v : option StructuredError) (g : GlobalState) : GlobalState :=
  mkGlobal (g_env g) (g_connections g) (g_transactions g) (g_xa_active g) (g_xa_preparing g) (g_xa_prepared g)
    (g_statements g) (g_streams g) (g_stream_connections g) (g_pending_stream_chunks g) (g_pending_result_buffers g)
    (g_pools g) (g_pooled_connections g) (g_pooled_free_ids g) (g_next_stream_id g) (g_next_pool_id g)
    (g_next_pooled_conn_id g) (g_next_txn_id g) (g_next_xa_id g) (g_next_stmt_id g) (g_last_error g) v
    (g_connection_errors g) (g_async_requests g) (g_metadata_cache g) (g_metrics g) (g_audit_logger g).

Definition set_g_connection_errors (v : gmap Z ConnectionError) (g : GlobalState) : GlobalState :=
  mkGlobal (g_env g) (g_connections g) (g_transactions g) (g_xa_active g) (g_xa_preparing g) (g_xa_prepared g)
    (g_statements g) (g_streams g) (g_stream_connections g) (g_pending_stream_chunks g) (g_pending_result_buffers g)
    (g_pools g) (g_pooled_connections g) (g_pooled_free_ids g) (g_next_stream_id g) (g_next_pool_id g)
    (g_next_pooled_conn_id g) (g_next_txn_id g) (g_next_xa_id g) (g_next_stmt_id g) (g_last_error g)
    (g_last_structured_error g) v (g_async_requests g) (g_metadata_cache g) (g_metrics g) (g_audit_logger g).

Definition set_g_async_requests (v : AsyncRequestManager) (g : GlobalState) : GlobalState :=
  mkGlobal (g_env g) (g_connections g) (g_transactions g) (g_xa_active g) (g_xa_preparing g) (g_xa_prepared g)
    (g_statements g) (g_streams g) (g_stream_connections g) (g_pending_stream_chunks g) (g_pending_result_buffers g)
    (g_pools g) (g_pooled_connections g) (g_pooled_free_ids g) (g_next_stream_id g) (g_next_pool_id g)
    (g_next_pooled_conn_id g) (g_next_txn_id g) (g_next_xa_id g) (g_next_stmt_id g) (g_last_error g)
    (g_last_structured_error g) (g_connection_errors g) v (g_metadata_cache g) (g_metrics g) (g_audit_logger g).

Definition set_g_metadata_cache (v : MetadataCache) (g : GlobalState) : GlobalState :=
  mkGlobal (g_env g) (g_connections g) (g_transactions g) (g_xa_active g) (g_xa_preparing g) (g_xa_prepared g)
    (g_statements g) (g_streams g) (g_stream_connections g) (g_pending_stream_chunks g) (g_pending_result_buffers g)
    (g_pools g) (g_pooled_connections g) (g_pooled_free_ids g) (g_next_stream_id g) (g_next_pool_id g)
    (g_next_pooled_conn_id g) (g_next_txn_id g) (g_next_xa_id g) (g_next_stmt_id g) (g_last_error g)
    (g_last_structured_error g) (g_connection_errors g) (g_async_requests g) v (g_metrics g) (g_audit_logger g).

Definition set_g_metrics (v : Metrics) (g : GlobalState) : GlobalState :=
  mkGlobal (g_env g) (g_connections g) (g_transactions g) (g_xa_active g) (g_xa_preparing g) (g_xa_prepared g)
    (g_statements g) (g_streams g) (g_stream_connections g) (g_pending_stream_chunks g) (g_pending_result_buffers g)
    (g_pools g) (g_pooled_connections g) (g_pooled_free_ids g) (g_next_stream_id g) (g_next_pool_id g)
    (g_next_pooled_conn_id g) (g_next_txn_id g) (g_next_xa_id g) (g_next_stmt_id g) (g_last_error g)
    (g_last_structured_error g) (g_connection_errors g) (g_async_requests g) (g_metadata_cache g) v (g_audit_logger g).

Definition set_g_audit_logger (v : AuditLogger) (g : GlobalState) : GlobalState :=
  mkGlobal (g_env g) (g_connections g) (g_transactions g) (g_xa_active g) (g_xa_preparing g) (g_xa_prepared g)
    (g_statements g) (g_streams g) (g_stream_connections g) (g_pending_stream_chunks g) (g_pending_result_buffers g)
    (g_pools g) (g_pooled_connections g) (g_pooled_free_ids g) (g_next_stream_id g) (g_next_pool_id g)
    (g_next_pooled_conn_id g) (g_next_txn_id g) (g_next_xa_id g) (g_next_stmt_id g) (g_last_error g)
    (g_last_structured_error g) (g_connection_errors g) (g_async_requests g) (g_metadata_cache g) (g_metrics g) v.

(** [read_env_usize] and [read_env_u64] over the environment variable's value. *)
Definition read_env_positive (hi : Z) (value : option string) (dflt : Z) : Z :=
  match value ≫= parse_int 0 hi with
  | Some v => if 0 <? v then v else dflt
  | None => dflt
  end.

(** The state before the first call; [size] and [ttl] are the values of the two
    environment variables of the metadata cache. *)
Definition initial_state (size ttl : option string) : GlobalState :=
  mkGlobal None ∅ ∅ ∅ ∅ ∅ ∅ ∅ ∅ ∅ ∅ ∅ ∅ ∅ 1 1 1000000 1 1 1 None None ∅ async_new
    (meta_new (read_env_positive (2 ^ 64 - 1) size DEFAULT_METADATA_CACHE_SIZE)
       (read_env_positive (2 ^ 64 - 1) ttl DEFAULT_METADATA_CACHE_TTL_SECS * 1000000000))
    (engine_metrics_new (clock 0)) (audit_new false).

(** The process: the global state behind its mutex, the world of connections and driver
    calls, the engine of the pipeline that runs queries, the files, the number of clock
    readings, the XIDs the thread recovered last, the log level, and the engine of the
    pipeline of catalog queries. *)
Record Ffi := mkFfi {
  f_state : GlobalState;
  f_poisoned : bool;
  f_world : World;
  f_engine : ExecutionEngine;
  f_fs : Fs;
  f_reads : nat;
  f_recovered : list Xid;
  f_log_level : Z;
  f_catalog : ExecutionEngine
}.

(** How a call meets other threads.  [Alone]: it does not.  [Finds fs]: what they have made of the process at each
    point where they can run, which is where the call takes the global mutex and where it lets it go; at the
    end of [fs] it pauses: [Waits]. *)
Inductive Sched := Alone | Finds (fs : list Ffi) | Waits.

(** A call in progress: whether it holds the global mutex, what it wrote so far, and the others. *)
Record Frame := mkFrame { fr_ffi : Ffi; fr_locked : bool; fr_out : Out; fr_sched : Sched }.

Inductive Flow (A : Type) :=
| Next (a : A)
| Return (code : Z)
| Panicked.
#[global] Arguments Next {A} a.
#[global] Arguments Return {A} code.
#[global] Arguments Panicked {A}.

Definition F (A : Type) : Type := Frame → Flow A * Frame.

Definition next {A : Type} (a : A) : F A := λ fr, (Next a, fr).

Definition return_ {A : Type} (code : Z) : F A := λ fr, (Return code, fr).

Definition fbind {A B : Type} (m : F A) (k : A → F B) : F B := λ fr,
  match m fr with
  | (Next a, fr) => k a fr
  | (Return c, fr) => (Return c, fr)
  | (Panicked, fr) => (Panicked, fr)
  end.
End Ffi.

Notation "'let&' p ':=' m 'in' k" := (fbind m (fun p => k))
  (at level 10, p binder, m at level 100, k at level 200,
   format "'[v' 'let&'  p  ':='  m  'in' '/' k ']'") : odbc_scope.

Section Calls.
Context `{P : Platform}.

Definition with_ffi (f : Ffi → Ffi) : F unit := λ fr, (Next tt, mkFrame (f (fr_ffi fr)) (fr_locked fr) (fr_out fr) (fr_sched fr)).

Definition set_state (g : GlobalState) (f : Ffi) : Ffi :=
  mkFfi g (f_poisoned f) (f_world f) (f_engine f) (f_fs f) (f_reads f) (f_recovered f) (f_log_level f) (f_catalog f).

Definition set_world (e : ExecutionEngine) (w : World) (f : Ffi) : Ffi :=
  mkFfi (f_state f) (f_poisoned f) w e (f_fs f) (f_reads f) (f_recovered f) (f_log_level f) (f_catalog f).

Definition set_catalog (e : ExecutionEngine) (w : World) (f : Ffi) : Ffi :=
  mkFfi (f_state f) (f_poisoned f) w (f_engine f) (f_fs f) (f_reads f) (f_recovered f) (f_log_level f) e.

Definition set_engine (e : ExecutionEngine) (f : Ffi) : Ffi := set_world e (f_world f) f.

Definition set_fs (fs : Fs) (f : Ffi) : Ffi :=
  mkFfi (f_state f) (f_poisoned f) (f_world f) (f_engine f) fs (f_reads f) (f_recovered f) (f_log_level f) (f_catalog f).

Definition set_recovered (xids : list Xid) (f : Ffi) : Ffi :=
  mkFfi (f_state f) (f_poisoned f) (f_world f) (f_engine f) (f_fs f) (f_reads f) xids (f_log_level f) (f_catalog f).

Definition set_log_level (level : Z) (f : Ffi) : Ffi :=
  mkFfi (f_state f) (f_poisoned f) (f_world f) (f_engine f) (f_fs f) (f_reads f) (f_recovered f) level (f_catalog f).

(** [state.field], and [state.field = ..], under the lock. *)
Definition state : F GlobalState := λ fr, (Next (f_state (fr_ffi fr)), fr).

Definition update (f : GlobalState → GlobalState) : F unit := with_ffi (λ ffi, set_state (f (f_state ffi)) ffi).

(** What else a call reads of the process. *)
Definition read_ffi {A : Type} (f : Ffi → A) : F A := λ fr, (Next (f (fr_ffi fr)), fr).

(** [Instant::now()] *)
Definition now : F Z := λ fr,
  let f := fr_ffi fr in
  (Next (clock (f_reads f)),
   mkFrame (mkFfi (f_state f) (f_poisoned f) (f_world f) (f_engine f) (f_fs f) (S (f_reads f)) (f_recovered f) (f_log_level f) (f_catalog f))
     (fr_locked fr) (fr_out fr) (fr_sched fr)).

(** [start.elapsed()] *)
Definition elapsed (start : Z) : F Z :=
  let& t := now in
  next (Z.max 0 (t - start)).

(** Where others can run: the call goes on in the process they leave behind, or pauses.  The list of recovered XIDs is
    the thread's own. *)
Definition meet : F unit := λ fr,
  match fr_sched fr with
  | Alone => (Next tt, fr)
  | Finds (f :: fs) => (Next tt, mkFrame (set_recovered (f_recovered (fr_ffi fr)) f) (fr_locked fr) (fr_out fr) (Finds fs))
  | Finds [] | Waits => (Return 0, mkFrame (fr_ffi fr) (fr_locked fr) (fr_out fr) Waits)
  end.

(** [get_global_state().lock().ok()] *)
Definition lock_state : F bool := λ fr,
  if f_poisoned (fr_ffi fr) then (Next false, fr) else (Next true, mkFrame (fr_ffi fr) true (fr_out fr) (fr_sched fr)).

(** [try_lock_global_state()] *)
Definition try_lock_global_state : F bool := let& _ := meet in lock_state.

Definition unlock_state : F unit := λ fr, (Next tt, mkFrame (fr_ffi fr) false (fr_out fr) (fr_sched fr)).

(** [drop(state)] *)
Definition drop_state : F unit := let& _ := unlock_state in meet.

(** [let Some(mut state) = try_lock_global_state() else { failed; return code; }] *)
Definition lock_or (failed : F unit) (code : Z) : F unit :=
  let& ok := try_lock_global_state in
  if ok then next tt else let& _ := failed in return_ code.

Definition panic {A : Type} : F A := λ fr, (Panicked, fr).

Definition skip : F unit := next tt.

(** ** Pointers *)

(** [CStr::from_ptr(p).to_str()] *)
Definition to_str (bytes : list byte) : option string := from_utf8 bytes.

(** An output buffer: whether the pointers are null, and the length claimed. *)
Record OutBuf := mkOutBuf { ob_null : bool; ob_len : Z; ob_written_null : bool }.

Definition write (x : Write) : F unit := λ fr, (Next tt, mkFrame (fr_ffi fr) (fr_locked fr) (fr_out fr ++ [x]) (fr_sched fr)).

Definition set_out_written_zero (b : OutBuf) : F unit := if ob_written_null b then skip else write (WInt ToWritten 0).

(** [copy_nonoverlapping(data, buffer, data.len()); *out_written = data.len() as c_uint] *)
Definition write_out (data : list byte) : F unit :=
  let& _ := write (WBytes ToBuffer data) in
  write (WInt ToWritten (len data mod 2 ^ 32)).

(** ** The engine *)

Definition of_result {A : Type} (r : Result A) : Flow (Result A) := match r with Panic => Panicked | _ => Next r end.

Definition engine_call {A : Type} (m : M A) : F (Result A) := λ fr,
  let f := fr_ffi fr in
  let '(r, w) := m (f_world f) in
  (of_result r, mkFrame (set_world (f_engine f) w f) (fr_locked fr) (fr_out fr) (fr_sched fr)).

Definition pipeline_call {A : Type} (m : X A) : F (Result A) := λ fr,
  let f := fr_ffi fr in
  let '(r, e, w) := m (f_engine f) (f_world f) in
  (of_result r, mkFrame (set_world e w f) (fr_locked fr) (fr_out fr) (fr_sched fr)).

(** The same on the pipeline of catalog queries. *)
Definition catalog_call {A : Type} (m : X A) : F (Result A) := λ fr,
  let f := fr_ffi fr in
  let '(r, e, w) := m (f_catalog f) (f_world f) in
  (of_result r, mkFrame (set_catalog e w f) (fr_locked fr) (fr_out fr) (fr_sched fr)).

(** ** The guards *)

(** The end of a call: a panic that unwinds past the guard of the mutex poisons it. *)
Definition unwind (fr : Frame) : Ffi :=
  let f := fr_ffi fr in
  mkFfi (f_state f) (f_poisoned f || fr_locked fr) (f_world f) (f_engine f) (f_fs f) (f_reads f) (f_recovered f) (f_log_level f) (f_catalog f).

Definition guarded (on_panic : Z) (r : Flow Z * Frame) : Z * Out * Ffi :=
  match r with
  | (Next c, fr) | (Return c, fr) => (c, fr_out fr, fr_ffi fr)
  | (Panicked, fr) => (on_panic, fr_out fr, unwind fr)
  end.

Definition call_guard (on_panic : Z) (body : F Z) (f : Ffi) : Z * Out * Ffi := guarded on_panic (body (mkFrame f false [] Alone)).

Definition call_int : F Z → Ffi → Z * Out * Ffi := call_guard FFI_PANIC.

Definition call_id : F Z → Ffi → Z * Out * Ffi := call_guard 0.

(** * Errors *)

Definition set_error (error : string) : F unit :=
  update (λ g, set_g_last_structured_error None (set_g_last_error (Some error) g)).

Definition set_structured_error (error : StructuredError) : F unit :=
  update (λ g, set_g_last_structured_error (Some error) (set_g_last_error (Some (se_message error)) g)).

Definition set_connection_error (conn_id : Z) (error : string) : F unit :=
  let& t := now in
  let& _ := update (λ g, set_g_connection_errors (<[conn_id := mkConnectionError error None t]> (g_connection_errors g)) g) in
  set_error error.

Definition set_connection_structured_error (conn_id : Z) (error : StructuredError) : F unit :=
  let& t := now in
  let& _ := update (λ g, set_g_connection_errors
                          (<[conn_id := mkConnectionError (se_message error) (Some error) t]> (g_connection_errors g)) g) in
  set_structured_error error.

Definition get_connection_error (g : GlobalState) (conn_id : option Z) : string :=
  match conn_id ≫= λ id, g_connection_errors g !! id with
  | Some e => ce_simple_message e
  | None => default "No error" (g_last_error g)
  end.

Definition get_connection_structured_error (g : GlobalState) (conn_id : option Z) : option StructuredError :=
  match conn_id with
  | Some id => g_connection_errors g !! id ≫= ce_structured
  | None => g_last_structured_error g
  end.

Definition get_error (g : GlobalState) : string := default "No error" (g_last_error g).

(** * Results that did not fit *)

Definition buffer_too_small (need got : Z) : string :=
  "Buffer too small: need " +:+ fmt_Z need +:+ " bytes, got " +:+ fmt_Z got.

Definition set_error_for (conn_id : option Z) (msg : string) : F unit :=
  match conn_id with
  | Some id => set_connection_error id msg
  | None => set_error msg
  end.

Definition set_pending (v : gmap PendingResultKey PendingResultBuffer) : F unit := update (set_g_pending_result_buffers v).

(** The code to return when there was an entry. *)
Definition try_write_pending_result (key : PendingResultKey) (b : OutBuf) (conn_id_for_error : option Z) : F (option Z) :=
  let& g := state in
  match g_pending_result_buffers g !! key with
  | None => next None
  | Some entry =>
      let& _ := set_pending (delete key (g_pending_result_buffers g)) in
      let& age := elapsed (pr_created_at entry) in
      if PENDING_RESULT_TTL <? age then
        let& _ := set_error_for conn_id_for_error "Pending result expired; retry the query with a larger initial buffer" in
        let& _ := set_out_written_zero b in
        next (Some (-1))
      else if ob_len b <? len (pr_data entry) then
        let& _ := set_pending (<[key := entry]> (g_pending_result_buffers g)) in
        let& _ := set_error_for conn_id_for_error (buffer_too_small (len (pr_data entry)) (ob_len b)) in
        let& _ := set_out_written_zero b in
        next (Some (-2))
      else
        let& _ := write_out (pr_data entry) in
        next (Some 0)
  end.

Definition stash_pending_result (key : PendingResultKey) (data : list byte) : F unit :=
  let& t := now in
  let& g := state in
  set_pending (<[key := mkPendingResult data t]> (g_pending_result_buffers g)).

(** ** Metrics and audit *)

Definition record_query (latency : Z) : F unit :=
  let& g := state in
  let '(r, m) := metrics_record_query latency (g_metrics g) in
  let& _ := update (set_g_metrics m) in
  match r with Panic => panic | _ => next tt end.

Definition record_error : F unit := update (λ g, set_g_metrics (metrics_record_error (g_metrics g)) g).

Definition audit (f : Z → AuditLogger → AuditLogger) : F unit :=
  let& t := now in
  update (λ g, set_g_audit_logger (f t (g_audit_logger g)) g).

(** The allocation loop of the tables: the id, 0 when none was found, and the counter. *)
Definition alloc (used : gset Z) (next : Z) : Z * Z := alloc_id MAX_ID_ALLOC_ATTEMPTS used next.
End Calls.
