(* ===== verification/FfiSession.v ===== *)
(** Entry points for sessions (ffi/mod.rs): initialisation, connections, transactions and
    savepoints.  The tokio runtime that [odbc_init] starts first is not modelled: a failure to start is
    printed, and met again by the request that needs it. *)

From S2P Require Import Prelude Wire Errors ParamValue Text Security Streaming.
From S2P Require Import Handles Transaction Xid Xa Execution Pool AsyncRequests FfiState.

Section Session.
Context `{P : Platform}.

(** [if let Some(mut state) = try_lock_global_state() { m }] *)
Definition if_locked (m : F unit) : F unit :=
  let& ok := try_lock_global_state in
  if ok then m else skip.

Definition invalid_connection_id (conn_id : Z) : string := "Invalid connection ID: " +:+ fmt_Z conn_id.

(** * Initialisation *)

(** [OdbcEnvironment::new()] and [init]: a handle manager of its own. *)
Definition environment_init : M unit := λ w,
  let w := set_handles hm_new w in
  init_environment (pf_environment (w_trace w)) w.

Definition odbc_init : F Z :=
  let& _ := lock_or skip (-1) in
  let& g := state in
  if bool_decide (is_Some (g_env g)) then return_ 0
  else
    let& r := engine_call environment_init in
    match r with
    | Ok _ => let& _ := update (set_g_env (Some false)) in next 0
    | Err e => let& _ := set_error ("odbc_init failed: " +:+ to_string e) in next 1
    | Panic => panic
    end.

Definition odbc_set_log_level (level : Z) : F Z :=
  let filter := if (1 <=? level) && (level <=? 5) then level else 0 in
  let& _ := with_ffi (set_log_level filter) in
  next 0.

Definition ABI_VERSION : string := "1.0.0".
Definition API_VERSION : string := "3.5.4".

Definition quoted (s : string) : string := dquote +:+ s +:+ dquote.

Definition version_json : string :=
  "{" +:+ quoted "api" +:+ ":" +:+ quoted API_VERSION +:+ "," +:+ quoted "abi" +:+ ":" +:+ quoted ABI_VERSION +:+ "}".

(** What most entry points that return bytes end with. *)
Definition copy_out (b : OutBuf) (data : list byte) : F Z :=
  if ob_len b <? len data then let& _ := set_out_written_zero b in return_ (-2)
  else let& _ := write_out data in next 0.

Definition odbc_get_version (b : OutBuf) : F Z :=
  if ob_null b || ob_written_null b then return_ (-1) else copy_out b (as_bytes version_json).

(** * Connection strings *)

Fixpoint brace_depth (depth : Z) (s : string) : Z :=
  match s with EmptyString => depth | String c s => brace_depth (brace_step depth c) s end.

Definition has_key (part : string) : bool :=
  match split_once "=" part with Some (key, _) => negb (String.eqb (trim key) EmptyString) | None => false end.

Definition validate_connection_string_format (s : string) : option string :=
  if String.eqb s EmptyString then Some "Connection string is empty"
  else if existsb (λ b, b2z b =? 0) (as_bytes s) then Some "Connection string contains null byte"
  else if negb (brace_depth 0 s =? 0) then Some "Unbalanced braces in connection string"
  else
    let parts := List.filter (λ p, negb (String.eqb p EmptyString)) (map trim (split ";" s)) in
    match parts with
    | [] => Some "No key=value pairs found"
    | _ => if existsb has_key parts then None
           else Some "No valid key=value pairs (need DSN= or Driver= etc.)"
    end.

(** The error buffer gets the text and a zero byte; a text that is not UTF-8 has a message
    that is cut to the buffer, the others are dropped when they do not fit. *)
Definition odbc_validate_connection_string (conn_str : CString) (error_null : bool) (error_len : Z) : F Z :=
  match conn_str with
  | None => return_ (-1)
  | Some bs =>
      match to_str bs with
      | None =>
          let& _ := (if negb error_null && (0 <? error_len) then
                       let msg := as_bytes "Invalid UTF-8" in
                       let n := Z.min (len msg) (error_len - 1) in
                       write (WBytes ToBuffer (take (Z.to_nat n) msg ++ [x00]))
                     else skip) in
          return_ (-1)
      | Some s =>
          match validate_connection_string_format (trim s) with
          | Some msg =>
              if error_null || (error_len =? 0) then return_ (-1)
              else if error_len <? len (as_bytes msg) + 1 then return_ (-1)
              else let& _ := write (WBytes ToBuffer (as_bytes msg ++ [x00])) in return_ (-1)
          | None => next 0
          end
      end
  end.

(** * Connections *)

(** [OdbcConnection::connect] and [connect_with_timeout]: the id of the connection. *)
Definition connection_connect (conn_str : string) : M Z :=
  if String.eqb conn_str EmptyString then lift (Err EmptyConnectionString)
  else
    let! _ := lock_handles "Failed to lock handles mutex" in
    create_connection conn_str.

Definition connection_connect_with_timeout (conn_str : string) (timeout_secs : Z) : M Z :=
  if String.eqb conn_str EmptyString then lift (Err EmptyConnectionString)
  else
    let! _ := lock_handles "Failed to lock handles mutex" in
    create_connection_with_timeout conn_str timeout_secs.

(** [OdbcConnection::disconnect] *)
Definition connection_disconnect (c : OdbcConnection) : M unit :=
  let! _ := lock_handles "Failed to lock handles mutex" in
  remove_connection (oc_conn_id c).

(** The body both ways to connect share: [connect] is the call of the engine, [name] the
    entry point in the error. *)
Definition connect_body (name conn_str : string) (connect : M Z) : F Z :=
  let& _ := lock_or skip 0 in
  let& g := state in
  match g_env g with
  | None => let& _ := set_error "Environment not initialized" in return_ 0
  | Some true => let& _ := set_error "Failed to lock environment mutex" in return_ 0
  | Some false =>
      let& r := engine_call connect in
      match r with
      | Ok conn_id =>
          let& _ := update (λ g, set_g_connections (<[conn_id := mkConnection conn_id]> (g_connections g)) g) in
          let& _ := audit (λ t, log_connection t conn_id conn_str) in
          next conn_id
      | Err e => let& _ := set_error (name +:+ " failed: " +:+ to_string e) in next 0
      | Panic => panic
      end
  end.

Definition odbc_connect (conn_str : CString) : F Z :=
  match conn_str ≫= to_str with
  | None => return_ 0
  | Some s => connect_body "odbc_connect" s (connection_connect s)
  end.

Definition odbc_connect_with_timeout (conn_str : CString) (timeout_ms : Z) : F Z :=
  match conn_str ≫= to_str with
  | None => return_ 0
  | Some s =>
      let timeout_secs := if timeout_ms =? 0 then 1 else Z.max (timeout_ms / 1000) 1 in
      connect_body "odbc_connect_with_timeout" s (connection_connect_with_timeout s timeout_secs)
  end.

(** ** Disconnecting *)

(** The keys of a table whose entries satisfy [p]. *)
Definition keys_where {A : Type} (p : A → bool) (m : gmap Z A) : list Z := map fst (List.filter (λ kv, p kv.2) (map_to_list m)).

Definition cancel_stream (s : StreamKind) : StreamKind :=
  match s with
  | SkBatched s _ => SkBatched s true
  | SkAsyncBatched s _ => SkAsyncBatched s true
  | SkBuffer s => SkBuffer s
  end.

(** [Drop]: a spilled stream removes its file; the worker of another finds its channel
    closed. *)
Definition drop_stream (s : StreamKind) : F unit :=
  match s with
  | SkBuffer (FileBacked s) => with_ffi (λ f, set_fs (drop_file s (f_fs f)) f)
  | _ => skip
  end.

Fixpoint for_each {A : Type} (f : A → F unit) (xs : list A) : F unit :=
  match xs with
  | [] => skip
  | x :: xs => let& _ := f x in for_each f xs
  end.

(** A result thrown away: [let _ = ..]. *)
Definition ignore {A : Type} (m : M A) : F unit := let& _ := engine_call m in skip.

Definition rollback_transaction (txn_id : Z) : F unit :=
  let& g := state in
  match g_transactions g !! txn_id with
  | Some txn =>
      let& _ := update (set_g_transactions (delete txn_id (g_transactions g))) in
      ignore (rollback txn)
  | None => skip
  end.

Definition drop_stream_of (stream_id : Z) : F unit :=
  let& g := state in
  let& _ := update (set_g_streams (delete stream_id (g_streams g))) in
  let& _ := match g_streams g !! stream_id with Some s => drop_stream s | None => skip end in
  update (λ g, set_g_pending_stream_chunks (delete stream_id (g_pending_stream_chunks g))
                 (set_g_stream_connections (delete stream_id (g_stream_connections g)) g)).

(** [pending_result_buffers.retain(|key, _| ..)] of a disconnect. *)
Definition survives (conn_id : Z) (stmts : list Z) (key : PendingResultKey) : bool :=
  match key with
  | KeyExecQuery c _ => negb (c =? conn_id)
  | KeyExecQueryParams c _ _ => negb (c =? conn_id)
  | KeyExecQueryMulti c _ => negb (c =? conn_id)
  | KeyExecute stmt_id _ _ _ => negb (existsb (Z.eqb stmt_id) stmts)
  end.

Definition retain_pending (keep : PendingResultKey → bool) : F unit :=
  let& g := state in
  set_pending (filter (λ kv, keep kv.1 = true) (g_pending_result_buffers g)).

(** [dropped] is what the runtime does with tasks that have not started. *)
Definition odbc_disconnect (dropped : bool) (conn_id : Z) : F Z :=
  let& _ := lock_or skip (-1) in
  let& g := state in
  match g_connections g !! conn_id with
  | Some conn =>
      let& _ := update (set_g_connections (delete conn_id (g_connections g))) in
      let& _ := for_each rollback_transaction (keys_where (λ t, t_conn_id t =? conn_id) (g_transactions g)) in
      let& g := state in
      let stmts_to_drop := keys_where (λ s, sh_conn_id s =? conn_id) (g_statements g) in
      let& _ := update (set_g_statements (filter (λ kv, sh_conn_id kv.2 ≠ conn_id) (g_statements g))) in
      let& _ := for_each drop_stream_of (keys_where (λ c, c =? conn_id) (g_stream_connections g)) in
      let& _ := update (λ g, set_g_async_requests (free_for_connection dropped conn_id (g_async_requests g)) g) in
      let& _ := retain_pending (survives conn_id stmts_to_drop) in
      let& r := engine_call (connection_disconnect conn) in
      match r with
      | Ok _ =>
          let& _ := update (λ g, set_g_connection_errors (delete conn_id (g_connection_errors g)) g) in
          next 0
      | Err e => let& _ := set_connection_error conn_id ("odbc_disconnect failed: " +:+ to_string e) in next 1
      | Panic => panic
      end
  | None => let& _ := set_connection_error conn_id (invalid_connection_id conn_id) in next 1
  end.

(** * Transactions *)

Definition odbc_transaction_begin_v3 (conn_id isolation_level savepoint_dialect access_mode lock_timeout_ms : Z) : F Z :=
  let& _ := lock_or skip 0 in
  match isolation_from_u32 isolation_level with
  | None => let& _ := set_error "Invalid isolation level" in return_ 0
  | Some isolation =>
      let& g := state in
      if negb (bool_decide (is_Some (g_connections g !! conn_id))) then
        let& _ := set_connection_error conn_id (invalid_connection_id conn_id) in return_ 0
      else if existsb (λ t, t_conn_id t =? conn_id) (map snd (map_to_list (g_transactions g))) then
        let& _ := set_error "Connection already has an active transaction" in return_ 0
      else
        let& _ := drop_state in
        let& txn_result := engine_call (begin_with_lock_timeout conn_id isolation (dialect_from_u32 savepoint_dialect)
                                          (access_mode_from_u32 access_mode) (from_millis lock_timeout_ms)) in
        let& _ := lock_or (match txn_result with Ok txn => ignore (drop_tx txn) | _ => skip end) 0 in
        match txn_result with
        | Ok txn =>
            let& g := state in
            let '(id, next_id) := alloc (dom (g_transactions g)) (g_next_txn_id g) in
            let& _ := update (set_g_next_txn_id next_id) in
            if id =? 0 then
              let& _ := set_connection_error conn_id "Failed to allocate transaction ID" in
              let& _ := ignore (drop_tx txn) in
              return_ 0
            else
              let& _ := update (set_g_transactions (<[id := txn]> (g_transactions g)) ∘ set_g_next_txn_id next_id) in
              next id
        | Err e => let& _ := set_connection_error conn_id ("Failed to begin transaction: " +:+ to_string e) in next 0
        | Panic => panic
        end
  end.

Definition odbc_transaction_begin_v2 (conn_id isolation_level savepoint_dialect access_mode : Z) : F Z :=
  odbc_transaction_begin_v3 conn_id isolation_level savepoint_dialect access_mode 0.

Definition odbc_transaction_begin (conn_id isolation_level savepoint_dialect : Z) : F Z :=
  odbc_transaction_begin_v2 conn_id isolation_level savepoint_dialect 0.

(** The body of commit and rollback: [finish] is the call, [name] what the error says. *)
Definition finish_body (name : string) (finish : Transaction → M unit) (txn_id : Z) : F Z :=
  let& _ := lock_or skip (-1) in
  let& g := state in
  match g_transactions g !! txn_id with
  | Some txn =>
      let& _ := update (set_g_transactions (delete txn_id (g_transactions g))) in
      let& _ := drop_state in
      let& r := engine_call (finish txn) in
      match r with
      | Ok _ => next 0
      | Err e =>
          let& _ := if_locked (set_connection_error (t_conn_id txn) (name +:+ " failed: " +:+ to_string e)) in
          next 1
      | Panic => panic
      end
  | None => let& _ := set_error ("Invalid transaction ID: " +:+ fmt_Z txn_id) in next 1
  end.

Definition odbc_transaction_commit : Z → F Z := finish_body "Commit" commit.

Definition odbc_transaction_rollback : Z → F Z := finish_body "Rollback" rollback.

(** ** Savepoints *)

Definition savepoint_dispatch (txn_id : Z) (name : CString) (op : string) (action : Transaction → string → M unit) : F Z :=
  match name ≫= to_str with
  | None => return_ 1
  | Some name =>
      let& _ := lock_or skip (-1) in
      let& g := state in
      match g_transactions g !! txn_id with
      | None => let& _ := set_error ("Invalid transaction ID: " +:+ fmt_Z txn_id) in return_ 1
      | Some txn =>
          let& r := engine_call (action txn name) in
          match r with
          | Ok _ => next 0
          | Err e =>
              let& _ := set_connection_error (t_conn_id txn) ("Savepoint " +:+ op +:+ " failed: " +:+ to_string e) in
              next 1
          | Panic => panic
          end
      end
  end.

Definition odbc_savepoint_create (txn_id : Z) (name : CString) : F Z := savepoint_dispatch txn_id name "create" savepoint_create.

Definition odbc_savepoint_rollback (txn_id : Z) (name : CString) : F Z := savepoint_dispatch txn_id name "rollback" savepoint_rollback_to.

Definition odbc_savepoint_release (txn_id : Z) (name : CString) : F Z := savepoint_dispatch txn_id name "release" savepoint_release.
End Session.
