(* ===== verification/Connection.v ===== *)
(** The engine's own view of an environment and a connection (engine/environment.rs, engine/connection.rs):
    what the entry points do not call of them, over the handle table and the transactions. *)

From S2P Require Import Prelude Errors Capabilities Handles Transaction FfiState FfiSession.

Section Connection.
Context `{Driver}.

(** * OdbcEnvironment *)

(** A poisoned table counts as not initialised. *)
Definition is_initialized : M bool := λ w, (Ok (if w_handles_poisoned w then false else hm_env (w_handles w)), w).

(** * OdbcConnection *)

Definition begin_transaction (c : OdbcConnection) (isolation_level : IsolationLevel) : M Transaction := begin (oc_conn_id c) isolation_level.

Definition begin_transaction_with_dialect (c : OdbcConnection) (isolation_level : IsolationLevel) (savepoint_dialect : SavepointDialect) : M Transaction :=
  begin_with_dialect (oc_conn_id c) isolation_level savepoint_dialect.

Definition begin_transaction_with_access_mode (c : OdbcConnection) (isolation_level : IsolationLevel) (savepoint_dialect : SavepointDialect)
    (access_mode : TransactionAccessMode) : M Transaction :=
  begin_with_access_mode (oc_conn_id c) isolation_level savepoint_dialect access_mode.

Definition begin_transaction_with_lock_timeout (c : OdbcConnection) (isolation_level : IsolationLevel) (savepoint_dialect : SavepointDialect)
    (access_mode : TransactionAccessMode) (lock_timeout : LockTimeout) : M Transaction :=
  begin_with_lock_timeout (oc_conn_id c) isolation_level savepoint_dialect access_mode lock_timeout.

Definition with_transaction {T : Type} (c : OdbcConnection) (isolation_level : IsolationLevel) (f : Transaction → M T) : M T :=
  execute (oc_conn_id c) isolation_level f.

Definition with_transaction_with_dialect {T : Type} (c : OdbcConnection) (isolation_level : IsolationLevel) (savepoint_dialect : SavepointDialect)
    (f : Transaction → M T) : M T :=
  execute_with_dialect (oc_conn_id c) isolation_level savepoint_dialect f.

Definition dbms_info (c : OdbcConnection) : M DbmsInfo := detect_for_conn_id (oc_conn_id c).

(** [DriverCapabilities::detect] *)
Definition capabilities_detect (phys : Z) : M DriverCapabilities :=
  let! dbms_name := (λ w, let r := dr_dbms_name (w_trace w) phys in (r, record_call phys CDbmsName (is_ok r) w)) in
  let caps := from_driver_name dbms_name in
  ret (mkCaps (supports_prepared_statements caps) (supports_batch_operations caps)
    (supports_streaming caps) (max_row_array_size caps) dbms_name (driver_version caps) (engine caps)).

Definition driver_capabilities (c : OdbcConnection) : M DriverCapabilities :=
  let! phys := open_connection "Failed to lock handles" (oc_conn_id c) in
  capabilities_detect phys.

(** The capabilities of a connection are those of its description, as its comment says, errors included, with
    one question to the driver where the description asks it for five limits and the catalog as well. *)
Theorem driver_capabilities_agree (c : OdbcConnection) (w : World) :
  ∃ h h' r, runs (dbms_info c) w (h ++ h') r ∧ runs (driver_capabilities c) w h (omap_ok di_capabilities r) ∧
    Forall (λ e, match e.1.2 with CMaxNameLen _ | CCurrentCatalog => True | _ => False end) h'.
Proof.
  unfold dbms_info, driver_capabilities, detect_for_conn_id.
  destruct (open_cases "Failed to lock handles" (oc_conn_id c) w) as [(phys & _ & Ho)|(_ & e & Ho)].
  2: { exists [], [], (Err e). split_and!; [by apply runs_bind_err..|constructor]. }
  unfold runs in Ho. rewrite w_ext_nil in Ho. unfold runs, bind. rewrite Ho. clear Ho. unfold detect, capabilities_detect, bind.
  destruct (dr_dbms_name (w_trace w) phys) as [name|e|] eqn:En.
  - eexists [_], [_; _; _; _; _], (Ok _). split; [|split].
    + unfold name_len, record_call, w_ext, ret. cbn [w_handles w_handles_poisoned w_conn_poisoned w_next_phys w_trace]. rewrite <- !(assoc_L app). reflexivity.
    + reflexivity.
    + repeat constructor.
  - eexists [_], [], (Err e). split_and!; [reflexivity..|constructor].
  - by destruct (dr_dbms_name_no_panic (w_trace w) phys).
Qed.
End Connection.
