(* ===== verification/FfiXa.v ===== *)
(** Entry points for distributed transactions (ffi/mod.rs): the branch is moved from table
    to table as it goes through its life, under one id. *)

From S2P Require Import Prelude Wire Errors ParamValue Text Security Streaming.
From S2P Require Import Handles Transaction Xid Xa Execution Pool AsyncRequests FfiState FfiSession.

Section Xa.
Context `{P : Platform}.

(** [xa_read_buffer]: [None] is a null pointer, which only goes with a length of 0. *)
Definition xa_read_buffer (ptr : option (list byte)) (n : Z) : option (list byte) :=
  match ptr with
  | None => if n =? 0 then Some [] else None
  | Some data => Some (take (Z.to_nat n) data)
  end.

Definition xa_alloc_id : F (option Z) :=
  let& g := state in
  let '(id, next_id) := alloc (dom (g_xa_active g) ∪ dom (g_xa_preparing g) ∪ dom (g_xa_prepared g)) (g_next_xa_id g) in
  let& _ := update (set_g_next_xa_id next_id) in
  next (if id =? 0 then None else Some id).

(** The arguments that name a branch, read and checked by [name]. *)
Definition read_xid (name : string) (conn_id format_id : Z) (gtrid_ptr : option (list byte)) (gtrid_len : Z)
  (bqual_ptr : option (list byte)) (bqual_len : Z) : F Xid :=
  match xa_read_buffer gtrid_ptr gtrid_len with
  | None => let& _ := set_connection_error conn_id (name +:+ ": gtrid_ptr is null but gtrid_len > 0") in return_ 0
  | Some gtrid =>
      match xa_read_buffer bqual_ptr bqual_len with
      | None => let& _ := set_connection_error conn_id (name +:+ ": bqual_ptr is null but bqual_len > 0") in return_ 0
      | Some bqual =>
          match xid_new format_id gtrid bqual with
          | Ok xid => next xid
          | Err e => let& _ := set_connection_error conn_id (name +:+ ": " +:+ to_string e) in return_ 0
          | Panic => panic
          end
      end
  end.

Definition odbc_xa_start (conn_id format_id : Z) (gtrid_ptr : option (list byte)) (gtrid_len : Z)
  (bqual_ptr : option (list byte)) (bqual_len : Z) : F Z :=
  let& _ := lock_or skip 0 in
  let& xid := read_xid "odbc_xa_start" conn_id format_id gtrid_ptr gtrid_len bqual_ptr bqual_len in
  let& g := state in
  if negb (bool_decide (is_Some (g_connections g !! conn_id))) then
    let& _ := set_connection_error conn_id (invalid_connection_id conn_id) in return_ 0
  else
    let& r := engine_call (xa_start conn_id xid) in
    match r with
    | Ok xa =>
        let& id := xa_alloc_id in
        match id with
        | Some xa_id =>
            let& _ := update (λ g, set_g_xa_active (<[xa_id := xa]> (g_xa_active g)) g) in
            next xa_id
        | None =>
            let& _ := set_connection_error conn_id "Failed to allocate XA ID" in
            let& _ := ignore (drop_xa xa) in
            return_ 0
        end
    | Err e => let& _ := set_connection_error conn_id ("odbc_xa_start: " +:+ to_string e) in return_ 0
    | Panic => panic
    end.

(** ** Phase one *)

Definition odbc_xa_end (xa_id : Z) : F Z :=
  let& _ := lock_or skip (-1) in
  let& g := state in
  match g_xa_active g !! xa_id with
  | None => let& _ := set_error ("Invalid XA ID (Active): " +:+ fmt_Z xa_id) in return_ 1
  | Some xa =>
      let& _ := update (set_g_xa_active (delete xa_id (g_xa_active g))) in
      let& r := engine_call (xa_end xa) in
      match r with
      | Ok preparing =>
          let& _ := update (λ g, set_g_xa_preparing (<[xa_id := preparing]> (g_xa_preparing g)) g) in
          next 0
      | Err e => let& _ := set_error ("xa_end failed: " +:+ to_string e) in next 1
      | Panic => panic
      end
  end.

Definition odbc_xa_prepare (xa_id : Z) : F Z :=
  let& _ := lock_or skip (-1) in
  let& g := state in
  match g_xa_preparing g !! xa_id with
  | None => let& _ := set_error ("Invalid XA ID (Idle, awaiting prepare): " +:+ fmt_Z xa_id) in return_ 1
  | Some preparing =>
      let& _ := update (set_g_xa_preparing (delete xa_id (g_xa_preparing g))) in
      let& r := engine_call (prepare preparing) in
      match r with
      | Ok prepared =>
          let& _ := update (λ g, set_g_xa_prepared (<[xa_id := prepared]> (g_xa_prepared g)) g) in
          next 0
      | Err e => let& _ := set_error ("xa_prepare failed: " +:+ to_string e) in next 1
      | Panic => panic
      end
  end.

(** ** Phase two, and the branches that need no prepare *)

(** The end of a call whose branch is gone whatever the outcome. *)
Definition finished (name : string) (m : M unit) : F Z :=
  let& r := engine_call m in
  match r with
  | Ok _ => next 0
  | Err e => let& _ := set_error (name +:+ " failed: " +:+ to_string e) in next 1
  | Panic => panic
  end.

Definition finish_prepared (name : string) (m : PreparedXa → M unit) (xa_id : Z) : F Z :=
  let& _ := lock_or skip (-1) in
  let& g := state in
  match g_xa_prepared g !! xa_id with
  | None => let& _ := set_error ("Invalid XA ID (Prepared): " +:+ fmt_Z xa_id) in return_ 1
  | Some prepared =>
      let& _ := update (set_g_xa_prepared (delete xa_id (g_xa_prepared g))) in
      finished name (m prepared)
  end.

Definition odbc_xa_commit_prepared : Z → F Z := finish_prepared "xa_commit_prepared" commit_prepared.

Definition odbc_xa_rollback_prepared : Z → F Z := finish_prepared "xa_rollback_prepared" rollback_prepared.

Definition finish_active (name : string) (m : XaTransaction → M unit) (xa_id : Z) : F Z :=
  let& _ := lock_or skip (-1) in
  let& g := state in
  match g_xa_active g !! xa_id with
  | None => let& _ := set_error ("Invalid XA ID (Active): " +:+ fmt_Z xa_id) in return_ 1
  | Some xa =>
      let& _ := update (set_g_xa_active (delete xa_id (g_xa_active g))) in
      finished name (m xa)
  end.

Definition odbc_xa_commit_one_phase : Z → F Z := finish_active "xa_commit_one_phase" commit_one_phase.

Definition odbc_xa_rollback_active : Z → F Z := finish_active "xa_rollback_active" xa_rollback.

(** ** Recovery *)

(** [xids.len() as c_int] *)
Definition odbc_xa_recover_count (conn_id : Z) : F Z :=
  let& _ := lock_or skip (-1) in
  let& g := state in
  if negb (bool_decide (is_Some (g_connections g !! conn_id))) then
    let& _ := set_connection_error conn_id (invalid_connection_id conn_id) in return_ (-1)
  else
    let& _ := drop_state in
    let& r := engine_call (recover_prepared_xids conn_id) in
    match r with
    | Ok xids => let& _ := with_ffi (set_recovered xids) in next (to_signed 32 (len xids mod 2 ^ 32))
    | Err e =>
        let& _ := if_locked (set_connection_error conn_id ("xa_recover_count failed: " +:+ to_string e)) in
        next (-1)
    | Panic => panic
    end.

Definition write_component (t : Target) (null : bool) (data : list byte) : F unit :=
  if negb null && negb (len data =? 0) then write (WBytes t data) else skip.

Definition odbc_xa_recover_get (index : Z) (lens_null : bool) (gtrid_null : bool) (gtrid_buf_len : Z) (bqual_null : bool)
  (bqual_buf_len : Z) : F Z :=
  if lens_null then return_ 1
  else
    let& recovered := read_ffi f_recovered in
    match recovered !! Z.to_nat index with
    | None => return_ 1
    | Some xid =>
        let& _ := write (WInt ToFormatId (xid_format_id xid)) in
        let& _ := write (WInt ToGtridLen (len (xid_gtrid xid))) in
        let& _ := write (WInt ToBqualLen (len (xid_bqual xid))) in
        if gtrid_buf_len <? len (xid_gtrid xid) then return_ 1
        else if bqual_buf_len <? len (xid_bqual xid) then return_ 1
        else
          let& _ := write_component ToGtrid gtrid_null (xid_gtrid xid) in
          let& _ := write_component ToBqual bqual_null (xid_bqual xid) in
          next 0
    end.

Definition odbc_xa_resume_prepared (conn_id format_id : Z) (gtrid_ptr : option (list byte)) (gtrid_len : Z)
  (bqual_ptr : option (list byte)) (bqual_len : Z) : F Z :=
  let& _ := lock_or skip 0 in
  let& xid := read_xid "odbc_xa_resume_prepared" conn_id format_id gtrid_ptr gtrid_len bqual_ptr bqual_len in
  let& g := state in
  if negb (bool_decide (is_Some (g_connections g !! conn_id))) then
    let& _ := set_connection_error conn_id (invalid_connection_id conn_id) in return_ 0
  else
    let& r := engine_call (resume_prepared conn_id xid) in
    match r with
    | Ok prepared =>
        let& id := xa_alloc_id in
        match id with
        | Some xa_id =>
            let& _ := update (λ g, set_g_xa_prepared (<[xa_id := prepared]> (g_xa_prepared g)) g) in
            next xa_id
        | None => let& _ := set_connection_error conn_id "Failed to allocate XA ID" in return_ 0
        end
    | Err e => let& _ := set_connection_error conn_id ("odbc_xa_resume_prepared: " +:+ to_string e) in return_ 0
    | Panic => panic
    end.
End Xa.
