(* ===== verification/FfiQuery.v ===== *)
(** Entry points that run statements (ffi/mod.rs): queries, parameterised and multi-result
    queries, prepared statements, and asynchronous requests. *)

From S2P Require Import Prelude Wire Errors ParamValue Compression Text Security Streaming Caches OutputParams.
From S2P Require Import Handles Transaction Xid Xa Execution Pool AsyncRequests FfiState FfiSession.

Section Query.
Context `{P : Platform}.

(** * Reaching the connection *)

(** [drop(state); let Some(mut s) = try_lock_global_state() else { zero; return code };
    report; zero; return code] *)
Definition relock_fail {A : Type} (code : Z) (zero report : F unit) : F A :=
  let& _ := drop_state in
  let& _ := lock_or zero code in
  let& _ := report in
  let& _ := zero in
  return_ code.

Definition relock_error {A : Type} : F unit → F unit → F A := relock_fail (-1).

(** [handles.lock()] and [get_connection]. *)
Definition find_connection (code : Z) (zero : F unit) (report : string → F unit) (conn_id : Z) : F Z :=
  let& h := engine_call (lock_handles "Failed to lock handles mutex") in
  match h with
  | Ok hm =>
      match get_connection hm conn_id with
      | Ok phys => next phys
      | Err e => relock_fail code zero (report ("Failed to get connection: " +:+ to_string e))
      | Panic => panic
      end
  | Err _ => relock_fail code zero (report "Failed to lock handles mutex")
  | Panic => panic
  end.

(** [conn_arc.lock()] *)
Definition lock_found (code : Z) (zero : F unit) (report : string → F unit) (phys : Z) : F unit :=
  let& r := engine_call (lock_connection phys) in
  match r with
  | Ok _ => skip
  | _ => relock_fail code zero (report "Failed to lock connection")
  end.

(** * Delivering a result *)

(** A result that does not fit is kept for the retry. *)
Definition deliver (zero : F unit) (key : PendingResultKey) (b : OutBuf) (conn_id start : Z) (data : list byte) : F Z :=
  let& time := elapsed start in
  if ob_len b <? len data then
    let& _ := record_error in
    let& _ := stash_pending_result key data in
    let& _ := set_connection_error conn_id (buffer_too_small (len data) (ob_len b)) in
    let& _ := zero in
    return_ (-2)
  else
    let& _ := record_query time in
    let& _ := write_out data in
    next 0.

Definition fail_structured (zero : F unit) (conn_id : Z) (e : OdbcError) : F Z :=
  let& _ := record_error in
  let& _ := drop_state in
  let& _ := lock_or skip (-1) in
  let& _ := set_connection_structured_error conn_id (to_structured e) in
  let& _ := zero in
  next (-1).

Definition finish (zero : F unit) (key : PendingResultKey) (b : OutBuf) (conn_id start : Z) (r : Result (list byte)) : F Z :=
  match r with
  | Ok data => deliver zero key b conn_id start data
  | Err e => fail_structured zero conn_id e
  | Panic => panic
  end.

(** [if let Some(code) = try_write_pending_result(..) { return code; }] *)
Definition or_pending (key : PendingResultKey) (b : OutBuf) (conn_id : Z) : F unit :=
  let& code := try_write_pending_result key b (Some conn_id) in
  match code with Some code => return_ code | None => skip end.

Definition sql_hash (sql : string) : Z := hash_bytes (as_bytes sql).

(** A parameter buffer: [None] is a null pointer. *)
Definition params_of (params : option (list byte)) : list byte := default [] params.

Definition params_hash (params : option (list byte)) : Z :=
  match params_of params with [] => 0 | raw => hash_bytes raw end.

(** * odbc_exec_query *)

Definition fail_query (zero : F unit) (conn_id : Z) (e : OdbcError) : F Z :=
  let& _ := record_error in
  let& _ := drop_state in
  let& _ := lock_or zero (-1) in
  let& _ := set_connection_structured_error conn_id (to_structured e) in
  let& g := state in
  let error_message := match g_connection_errors g !! conn_id with
                       | Some c => ce_simple_message c
                       | None => "Query execution failed" end in
  let& _ := audit (λ t, log_error t (Some conn_id) error_message) in
  let& _ := zero in
  next (-1).

(** The query on a plain or on a pooled connection, the global mutex released meanwhile. *)
Definition run_query (zero : F unit) (conn_id : Z) (sql : string) : F (Result (list byte)) :=
  let& g := state in
  if bool_decide (is_Some (g_connections g !! conn_id)) then
    let& phys := find_connection (-1) zero set_error conn_id in
    let& _ := drop_state in
    let& r := engine_call (lock_connection phys) in
    match r with
    | Ok _ => pipeline_call (holding_connection phys (execute_direct_cached phys sql))
    | _ =>
        let& _ := lock_or zero (-1) in
        let& _ := set_error "Failed to lock connection" in
        let& _ := zero in
        return_ (-1)
    end
  else
    match g_pooled_connections g !! conn_id with
    | Some (pool_id, pooled) =>
        let& _ := update (set_g_pooled_connections (delete conn_id (g_pooled_connections g))) in
        let& _ := drop_state in
        let& result := pipeline_call (execute_direct pf_codec (pw_phys pooled) sql) in
        let& _ := lock_or (let& _ := ignore (drop_pooled pooled) in zero) (-1) in
        let& _ := update (λ g, set_g_pooled_connections (<[conn_id := (pool_id, pooled)]> (g_pooled_connections g)) g) in
        let& _ := drop_state in
        next result
    | None => relock_error zero (set_connection_error conn_id (invalid_connection_id conn_id))
    end.

Definition odbc_exec_query (conn_id : Z) (sql : CString) (b : OutBuf) : F Z :=
  match sql with
  | None => return_ (-1)
  | Some bs =>
      if ob_null b || ob_written_null b then return_ (-1)
      else
        let zero := set_out_written_zero b in
        match to_str bs with
        | None => let& _ := zero in return_ (-1)
        | Some sql =>
            let& _ := lock_or zero (-1) in
            let& _ := audit (λ t, log_query t conn_id sql) in
            let& start := now in
            let key := KeyExecQuery conn_id (sql_hash sql) in
            let& _ := or_pending key b conn_id in
            let& result := run_query zero conn_id sql in
            let& _ := lock_or zero (-1) in
            match result with
            | Ok data => deliver zero key b conn_id start data
            | Err e => fail_query zero conn_id e
            | Panic => panic
            end
        end
  end.

(** * odbc_exec_query_params *)

Definition fail_params (conn_id : Z) (e : OdbcError) : F (Result (list byte)) :=
  let& _ := record_error in
  relock_error skip (set_connection_error conn_id (to_string e)).

(** The global mutex and the one of the connection are held all the way; [zero] is not
    called. *)
Definition odbc_exec_query_params (conn_id : Z) (sql : CString) (params : option (list byte)) (b : OutBuf) : F Z :=
  match sql ≫= to_str with
  | None => return_ (-1)
  | Some sql =>
      if ob_null b || ob_written_null b then return_ (-1)
      else
        let report := set_connection_error conn_id in
        let& _ := lock_or skip (-1) in
        let& g := state in
        if negb (bool_decide (is_Some (g_connections g !! conn_id))) then
          relock_error skip (report (invalid_connection_id conn_id))
        else
          let& phys := find_connection (-1) skip report conn_id in
          let& _ := lock_found (-1) skip report phys in
          let& start := now in
          let key := KeyExecQueryParams conn_id (sql_hash sql) (params_hash params) in
          let& _ := or_pending key b conn_id in
          let& result :=
            match params_of params with
            | [] => pipeline_call (holding_connection phys (execute_direct_cached phys sql))
            | raw =>
                let& r := pipeline_call (holding_connection phys (dispatch_param_buffer pf_codec phys sql raw None)) in
                match r with Err e => fail_params conn_id e | _ => next r end
            end in
          finish skip key b conn_id start result
  end.

(** * Multi-result queries *)

(** The statement on a plain or on a pooled connection, under the global mutex. *)
Definition run_locked (conn_id : Z) (missing : string) (f : Z → X (list byte)) : F (Result (list byte)) :=
  let& g := state in
  if bool_decide (is_Some (g_connections g !! conn_id)) then
    let& phys := find_connection (-1) skip (set_connection_error conn_id) conn_id in
    let& _ := lock_found (-1) skip (set_connection_error conn_id) phys in
    pipeline_call (holding_connection phys (f phys))
  else
    match g_pooled_connections g !! conn_id with
    | Some (_, pooled) => pipeline_call (f (pw_phys pooled))
    | None => relock_error skip (set_connection_error conn_id missing)
    end.

Definition odbc_exec_query_multi (conn_id : Z) (sql : CString) (b : OutBuf) : F Z :=
  match sql ≫= to_str with
  | None => return_ (-1)
  | Some sql =>
      if ob_null b || ob_written_null b then return_ (-1)
      else
        let& _ := lock_or skip (-1) in
        let& start := now in
        let key := KeyExecQueryMulti conn_id (sql_hash sql) in
        let& _ := or_pending key b conn_id in
        let& result := run_locked conn_id (invalid_connection_id conn_id) (λ phys, execute_multi pf_codec phys sql) in
        finish skip key b conn_id start result
  end.

(** The parameters of a multi-result query, or the error to report. *)
Definition multi_params (params : option (list byte)) : Result (list ParamValue) + string :=
  match params_of params with
  | [] => inl (Ok [])
  | raw =>
      match deserialize_param_buffer raw with
      | Ok (Legacy p) => inl (Ok p)
      | Ok (Directed bound) =>
          if existsb (λ x, negb (bool_decide (bp_direction x = Input))) bound then
            inr "odbc_exec_query_multi_params: OUTPUT/INOUT not supported (use odbc_exec_query with DRT1)"
          else inl (Ok (map bp_value bound))
      | Err e => inr ("Invalid params: " +:+ to_string e)
      | Panic => inl Panic
      end
  end.

Definition odbc_exec_query_multi_params (conn_id : Z) (sql : CString) (params : option (list byte)) (b : OutBuf) : F Z :=
  match sql ≫= to_str with
  | None => return_ (-1)
  | Some sql =>
      if ob_null b || ob_written_null b then return_ (-1)
      else
        match multi_params params with
        | inr msg =>
            let& _ := lock_or skip (-1) in
            let& _ := set_connection_error conn_id msg in
            return_ (-1)
        | inl (Ok values) =>
            let& _ := lock_or skip (-1) in
            let& start := now in
            let key := KeyExecQueryParams conn_id (sql_hash sql) (params_hash params) in
            let& _ := or_pending key b conn_id in
            let& result := run_locked conn_id (invalid_connection_id conn_id)
                             (λ phys, execute_multi_with_params pf_codec phys sql values) in
            finish (set_out_written_zero b) key b conn_id start result
        | inl _ => panic
        end
  end.

(** * Prepared statements *)

Definition odbc_prepare (conn_id : Z) (sql : CString) (timeout_ms : Z) : F Z :=
  match sql ≫= to_str with
  | None => return_ 0
  | Some sql =>
      let& _ := lock_or skip 0 in
      let& g := state in
      if negb (bool_decide (is_Some (g_connections g !! conn_id))) && negb (bool_decide (is_Some (g_pooled_connections g !! conn_id))) then
        let& _ := set_connection_error conn_id (invalid_connection_id conn_id) in return_ 0
      else
        let '(id, next_id) := alloc (dom (g_statements g)) (g_next_stmt_id g) in
        let& _ := update (set_g_next_stmt_id next_id) in
        if id =? 0 then
          let& _ := set_connection_error conn_id "Failed to allocate statement ID" in return_ 0
        else
          let& _ := update (λ g, set_g_statements (<[id := mkStatement conn_id sql timeout_ms]> (g_statements g)) g) in
          next id
  end.

Definition effective_timeout (timeout_override_ms : Z) (stored : option Z) : option Z :=
  if 0 <? timeout_override_ms then Some (Z.max (timeout_override_ms / 1000) 1) else stored.

Definition odbc_execute (stmt_id : Z) (params : option (list byte)) (timeout_override_ms fetch_size : Z) (b : OutBuf) : F Z :=
  if ob_null b || ob_written_null b then return_ (-1)
  else
    let& _ := lock_or skip (-1) in
    let& g := state in
    match g_statements g !! stmt_id with
    | None => relock_error skip (set_error ("Invalid statement ID: " +:+ fmt_Z stmt_id))
    | Some s =>
        let& start := now in
        let key := KeyExecute stmt_id (params_hash params) timeout_override_ms fetch_size in
        let conn_id := sh_conn_id s in
        let& _ := or_pending key b conn_id in
        let timeout := effective_timeout timeout_override_ms (timeout_sec s) in
        let& result := run_locked conn_id ("Connection " +:+ fmt_Z conn_id +:+ " no longer valid")
                         (λ phys, dispatch_param_buffer pf_codec phys (sh_sql s) (params_of params) timeout) in
        finish skip key b conn_id start result
    end.

Definition cancel_unsupported : StructuredError :=
  mkStructuredError (as_bytes "0A000") CANCEL_UNSUPPORTED_NATIVE_CODE
    "Unsupported feature: Statement cancellation requires background execution. Use query timeout (login_timeout or statement timeout) instead. See project tracker for implementation status.".

Definition odbc_cancel (stmt_id : Z) : F Z :=
  let& _ := lock_or skip (-1) in
  let& g := state in
  if bool_decide (is_Some (g_statements g !! stmt_id)) then
    let& _ := set_structured_error cancel_unsupported in next 1
  else
    let& _ := set_error ("Invalid statement ID: " +:+ fmt_Z stmt_id) in next 1.

Definition odbc_close_statement (stmt_id : Z) : F Z :=
  let& _ := lock_or skip (-1) in
  let& g := state in
  if bool_decide (is_Some (g_statements g !! stmt_id)) then
    let& _ := update (set_g_statements (delete stmt_id (g_statements g))) in
    let& _ := retain_pending (λ key, match key with KeyExecute key_stmt _ _ _ => negb (key_stmt =? stmt_id) | _ => true end) in
    next 0
  else
    let& _ := set_error ("Invalid statement ID: " +:+ fmt_Z stmt_id) in next 1.

Definition odbc_clear_all_statements : F Z :=
  let& _ := lock_or skip (-1) in
  let& _ := update (set_g_statements ∅) in
  let& _ := retain_pending (λ key, match key with KeyExecute _ _ _ _ => false | _ => true end) in
  next 0.

(** * Asynchronous requests *)

Definition with_requests {A : Type} (f : AsyncRequestManager → A * AsyncRequestManager) : F A :=
  let& g := state in
  let '(a, m) := f (g_async_requests g) in
  let& _ := update (set_g_async_requests m) in
  next a.

(** [spawned]: the runtime takes the task. *)
Definition odbc_execute_async (spawned : bool) (conn_id : Z) (sql : CString) : F Z :=
  match sql ≫= to_str with
  | None => return_ 0
  | Some sql =>
      let& _ := lock_or skip 0 in
      let& g := state in
      if negb (bool_decide (is_Some (g_connections g !! conn_id))) then
        let& _ := set_connection_error conn_id (invalid_connection_id conn_id) in return_ 0
      else
        let& id := with_requests (start_request spawned conn_id sql) in
        next (default 0 id)
  end.

Definition odbc_async_poll (request_id : Z) (status_null : bool) : F Z :=
  if status_null then return_ (-1)
  else
    let& _ := lock_or skip (-1) in
    let& g := state in
    match poll request_id (g_async_requests g) with
    | Some status => let& _ := write (WInt ToStatus status) in next 0
    | None => next (-1)
    end.

Definition odbc_async_get_result (request_id : Z) (b : OutBuf) : F Z :=
  if ob_null b || ob_written_null b then return_ (-1)
  else
    let zero := set_out_written_zero b in
    let& _ := lock_or zero (-1) in
    let& taken := with_requests (take_result request_id) in
    match taken with
    | None => let& _ := zero in return_ (-1)
    | Some (conn_id, result) =>
        match result with
        | Ok data =>
            if ob_len b <? len data then
              let& _ := with_requests (restore_result request_id (Ok data)) in
              let& _ := zero in
              return_ (-2)
            else
              let& _ := write_out data in
              next 0
        | Err e =>
            let& _ := set_connection_structured_error conn_id (to_structured e) in
            let& _ := zero in
            next (-1)
        | Panic => panic
        end
    end.

Definition odbc_async_cancel (dropped : bool) (request_id : Z) : F Z :=
  let& _ := lock_or skip (-1) in
  let& ok := with_requests (cancel dropped request_id) in
  next (if ok : bool then 0 else -1).

Definition odbc_async_free (dropped : bool) (request_id : Z) : F Z :=
  let& _ := lock_or skip (-1) in
  let& ok := with_requests (free dropped request_id) in
  next (if ok : bool then 0 else -1).
End Query.
