(* ===== verification/FfiStreams.v ===== *)
(** Entry points for result streams (ffi/mod.rs): starting, polling, fetching, cancelling
    and closing. *)

From S2P Require Import Prelude Wire Errors ParamValue Compression Text Security DiskSpill Streaming StreamSources Caches OutputParams.
From S2P Require Import Handles Transaction Xid Xa Execution Pool AsyncRequests FfiState FfiSession FfiQuery.

Definition DEFAULT_FETCH_SIZE : Z := 100.
Definition DEFAULT_CHUNK_SIZE : Z := 1024.

Definition STREAM_ASYNC_STATUS_PENDING : Z := 0.
Definition STREAM_ASYNC_STATUS_READY : Z := 1.
Definition STREAM_ASYNC_STATUS_DONE : Z := 2.
Definition STREAM_ASYNC_STATUS_ERROR : Z := -1.
Definition STREAM_ASYNC_STATUS_CANCELLED : Z := -2.

Section Streams.
Context `{P : Platform}.

(** * Stream kinds *)

Definition kind_fetch (s : StreamKind) (fs : Fs) : Result (option (list byte)) * StreamKind * Fs :=
  match s with
  | SkBuffer s =>
      let '(r, s) := stream_fetch s fs in
      match r with
      | Ok (c, fs) => (Ok c, SkBuffer s, fs)
      | Err e => (Err e, SkBuffer s, fs)
      | Panic => (Panic, SkBuffer s, fs)
      end
  | SkBatched s c => let '(r, s) := batched_fetch s in (r, SkBatched s c, fs)
  | SkAsyncBatched s c => let '(r, s) := async_fetch s in (r, SkAsyncBatched s c, fs)
  end.

Definition kind_has_more (s : StreamKind) : bool :=
  match s with
  | SkBuffer s => stream_has_more s
  | SkBatched s _ | SkAsyncBatched s _ => worker_has_more s
  end.

Definition ready_or_done (more : bool) : Z := if more then STREAM_ASYNC_STATUS_READY else STREAM_ASYNC_STATUS_DONE.

(** [arrived]: whether the worker's next message is there. *)
Definition kind_poll_status (arrived : bool) (s : StreamKind) : Z * StreamKind :=
  match s with
  | SkAsyncBatched s c =>
      let '(st, s) := Streaming.poll_status arrived s in
      (match st with
       | StPending => STREAM_ASYNC_STATUS_PENDING
       | StReady => STREAM_ASYNC_STATUS_READY
       | StDone => STREAM_ASYNC_STATUS_DONE
       | StCancelled => STREAM_ASYNC_STATUS_CANCELLED
       | StError => STREAM_ASYNC_STATUS_ERROR
       end, SkAsyncBatched s c)
  | SkBuffer _ | SkBatched _ _ => (ready_or_done (kind_has_more s), s)
  end.

(** * Starting *)

(** [allocate_stream_id] *)
Definition allocate_stream_id (conn_id : Z) : F Z :=
  let& g := state in
  let '(id, next_id) := alloc (dom (g_streams g)) (g_next_stream_id g) in
  let& _ := update (set_g_next_stream_id next_id) in
  if id =? 0 then
    let& _ := set_connection_error conn_id "Failed to allocate stream ID" in next 0
  else next id.

(** The new stream into the tables. *)
Definition insert_stream (conn_id : Z) (s : StreamKind) : F Z :=
  let& stream_id := allocate_stream_id conn_id in
  if stream_id =? 0 then let& _ := drop_stream s in return_ 0
  else
    let& _ := update (λ g, set_g_streams (<[stream_id := s]> (g_streams g))
                             (set_g_stream_connections (<[stream_id := conn_id]> (g_stream_connections g)) g)) in
    next stream_id.

Definition or_default (n dflt : Z) : Z := if 0 <? n then n else dflt.

(** [StreamingExecutor], with or without spilling; the files are those of the process. *)
Definition start_buffer (phys chunk_size : Z) (sql : string) : F (Result StreamState) := λ fr,
  let f := fr_ffi fr in
  let run := match pf_spill_threshold_mb with
             | Some threshold => execute_streaming_with_spill chunk_size (Some threshold) pf_temp_dir (f_fs f) phys sql
             | None => let! s := execute_streaming chunk_size phys sql in ret (InMemory s, f_fs f)
             end in
  let '(r, e, w) := holding_connection phys (λ e w, let '(r, w) := run w in (r, e, w)) (f_engine f) (f_world f) in
  match r with
  | Ok (s, fs) => (Next (Ok s), mkFrame (set_fs fs (set_world e w f)) (fr_locked fr) (fr_out fr) (fr_sched fr))
  | Err err => (Next (Err err), mkFrame (set_world e w f) (fr_locked fr) (fr_out fr) (fr_sched fr))
  | Panic => (Panicked, mkFrame (set_world e w f) (fr_locked fr) (fr_out fr) (fr_sched fr))
  end.

Definition odbc_stream_start (conn_id : Z) (sql : CString) (chunk_size : Z) : F Z :=
  match sql ≫= to_str with
  | None => return_ 0
  | Some sql =>
      let& _ := lock_or skip 0 in
      let& g := state in
      if negb (bool_decide (is_Some (g_connections g !! conn_id))) then
        relock_fail 0 skip (set_connection_error conn_id (invalid_connection_id conn_id))
      else
        let& phys := find_connection 0 skip set_error conn_id in
        let& _ := lock_found 0 skip set_error phys in
        let& r := start_buffer phys (or_default chunk_size DEFAULT_CHUNK_SIZE) sql in
        let& _ := drop_state in
        let& _ := lock_or skip 0 in
        match r with
        | Ok s => insert_stream conn_id (SkBuffer s)
        | Err e => let& _ := set_connection_error conn_id ("odbc_stream_start failed: " +:+ to_string e) in next 0
        | Panic => panic
        end
  end.

(** The four entry points that start a worker: [missing] is what an unknown connection leads to,
    [start] is the call, [kind] the stream made of it. *)
Definition start_with_worker (name : string) (conn_id : Z) (sql : CString) (missing : F Z)
  (start : string → M WorkerStream) (kind : WorkerStream → StreamKind) : F Z :=
  match sql ≫= to_str with
  | None => return_ 0
  | Some sql =>
      let& _ := lock_or skip 0 in
      let& g := state in
      if negb (bool_decide (is_Some (g_connections g !! conn_id))) then missing
      else
        let& _ := drop_state in
        let& r := engine_call (start sql) in
        let& _ := lock_or skip 0 in
        match r with
        | Ok s => insert_stream conn_id (kind s)
        | Err e => let& _ := set_connection_error conn_id (name +:+ " failed: " +:+ to_string e) in next 0
        | Panic => panic
        end
  end.

Definition odbc_stream_start_batched (cancel : nat → bool) (conn_id : Z) (sql : CString) (fetch_size chunk_size : Z) : F Z :=
  start_with_worker "odbc_stream_start_batched" conn_id sql (relock_fail 0 skip (set_connection_error conn_id (invalid_connection_id conn_id)))
    (λ sql, start_batched_stream cancel conn_id sql (or_default fetch_size DEFAULT_FETCH_SIZE) (or_default chunk_size DEFAULT_CHUNK_SIZE))
    (λ s, SkBatched s false).

Definition odbc_stream_start_async (cancel : nat → bool) (conn_id : Z) (sql : CString) (fetch_size chunk_size : Z) : F Z :=
  start_with_worker "odbc_stream_start_async" conn_id sql (let& _ := set_error (invalid_connection_id conn_id) in return_ 0)
    (λ sql, start_async_stream cancel conn_id sql (or_default fetch_size DEFAULT_FETCH_SIZE) (or_default chunk_size DEFAULT_CHUNK_SIZE))
    (λ s, SkAsyncBatched s false).

Definition odbc_stream_multi_start_batched (cancel : nat → bool) (conn_id : Z) (sql : CString) (chunk_size : Z) : F Z :=
  start_with_worker "odbc_stream_multi_start_batched" conn_id sql (relock_fail 0 skip (set_connection_error conn_id (invalid_connection_id conn_id)))
    (λ sql, spawn_multi_stream_worker cancel conn_id sql (or_default chunk_size DEFAULT_CHUNK_SIZE)) (λ s, SkBatched s false).

Definition odbc_stream_multi_start_async (cancel : nat → bool) (conn_id : Z) (sql : CString) (chunk_size : Z) : F Z :=
  start_with_worker "odbc_stream_multi_start_async" conn_id sql (let& _ := set_error (invalid_connection_id conn_id) in return_ 0)
    (λ sql, spawn_multi_stream_worker cancel conn_id sql (or_default chunk_size DEFAULT_CHUNK_SIZE)) (λ s, SkAsyncBatched s false).

(** * Polling and fetching *)

Definition invalid_stream_id (stream_id : Z) : string := "Invalid stream ID: " +:+ fmt_Z stream_id.

Definition odbc_stream_poll_async (arrived : bool) (stream_id : Z) (status_null : bool) : F Z :=
  if status_null then return_ (-1)
  else
    let& _ := lock_or skip (-1) in
    let& g := state in
    match g_streams g !! stream_id with
    | None => let& _ := set_error (invalid_stream_id stream_id) in return_ (-1)
    | Some s =>
        let '(status, s) := kind_poll_status arrived s in
        let& _ := update (λ g, set_g_streams (<[stream_id := s]> (g_streams g)) g) in
        let& _ := write (WInt ToStatus status) in
        next 0
    end.

Definition b2i (b : bool) : Z := if b then 1 else 0.

Definition fetch_kind (s : StreamKind) : F (Result (option (list byte)) * StreamKind) := λ fr,
  let '(r, s, fs) := kind_fetch s (f_fs (fr_ffi fr)) in
  (match r with Panic => Panicked | _ => Next (r, s) end, mkFrame (set_fs fs (fr_ffi fr)) (fr_locked fr) (fr_out fr) (fr_sched fr)).

(** A chunk that was fetched before and did not fit. *)
Definition fetch_pending (stream_id : Z) (stream_conn_id : option Z) (b : OutBuf) (pending : PendingStreamChunk) : F Z :=
  if ob_len b <? len (pc_data pending) then
    let& _ := set_error_for stream_conn_id (buffer_too_small (len (pc_data pending)) (ob_len b)) in
    return_ (-2)
  else
    let& _ := update (λ g, set_g_pending_stream_chunks (delete stream_id (g_pending_stream_chunks g)) g) in
    let& _ := write_out (pc_data pending) in
    let& _ := write (WInt ToHasMore (b2i (pc_has_more pending))) in
    return_ 0.

(** The chunk of this fetch. *)
Definition fetched (stream_id : Z) (stream_conn_id : option Z) (b : OutBuf) (more : bool) (r : Result (option (list byte))) : F Z :=
  match r with
  | Ok (Some data) =>
      if ob_len b <? len data then
        let& _ := update (λ g, set_g_pending_stream_chunks (<[stream_id := mkPendingChunk data more]> (g_pending_stream_chunks g)) g) in
        let& _ := set_error_for stream_conn_id (buffer_too_small (len data) (ob_len b)) in
        return_ (-2)
      else
        let& _ := write_out data in
        let& _ := write (WInt ToHasMore (b2i more)) in
        next 0
  | Ok None =>
      let& _ := write (WInt ToWritten 0) in
      let& _ := write (WInt ToHasMore 0) in
      next 0
  | Err e => let& _ := set_error_for stream_conn_id ("odbc_stream_fetch failed: " +:+ to_string e) in next (-1)
  | Panic => panic
  end.

Definition odbc_stream_fetch (stream_id : Z) (b : OutBuf) (has_more_null : bool) : F Z :=
  if ob_null b || ob_written_null b || has_more_null then return_ (-1)
  else
    let& _ := lock_or skip (-1) in
    let& g := state in
    let stream_conn_id := g_stream_connections g !! stream_id in
    match g_pending_stream_chunks g !! stream_id with
    | Some pending => fetch_pending stream_id stream_conn_id b pending
    | None =>
        match g_streams g !! stream_id with
        | None => let& _ := set_error (invalid_stream_id stream_id) in return_ (-1)
        | Some s =>
            let& _ := update (set_g_streams (delete stream_id (g_streams g))) in
            let& _ := drop_state in
            let& '(r, s) := fetch_kind s in
            let more := kind_has_more s in
            let& _ := lock_or (drop_stream s) (-1) in
            let& _ := update (λ g, set_g_streams (<[stream_id := s]> (g_streams g)) g) in
            fetched stream_id stream_conn_id b more r
        end
    end.

(** * Ending *)

Definition odbc_stream_cancel (stream_id : Z) : F Z :=
  let& _ := lock_or skip (-1) in
  let& g := state in
  match g_streams g !! stream_id with
  | Some s => let& _ := update (set_g_streams (<[stream_id := cancel_stream s]> (g_streams g))) in next 0
  | None => let& _ := set_error (invalid_stream_id stream_id) in next 1
  end.

Definition odbc_stream_close (stream_id : Z) : F Z :=
  let& _ := lock_or skip (-1) in
  let& g := state in
  match g_streams g !! stream_id with
  | Some s => let& _ := drop_stream_of stream_id in next 0
  | None => let& _ := set_error (invalid_stream_id stream_id) in next 1
  end.
End Streams.
