(* ===== verification/FfiPool.v ===== *)
(** Entry points for connection pools and bulk inserts (ffi/mod.rs). *)

From S2P Require Import Prelude Wire Errors ParamValue Compression Text Security Streaming BulkInsert.
From S2P Require Import Handles Transaction Xid Xa Execution Pool AsyncRequests ArrayBinding Chunking FfiState FfiSession FfiQuery.

Section Pools.
Context `{P : Platform}.

(** * Creating *)

Definition invalid_pool_id (pool_id : Z) : string := "Invalid pool ID: " +:+ fmt_Z pool_id.

Definition pool_create_inner (conn_str : string) (max_size : Z) (options : PoolOptions) : F Z :=
  let& r := engine_call (new_with_options pf_pool_env conn_str max_size options) in
  match r with
  | Ok pool =>
      let& _ := lock_or skip 0 in
      let& g := state in
      let '(id, next_id) := alloc (dom (g_pools g)) (g_next_pool_id g) in
      let& _ := update (set_g_next_pool_id next_id) in
      if id =? 0 then let& _ := set_error "Failed to allocate pool ID" in return_ 0
      else
        let& _ := update (λ g, set_g_pools (<[id := pool]> (g_pools g)) g) in
        next id
  | Err e =>
      let& _ := lock_or skip 0 in
      let& _ := set_error ("odbc_pool_create failed: " +:+ to_string e) in
      next 0
  | Panic => panic
  end.

Definition odbc_pool_create (conn_str : CString) (max_size : Z) : F Z :=
  match conn_str ≫= to_str with
  | None => return_ 0
  | Some s => pool_create_inner s max_size pool_options_default
  end.

(** [parse] reads the JSON of the options. *)
Definition odbc_pool_create_with_options (parse : string → option PoolOptions) (conn_str : CString) (max_size : Z)
  (options_json : CString) : F Z :=
  match conn_str ≫= to_str with
  | None => return_ 0
  | Some s =>
      match options_json with
      | None => pool_create_inner s max_size pool_options_default
      | Some bs =>
          match to_str bs with
          | None => return_ 0
          | Some json =>
              if String.eqb (trim json) EmptyString then pool_create_inner s max_size pool_options_default
              else match parse json with
                   | Some options => pool_create_inner s max_size options
                   | None => return_ 0
                   end
          end
      end
  end.

(** * Checking out and back in *)

(** An id that was given back to this pool, or a new one. *)
Definition take_pooled_id (pool_id : Z) : F (option Z) :=
  let& g := state in
  match g_pooled_free_ids g !! pool_id ≫= last with
  | Some id =>
      let& _ := update (set_g_pooled_free_ids (alter (λ ids, take (length ids - 1) ids) pool_id (g_pooled_free_ids g))) in
      next (Some id)
  | None =>
      let '(id, next_id) := alloc (dom (g_pooled_connections g)) (g_next_pooled_conn_id g) in
      let& _ := update (set_g_next_pooled_conn_id next_id) in
      next (if id =? 0 then None else Some id)
  end.

Definition odbc_pool_get_connection (pool_id : Z) : F Z :=
  let& _ := lock_or skip 0 in
  let& g := state in
  match g_pools g !! pool_id with
  | None =>
      let& _ := drop_state in
      let& _ := if_locked (set_error (invalid_pool_id pool_id)) in
      return_ 0
  | Some pool =>
      let& _ := drop_state in
      let& r := engine_call (pool_get pool) in
      let& _ := lock_or (match r with Ok c => ignore (drop_pooled c) | _ => skip end) 0 in
      match r with
      | Ok c =>
          let& id := take_pooled_id pool_id in
          match id with
          | None =>
              let& _ := set_error "Failed to allocate pooled connection ID" in
              let& _ := ignore (drop_pooled c) in
              return_ 0
          | Some conn_id =>
              let& _ := update (λ g, set_g_pooled_connections (<[conn_id := (pool_id, c)]> (g_pooled_connections g)) g) in
              next conn_id
          end
      | Err e => let& _ := set_error ("Failed to get connection from pool: " +:+ to_string e) in next 0
      | Panic => panic
      end
  end.

(** Rollback and autocommit, whatever comes of them; then, as the wrapper is dropped, the
    connection goes back. *)
Definition clean (c : PooledConnectionWrapper) : F unit :=
  let& _ := ignore (call (pw_phys c) CRollback) in
  ignore (call (pw_phys c) (CAutocommit true)).

Definition retain_statements (conn_id : Z) : F unit :=
  update (λ g, set_g_statements (filter (λ kv, sh_conn_id kv.2 ≠ conn_id) (g_statements g)) g).

Definition odbc_pool_release_connection (connection_id : Z) : F Z :=
  let& _ := lock_or skip (-1) in
  let& g := state in
  match g_pooled_connections g !! connection_id with
  | Some (pool_id, c) =>
      let& _ := update (set_g_pooled_connections (delete connection_id (g_pooled_connections g))) in
      let& _ := clean c in
      let& _ := retain_statements connection_id in
      let& _ := update (λ g, set_g_pooled_free_ids
                               (<[pool_id := default [] (g_pooled_free_ids g !! pool_id) ++ [connection_id]]> (g_pooled_free_ids g)) g) in
      let& _ := ignore (drop_pooled c) in
      next 0
  | None => let& _ := set_error ("Invalid pooled connection ID: " +:+ fmt_Z connection_id) in next 1
  end.

(** * Looking at a pool *)

Definition odbc_pool_health_check (pool_id : Z) : F Z :=
  let& _ := lock_or skip 0 in
  let& g := state in
  match g_pools g !! pool_id with
  | None => return_ 0
  | Some pool =>
      let& _ := drop_state in
      let& r := engine_call (health_check pool) in
      next (match r with Ok true => 1 | _ => 0 end)
  end.

(** The connections of a pool that are checked out. *)
Definition checked_out (pool_id : Z) (g : GlobalState) : list Z := keys_where (λ e, e.1 =? pool_id) (g_pooled_connections g).

Definition odbc_pool_get_state (pool_id : Z) (size_null idle_null : bool) : F Z :=
  if size_null || idle_null then return_ (-1)
  else
    let& _ := lock_or skip (-1) in
    let& g := state in
    match g_pools g !! pool_id with
    | None => return_ (-1)
    | Some pool =>
        let max_size := cp_max_size pool in
        let active := len (checked_out pool_id g) mod 2 ^ 32 in
        let& _ := write (WInt ToSize max_size) in
        let& _ := write (WInt ToIdle (Z.max 0 (max_size - active))) in
        next 0
    end.

Definition json_field (name : string) (v : Z) : string := quoted name +:+ ":" +:+ fmt_Z v.

Definition pool_state_json (total idle active max_size : Z) : string :=
  "{" +:+ join "," [json_field "total_connections" total; json_field "idle_connections" idle; json_field "active_connections" active;
    json_field "max_size" max_size; json_field "wait_count" 0; json_field "wait_time_ms" 0; json_field "max_wait_time_ms" 0;
    json_field "avg_wait_time_ms" 0] +:+ "}".

(** A zero byte follows the text. *)
Definition odbc_pool_get_state_json (pool_id : Z) (b : OutBuf) : F Z :=
  if ob_null b || ob_written_null b then return_ (-1)
  else
    let& _ := lock_or skip (-1) in
    let& g := state in
    match g_pools g !! pool_id with
    | None => let& _ := set_out_written_zero b in return_ (-1)
    | Some pool =>
        let& '(total, idle) := read_ffi (λ f, pool_state pool (f_world f)) in
        let bytes := as_bytes (pool_state_json total idle (Z.max 0 (total - idle)) (cp_max_size pool)) in
        if ob_len b <? len bytes + 1 then let& _ := set_out_written_zero b in return_ (-2)
        else
          let& _ := write (WBytes ToBuffer (bytes ++ [x00])) in
          let& _ := write (WInt ToWritten (len bytes)) in
          next 0
    end.

(** * Resizing and closing *)

(** [pool_state.remove(..)] drops the pool before the new one is made. *)
Definition odbc_pool_set_size (pool_id new_max_size : Z) : F Z :=
  if new_max_size =? 0 then return_ (-1)
  else
    let& _ := lock_or skip (-1) in
    let& g := state in
    match g_pools g !! pool_id with
    | None => let& _ := set_error (invalid_pool_id pool_id) in return_ (-1)
    | Some pool =>
        if negb (len (checked_out pool_id g) =? 0) then
          let& _ := set_error "Cannot resize pool while connections are checked out" in return_ (-1)
        else
          let& _ := update (set_g_pools (delete pool_id (g_pools g))) in
          let& r := engine_call (pool_new pf_pool_env (cp_connection_string pool) new_max_size) in
          match r with
          | Ok pool => let& _ := update (λ g, set_g_pools (<[pool_id := pool]> (g_pools g)) g) in next 0
          | Err e => let& _ := set_error ("odbc_pool_set_size failed: " +:+ to_string e) in next (-1)
          | Panic => panic
          end
    end.

Definition close_checked_out (conn_id : Z) : F unit :=
  let& _ := retain_statements conn_id in
  let& g := state in
  match g_pooled_connections g !! conn_id with
  | Some (_, c) =>
      let& _ := update (set_g_pooled_connections (delete conn_id (g_pooled_connections g))) in
      let& _ := clean c in
      ignore (drop_pooled c)
  | None => skip
  end.

Definition odbc_pool_close (pool_id : Z) : F Z :=
  let& _ := lock_or skip (-1) in
  let& g := state in
  if negb (bool_decide (is_Some (g_pools g !! pool_id))) then
    let& _ := set_error (invalid_pool_id pool_id) in return_ 1
  else
    let& _ := for_each close_checked_out (checked_out pool_id g) in
    let& _ := update (λ g, set_g_pooled_free_ids (delete pool_id (g_pooled_free_ids g)) g) in
    let& _ := update (λ g, set_g_pools (delete pool_id (g_pools g)) g) in
    next 0.

(** * Bulk inserts *)

(** A data buffer: [None] is a null pointer. *)
Definition bulk_arguments (name : string) (data : option (list byte)) (rows_null : bool) : F (list byte) :=
  match data with
  | Some (_ :: _ as bytes) => if rows_null then
        let& _ := lock_or skip (-1) in
        let& _ := set_error (name +:+ ": data_buffer and rows_inserted must be non-null, buffer_len > 0") in
        return_ (-1)
      else next bytes
  | _ =>
      let& _ := lock_or skip (-1) in
      let& _ := set_error (name +:+ ": data_buffer and rows_inserted must be non-null, buffer_len > 0") in
      return_ (-1)
  end.

Definition parse_payload (bytes : list byte) : F BulkInsertPayload :=
  match parse_bulk_insert_payload bytes with
  | Ok p => next p
  | Err e =>
      let& _ := lock_or skip (-1) in
      let& _ := set_error (to_string e) in
      return_ (-1)
  | Panic => panic
  end.

Definition odbc_bulk_insert_array (conn_id : Z) (data : option (list byte)) (rows_null : bool) : F Z :=
  let& bytes := bulk_arguments "odbc_bulk_insert_array" data rows_null in
  let& payload := parse_payload bytes in
  let& _ := lock_or skip (-1) in
  let& g := state in
  if negb (bool_decide (is_Some (g_connections g !! conn_id))) then
    let& _ := set_connection_error conn_id (invalid_connection_id conn_id) in return_ (-1)
  else
    let& h := engine_call (lock_handles "Failed to lock handles mutex") in
    match h with
    | Ok hm =>
        match get_connection hm conn_id with
        | Ok phys =>
            let& l := engine_call (lock_connection phys) in
            match l with
            | Ok _ =>
                let& r := pipeline_call (holding_connection phys (λ e w, let '(r, w) := bulk_insert_payload phys payload w in (r, e, w))) in
                match r with
                | Ok total => let& _ := write (WInt ToRows (total mod 2 ^ 32)) in next 0
                | Err e => let& _ := set_connection_structured_error conn_id (to_structured e) in next (-1)
                | Panic => panic
                end
            | _ => let& _ := set_error "Failed to lock connection" in return_ (-1)
            end
        | Err e => let& _ := set_error ("Failed to get connection: " +:+ to_string e) in return_ (-1)
        | Panic => panic
        end
    | _ => let& _ := set_error "Failed to lock handles mutex" in return_ (-1)
    end.

(** [wk] gives each range of rows its worker. *)
Definition odbc_bulk_insert_parallel (wk : Z * Z → Worker) (pool_id : Z) (data : option (list byte)) (parallelism : Z) (rows_null : bool) : F Z :=
  let& bytes := bulk_arguments "odbc_bulk_insert_parallel" data rows_null in
  if parallelism =? 0 then
    let& _ := lock_or skip (-1) in
    let& _ := set_error "odbc_bulk_insert_parallel: parallelism must be >= 1" in
    return_ (-1)
  else
    let& payload := parse_payload bytes in
    let& _ := lock_or skip (-1) in
    let& g := state in
    if negb (bool_decide (is_Some (g_pools g !! pool_id))) then
      let& _ := set_error (invalid_pool_id pool_id) in return_ (-1)
    else
      let& _ := drop_state in
      match bulk_insert_parallel_with_pool wk payload parallelism with
      | Ok total => let& _ := write (WInt ToRows (total mod 2 ^ 32)) in next 0
      | Err e =>
          let& _ := lock_or skip (-1) in
          let& _ := set_structured_error (to_structured e) in
          next (-1)
      | Panic => panic
      end.
End Pools.
