(* ===== verification/FfiInfo.v ===== *)
(** Entry points that tell about the library, its connections and its plugins (ffi/mod.rs): errors,
    metrics, the audit log, the caches, drivers and the SQL the plugins generate. *)

From S2P Require Import Prelude Wire Errors ParamValue Compression Text Identifier Capabilities SqlText Plugins Upsert Returning SessionInit CatalogSql Registry.
From S2P Require Import Security Streaming Caches OutputParams.
From S2P Require Import Handles Transaction Xid Xa Execution Pool AsyncRequests FfiState FfiSession FfiQuery.

Section Info.
Context `{P : Platform}.

(** [match serialize { Ok(bytes) => bytes, Err(_) => { zero; return code } }], then the copy. *)
Definition copy_json (b : OutBuf) (data : option (list byte)) : F Z :=
  match data with
  | Some data => copy_out b data
  | None => let& _ := set_out_written_zero b in return_ (-1)
  end.

(** * Errors *)

(** A text that is too long is cut; a zero byte follows.  A length is unsigned: [<= 0] is [== 0]. *)
Definition odbc_get_error (buffer_null : bool) (buffer_len : Z) : F Z :=
  if buffer_null || (buffer_len <=? 0) then return_ (-1)
  else
    let& _ := lock_or skip (-1) in
    let& g := state in
    let msg := as_bytes (get_connection_error g None) in
    let copy_len := Z.min (len msg mod 2 ^ 32) (buffer_len - 1) in
    let& _ := write (WBytes ToBuffer (take (Z.to_nat copy_len) msg ++ [x00])) in
    next copy_len.

(** The body of both entry points; the code 1 says that there is no structured error. *)
Definition structured_error_body (conn_filter : option Z) (b : OutBuf) : F Z :=
  if ob_null b || ob_written_null b then return_ (-1)
  else
    let& _ := lock_or (set_out_written_zero b) (-1) in
    let& g := state in
    match get_connection_structured_error g conn_filter with
    | None => let& _ := write (WInt ToWritten 0) in return_ 1
    | Some e => copy_out b (se_serialize e)
    end.

Definition odbc_get_structured_error (b : OutBuf) : F Z := structured_error_body None b.

Definition odbc_get_structured_error_for_connection (conn_id : Z) (b : OutBuf) : F Z :=
  structured_error_body (if conn_id =? 0 then None else Some conn_id) b.

(** * Metrics *)

(** [as_millis().min(u64::MAX as u128) as u64] of nanoseconds. *)
Definition millis (d : Z) : Z := Z.min (d / 1000000) (2 ^ 64 - 1).

Definition u64s (zs : list Z) : list byte := concat (map (le_bytes 8) zs).

Definition odbc_get_metrics (b : OutBuf) : F Z :=
  if ob_null b || ob_written_null b then return_ (-1)
  else if ob_len b <? 40 then return_ (-2)
  else
    let& _ := lock_or skip (-1) in
    let& g := state in
    let q := get_query_metrics (g_metrics g) in
    let& t := now in
    match average_latency q with
    | Ok average =>
        let& _ := write (WBytes ToBuffer (u64s [qm_query_count q; get_error_count (g_metrics g); uptime t (g_metrics g) / 1000000000;
                                                millis (qm_total_latency q); millis average])) in
        let& _ := write (WInt ToWritten 40) in
        next 0
    | _ => panic
    end.

(** * The audit log *)

Definition odbc_audit_enable (enabled : Z) : F Z :=
  let& _ := lock_or skip (-1) in
  let& _ := update (λ g, set_g_audit_logger (set_enabled (negb (enabled =? 0)) (g_audit_logger g)) g) in
  next 0.

(** [duration_since(UNIX_EPOCH)] in milliseconds, 0 before the epoch. *)
Definition timestamp_ms (t : Z) : Z := if t <? 0 then 0 else (t / 1000000) mod 2 ^ 64.

Definition serialize_audit_events (events : list AuditEvent) : option (list byte) :=
  json_audit_events (map (λ e, (timestamp_ms (ae_timestamp e), e)) events).

Definition serialize_audit_status (l : AuditLogger) : option (list byte) := json_audit_status (al_enabled l) (event_count l).

(** No limit, or no more than there are. *)
Definition take_limit (limit : Z) (l : AuditLogger) : nat :=
  Z.to_nat (if limit =? 0 then event_count l else Z.min limit (event_count l)).

Definition odbc_audit_get_events (b : OutBuf) (limit : Z) : F Z :=
  if ob_null b || ob_written_null b then return_ (-1)
  else if ob_len b =? 0 then let& _ := set_out_written_zero b in return_ (-1)
  else
    let& _ := lock_or (set_out_written_zero b) (-1) in
    let& g := state in
    let events := get_events (take_limit limit (g_audit_logger g)) (g_audit_logger g) in
    let& _ := drop_state in
    copy_json b (serialize_audit_events events).

Definition odbc_audit_clear : F Z :=
  let& _ := lock_or skip (-1) in
  let& _ := update (λ g, set_g_audit_logger (clear_events (g_audit_logger g)) g) in
  next 0.

Definition odbc_audit_get_status (b : OutBuf) : F Z :=
  if ob_null b || ob_written_null b then return_ (-1)
  else if ob_len b =? 0 then let& _ := set_out_written_zero b in return_ (-1)
  else
    let& _ := lock_or (set_out_written_zero b) (-1) in
    let& g := state in
    match serialize_audit_status (g_audit_logger g) with
    | None => let& _ := set_out_written_zero b in return_ (-1)
    | Some data => let& _ := drop_state in copy_out b data
    end.

(** * The caches *)

Definition odbc_metadata_cache_enable (max_size ttl_secs : Z) : F Z :=
  let& _ := lock_or skip (-1) in
  let& _ := update (set_g_metadata_cache (meta_new max_size (ttl_secs * 1000000000))) in
  next 0.

Definition odbc_metadata_cache_stats (b : OutBuf) : F Z :=
  if ob_null b || ob_written_null b then return_ (-1)
  else if ob_len b =? 0 then let& _ := set_out_written_zero b in return_ (-1)
  else
    let& _ := lock_or (set_out_written_zero b) (-1) in
    let& g := state in
    let stats := meta_stats (g_metadata_cache g) in
    let& _ := drop_state in
    copy_json b (json_cache_stats stats).

Definition odbc_metadata_cache_clear : F Z :=
  let& _ := lock_or skip (-1) in
  let& _ := update (λ g, set_g_metadata_cache (meta_clear (g_metadata_cache g)) g) in
  next 0.

(** The metrics of the pipeline hold the statement cache of its engine. *)
Definition odbc_get_cache_metrics (b : OutBuf) : F Z :=
  if ob_null b || ob_written_null b then return_ (-1)
  else if ob_len b <? 64 then return_ (-2)
  else
    let& _ := lock_or skip (-1) in
    let& m := read_ffi (λ f, prep_metrics (ee_prepared_cache (f_engine f))) in
    let& _ := write (WBytes ToBuffer (u64s [pm_cache_size m; pm_cache_max_size m; pm_cache_hits m; pm_cache_misses m; pm_total_prepares m;
                                            pm_total_executions m; pm_memory_usage_bytes m; f64_bits (pm_avg_executions_per_stmt m)])) in
    let& _ := write (WInt ToWritten 64) in
    next 0.

Definition odbc_clear_statement_cache : F Z :=
  let& _ := lock_or skip (-1) in
  let& _ := with_ffi (λ f, set_engine (clear_cache (f_engine f)) f) in
  next 0.

(** * Drivers *)

(** A name that is too long is cut; a zero byte follows. *)
Definition odbc_detect_driver (conn_str : CString) (buffer_null : bool) (buffer_len : Z) : F Z :=
  match conn_str with
  | None => return_ 0
  | Some bs =>
      if buffer_null || (buffer_len <=? 0) then return_ 0
      else
        match to_str bs with
        | None => return_ 0
        | Some s =>
            let name := default "unknown" (detect_driver s) in
            let copy_len := Z.min (len (as_bytes name) + 1) buffer_len in
            let& _ := write (WBytes ToBuffer (take (Z.to_nat (copy_len - 1)) (as_bytes name) ++ [x00])) in
            next (if String.eqb name "unknown" then 0 else 1)
        end
  end.

Definition odbc_get_driver_capabilities (conn_str : CString) (b : OutBuf) : F Z :=
  match conn_str with
  | None => let& _ := set_out_written_zero b in return_ (-1)
  | Some bs =>
      if ob_null b || ob_written_null b || (ob_len b =? 0) then let& _ := set_out_written_zero b in return_ (-1)
      else
        match to_str bs with
        | None => let& _ := set_out_written_zero b in return_ (-1)
        | Some s => copy_json b (as_bytes <$> json_capabilities (detect_from_connection_string s))
        end
  end.

(** The state is locked while the driver is asked. *)
Definition odbc_get_connection_dbms_info (conn_id : Z) (b : OutBuf) : F Z :=
  let zero := set_out_written_zero b in
  if ob_null b || ob_written_null b || (ob_len b =? 0) then let& _ := zero in return_ (-1)
  else
    let& _ := lock_or zero (-1) in
    let& g := state in
    let& info_result :=
      if bool_decide (is_Some (g_connections g !! conn_id)) then engine_call (detect_for_conn_id conn_id)
      else
        match g_pooled_connections g !! conn_id with
        | Some (_, pooled) => engine_call (detect (pw_phys pooled))
        | None =>
            let& _ := set_error (invalid_connection_id conn_id) in
            let& _ := zero in
            return_ (-1)
        end in
    let& _ := drop_state in
    match info_result with
    | Ok info => copy_json b (as_bytes <$> json_dbms_info info)
    | Err e =>
        let& _ := if_locked (set_connection_error conn_id (to_string e)) in
        let& _ := zero in
        return_ (-1)
    | Panic => panic
    end.

(** * Generated SQL *)

(** [Some(Ok(sql)) => copy, Some(Err(_)) | None => return -3] *)
Definition copy_sql (b : OutBuf) (r : option (Result string)) : F Z :=
  match r with
  | Some (Ok sql) => copy_out b (as_bytes sql)
  | Some Panic => panic
  | _ => return_ (-3)
  end.

Definition odbc_build_upsert_sql (conn_str table payload_json : CString) (b : OutBuf) : F Z :=
  match conn_str, table, payload_json with
  | Some conn_str, Some table, Some payload_json =>
      if ob_null b || ob_written_null b || (ob_len b =? 0) then let& _ := set_out_written_zero b in return_ (-1)
      else
        match to_str conn_str, to_str table, to_str payload_json with
        | Some conn_str, Some table, Some payload_json =>
            match json_upsert_payload payload_json with
            | Some (columns, conflict, updates) => copy_sql b (registry_upsert conn_str table columns conflict updates)
            | None => return_ (-1)
            end
        | _, _, _ => return_ (-1)
        end
  | _, _, _ => let& _ := set_out_written_zero b in return_ (-1)
  end.

Definition verb_of (verb : Z) : option DmlVerb :=
  match verb with 0 => Some Insert | 1 => Some Update | 2 => Some Delete | _ => None end.

Definition columns_of_csv (s : string) : list string :=
  List.filter (λ c, negb (String.eqb c EmptyString)) (map trim (split "," s)).

Definition odbc_append_returning_sql (conn_str sql : CString) (verb : Z) (columns_csv : CString) (b : OutBuf) : F Z :=
  match conn_str, sql, columns_csv with
  | Some conn_str, Some sql, Some columns_csv =>
      if ob_null b || ob_written_null b || (ob_len b =? 0) then let& _ := set_out_written_zero b in return_ (-1)
      else
        match to_str conn_str, to_str sql, to_str columns_csv, verb_of verb with
        | Some conn_str, Some sql, Some columns, Some verb => copy_sql b (registry_returning conn_str sql verb (columns_of_csv columns))
        | _, _, _, _ => return_ (-1)
        end
  | _, _, _ => let& _ := set_out_written_zero b in return_ (-1)
  end.

(** The options of a session: a null pointer and a blank text stand for the defaults. *)
Definition session_options (options_json : CString) : option SessionOptions :=
  match options_json with
  | None => Some session_default
  | Some bs =>
      match to_str bs with
      | None => None
      | Some s => if String.eqb (trim s) EmptyString then Some session_default else json_session_options s
      end
  end.

Definition odbc_get_session_init_sql (conn_str options_json : CString) (b : OutBuf) : F Z :=
  match conn_str with
  | None => let& _ := set_out_written_zero b in return_ (-1)
  | Some bs =>
      if ob_null b || ob_written_null b || (ob_len b =? 0) then let& _ := set_out_written_zero b in return_ (-1)
      else
        match to_str bs, session_options options_json with
        | Some conn_str, Some opts =>
            match json_strings (default [] (session_init_sql conn_str opts)) with
            | Some json => copy_out b (as_bytes json)
            | None => return_ (-1)
            end
        | _, _ => return_ (-1)
        end
  end.
End Info.
