(* ===== verification/FfiCatalog.v ===== *)
(** Entry points that ask for the catalog of a connection (ffi/mod.rs): the state stays locked while the
    driver is asked, and the columns of a table are kept in the metadata cache. *)

From S2P Require Import Prelude Wire Errors ParamValue Compression Text Capabilities SqlText Plugins CatalogSql Registry.
From S2P Require Import Security Streaming Caches OutputParams.
From S2P Require Import Handles Transaction Xid Xa Execution Catalog Pool AsyncRequests FfiState FfiSession FfiQuery.

Section Catalog.
Context `{P : Platform}.

Definition ptr_to_opt_str (ptr : CString) : option string :=
  match ptr ≫= to_str with
  | Some s => if String.eqb (trim s) EmptyString then None else Some (trim s)
  | None => None
  end.

(** [state.connections.get(&conn_id)] *)
Definition known_connection (conn_id : Z) : F unit :=
  let& g := state in
  if bool_decide (is_Some (g_connections g !! conn_id)) then skip
  else relock_error skip (set_connection_error conn_id (invalid_connection_id conn_id)).

(** The state is let go and taken again to report it. *)
Definition catalog_too_small (conn_id : Z) (b : OutBuf) (data : list byte) : F Z :=
  let& _ := drop_state in
  let& _ := lock_or skip (-1) in
  let& _ := set_connection_error conn_id (buffer_too_small (len data) (ob_len b)) in
  return_ (-2).

(** From the handles to the answer; [keep] is what is done with a result before its length is looked
    at.  A result that does not fit is not kept for a retry. *)
Definition run_catalog_op (conn_id : Z) (op : CatalogOp) (keep : list byte → F unit) (b : OutBuf) : F Z :=
  let report := set_connection_error conn_id in
  let& phys := find_connection (-1) skip report conn_id in
  let& _ := lock_found (-1) skip report phys in
  let& start := now in
  let& r := catalog_call (holding_connection phys (catalog_op pf_codec phys op)) in
  match r with
  | Ok data =>
      let& time := elapsed start in
      let& _ := record_query time in
      let& _ := keep data in
      if ob_len b <? len data then
        let& _ := record_error in
        catalog_too_small conn_id b data
      else
        let& _ := write_out data in
        next 0
  | Err e =>
      let& _ := record_error in
      let& _ := drop_state in
      let& _ := lock_or skip (-1) in
      let& _ := set_connection_structured_error conn_id (to_structured e) in
      next (-1)
  | Panic => panic
  end.

Definition forget (data : list byte) : F unit := skip.

Definition odbc_catalog_tables (conn_id : Z) (catalog schema : CString) (b : OutBuf) : F Z :=
  if ob_null b || ob_written_null b then return_ (-1)
  else
    let& _ := lock_or skip (-1) in
    let& _ := known_connection conn_id in
    run_catalog_op conn_id (OpTables (ptr_to_opt_str catalog) (ptr_to_opt_str schema)) forget b.

(** ** Columns *)

Definition cache_key (conn_id : Z) (table : string) : string := fmt_Z conn_id +:+ ":" +:+ table.

(** [state.metadata_cache.get_payload(&key)] *)
Definition cached_payload (key : string) : F (option (list byte)) :=
  let& t := now in
  let& g := state in
  let '(r, cache) := get_payload t key (g_metadata_cache g) in
  let& _ := update (set_g_metadata_cache cache) in
  next r.

Definition keep_payload (key : string) (data : list byte) : F unit :=
  let& t := now in
  update (λ g, set_g_metadata_cache (cache_payload t key data (g_metadata_cache g)) g).

Definition odbc_catalog_columns (conn_id : Z) (table : CString) (b : OutBuf) : F Z :=
  match table with
  | None => return_ (-1)
  | Some bs =>
      if ob_null b || ob_written_null b then return_ (-1)
      else
        match to_str bs with
        | None => return_ (-1)
        | Some table =>
            let& _ := lock_or skip (-1) in
            let& _ := known_connection conn_id in
            let key := cache_key conn_id table in
            let& cached := cached_payload key in
            match cached with
            | Some data =>
                if ob_len b <? len data then catalog_too_small conn_id b data
                else
                  let& _ := write_out data in
                  return_ 0
            | None => run_catalog_op conn_id (OpColumns table) (keep_payload key) b
            end
        end
  end.

Definition odbc_catalog_type_info (conn_id : Z) (b : OutBuf) : F Z :=
  if ob_null b || ob_written_null b then return_ (-1)
  else
    let& _ := lock_or skip (-1) in
    let& _ := known_connection conn_id in
    run_catalog_op conn_id OpTypeInfo forget b.

(** Keys and indexes of a table: its name is decoded when the connection has been found. *)
Definition table_body (op : string → CatalogOp) (conn_id : Z) (table : CString) (b : OutBuf) : F Z :=
  match table with
  | None => return_ (-1)
  | Some bs =>
      if ob_null b || ob_written_null b then return_ (-1)
      else
        let& _ := lock_or skip (-1) in
        let& _ := known_connection conn_id in
        match to_str bs with
        | None => relock_error skip (set_connection_error conn_id "Invalid table name (UTF-8)")
        | Some table => run_catalog_op conn_id (op table) forget b
        end
  end.

Definition odbc_catalog_primary_keys : Z → CString → OutBuf → F Z := table_body OpPrimaryKeys.
Definition odbc_catalog_foreign_keys : Z → CString → OutBuf → F Z := table_body OpForeignKeys.
Definition odbc_catalog_indexes : Z → CString → OutBuf → F Z := table_body OpIndexes.
End Catalog.
