(* ===== verification/FfiLogic.v ===== *)
(** Reasoning about entry points.

    [ok g l m Q] says what a piece of an entry point does to the global state: started in
    state [g], with the mutex held iff [l], not poisoned and alone, [m] ends normally in a result,
    state and lock that satisfy [Q], or returns a code that satisfies [Ret] with the state,
    or panics -- and then, unless it holds the mutex (which the panic poisons), the state
    satisfies [Pan].  [okw (Some Inv)] says it of a call among other threads, which keep the
    invariant [Inv] of the mutex.  The rules, shared by the two, run the piece symbolically.

    [moves R m] says that whatever happens, the frame before and after are related by [R]. *)

From S2P Require Import Prelude Wire Errors ParamValue Compression Text Security Caches OutputParams DiskSpill Streaming.
From S2P Require Import Handles Transaction Xid Xa Execution Pool AsyncRequests FfiState FfiSession FfiStreams.

Definition st `{P : Platform} (fr : Frame) : GlobalState := f_state (fr_ffi fr).

Section Ok.
Context `{P : Platform}.
Variables (E : option (GlobalState → Prop)) (Ret : Z → GlobalState → Prop) (Pan : GlobalState → Prop).

(** Alone, or among threads that leave behind states of [Inv] only. *)
Definition sched_ok (s : Sched) : Prop :=
  match E, s with
  | None, Alone => True
  | Some Inv, Finds fs => Forall (λ f, f_poisoned f = false ∧ Inv (f_state f)) fs
  | _, _ => False
  end.

(** Where a call may wait for the mutex: not while it holds it, and with a state the others may find. *)
Definition may_wait (g : GlobalState) (l : bool) : Prop := match E with Some Inv => l = false ∧ Inv g | None => False end.

(** A frame in which a call goes on. *)
Definition going (fr : Frame) : Prop := f_poisoned (fr_ffi fr) = false ∧ sched_ok (fr_sched fr).

Definition okw {A : Type} (g : GlobalState) (l : bool) (m : F A) (Q : A → GlobalState → bool → Prop) : Prop :=
  ∀ fr, going fr → st fr = g → fr_locked fr = l →
    match m fr with
    | (Next a, fr') => going fr' ∧ Q a (st fr') (fr_locked fr')
    | (Return c, fr') => going fr' ∧ Ret c (st fr') ∨
        f_poisoned (fr_ffi fr') = false ∧ fr_sched fr' = Waits ∧ may_wait (st fr') (fr_locked fr')
    | (Panicked, fr') => going fr' ∧ (fr_locked fr' = true ∨ Pan (st fr'))
    end.

Implicit Types (g : GlobalState) (l : bool).

Lemma ok_bind {A B} g l (m : F A) (k : A → F B) Q :
  okw g l m (λ a g l, okw g l (k a) Q) → okw g l (fbind m k) Q.
Proof.
  intros H fr Hp Hg Hl. specialize (H fr Hp Hg Hl). unfold fbind.
  destruct (m fr) as [[a|c|] fr']; cbn in *; [|done|done].
  destruct H as [Hp' H]. by apply H.
Qed.

Lemma ok_weaken {A} g l (m : F A) (Q Q' : A → GlobalState → bool → Prop) :
  okw g l m Q → (∀ a g l, Q a g l → Q' a g l) → okw g l m Q'.
Proof.
  intros H HQ fr Hp Hg Hl. specialize (H fr Hp Hg Hl).
  destruct (m fr) as [[a|c|] fr']; cbn in *; naive_solver.
Qed.

Lemma ok_next {A} g l (a : A) (Q : A → GlobalState → bool → Prop) : Q a g l → okw g l (next a) Q.
Proof. intros H fr Hp <- <-. done. Qed.

Lemma ok_return {A} g l c (Q : A → GlobalState → bool → Prop) : Ret c g → okw g l (return_ c) Q.
Proof. intros H fr Hp <- <-. by left. Qed.

Lemma ok_panic {A} g l (Q : A → GlobalState → bool → Prop) : l = true ∨ Pan g → okw g l panic Q.
Proof. intros H fr Hp <- <-. done. Qed.

Lemma ok_state g l (Q : GlobalState → GlobalState → bool → Prop) : Q g g l → okw g l state Q.
Proof. intros H fr Hp <- <-. done. Qed.

Lemma ok_with_ffi g l f (Q : unit → GlobalState → bool → Prop) :
  (∀ ffi, f_poisoned (f ffi) = f_poisoned ffi) → (∀ ffi, f_state (f ffi) = f_state ffi) → Q tt g l → okw g l (with_ffi f) Q.
Proof. intros Hp' Hs H fr [Hp Ha] <- <-. unfold st, going in *. cbn. by rewrite Hp', Hs. Qed.

Lemma ok_update g l f (Q : unit → GlobalState → bool → Prop) : Q tt (f g) l → okw g l (update f) Q.
Proof. intros H fr Hp <- <-. done. Qed.

Lemma ok_now g l (Q : Z → GlobalState → bool → Prop) : (∀ t, Q t g l) → okw g l now Q.
Proof. intros H fr Hp <- <-. split; [done|]. apply H. Qed.

Lemma ok_lock_state g l (Q : bool → GlobalState → bool → Prop) : Q true g true → okw g l lock_state Q.
Proof. intros H fr [Hp Ha] <- <-. unfold lock_state, going. by rewrite Hp. Qed.

Lemma ok_unlock_state g l (Q : unit → GlobalState → bool → Prop) : Q tt g false → okw g l unlock_state Q.
Proof. intros H fr Hp <- <-. done. Qed.

Lemma ok_write g l x (Q : unit → GlobalState → bool → Prop) : Q tt g l → okw g l (write x) Q.
Proof. intros H fr Hp <- <-. done. Qed.

Lemma ok_engine_call {A} g l (m : M A) (Q : Result A → GlobalState → bool → Prop) :
  l = true ∨ Pan g → (∀ w, (m w).1 ≠ Panic → Q (m w).1 g l) → okw g l (engine_call m) Q.
Proof.
  intros HP H fr Hp <- <-. unfold engine_call. specialize (H (f_world (fr_ffi fr))).
  destruct (m (f_world (fr_ffi fr))) as [[a|e|] w]; cbn in *; (split; [done|]); [by apply H..|done].
Qed.

Lemma ok_pipeline_call {A} g l (m : X A) (Q : Result A → GlobalState → bool → Prop) :
  l = true ∨ Pan g → (∀ r, r ≠ Panic → Q r g l) → okw g l (pipeline_call m) Q.
Proof.
  intros HP H fr Hp <- <-. unfold pipeline_call.
  destruct (m (f_engine (fr_ffi fr)) (f_world (fr_ffi fr))) as [[[a|e|] en] w]; cbn in *; (split; [done|]); [by apply H..|done].
Qed.

Lemma ok_catalog_call {A} g l (m : X A) (Q : Result A → GlobalState → bool → Prop) :
  l = true ∨ Pan g → (∀ r, r ≠ Panic → Q r g l) → okw g l (catalog_call m) Q.
Proof.
  intros HP H fr Hp <- <-. unfold catalog_call.
  destruct (m (f_catalog (fr_ffi fr)) (f_world (fr_ffi fr))) as [[[a|e|] en] w]; cbn in *; (split; [done|]); [by apply H..|done].
Qed.

Lemma ok_read_ffi {A} g l (f : Ffi → A) (Q : A → GlobalState → bool → Prop) : (∀ a, Q a g l) → okw g l (read_ffi f) Q.
Proof. intros H fr Hp <- <-. split; [done|]. apply H. Qed.

Lemma ok_ignore {A} g l (m : M A) (Q : unit → GlobalState → bool → Prop) : l = true ∨ Pan g → Q tt g l → okw g l (ignore m) Q.
Proof. intros HP H. apply ok_bind, ok_engine_call; [done|]. intros w _. by apply ok_next. Qed.

Lemma ok_set_out_written_zero g l b (Q : unit → GlobalState → bool → Prop) : Q tt g l → okw g l (set_out_written_zero b) Q.
Proof. intros H. unfold set_out_written_zero. destruct (ob_written_null b); [by apply ok_next|by apply ok_write]. Qed.

Lemma ok_write_out g l d (Q : unit → GlobalState → bool → Prop) : Q tt g l → okw g l (write_out d) Q.
Proof. intros H. apply ok_bind, ok_write. by apply ok_write. Qed.

Lemma ok_elapsed g l s (Q : Z → GlobalState → bool → Prop) : (∀ t, Q t g l) → okw g l (elapsed s) Q.
Proof. intros H. apply ok_bind, ok_now. intros t. by apply ok_next. Qed.

Lemma ok_start_buffer g l phys n sql (Q : Result StreamState → GlobalState → bool → Prop) :
  l = true ∨ Pan g → (∀ r, Q r g l) → okw g l (start_buffer phys n sql) Q.
Proof.
  intros HP HQ fr Hp <- <-. unfold start_buffer.
  destruct (holding_connection _ _ _ _) as [[[[s fs]|e|] en] w]; cbn in *; (split; [done|]); unfold st in *; cbn; auto.
Qed.

Lemma ok_fetch_kind g l s (Q : Result (option (list byte)) * StreamKind → GlobalState → bool → Prop) :
  l = true ∨ Pan g → (∀ r s, Q (r, s) g l) → okw g l (fetch_kind s) Q.
Proof.
  intros HP HQ fr Hp <- <-. unfold fetch_kind. destruct (kind_fetch s _) as [[[c|e|] s'] fs]; cbn in *; (split; [done|]); unfold st in *; cbn; auto.
Qed.
End Ok.

(** Alone: the mutex is found as it was left. *)
Abbreviation ok := (okw None).

Section Alone.
Context `{P : Platform} (Ret : Z → GlobalState → Prop) (Pan : GlobalState → Prop).

Lemma ok_meet g l (Q : unit → GlobalState → bool → Prop) : Q tt g l → ok Ret Pan g l meet Q.
Proof. intros H fr [Hp Ha] <- <-. unfold meet, going in *. destruct (fr_sched fr) eqn:Hs; try done. by rewrite Hs. Qed.

Lemma ok_try_lock g l (Q : bool → GlobalState → bool → Prop) : Q true g true → ok Ret Pan g l try_lock_global_state Q.
Proof. intros H. apply ok_bind, ok_meet. by apply ok_lock_state. Qed.

Lemma ok_drop_state g l (Q : unit → GlobalState → bool → Prop) : Q tt g false → ok Ret Pan g l drop_state Q.
Proof. intros H. apply ok_bind, ok_unlock_state. by apply ok_meet. Qed.

Lemma ok_lock_or g l failed c (Q : unit → GlobalState → bool → Prop) : Q tt g true → ok Ret Pan g l (lock_or failed c) Q.
Proof. intros H. apply ok_bind, ok_try_lock. by apply ok_next. Qed.

Lemma ok_if_locked g l m (Q : unit → GlobalState → bool → Prop) : ok Ret Pan g true m Q → ok Ret Pan g l (if_locked m) Q.
Proof. intros H. apply ok_bind, ok_try_lock. done. Qed.

(** Through a whole call: a call that panics with the mutex poisons it. *)
Lemma ok_call on_panic (m : F Z) (f : Ffi) :
  f_poisoned f = false → ok Ret Pan (f_state f) false m (λ c g _, Ret c g) →
  let '(c, _, f') := call_guard on_panic m f in
  (f_poisoned f' = false ∧ Ret c (f_state f')) ∨ (c = on_panic ∧ (f_poisoned f' = true ∨ Pan (f_state f'))).
Proof.
  intros Hp H. specialize (H (mkFrame f false [] Alone) (conj Hp I) eq_refl eq_refl). unfold call_guard, guarded, st, going in *.
  destruct (m (mkFrame f false [] Alone)) as [[c|c|] fr]; cbn in *; [left; naive_solver..|right].
  split; [done|]. destruct H as [[-> _] [->|?]]; [by left|by right].
Qed.
End Alone.

(** Among threads that keep [Inv]: the mutex is found with some state of [Inv], and the state the call leaves behind
    when it goes for it has to be one. *)
Section Others.
Context `{P : Platform} (Inv : GlobalState → Prop) (Ret : Z → GlobalState → Prop) (Pan : GlobalState → Prop).

Lemma okw_meet g l (Q : unit → GlobalState → bool → Prop) :
  l = false → Inv g → (∀ g', Inv g' → Q tt g' false) → okw (Some Inv) Ret Pan g l meet Q.
Proof.
  intros -> HI HQ [f b o [|[|f' fs]|]] [Hp Ha] <- Hl; cbn in *; try done; subst b.
  - right. unfold st. cbn. auto.
  - apply Forall_cons in Ha as [[Hf Hi] Ha]. split; [by split|]. by apply HQ.
Qed.

Lemma okw_try_lock g l (Q : bool → GlobalState → bool → Prop) :
  l = false → Inv g → (∀ g', Inv g' → Q true g' true) → okw (Some Inv) Ret Pan g l try_lock_global_state Q.
Proof. intros Hl HI HQ. apply ok_bind, okw_meet; [done..|]. intros g' Hg. apply ok_lock_state. auto. Qed.

(** The mutex is let go with a state of [Inv]. *)
Lemma okw_drop_state g l (Q : unit → GlobalState → bool → Prop) :
  Inv g → (∀ g', Inv g' → Q tt g' false) → okw (Some Inv) Ret Pan g l drop_state Q.
Proof. intros HI HQ. apply ok_bind, ok_unlock_state. by apply okw_meet. Qed.

Lemma okw_lock_or g l failed c (Q : unit → GlobalState → bool → Prop) :
  l = false → Inv g → (∀ g', Inv g' → Q tt g' true) → okw (Some Inv) Ret Pan g l (lock_or failed c) Q.
Proof. intros Hl HI HQ. apply ok_bind, okw_try_lock; [done..|]. intros g' Hg. apply ok_next. auto. Qed.

Lemma okw_if_locked g l m (Q : unit → GlobalState → bool → Prop) :
  l = false → Inv g → (∀ g', Inv g' → okw (Some Inv) Ret Pan g' true m Q) → okw (Some Inv) Ret Pan g l (if_locked m) Q.
Proof. intros Hl HI HQ. apply ok_bind, okw_try_lock; [done..|]. intros g' Hg. by apply HQ. Qed.
End Others.

(** A loop, with an invariant over what is left to do. *)
Section OkLoop.
Context `{P : Platform}.

Lemma ok_for_each {A} E Ret Pan g l (f : A → F unit) xs (Q : unit → GlobalState → bool → Prop) (J : list A → GlobalState → Prop) :
  l = true → J xs g →
  (∀ x xs g, J (x :: xs) g → okw E Ret Pan g true (f x) (λ _ g l, l = true ∧ J xs g)) →
  (∀ g, J [] g → Q tt g true) →
  okw E Ret Pan g l (for_each f xs) Q.
Proof.
  intros -> HJ Hf HQ. revert g HJ. induction xs as [|x xs IH]; intros g HJ; cbn [for_each].
  - apply ok_next. auto.
  - apply ok_bind. eapply ok_weaken; [by apply Hf|]. intros [] g' l' [-> HJ']. by apply IH.
Qed.

Lemma ok_mono {A} E (Ret Ret' : Z → GlobalState → Prop) (Pan Pan' : GlobalState → Prop) g l (m : F A) Q :
  (∀ c g, Ret' c g → Ret c g) → (∀ g, Pan' g → Pan g) → okw E Ret' Pan' g l m Q → okw E Ret Pan g l m Q.
Proof.
  intros HR HP H fr Hp Hg Hl. specialize (H fr Hp Hg Hl). destruct (m fr) as [[a|c|] fr']; cbn in *; naive_solver.
Qed.
End OkLoop.

(** * Relations between frames *)

Section Moves.
Context `{P : Platform} (R : Frame → Frame → Prop) `{PR : !PreOrder R}.

Definition moves {A : Type} (m : F A) : Prop := ∀ fr, R fr (m fr).2.

Lemma moves_bind {A B} (m : F A) (k : A → F B) : moves m → (∀ a, moves (k a)) → moves (fbind m k).
Proof.
  intros Hm Hk fr. unfold fbind. specialize (Hm fr). destruct (m fr) as [[a|c|] fr']; [|done..].
  transitivity fr'; [done|]. apply Hk.
Qed.

Lemma moves_next {A} (a : A) : moves (next a).
Proof. intros fr. done. Qed.

Lemma moves_return {A} c : moves (return_ c : F A).
Proof. intros fr. done. Qed.

Lemma moves_panic {A} : moves (panic : F A).
Proof. intros fr. done. Qed.

Lemma moves_state : moves state.
Proof. intros fr. done. Qed.

Lemma moves_read_ffi {A} (f : Ffi → A) : moves (read_ffi f).
Proof. intros fr. done. Qed.

Lemma moves_call on_panic (m : F Z) f : (∀ fr, R fr (mkFrame (unwind fr) (fr_locked fr) (fr_out fr) (fr_sched fr))) → moves m →
  let '(_, out, f') := call_guard on_panic m f in ∃ l s, R (mkFrame f false [] Alone) (mkFrame f' l out s).
Proof.
  intros Hu H. specialize (H (mkFrame f false [] Alone)). unfold call_guard, guarded. destruct (m _) as [[c|c|] [f' l out s]]; cbn in *; exists l, s; [done..|].
  etransitivity; [done|apply (Hu (mkFrame f' l out s))].
Qed.

Lemma moves_for_each {A} (f : A → F unit) xs : (∀ x, moves (f x)) → moves (for_each f xs).
Proof. intros H. induction xs as [|x xs IH]; cbn; [apply moves_next|]. by apply moves_bind. Qed.
End Moves.

(** What holds of the state, and of every state the call is going to find. *)
Definition throughout `{P : Platform} (I : Ffi → Prop) (fr : Frame) : Prop :=
  I (fr_ffi fr) ∧ match fr_sched fr with Finds fs => Forall I fs | _ => True end.

(** * Running a call *)

Section Run.
Context `{P : Platform}.

Lemma run_next {A B} (m : F A) (k : A → F B) fr a fr' : m fr = (Next a, fr') → fbind m k fr = k a fr'.
Proof. intros H. unfold fbind. by rewrite H. Qed.

Lemma run_return {A B} (m : F A) (k : A → F B) fr code fr' : m fr = (Return code, fr') → fbind m k fr = (Return code, fr').
Proof. intros H. unfold fbind. by rewrite H. Qed.

Lemma run_lock failed code fr :
  f_poisoned (fr_ffi fr) = false → fr_sched fr = Alone → lock_or failed code fr = (Next tt, mkFrame (fr_ffi fr) true (fr_out fr) Alone).
Proof. intros H Hs. unfold lock_or, try_lock_global_state, meet, lock_state, fbind. by rewrite Hs, H, Hs. Qed.

(** The clock of the process [n] readings on. *)
Definition later (n : nat) (f : Ffi) : Ffi :=
  mkFfi (f_state f) (f_poisoned f) (f_world f) (f_engine f) (f_fs f) (n + f_reads f) (f_recovered f) (f_log_level f) (f_catalog f).
End Run.

(** * Automation *)

Ltac head_of m := lazymatch m with ?f _ => head_of f | _ => m end.

(** One step through the code; the leaves are what it may leave behind. *)
Ltac ok_step :=
  lazymatch goal with
  | |- okw _ _ _ _ _ ?m _ =>
      lazymatch m with
      | fbind _ _ => apply ok_bind
      | next _ => apply ok_next
      | return_ _ => apply ok_return
      | panic => apply ok_panic
      | skip => apply ok_next
      | state => apply ok_state
      | update _ => apply ok_update
      | with_ffi _ => apply ok_with_ffi; [done|done|]
      | read_ffi _ => apply ok_read_ffi; intros ?
      | now => apply ok_now; intros ?
      | elapsed _ => apply ok_elapsed; intros ?
      | try_lock_global_state => first [apply ok_try_lock|apply okw_try_lock; [try reflexivity| |intros ? ?]]
      | lock_or _ _ => first [apply ok_lock_or|apply okw_lock_or; [try reflexivity| |intros ? ?]]
      | if_locked _ => first [apply ok_if_locked|apply okw_if_locked; [try reflexivity| |intros ? ?]]
      | drop_state => first [apply ok_drop_state|apply okw_drop_state; [|intros ? ?]]
      | write _ => apply ok_write
      | write_out _ => apply ok_write_out
      | set_out_written_zero _ => apply ok_set_out_written_zero
      | ignore _ => apply ok_ignore
      | engine_call _ => apply ok_engine_call; [|intros ? ?]
      | pipeline_call _ => apply ok_pipeline_call; [|intros [] ?; [| |congruence]]
      | catalog_call _ => apply ok_catalog_call; [|intros [] ?; [| |congruence]]
      | for_each _ _ => fail
      | start_buffer _ _ _ => apply ok_start_buffer; [|intros ?]
      | fetch_kind _ => apply ok_fetch_kind; [|intros ? ?]
      | match ?x with _ => _ end => destruct x eqn:?; try discriminate
      | _ => let h := head_of m in unfold h
      end
  | |- true = true ∨ _ => by left
  end.

Ltac ok_steps := repeat ok_step.

(** Projections of states that were updated. *)
Ltac project :=
  cbn [g_env g_connections g_transactions g_xa_active g_xa_preparing g_xa_prepared g_statements g_streams
    g_stream_connections g_pending_stream_chunks g_pending_result_buffers g_pools g_pooled_connections g_pooled_free_ids
    g_next_stream_id g_next_pool_id g_next_pooled_conn_id g_next_txn_id g_next_xa_id g_next_stmt_id g_async_requests g_connection_errors g_last_error g_last_structured_error g_metadata_cache g_metrics g_audit_logger
    set_g_env set_g_connections set_g_transactions set_g_xa_active set_g_xa_preparing set_g_xa_prepared set_g_statements
    set_g_streams set_g_stream_connections set_g_pending_stream_chunks set_g_pending_result_buffers set_g_pools
    set_g_pooled_connections set_g_pooled_free_ids set_g_next_stream_id set_g_next_pool_id set_g_next_pooled_conn_id
    set_g_next_txn_id set_g_next_xa_id set_g_next_stmt_id set_g_last_error set_g_last_structured_error set_g_connection_errors
    set_g_async_requests set_g_metadata_cache set_g_metrics set_g_audit_logger compose] in *.

Ltac moves_step prim :=
  lazymatch goal with
  | |- moves _ ?m =>
      lazymatch m with
      | fbind _ _ => apply moves_bind; [typeclasses eauto| |intros ?]
      | next _ => apply moves_next; typeclasses eauto
      | return_ _ => apply moves_return; typeclasses eauto
      | panic => apply moves_panic; typeclasses eauto
      | skip => apply moves_next; typeclasses eauto
      | state => apply moves_state; typeclasses eauto
      | read_ffi _ => apply moves_read_ffi; typeclasses eauto
      | match ?x with _ => _ end => destruct x eqn:?; try discriminate
      | _ => first [prim | let h := head_of m in unfold h]
      end
  end.
