(* ===== verification/FfiMachine.v ===== *)
(** The library as its client sees it: calls to the entry points of ffi/mod.rs one after
    another, with the workers of asynchronous requests in between.

    [Call] lists the entry points with what their pointers point to and with what the
    runtime decides; [run_call] is the body of each and [dispatch] adds the panic guard. *)

From S2P Require Import Prelude Wire Errors ParamValue Compression Text Security DiskSpill Streaming StreamSources Caches OutputParams.
From S2P Require Import Handles Transaction Xid Xa Execution Pool AsyncRequests Chunking FfiState FfiSession FfiXa FfiQuery FfiStreams FfiPool FfiInfo FfiCatalog.

Abbreviation Bytes := (option (list byte)).

(** * Calls *)

Inductive Call :=
| CInit
| CSetLogLevel (level : Z)
| CGetVersion (b : OutBuf)
| CValidateConnectionString (conn_str : CString) (error_null : bool) (error_len : Z)
| CConnect (conn_str : CString)
| CConnectWithTimeout (conn_str : CString) (timeout_ms : Z)
| CDisconnect (dropped : bool) (conn_id : Z)
| CTransactionBegin (conn_id isolation dialect : Z)
| CTransactionBeginV2 (conn_id isolation dialect access : Z)
| CTransactionBeginV3 (conn_id isolation dialect access lock_timeout_ms : Z)
| CTransactionCommit (txn_id : Z)
| CTransactionRollback (txn_id : Z)
| CSavepointCreate (txn_id : Z) (name : CString)
| CSavepointRollback (txn_id : Z) (name : CString)
| CSavepointRelease (txn_id : Z) (name : CString)
| CXaStart (conn_id format_id : Z) (gtrid : Bytes) (gtrid_len : Z) (bqual : Bytes) (bqual_len : Z)
| CXaEnd (xa_id : Z)
| CXaPrepare (xa_id : Z)
| CXaCommitPrepared (xa_id : Z)
| CXaRollbackPrepared (xa_id : Z)
| CXaCommitOnePhase (xa_id : Z)
| CXaRollbackActive (xa_id : Z)
| CXaRecoverCount (conn_id : Z)
| CXaRecoverGet (index : Z) (lens_null gtrid_null : bool) (gtrid_buf_len : Z) (bqual_null : bool) (bqual_buf_len : Z)
| CXaResumePrepared (conn_id format_id : Z) (gtrid : Bytes) (gtrid_len : Z) (bqual : Bytes) (bqual_len : Z)
| CExecQuery (conn_id : Z) (sql : CString) (b : OutBuf)
| CExecQueryParams (conn_id : Z) (sql : CString) (params : Bytes) (b : OutBuf)
| CExecQueryMulti (conn_id : Z) (sql : CString) (b : OutBuf)
| CExecQueryMultiParams (conn_id : Z) (sql : CString) (params : Bytes) (b : OutBuf)
| CPrepare (conn_id : Z) (sql : CString) (timeout_ms : Z)
| CExecute (stmt_id : Z) (params : Bytes) (timeout_override_ms fetch_size : Z) (b : OutBuf)
| CCancel (stmt_id : Z)
| CCloseStatement (stmt_id : Z)
| CClearAllStatements
| CExecuteAsync (spawned : bool) (conn_id : Z) (sql : CString)
| CAsyncPoll (request_id : Z) (status_null : bool)
| CAsyncGetResult (request_id : Z) (b : OutBuf)
| CAsyncCancel (dropped : bool) (request_id : Z)
| CAsyncFree (dropped : bool) (request_id : Z)
| CStreamStart (conn_id : Z) (sql : CString) (chunk_size : Z)
| CStreamStartBatched (cancel : nat → bool) (conn_id : Z) (sql : CString) (fetch_size chunk_size : Z)
| CStreamStartAsync (cancel : nat → bool) (conn_id : Z) (sql : CString) (fetch_size chunk_size : Z)
| CStreamMultiStartBatched (cancel : nat → bool) (conn_id : Z) (sql : CString) (chunk_size : Z)
| CStreamMultiStartAsync (cancel : nat → bool) (conn_id : Z) (sql : CString) (chunk_size : Z)
| CStreamPollAsync (arrived : bool) (stream_id : Z) (status_null : bool)
| CStreamFetch (stream_id : Z) (b : OutBuf) (has_more_null : bool)
| CStreamCancel (stream_id : Z)
| CStreamClose (stream_id : Z)
| CPoolCreate (conn_str : CString) (max_size : Z)
| CPoolCreateWithOptions (parse : string → option PoolOptions) (conn_str : CString) (max_size : Z) (options_json : CString)
| CPoolGetConnection (pool_id : Z)
| CPoolReleaseConnection (connection_id : Z)
| CPoolHealthCheck (pool_id : Z)
| CPoolGetState (pool_id : Z) (size_null idle_null : bool)
| CPoolGetStateJson (pool_id : Z) (b : OutBuf)
| CPoolSetSize (pool_id new_max_size : Z)
| CPoolClose (pool_id : Z)
| CBulkInsertArray (conn_id : Z) (data : Bytes) (rows_null : bool)
| CBulkInsertParallel (wk : Z * Z → Worker) (pool_id : Z) (data : Bytes) (parallelism : Z) (rows_null : bool)
| CGetError (buffer_null : bool) (buffer_len : Z)
| CGetStructuredError (b : OutBuf)
| CGetStructuredErrorFor (conn_id : Z) (b : OutBuf)
| CGetMetrics (b : OutBuf)
| CAuditEnable (enabled : Z)
| CAuditGetEvents (b : OutBuf) (limit : Z)
| CAuditClear
| CAuditGetStatus (b : OutBuf)
| CMetadataCacheEnable (max_size ttl_secs : Z)
| CMetadataCacheStats (b : OutBuf)
| CMetadataCacheClear
| CGetCacheMetrics (b : OutBuf)
| CClearStatementCache
| CDetectDriver (conn_str : CString) (buffer_null : bool) (buffer_len : Z)
| CGetDriverCapabilities (conn_str : CString) (b : OutBuf)
| CGetConnectionDbmsInfo (conn_id : Z) (b : OutBuf)
| CBuildUpsertSql (conn_str table payload_json : CString) (b : OutBuf)
| CAppendReturningSql (conn_str sql : CString) (verb : Z) (columns_csv : CString) (b : OutBuf)
| CGetSessionInitSql (conn_str options_json : CString) (b : OutBuf)
| CCatalogTables (conn_id : Z) (catalog schema : CString) (b : OutBuf)
| CCatalogColumns (conn_id : Z) (table : CString) (b : OutBuf)
| CCatalogTypeInfo (conn_id : Z) (b : OutBuf)
| CCatalogPrimaryKeys (conn_id : Z) (table : CString) (b : OutBuf)
| CCatalogForeignKeys (conn_id : Z) (table : CString) (b : OutBuf)
| CCatalogIndexes (conn_id : Z) (table : CString) (b : OutBuf).

(** The entry points that return an id, and 0 when they fail. *)
Definition returns_id (c : Call) : bool :=
  match c with
  | CConnect _ | CConnectWithTimeout _ _ | CTransactionBegin _ _ _ | CTransactionBeginV2 _ _ _ _ | CTransactionBeginV3 _ _ _ _ _
  | CXaStart _ _ _ _ _ _ | CXaResumePrepared _ _ _ _ _ _ | CPrepare _ _ _ | CExecuteAsync _ _ _ | CStreamStart _ _ _
  | CStreamStartBatched _ _ _ _ _ | CStreamStartAsync _ _ _ _ _ | CStreamMultiStartBatched _ _ _ _ | CStreamMultiStartAsync _ _ _ _
  | CPoolCreate _ _ | CPoolCreateWithOptions _ _ _ _ | CPoolGetConnection _ => true
  | _ => false
  end.

Section Machine.
Context `{P : Platform}.

Definition run_call (c : Call) : F Z :=
  match c with
  | CInit => odbc_init
  | CSetLogLevel level => odbc_set_log_level level
  | CGetVersion b => odbc_get_version b
  | CValidateConnectionString s null n => odbc_validate_connection_string s null n
  | CConnect s => odbc_connect s
  | CConnectWithTimeout s t => odbc_connect_with_timeout s t
  | CDisconnect dropped c => odbc_disconnect dropped c
  | CTransactionBegin c i d => odbc_transaction_begin c i d
  | CTransactionBeginV2 c i d a => odbc_transaction_begin_v2 c i d a
  | CTransactionBeginV3 c i d a t => odbc_transaction_begin_v3 c i d a t
  | CTransactionCommit t => odbc_transaction_commit t
  | CTransactionRollback t => odbc_transaction_rollback t
  | CSavepointCreate t n => odbc_savepoint_create t n
  | CSavepointRollback t n => odbc_savepoint_rollback t n
  | CSavepointRelease t n => odbc_savepoint_release t n
  | CXaStart c f g gl b bl => odbc_xa_start c f g gl b bl
  | CXaEnd x => odbc_xa_end x
  | CXaPrepare x => odbc_xa_prepare x
  | CXaCommitPrepared x => odbc_xa_commit_prepared x
  | CXaRollbackPrepared x => odbc_xa_rollback_prepared x
  | CXaCommitOnePhase x => odbc_xa_commit_one_phase x
  | CXaRollbackActive x => odbc_xa_rollback_active x
  | CXaRecoverCount c => odbc_xa_recover_count c
  | CXaRecoverGet i l gn gl bn bl => odbc_xa_recover_get i l gn gl bn bl
  | CXaResumePrepared c f g gl b bl => odbc_xa_resume_prepared c f g gl b bl
  | CExecQuery c s b => odbc_exec_query c s b
  | CExecQueryParams c s p b => odbc_exec_query_params c s p b
  | CExecQueryMulti c s b => odbc_exec_query_multi c s b
  | CExecQueryMultiParams c s p b => odbc_exec_query_multi_params c s p b
  | CPrepare c s t => odbc_prepare c s t
  | CExecute s p t f b => odbc_execute s p t f b
  | CCancel s => odbc_cancel s
  | CCloseStatement s => odbc_close_statement s
  | CClearAllStatements => odbc_clear_all_statements
  | CExecuteAsync sp c s => odbc_execute_async sp c s
  | CAsyncPoll r n => odbc_async_poll r n
  | CAsyncGetResult r b => odbc_async_get_result r b
  | CAsyncCancel d r => odbc_async_cancel d r
  | CAsyncFree d r => odbc_async_free d r
  | CStreamStart c s n => odbc_stream_start c s n
  | CStreamStartBatched k c s f n => odbc_stream_start_batched k c s f n
  | CStreamStartAsync k c s f n => odbc_stream_start_async k c s f n
  | CStreamMultiStartBatched k c s n => odbc_stream_multi_start_batched k c s n
  | CStreamMultiStartAsync k c s n => odbc_stream_multi_start_async k c s n
  | CStreamPollAsync a s n => odbc_stream_poll_async a s n
  | CStreamFetch s b n => odbc_stream_fetch s b n
  | CStreamCancel s => odbc_stream_cancel s
  | CStreamClose s => odbc_stream_close s
  | CPoolCreate s n => odbc_pool_create s n
  | CPoolCreateWithOptions parse s n o => odbc_pool_create_with_options parse s n o
  | CPoolGetConnection p => odbc_pool_get_connection p
  | CPoolReleaseConnection c => odbc_pool_release_connection c
  | CPoolHealthCheck p => odbc_pool_health_check p
  | CPoolGetState p a b => odbc_pool_get_state p a b
  | CPoolGetStateJson p b => odbc_pool_get_state_json p b
  | CPoolSetSize p n => odbc_pool_set_size p n
  | CPoolClose p => odbc_pool_close p
  | CBulkInsertArray c d n => odbc_bulk_insert_array c d n
  | CBulkInsertParallel wk p d k n => odbc_bulk_insert_parallel wk p d k n
  | CGetError n k => odbc_get_error n k
  | CGetStructuredError b => odbc_get_structured_error b
  | CGetStructuredErrorFor c b => odbc_get_structured_error_for_connection c b
  | CGetMetrics b => odbc_get_metrics b
  | CAuditEnable e => odbc_audit_enable e
  | CAuditGetEvents b n => odbc_audit_get_events b n
  | CAuditClear => odbc_audit_clear
  | CAuditGetStatus b => odbc_audit_get_status b
  | CMetadataCacheEnable n t => odbc_metadata_cache_enable n t
  | CMetadataCacheStats b => odbc_metadata_cache_stats b
  | CMetadataCacheClear => odbc_metadata_cache_clear
  | CGetCacheMetrics b => odbc_get_cache_metrics b
  | CClearStatementCache => odbc_clear_statement_cache
  | CDetectDriver s n k => odbc_detect_driver s n k
  | CGetDriverCapabilities s b => odbc_get_driver_capabilities s b
  | CGetConnectionDbmsInfo c b => odbc_get_connection_dbms_info c b
  | CBuildUpsertSql s t j b => odbc_build_upsert_sql s t j b
  | CAppendReturningSql s q v k b => odbc_append_returning_sql s q v k b
  | CGetSessionInitSql s o b => odbc_get_session_init_sql s o b
  | CCatalogTables c k s b => odbc_catalog_tables c k s b
  | CCatalogColumns c t b => odbc_catalog_columns c t b
  | CCatalogTypeInfo c b => odbc_catalog_type_info c b
  | CCatalogPrimaryKeys c t b => odbc_catalog_primary_keys c t b
  | CCatalogForeignKeys c t b => odbc_catalog_foreign_keys c t b
  | CCatalogIndexes c t b => odbc_catalog_indexes c t b
  end.

Definition dispatch (c : Call) : Ffi → Z * Out * Ffi := if returns_id c then call_id (run_call c) else call_int (run_call c).

(** * Workers of asynchronous requests *)

(** The steps of the worker of slot [n]: it gets a thread, runs its query, reads the cancel
    flag and stores the outcome. *)
Inductive WorkerStep := WStart (n : nat) | WRun (n : nat) | WDecide (n : nat) | WStore (n : nat).

Definition set_requests (m : AsyncRequestManager) (f : Ffi) : Ffi := set_state (set_g_async_requests m (f_state f)) f.

(** The workers do not take the global mutex: a poisoned state does not stop them. *)
Definition worker_step (s : WorkerStep) (f : Ffi) : Ffi :=
  let m := g_async_requests (f_state f) in
  match s with
  | WStart n => set_requests (job_start n m) f
  | WRun n =>
      match am_jobs m !! n, am_slots m !! n, am_sql m !! n with
      | Some JRunning, Some slot, Some sql =>
          let '(r, e, w) := run_async_query (as_conn_id slot) sql (f_engine f) (f_world f) in
          set_requests (job_finish n r m) (set_world e w f)
      | _, _, _ => f
      end
  | WDecide n => set_requests (job_decide n m) f
  | WStore n => set_requests (job_store n m) f
  end.

(** * Runs *)

Inductive Event := ECall (c : Call) | EWorker (s : WorkerStep).

Definition ffi_step (ev : Event) (f : Ffi) : Ffi :=
  match ev with ECall c => (dispatch c f).2 | EWorker s => worker_step s f end.

Definition ffi_run (evs : list Event) (f : Ffi) : Ffi := foldl (λ f ev, ffi_step ev f) f evs.

(** The process before the first call: the values of the two environment variables of the
    metadata cache, the world and the files as they are, the engines of the two pipelines. *)
Definition ffi_initial (size ttl : option string) (w : World) (e catalog : ExecutionEngine) (fs : Fs) : Ffi :=
  mkFfi (initial_state size ttl) false w e fs 1 [] 0 catalog.
End Machine.
