(* ===== verification/FfiDemo.v ===== *)
(** A concrete platform and a short session on it, for the witnesses of the theorems about the
    C entry points. *)

From S2P Require Import Prelude Wire Errors ParamValue Compression Text Security DiskSpill Streaming StreamSources Caches OutputParams.
From S2P Require Import Capabilities SessionInit Handles Transaction Xid Xa Execution Pool AsyncRequests ArrayBinding Chunking FfiState FfiSession FfiXa FfiQuery FfiStreams FfiPool FfiInfo FfiCatalog FfiMachine.

(** Drivers that say yes, a pool that hands out connection 0, a hash that is the length, a
    clock that stands still. *)
Definition demo_pools : PoolDriver := {|
  pd_env := None;
  pd_build := λ _ _, (Ok 1, []);
  pd_get := λ _ _, (Ok 0%nat, []);
  pd_put := λ _ _ _, [];
  pd_state := λ _ _, (1, 1)
|}.

(** A writer of JSON that writes what is asked for in the tests, and a reader of two payloads. *)
Definition demo_json : Json := {|
  json_audit_events := λ es, Some (concat (map (λ e, as_bytes (ae_event_type e.2)) es));
  json_audit_status := λ enabled n, Some (as_bytes (fmt_Z n));
  json_cache_stats := λ s, Some (as_bytes (fmt_Z (ms_payload_entries s)));
  json_capabilities := λ c, Some (driver_name c);
  json_dbms_info := λ i, Some (di_engine i);
  json_strings := λ ss, Some (join "," ss);
  json_upsert_payload := λ s, if String.eqb s "{}" then Some (["id"; "name"], ["id"], None) else None;
  json_session_options := λ s, if String.eqb s "{}" then Some session_default else None
|}.

Definition demo_platform : Platform := {|
  pf_lru_statements := list_lru;
  pf_lru_schemas := list_lru;
  pf_lru_payloads := list_lru;
  pf_driver := ok_driver;
  pf_queries := sample_queries;
  pf_pools := demo_pools;
  pf_buffers := plain_buffers;
  pf_codec := stored_ops;
  pf_json := demo_json;
  pf_environment := λ _, Ok tt;
  hash_bytes := λ bs, len bs;
  clock := λ _, 0;
  pf_pool_env := mkPoolEnv None None;
  pf_spill_threshold_mb := None;
  pf_temp_dir := "/tmp"
|}.

#[local] Existing Instance demo_platform.

Definition c_string (s : string) : CString := Some (as_bytes s).

Definition demo_start : Ffi := ffi_initial None None sample_world sample_engine sample_engine (mkFs ∅ 0 []).

(** A connection (1), a statement (1), a transaction (1). *)
Definition demo_open : Ffi :=
  ffi_run [ECall CInit; ECall (CConnect (c_string "DSN=a")); ECall (CPrepare 1 (c_string "SELECT 1") 0); ECall (CTransactionBegin 1 1 0)] demo_start.

Example demo_open_connections : map fst (map_to_list (g_connections (f_state demo_open))) = [1].
Proof. vm_compute. reflexivity. Qed.
