(* ===== verification/FfiPoison.v ===== *)
(** After a panic under the global mutex: every entry point refuses, and nothing happens. *)

From S2P Require Import Prelude Wire Errors ParamValue Compression Text Security DiskSpill Streaming StreamSources Caches OutputParams.
From S2P Require Import Handles Transaction Xid Xa Execution Pool AsyncRequests Chunking FfiState FfiSession FfiXa FfiQuery FfiStreams FfiPool FfiInfo FfiCatalog FfiLogic FfiMachine FfiDemo.

Section Dead.
Context `{P : Platform}.

Definition doomed (fr : Frame) : Prop := f_poisoned (fr_ffi fr) = true ∧ fr_sched fr = Alone.

(** Once the mutex is poisoned, [m] changes nothing and writes no data; it returns a code
    of [Bad], or goes on with a value of [Q]. *)
Definition dead {A : Type} (Bad : Z → Prop) (m : F A) (Q : A → Prop) : Prop :=
  ∀ fr, doomed fr →
    (fr_ffi (m fr).2 = fr_ffi fr ∧ fr_sched (m fr).2 = Alone) ∧ bytes_at ToBuffer (fr_out (m fr).2) = bytes_at ToBuffer (fr_out fr) ∧
    match (m fr).1 with Next a => Q a | Return c => Bad c | Panicked => True end ∧ (fr_locked fr = false → fr_locked (m fr).2 = false).

Implicit Types (Bad : Z → Prop).

Lemma dead_bind {A B} Bad (m : F A) (k : A → F B) Q : dead Bad m (λ a, dead Bad (k a) Q) → dead Bad (fbind m k) Q.
Proof.
  intros H fr Hp. specialize (H fr Hp). unfold fbind. destruct (m fr) as [[a|c|] fr']; cbn in *; [|done..].
  destruct H as ([Hf Hs] & Ho & Hk & Hl). assert (doomed fr') as Hp' by (destruct Hp; split; congruence).
  destruct (Hk fr' Hp') as ([Hf' Hs'] & Ho' & ? & ?). split_and!; [congruence|done|congruence|done|auto].
Qed.

Lemma dead_next {A} Bad (a : A) (Q : A → Prop) : Q a → dead Bad (next a) Q.
Proof. intros H fr []. done. Qed.

Lemma dead_return {A} Bad c (Q : A → Prop) : Bad c → dead Bad (return_ c) Q.
Proof. intros H fr []. done. Qed.

Lemma dead_panic {A} Bad (Q : A → Prop) : dead Bad panic Q.
Proof. intros fr []. done. Qed.

Lemma dead_weaken {A} Bad (m : F A) (Q Q' : A → Prop) : dead Bad m Q → (∀ a, Q a → Q' a) → dead Bad m Q'.
Proof. intros H HQ fr Hp. destruct (H fr Hp) as ([? ?] & ? & Hm & ?). split_and!; [done..| |done]. destruct (m fr) as [[a|c|] fr']; cbn in *; auto. Qed.

Lemma dead_lock_or Bad failed c (Q : unit → Prop) : Bad c → dead Bad failed (λ _, True) → dead Bad (lock_or failed c) Q.
Proof.
  intros Hc Hf. apply dead_bind. intros fr [Hp Ha]. unfold try_lock_global_state, meet, lock_state, fbind. rewrite Ha, Hp. split_and!; [done..| |done].
  apply dead_bind. eapply dead_weaken; [done|]. intros [] _. by apply dead_return.
Qed.

Lemma dead_write_int Bad t z (Q : unit → Prop) : Q tt → dead Bad (write (WInt t z)) Q.
Proof.
  intros H fr [Hp Ha]. split_and!; [done..| |done|done]. cbn. induction (fr_out fr) as [|[t' d|t' z'] o IH]; cbn; [done|by rewrite IH|done].
Qed.

Lemma dead_zero Bad b (Q : unit → Prop) : Q tt → dead Bad (set_out_written_zero b) Q.
Proof. intros H. unfold set_out_written_zero. destruct (ob_written_null b); [by apply dead_next|by apply dead_write_int]. Qed.
End Dead.

Ltac dead_step :=
  lazymatch goal with
  | |- dead _ ?m _ =>
      lazymatch m with
      | fbind _ _ => apply dead_bind
      | next _ => apply dead_next
      | return_ _ => apply dead_return
      | panic => apply dead_panic
      | skip => apply dead_next
      | lock_or _ _ => apply dead_lock_or
      | set_out_written_zero _ => apply dead_zero
      | write (WInt _ _) => apply dead_write_int
      | match ?x with _ => _ end => destruct x eqn:?; try discriminate
      | _ => let h := head_of m in unfold h
      end
  end.

(** The entry points that do not use the global state, and those that make a pool first. *)
Definition stateless (c : Call) : bool :=
  match c with CSetLogLevel _ | CGetVersion _ | CValidateConnectionString _ _ _ | CXaRecoverGet _ _ _ _ _ _ | CDetectDriver _ _ _ | CGetDriverCapabilities _ _
  | CBuildUpsertSql _ _ _ _ | CAppendReturningSql _ _ _ _ _ | CGetSessionInitSql _ _ _ => true | _ => false end.

Definition makes_pool (c : Call) : bool :=
  match c with CPoolCreate _ _ | CPoolCreateWithOptions _ _ _ _ => true | _ => false end.

(** The codes of a refused call: 0 for no id, and for a pool that is not healthy. *)
Definition refused (c : Call) (code : Z) : Prop :=
  match c with
  | CPoolHealthCheck _ => code ≤ 0
  | _ => if returns_id c then code = 0 else code < 0 ∨ code = 1
  end.

Section Poisoned.
Context `{P : Platform}.

Lemma dead_call c : stateless c = false → makes_pool c = false → dead (refused c) (run_call c) (refused c).
Proof. destruct c; intros ? ?; try done; cbn [run_call]; repeat dead_step; try done; cbn; auto; try lia. Qed.
Lemma unwind_poisoned fr : f_poisoned (fr_ffi fr) = true → unwind fr = fr_ffi fr.
Proof. intros Hp. unfold unwind. rewrite Hp. cbn. rewrite <- Hp. by destruct (fr_ffi fr). Qed.

Lemma lock_or_poisoned fr c : doomed fr → lock_or skip c fr = (Return c, fr).
Proof. intros [Hp Ha]. unfold lock_or, try_lock_global_state, meet, lock_state, fbind. by rewrite Ha, Hp. Qed.

(** A pool is built before the state is asked for. *)
Lemma pool_create_poisoned conn_str n o f : f_poisoned f = true →
  ∃ f', call_id (pool_create_inner conn_str n o) f = (0, [], f') ∧ f_state f' = f_state f ∧ f_poisoned f' = true.
Proof.
  intros Hp. unfold call_id, call_guard, guarded, pool_create_inner, engine_call, fbind at 1. cbn [fr_ffi fr_locked fr_out].
  destruct (new_with_options pf_pool_env conn_str n o (f_world f)) as [[p|e|] w]; cbn [of_result].
  1,2: unfold fbind at 1; rewrite lock_or_poisoned by (split; [exact Hp|done]); eexists; split; [reflexivity|done].
  eexists. split; [reflexivity|]. cbn. by rewrite Hp.
Qed.

Lemma makes_pool_cases c f : makes_pool c = true →
  dispatch c f = (0, [], f) ∨ ∃ s n o, dispatch c f = call_id (pool_create_inner s n o) f.
Proof.
  destruct c; intros H; try discriminate; unfold dispatch, run_call; cbn [returns_id];
    unfold odbc_pool_create, odbc_pool_create_with_options; repeat case_match; eauto.
Qed.

Lemma worker_poisoned s f : f_poisoned (worker_step s f) = f_poisoned f.
Proof. destruct s; cbn [worker_step]; repeat case_match; done. Qed.

Definition same_lock (a b : Frame) : Prop := f_poisoned (fr_ffi b) = f_poisoned (fr_ffi a) ∧ fr_locked b = fr_locked a.

#[local] Instance same_lock_preorder : PreOrder same_lock.
Proof. split; [done|]. intros a b c [H1 H2] [H3 H4]. split; congruence. Qed.

Lemma stateless_moves c : stateless c = true → moves same_lock (run_call c).
Proof. destruct c; intros H; try discriminate; cbn [run_call]; repeat moves_step ltac:(by intros fr). Qed.

Lemma stateless_poisoned c f : stateless c = true → f_poisoned (dispatch c f).2 = f_poisoned f.
Proof.
  intros H. pose proof (stateless_moves c H (mkFrame f false [] Alone)) as [Hp Hl]. unfold dispatch, call_int, call_id, call_guard, guarded.
  destruct (returns_id c), (run_call c _) as [[code|code|] fr]; cbn in *; try done; unfold unwind; cbn; by rewrite Hl, Hp, orb_false_r.
Qed.

Lemma poisoned_refuses_lemma (c : Call) (f : Ffi) :
  f_poisoned f = true → stateless c = false →
  let '(code, out, f') := dispatch c f in
  refused c code ∧ bytes_at ToBuffer out = None ∧ f_state f' = f_state f ∧ f_poisoned f' = true ∧ (makes_pool c = false → f' = f).
Proof.
  intros Hp Hs. destruct (makes_pool c) eqn:Hm.
  - assert (∀ code, code = 0 → refused c code) as Hr by (intros code ->; by destruct c).
    destruct (makes_pool_cases c f Hm) as [->|(s & n & o & ->)]; [split_and!; auto|].
    destruct (pool_create_poisoned s n o f Hp) as (f' & -> & Hf & Hp'). split_and!; auto; done.
  - destruct (dead_call c Hs Hm (mkFrame f false [] Alone) (conj Hp eq_refl)) as ([Hf _] & Ho & Hr & Hl). cbn in Hf, Ho. specialize (Hl eq_refl).
    unfold dispatch, call_id, call_int, call_guard, guarded.
    destruct (returns_id c) eqn:Hi; destruct (run_call c _) as [[code|code|] fr]; cbn in *; rewrite ?unwind_poisoned by congruence; rewrite Hf, ?Hp;
      (split_and!; [|done..]); try done.
    + by destruct c.
    + destruct c; try discriminate; cbn; unfold FFI_PANIC; lia.
Qed.

Lemma dispatch_poisoned c f : f_poisoned f = true → f_poisoned (dispatch c f).2 = true.
Proof.
  intros Hp. destruct (stateless c) eqn:Hs; [by rewrite stateless_poisoned|].
  pose proof (poisoned_refuses_lemma c f Hp Hs) as H. destruct (dispatch c f) as [[code out] f']. apply H.
Qed.

(** C7: a panic that poisoned the global mutex is final.  Every entry point that uses the state then
    fails with its error code and leaves the state as it is, writes nothing into a result
    buffer and, unless it is one of the two that build a pool before they look at the state,
    changes nothing at all: no driver is called, no clock read, no file touched. *)
Theorem poisoned_refuses (c : Call) (f : Ffi) :
  f_poisoned f = true → stateless c = false →
  let '(code, out, f') := dispatch c f in
  refused c code ∧ bytes_at ToBuffer out = None ∧ f_state f' = f_state f ∧ f_poisoned f' = true ∧ (makes_pool c = false → f' = f).
Proof. apply poisoned_refuses_lemma. Qed.
End Poisoned.

(** The session of [demo_open] after a panic: its transaction is refused a commit. *)
Definition demo_poisoned : Ffi :=
  mkFfi (f_state demo_open) true (f_world demo_open) (f_engine demo_open) (f_fs demo_open) (f_reads demo_open) [] 0 (f_catalog demo_open).

Lemma poisoned_refuses_witness :
  dispatch (P := demo_platform) (CTransactionCommit 1) demo_poisoned = (-1, [], demo_poisoned) ∧
  refused (CTransactionCommit 1) (-1).
Proof.
  pose proof (poisoned_refuses (P := demo_platform) (CTransactionCommit 1) demo_poisoned eq_refl eq_refl) as H.
  destruct (dispatch (CTransactionCommit 1) demo_poisoned) as [[code out] f'] eqn:E.
  destruct H as (Hr & _ & _ & _ & Hf). rewrite (Hf eq_refl) in *.
  apply (f_equal fst) in E. vm_compute in E. injection E as <- <-. split; [done|exact Hr].
Defined.
