(* ===== verification/FfiInvariant.v ===== *)
(** What the global mutex protects: the tables of the C entry points stay consistent through
    every call, unless a panic has poisoned the mutex. *)

From S2P Require Import Prelude Wire Errors ParamValue Compression Text Security DiskSpill Streaming StreamSources Caches OutputParams.
From S2P Require Import Handles Transaction Xid Xa Execution Pool AsyncRequests Chunking FfiState FfiSession FfiXa FfiQuery FfiStreams FfiPool FfiInfo FfiCatalog FfiLogic FfiMachine FfiDemo FfiPoison.

(** * The tables *)

(** The ids of a table are 32-bit and not 0, the value that says that a call failed; the
    counter the next one is taken from is 32-bit. *)
Definition ids_ok {A : Type} (m : gmap Z A) (next : Z) : Prop := u32_range next ∧ ∀ id, is_Some (m !! id) → 0 < id < 2 ^ 32.

Record txns_ok (conns : gmap Z OdbcConnection) (txns : gmap Z Transaction) : Prop := mkTxnsOk {
  txns_active id t : txns !! id = Some t → active t ∧ is_Some (conns !! t_conn_id t);
  txns_one id id' t t' : txns !! id = Some t → txns !! id' = Some t' → t_conn_id t = t_conn_id t' → id = id'
}.

(** One branch, one table. *)
Record xa_ok (act : gmap Z XaTransaction) (preparing : gmap Z PreparingXa) (prepared : gmap Z PreparedXa) (next : Z) : Prop := mkXaOk {
  xa_next : u32_range next;
  xa_ids id : id ∈ dom act ∪ dom preparing ∪ dom prepared → 0 < id < 2 ^ 32;
  xa_active_preparing : dom act ## dom preparing;
  xa_active_prepared : dom act ## dom prepared;
  xa_preparing_prepared : dom preparing ## dom prepared
}.

Record streams_ok {A B C : Type} (conns : gmap Z A) (streams : gmap Z B) (owners : gmap Z Z) (chunks : gmap Z C) : Prop := mkStreamsOk {
  streams_owned id : is_Some (streams !! id) → is_Some (owners !! id);
  streams_open id c : owners !! id = Some c → is_Some (conns !! c);
  streams_chunks id : is_Some (chunks !! id) → is_Some (owners !! id)
}.

Definition pools_ok {A B : Type} (pools : gmap Z A) (pooled : gmap Z (Z * B)) : Prop :=
  ∀ id p c, pooled !! id = Some (p, c) → is_Some (pools !! p).

(** The ids kept for reuse are those of connections that were checked out. *)
Definition free_ids_ok (free : gmap Z (list Z)) : Prop := ∀ p ids id, free !! p = Some ids → id ∈ ids → 0 < id < 2 ^ 32.

Section Tables.
Context {A B C D : Type}.
Implicit Types (m : gmap Z A).

Lemma ids_ok_empty next : u32_range next → ids_ok (∅ : gmap Z A) next.
Proof. intros H. split; [done|]. intros id [? ?]. done. Qed.

Lemma ids_ok_sub m m' next : ids_ok m next → (∀ id, is_Some (m' !! id) → is_Some (m !! id)) → ids_ok m' next.
Proof. intros [Hn H] Hs. split; [done|]. auto. Qed.

Lemma is_Some_delete m i id : is_Some (delete i m !! id) → id ≠ i ∧ is_Some (m !! id).
Proof. intros [a H]. apply lookup_delete_Some in H as [? ?]. eauto. Qed.

Lemma is_Some_insert m i a id : is_Some (<[i := a]> m !! id) → id = i ∨ is_Some (m !! id).
Proof. intros [b H]. apply lookup_insert_Some in H as [[-> _]|[_ ?]]; eauto. Qed.

Lemma ids_ok_delete m next i : ids_ok m next → ids_ok (delete i m) next.
Proof. intros H. eapply ids_ok_sub; [done|]. intros id Hid. by apply is_Some_delete in Hid as [_ ?]. Qed.

Lemma ids_ok_filter m next (P' : Z * A → Prop) {HD : ∀ x, Decision (P' x)} : ids_ok m next → ids_ok (filter P' m) next.
Proof. intros H. eapply ids_ok_sub; [done|]. intros id [a Ha]. apply map_lookup_filter_Some in Ha as [? _]. eauto. Qed.

(** Replacing an entry. *)
Lemma ids_ok_replace m next i a : ids_ok m next → is_Some (m !! i) → ids_ok (<[i := a]> m) next.
Proof. intros H Hi. eapply ids_ok_sub; [done|]. intros id Hid. apply is_Some_insert in Hid as [->|?]; done. Qed.

Lemma ids_ok_put m next i a : ids_ok m next → 0 < i < 2 ^ 32 → ids_ok (<[i := a]> m) next.
Proof. intros [Hn H] Hi. split; [done|]. intros id Hid. apply is_Some_insert in Hid as [->|?]; auto. Qed.

(** An id from the counter. *)
Lemma ids_ok_alloc m next id next' :
  ids_ok m next → alloc (dom m) next = (id, next') → ids_ok m next' ∧ (id ≠ 0 → 0 < id < 2 ^ 32 ∧ m !! id = None).
Proof.
  intros [Hn H] Ha. destruct (alloc_id_sound _ _ _ _ _ Hn Ha) as [Hn' Hid]. split; [by split|]. intros H0.
  destruct Hid as [?|[? Hd]]; [done|]. split; [done|]. by apply not_elem_of_dom.
Qed.

Lemma streams_ok_empty m : streams_ok m (∅ : gmap Z B) ∅ (∅ : gmap Z C).
Proof. split; [intros id [? ?]|intros id c ?|intros id [? ?]]; done. Qed.

Lemma streams_ok_connect m (s : gmap Z B) o (c : gmap Z C) i a : streams_ok m s o c → streams_ok (<[i := a]> m) s o c.
Proof. intros [H1 H2 H3]. split; [done| |done]. intros id k Hk. rewrite lookup_insert_is_Some'. right. eauto. Qed.

Lemma streams_ok_sub m (s s' : gmap Z B) o (c c' : gmap Z C) :
  streams_ok m s o c → (∀ id, is_Some (s' !! id) → is_Some (o !! id)) → (∀ id, is_Some (c' !! id) → is_Some (o !! id)) → streams_ok m s' o c'.
Proof. intros [H1 H2 H3] Hs Hc. by split. Qed.

Lemma pools_ok_empty : pools_ok (∅ : gmap Z A) (∅ : gmap Z (Z * B)).
Proof. intros id p c. done. Qed.
End Tables.

Definition inv `{P : Platform} (g : GlobalState) : Prop :=
  ids_ok (g_transactions g) (g_next_txn_id g) ∧ txns_ok (g_connections g) (g_transactions g) ∧
  xa_ok (g_xa_active g) (g_xa_preparing g) (g_xa_prepared g) (g_next_xa_id g) ∧
  ids_ok (g_statements g) (g_next_stmt_id g) ∧
  ids_ok (g_streams g) (g_next_stream_id g) ∧ streams_ok (g_connections g) (g_streams g) (g_stream_connections g) (g_pending_stream_chunks g) ∧
  ids_ok (g_pools g) (g_next_pool_id g) ∧ ids_ok (g_pooled_connections g) (g_next_pooled_conn_id g) ∧
  pools_ok (g_pools g) (g_pooled_connections g) ∧ free_ids_ok (g_pooled_free_ids g) ∧
  async_wf (g_async_requests g).

Lemma initial_inv `{P : Platform} size ttl : inv (initial_state size ttl).
Proof.
  unfold inv. split_and!; try (apply ids_ok_empty; done); try apply streams_ok_empty; try apply pools_ok_empty; try apply async_new_wf.
  - by split.
  - split; [done|..]; cbn; set_solver.
  - intros p ids id. done.
Qed.

(** ** Transactions *)

Lemma txns_ok_connect conns txns id c : txns_ok conns txns → txns_ok (<[id := c]> conns) txns.
Proof. intros [H1 H2]. split; [|done]. intros i t Hi. destruct (H1 i t Hi) as [? ?]. split; [done|]. rewrite lookup_insert_is_Some'. by right. Qed.

Lemma txns_ok_sub conns txns txns' : txns_ok conns txns → txns' ⊆ txns → txns_ok conns txns'.
Proof. intros [H1 H2] Hs. split; intros; [eapply H1|eapply H2]; eauto using lookup_weaken. Qed.

Lemma txns_ok_delete conns txns i : txns_ok conns txns → txns_ok conns (delete i txns).
Proof. intros H. eapply txns_ok_sub; [done|apply delete_subseteq]. Qed.

Lemma txns_ok_begin conns txns i t :
  txns_ok conns txns → active t → is_Some (conns !! t_conn_id t) →
  existsb (λ t', t_conn_id t' =? t_conn_id t) (map snd (map_to_list txns)) = false →
  txns_ok conns (<[i := t]> txns).
Proof.
  intros [H1 H2] Ha Hc Hn.
  assert (∀ j t', txns !! j = Some t' → t_conn_id t' ≠ t_conn_id t) as Hn'.
  { intros j t' Hj He. apply not_true_iff_false in Hn. apply Hn. apply existsb_exists. exists t'.
    split; [|by apply Z.eqb_eq]. apply in_map_iff. exists (j, t'). split; [done|].
    apply list_elem_of_In, elem_of_map_to_list. done. }
  split.
  - intros j t' Hj. apply lookup_insert_Some in Hj as [[_ <-]|[_ Hj]]; [done|eauto].
  - intros j j' u u' Hj Hj' He. apply lookup_insert_Some in Hj as [[<- <-]|[? Hj]], Hj' as [[<- <-]|[? Hj']]; eauto; exfalso; eapply Hn'; eauto.
Qed.

(** [begin] makes an active transaction of its connection. *)
Lemma begin_active `{P : Platform} id l d a t w txn :
  (begin_with_lock_timeout id l d a t w).1 = Ok txn → active txn ∧ t_conn_id txn = id.
Proof.
  intros H. destruct (begin_cases id l d a t w) as [(h & x & Hr & p & e & d' & q & sqls & Hx)|(h & e & Hr & _)];
    unfold runs in Hr; rewrite Hr in H; [|done]. injection H as <-. destruct Hx as (_ & _ & _ & _ & _ & ->). done.
Qed.

(** ** Branches *)

Section XaTables.
Context (act : gmap Z XaTransaction) (preparing : gmap Z PreparingXa) (prepared : gmap Z PreparedXa) (next : Z).

Ltac xa := intros []; split; rewrite ?dom_insert_L, ?dom_delete_L; [done|set_solver..].

Lemma xa_ok_finish_active i : xa_ok act preparing prepared next → xa_ok (delete i act) preparing prepared next.
Proof. xa. Qed.

Lemma xa_ok_finish_preparing i : xa_ok act preparing prepared next → xa_ok act (delete i preparing) prepared next.
Proof. xa. Qed.

Lemma xa_ok_finish_prepared i : xa_ok act preparing prepared next → xa_ok act preparing (delete i prepared) next.
Proof. xa. Qed.

Lemma xa_ok_end i x : xa_ok act preparing prepared next → i ∈ dom act → xa_ok (delete i act) (<[i := x]> preparing) prepared next.
Proof. intros H Hi. revert H. xa. Qed.

Lemma xa_ok_prepare i x : xa_ok act preparing prepared next → i ∈ dom preparing → xa_ok act (delete i preparing) (<[i := x]> prepared) next.
Proof. intros H Hi. revert H. xa. Qed.

Lemma xa_ok_alloc id next' :
  xa_ok act preparing prepared next → alloc (dom act ∪ dom preparing ∪ dom prepared) next = (id, next') →
  xa_ok act preparing prepared next' ∧ (id ≠ 0 → 0 < id < 2 ^ 32 ∧ id ∉ dom act ∪ dom preparing ∪ dom prepared).
Proof.
  intros [] Ha. destruct (alloc_id_sound _ _ _ _ _ xa_next0 Ha) as [Hn' Hid]. split; [by split|]. intros H0. by destruct Hid.
Qed.

Lemma xa_ok_start i x :
  xa_ok act preparing prepared next → 0 < i < 2 ^ 32 ∧ i ∉ dom act ∪ dom preparing ∪ dom prepared →
  xa_ok (<[i := x]> act) preparing prepared next.
Proof. intros H (? & ?). revert H. xa. Qed.

Lemma xa_ok_resume i x :
  xa_ok act preparing prepared next → 0 < i < 2 ^ 32 ∧ i ∉ dom act ∪ dom preparing ∪ dom prepared →
  xa_ok act preparing (<[i := x]> prepared) next.
Proof. intros H (? & ?). revert H. xa. Qed.
End XaTables.

(** * The tables in motion *)

(** The parts of the invariant of the state at hand. *)
Ltac tables := unfold inv in *; project.

Lemma ids_ok_put_back {A} (m : gmap Z A) next i a b : ids_ok m next → m !! i = Some a → ids_ok (<[i := b]> (delete i m)) next.
Proof. intros H Hi. apply ids_ok_put; [by apply ids_ok_delete|]. apply H. eauto. Qed.

Lemma ids_ok_known {A} (m : gmap Z A) next i a b : ids_ok m next → m !! i = Some a → ids_ok (<[i := b]> m) next.
Proof. eauto using ids_ok_replace. Qed.

Lemma ids_ok_clear {A} (m : gmap Z A) next : ids_ok m next → ids_ok (∅ : gmap Z A) next.
Proof. intros [H _]. by apply ids_ok_empty. Qed.

Lemma pools_ok_delete {A B} (pools : gmap Z A) (pooled : gmap Z (Z * B)) i : pools_ok pools pooled → pools_ok pools (delete i pooled).
Proof. intros H id p c Hid. apply lookup_delete_Some in Hid as [_ ?]. eauto. Qed.

Lemma pools_ok_insert {A B} (pools : gmap Z A) (pooled : gmap Z (Z * B)) i p c :
  pools_ok pools pooled → is_Some (pools !! p) → pools_ok pools (<[i := (p, c)]> pooled).
Proof. intros H Hp id q d Hid. apply lookup_insert_Some in Hid as [[_ [= <- <-]]|[_ ?]]; eauto. Qed.

Lemma pools_ok_put_back {A B} (pools : gmap Z A) (pooled : gmap Z (Z * B)) i p c d :
  pools_ok pools pooled → pooled !! i = Some (p, c) → pools_ok pools (<[i := (p, d)]> (delete i pooled)).
Proof. intros H Hi. apply pools_ok_insert; [by apply pools_ok_delete|]. eauto. Qed.

Lemma pools_ok_put {A B} (pools : gmap Z A) (pooled : gmap Z (Z * B)) i p : pools_ok pools pooled → pools_ok (<[i := p]> pools) pooled.
Proof. intros H id q d Hid. rewrite lookup_insert_is_Some'. right. eauto. Qed.

Lemma async_wf_after {A} op (f : AsyncRequestManager → A * AsyncRequestManager) m x m' :
  async_wf m → f m = (x, m') → async_step op m = (f m).2 → async_wf m'.
Proof. intros H Hf Hs. rewrite Hf in Hs. cbn in Hs. rewrite <- Hs. by apply step_wf. Qed.

Lemma start_request_wf sp c sql m x m' : async_wf m → start_request sp c sql m = (x, m') → async_wf m'.
Proof. intros H E. by eapply (async_wf_after (OStart sp c sql)). Qed.

Lemma take_result_wf id m x m' : async_wf m → take_result id m = (x, m') → async_wf m'.
Proof. intros H E. by eapply (async_wf_after (OTake id)). Qed.

Lemma restore_result_wf id r m x m' : async_wf m → restore_result id r m = (x, m') → async_wf m'.
Proof. intros H E. by eapply (async_wf_after (ORestore id r)). Qed.

Lemma cancel_wf dr id m x m' : async_wf m → cancel dr id m = (x, m') → async_wf m'.
Proof. intros H E. by eapply (async_wf_after (OCancel dr id)). Qed.

Lemma free_wf dr id m x m' : async_wf m → free dr id m = (x, m') → async_wf m'.
Proof. intros H E. by eapply (async_wf_after (OFree dr id)). Qed.

Lemma streams_ok_replace {A B C} (conns : gmap Z A) (streams : gmap Z B) owners (chunks : gmap Z C) i s s' :
  streams_ok conns streams owners chunks → streams !! i = Some s → streams_ok conns (<[i := s']> streams) owners chunks.
Proof. intros [H1 H2 H3] Hi. split; [|done..]. intros id Hid. apply is_Some_insert in Hid as [->|?]; eauto. Qed.

Lemma streams_ok_fetch {A B C} (conns : gmap Z A) (streams : gmap Z B) owners (chunks : gmap Z C) i :
  streams_ok conns streams owners chunks → streams_ok conns (delete i streams) owners chunks.
Proof. intros [H1 H2 H3]. split; [|done..]. intros id Hid. apply is_Some_delete in Hid as [_ ?]; eauto. Qed.

Lemma streams_ok_put_back {A B C} (conns : gmap Z A) (streams : gmap Z B) owners (chunks : gmap Z C) i s s' :
  streams_ok conns streams owners chunks → streams !! i = Some s → streams_ok conns (<[i := s']> (delete i streams)) owners chunks.
Proof. intros H Hi. rewrite insert_delete_eq. by eapply streams_ok_replace. Qed.

Lemma streams_ok_chunk_done {A B C} (conns : gmap Z A) (streams : gmap Z B) owners (chunks : gmap Z C) i :
  streams_ok conns streams owners chunks → streams_ok conns streams owners (delete i chunks).
Proof. intros [H1 H2 H3]. split; [done..|]. intros id Hid. apply is_Some_delete in Hid as [_ ?]; eauto. Qed.

Lemma streams_ok_chunk {A B C} (conns : gmap Z A) (streams : gmap Z B) owners (chunks : gmap Z C) i s s' c :
  streams_ok conns streams owners chunks → streams !! i = Some s →
  streams_ok conns (<[i := s']> (delete i streams)) owners (<[i := c]> chunks).
Proof.
  intros H Hi. pose proof (streams_ok_put_back _ _ _ _ _ _ s' H Hi) as [H1 H2 H3]. split; [done..|].
  intros id Hid. apply is_Some_insert in Hid as [->|?]; [|eauto]. destruct H. eauto.
Qed.

Lemma streams_ok_start {A B C} (conns : gmap Z A) (streams : gmap Z B) owners (chunks : gmap Z C) i s c :
  streams_ok conns streams owners chunks → is_Some (conns !! c) → streams_ok conns (<[i := s]> streams) (<[i := c]> owners) chunks.
Proof.
  intros [H1 H2 H3] Hc. split.
  - intros id Hid. rewrite lookup_insert_is_Some'. apply is_Some_insert in Hid as [->|?]; [by left|right; eauto].
  - intros id k Hid. apply lookup_insert_Some in Hid as [[_ <-]|[_ ?]]; eauto.
  - intros id Hid. rewrite lookup_insert_is_Some'. right. eauto.
Qed.

Lemma streams_ok_close {A B C} (conns : gmap Z A) (streams : gmap Z B) owners (chunks : gmap Z C) i :
  streams_ok conns streams owners chunks → streams_ok conns (delete i streams) (delete i owners) (delete i chunks).
Proof.
  intros [H1 H2 H3]. split.
  - intros id Hid. apply is_Some_delete in Hid as [? ?]. rewrite lookup_delete_is_Some. eauto.
  - intros id k Hid. apply lookup_delete_Some in Hid as [_ ?]. eauto.
  - intros id Hid. apply is_Some_delete in Hid as [? ?]. rewrite lookup_delete_is_Some. eauto.
Qed.

Lemma ids_ok_reused {A} (m : gmap Z A) next free p i a :
  ids_ok m next → free_ids_ok free → free !! p ≫= last = Some i → ids_ok (<[i := a]> m) next.
Proof.
  intros H Hf Hl. apply ids_ok_put; [done|]. destruct (free !! p) as [ids|] eqn:E; [|done]. cbn in Hl.
  apply (Hf p ids); [done|]. apply last_Some in Hl as [l ->]. set_solver.
Qed.

Lemma free_ids_ok_pop free p n : free_ids_ok free → free_ids_ok (alter (λ ids, take (n ids) ids) p free).
Proof.
  intros H q ids id Hq Hid. destruct (decide (p = q)) as [->|Hn].
  - rewrite lookup_alter_eq in Hq. destruct (free !! q) as [ids'|] eqn:E; [|done]. injection Hq as <-.
    apply (H q ids'); [done|]. rewrite <- (take_drop (n ids') ids'). set_solver.
  - rewrite lookup_alter_ne in Hq by done. eauto.
Qed.

Lemma free_ids_ok_push free p i : free_ids_ok free → 0 < i < 2 ^ 32 → free_ids_ok (<[p := default [] (free !! p) ++ [i]]> free).
Proof.
  intros H Hi q ids id Hq Hid. apply lookup_insert_Some in Hq as [[<- <-]|[_ ?]]; [|eauto].
  apply elem_of_app in Hid as [Hid|Hid]; [|set_solver].
  destruct (free !! p) as [ids'|] eqn:E; [eauto|set_solver].
Qed.

Lemma free_ids_ok_delete free p : free_ids_ok free → free_ids_ok (delete p free).
Proof. intros H q ids id Hq. apply lookup_delete_Some in Hq as [_ ?]. eauto. Qed.

Lemma keys_where_spec {A} (p : A → bool) (m : gmap Z A) id : id ∈ keys_where p m ↔ ∃ a, m !! id = Some a ∧ p a = true.
Proof.
  unfold keys_where. rewrite list_elem_of_In, in_map_iff. split.
  - intros ([k a] & <- & H). apply filter_In in H as [H ?]. exists a. split; [|done]. by apply elem_of_map_to_list, list_elem_of_In.
  - intros (a & Ha & Hp). exists (id, a). split; [done|]. apply filter_In. split; [|done]. by apply list_elem_of_In, elem_of_map_to_list.
Qed.

Create HintDb tables.
#[export] Hint Resolve start_request_wf take_result_wf restore_result_wf cancel_wf free_wf : tables.
#[export] Hint Resolve ids_ok_delete ids_ok_filter ids_ok_put ids_ok_clear ids_ok_known ids_ok_put_back txns_ok_connect txns_ok_delete
  xa_ok_finish_active xa_ok_finish_preparing xa_ok_finish_prepared xa_ok_end xa_ok_prepare xa_ok_start xa_ok_resume streams_ok_connect elem_of_dom_2
  pools_ok_delete pools_ok_put_back pools_ok_put pools_ok_insert streams_ok_replace streams_ok_fetch streams_ok_put_back
  streams_ok_chunk_done streams_ok_chunk streams_ok_start streams_ok_close ids_ok_reused free_ids_ok_pop free_ids_ok_push free_ids_ok_delete : tables.

#[export] Hint Extern 1 (is_Some (_ !! _)) => eexists; eassumption : tables.
#[export] Hint Extern 1 (_ ∈ dom _) => eapply elem_of_dom_2; eassumption : tables.

Lemma is_Some_found {A} (o : option A) : negb (bool_decide (is_Some o)) = false → is_Some o.
Proof. intros H. apply negb_false_iff, bool_decide_eq_true in H. done. Qed.

#[export] Hint Resolve is_Some_found : tables.

Lemma ids_ok_of {A} (m : gmap Z A) next i a : ids_ok m next → m !! i = Some a → 0 < i < 2 ^ 32.
Proof. intros [_ H] Hi. apply H. eauto. Qed.

#[export] Hint Resolve ids_ok_of : tables.

(** What the allocation of an id gives. *)
Ltac alloc_facts :=
  repeat match goal with
  | Ha : alloc (dom ?m) ?n = (?id, ?n'), H : ids_ok ?m ?n |- _ =>
      destruct (ids_ok_alloc m n id n' H Ha) as [? ?]; clear H
  | Ha : alloc (dom ?a ∪ dom ?b ∪ dom ?c) ?n = (?id, ?n'), H : xa_ok ?a ?b ?c ?n |- _ =>
      destruct (xa_ok_alloc a b c n id n' H Ha) as [? ?]; clear H
  | Ho : (if ?id =? 0 then None else Some ?id) = Some _ |- _ => destruct (id =? 0) eqn:?; [discriminate|injection Ho as <-]
  | Hz : (?id =? 0) = false, Hf : ?id ≠ 0 → _ |- _ => specialize (Hf (proj1 (Z.eqb_neq id 0) Hz)); destruct_and?
  end.

(** * Every entry point keeps the invariant *)

Section Keeps.
Context `{P : Platform}.

Definition keeps {A : Type} (m : F A) : Prop := ∀ g l, inv g → ok (λ _ g, inv g) inv g l m (λ _ g _, inv g).

(** What is known to keep the invariant is passed over. *)
Lemma ok_kept {A} g l (m : F A) (Q : A → GlobalState → bool → Prop) :
  keeps m → inv g → (∀ a g l, inv g → Q a g l) → ok (λ _ g, inv g) inv g l m Q.
Proof. intros Hm H HQ. eapply ok_weaken; [by apply Hm|]. auto. Qed.

Ltac inv_leaf :=
  match goal with
  | H : inv ?g |- inv ?g => exact H
  | H : inv ?g |- inv _ =>
      first [exact H
            | let H' := fresh in pose proof H as H'; destruct H' as (? & ? & ? & ? & ? & ? & ? & ? & ? & ? & ?); tables; alloc_facts; split_and!; eauto with tables]
  | H : inv ?g |- _ ∨ inv _ => right; inv_leaf
  | |- _ => idtac
  end.

Lemma try_write_pending_result_keeps key b c : keeps (try_write_pending_result key b c).
Proof. intros g l H. ok_steps; inv_leaf. Qed.

Lemma stash_pending_result_keeps key d : keeps (stash_pending_result key d).
Proof. intros g l H. ok_steps; inv_leaf. Qed.

Lemma record_query_keeps t : keeps (record_query t).
Proof. intros g l H. ok_steps; inv_leaf. Qed.

Ltac ok_known :=
  lazymatch goal with
  | |- okw _ _ _ _ _ ?m _ =>
      lazymatch m with
      | try_write_pending_result _ _ _ => eapply ok_kept; [apply try_write_pending_result_keeps|inv_leaf|intros ? ? ? ?]
      | stash_pending_result _ _ => eapply ok_kept; [apply stash_pending_result_keeps|inv_leaf|intros ? ? ? ?]
      | record_query _ => eapply ok_kept; [apply record_query_keeps|inv_leaf|intros ? ? ? ?]
      end
  end.

Ltac keeps := intros g l Hinv; repeat first [ok_known | ok_step]; inv_leaf.

Lemma begin_v3_keeps c i d a t : keeps (odbc_transaction_begin_v3 c i d a t).
Proof.
  keeps. match goal with Hb : (begin_with_lock_timeout _ _ _ _ _ _).1 = Ok _ |- _ => apply begin_active in Hb as [Ha Hc] end.
  apply txns_ok_begin; [done|done|rewrite Hc; by apply is_Some_found|by rewrite Hc].
Qed.

Lemma none_checked_out a g :
  negb (len (checked_out a g) =? 0) = false → ∀ id p c, g_pooled_connections g !! id = Some (p, c) → a ≠ p.
Proof.
  intros Hz%negb_false_iff%Z.eqb_eq id p c Hid ->. unfold len in Hz.
  assert (id ∈ checked_out p g) as Hin by (apply keys_where_spec; exists (p, c); by rewrite Z.eqb_refl).
  destruct (checked_out p g); [by apply elem_of_nil in Hin|]. cbn in Hz. lia.
Qed.

Lemma pool_set_size_keeps a b : keeps (odbc_pool_set_size a b).
Proof.
  keeps; match goal with Hz : negb (len _ =? 0) = false |- _ => pose proof (none_checked_out _ _ Hz) as Hn end; intros id p q Hid.
  - rewrite lookup_insert_ne, lookup_delete_ne by eauto. eauto.
  - rewrite lookup_delete_ne by eauto. eauto.
Qed.

(** ** Loops *)

(** The connections of a pool that is closed, one after another. *)
Lemma pool_close_keeps a : keeps (odbc_pool_close a).
Proof.
  intros g l Hinv. unfold odbc_pool_close. ok_steps; inv_leaf.
  eapply (ok_for_each _ _ _ _ _ _ _ _ (λ ids g, inv g ∧ ∀ id c, g_pooled_connections g !! id = Some (a, c) → id ∈ ids)); [done|..].
  - split; [done|]. intros id c Hid. apply keys_where_spec. exists (a, c). by rewrite Z.eqb_refl.
  - clear. intros id ids g [Hinv Hin]. ok_steps; (split; [done|split; [inv_leaf|]]); tables; intros id' c Hid.
    + apply lookup_delete_Some in Hid as [? Hid]. apply Hin in Hid. set_solver.
    + pose proof (Hin _ _ Hid) as [->|?]%elem_of_cons; [congruence|done].
  - clear. intros g [Hinv Hin]. ok_steps. inv_leaf. intros id p c Hid. rewrite lookup_delete_ne; [eauto|]. intros <-.
    by apply Hin, elem_of_nil in Hid.
Qed.

(** * Disconnecting *)

Definition deletes {A : Type} (ids : list Z) (m : gmap Z A) : gmap Z A := foldl (λ m id, delete id m) m ids.

Lemma deletes_lookup {A} ids (m : gmap Z A) k : deletes ids m !! k = if decide (k ∈ ids) then None else m !! k.
Proof.
  unfold deletes. revert m. induction ids as [|id ids IH]; intros m; cbn [foldl]; [by rewrite decide_False by apply not_elem_of_nil|].
  rewrite IH. repeat case_decide; try set_solver. all: try (apply elem_of_cons in H0 as [->|?]; [apply lookup_delete_eq|done]).
  rewrite lookup_delete_ne; [done|]. intros ->. set_solver.
Qed.

Lemma deletes_where {A} (p : A → bool) (m : gmap Z A) : deletes (keys_where p m) m = filter (λ kv, p kv.2 = false) m.
Proof.
  apply map_eq. intros k. rewrite deletes_lookup. apply option_eq. intros a. rewrite map_lookup_filter_Some. case_decide as Hk.
  - apply keys_where_spec in Hk as (b & Hb & Hp). split; [done|]. intros [Ha Hf]. cbn in Hf. congruence.
  - split; [|by intros [? _]]. intros Ha. split; [done|]. cbn. apply not_true_iff_false. intros Hp. apply Hk, keys_where_spec. eauto.
Qed.

Lemma set_transactions_same g : set_g_transactions (g_transactions g) g = g.
Proof. by destruct g. Qed.

Lemma ok_rollbacks Ret Pan g ids (Q : unit → GlobalState → bool → Prop) :
  Q tt (set_g_transactions (deletes ids (g_transactions g)) g) true → ok Ret Pan g true (for_each rollback_transaction ids) Q.
Proof.
  revert g. induction ids as [|id ids IH]; intros g HQ; cbn [for_each]; [unfold deletes in HQ; cbn [foldl] in HQ; rewrite set_transactions_same in HQ; by apply ok_next|].
  apply ok_bind. ok_steps; apply IH; cbn in *; [done|]. unfold deletes in HQ. cbn in HQ. by rewrite delete_id in HQ.
Qed.

Definition set_stream_tables (streams : gmap Z StreamKind) (owners : gmap Z Z) (chunks : gmap Z PendingStreamChunk) (g : GlobalState) : GlobalState :=
  set_g_pending_stream_chunks chunks (set_g_stream_connections owners (set_g_streams streams g)).

Lemma ok_drop_streams Ret Pan g ids (Q : unit → GlobalState → bool → Prop) :
  Q tt (set_stream_tables (deletes ids (g_streams g)) (deletes ids (g_stream_connections g)) (deletes ids (g_pending_stream_chunks g)) g) true →
  ok Ret Pan g true (for_each drop_stream_of ids) Q.
Proof.
  revert g. induction ids as [|id ids IH]; intros g HQ; cbn [for_each].
  - apply ok_next. cbn in HQ. unfold set_stream_tables, set_g_pending_stream_chunks, set_g_stream_connections, set_g_streams in HQ.
    by destruct g.
  - apply ok_bind. ok_steps; apply IH; exact HQ.
Qed.

(** The kept results of connection [c]: of its queries, and of its statements. *)
Definition result_of (c : Z) (g : GlobalState) (key : PendingResultKey) : Prop :=
  match key with
  | KeyExecQuery c' _ | KeyExecQueryParams c' _ _ | KeyExecQueryMulti c' _ => c' = c
  | KeyExecute id _ _ _ => ∃ s, g_statements g !! id = Some s ∧ sh_conn_id s = c
  end.

Lemma survives_spec c g key :
  survives c (keys_where (λ s, sh_conn_id s =? c) (g_statements g)) key = true ↔ ¬ result_of c g key.
Proof.
  destruct key; cbn; rewrite negb_true_iff; [lia..|]. rewrite <- not_true_iff_false, existsb_exists.
  apply not_iff_compat. split.
  - intros (id & Hid & <-%Z.eqb_eq). apply list_elem_of_In, keys_where_spec in Hid as (s & Hs & ?%Z.eqb_eq). by exists s.
  - intros (s & Hs & <-). eexists. rewrite Z.eqb_refl, <- list_elem_of_In, keys_where_spec. split; [|done].
    exists s. by rewrite Z.eqb_refl.
Qed.

(** What a disconnect of [c] leaves: everything of the connection is gone, and nothing else is. *)
Record disconnected (dropped : bool) (c : Z) (g g' : GlobalState) : Prop := mkDisconnected {
  dc_connections : g_connections g' = delete c (g_connections g);
  dc_transactions : g_transactions g' = filter (λ kv, (t_conn_id kv.2 =? c) = false) (g_transactions g);
  dc_statements : g_statements g' = filter (λ kv, sh_conn_id kv.2 ≠ c) (g_statements g);
  dc_owners : g_stream_connections g' = filter (λ kv, (kv.2 =? c) = false) (g_stream_connections g);
  dc_streams id : g_streams g' !! id = if decide (g_stream_connections g !! id = Some c) then None else g_streams g !! id;
  dc_chunks id : g_pending_stream_chunks g' !! id =
    if decide (g_stream_connections g !! id = Some c) then None else g_pending_stream_chunks g !! id;
  dc_requests : g_async_requests g' = free_for_connection dropped c (g_async_requests g);
  dc_pending_gone key : result_of c g key → g_pending_result_buffers g' !! key = None;
  dc_pending_kept key : ¬ result_of c g key → g_pending_result_buffers g' !! key = g_pending_result_buffers g !! key;
  dc_errors c' : c' ≠ c → g_connection_errors g' !! c' = g_connection_errors g !! c';
  dc_xa : g_xa_active g' = g_xa_active g ∧ g_xa_preparing g' = g_xa_preparing g ∧ g_xa_prepared g' = g_xa_prepared g;
  dc_pools : g_pools g' = g_pools g ∧ g_pooled_connections g' = g_pooled_connections g ∧ g_pooled_free_ids g' = g_pooled_free_ids g;
  dc_next : g_next_txn_id g' = g_next_txn_id g ∧ g_next_xa_id g' = g_next_xa_id g ∧ g_next_stmt_id g' = g_next_stmt_id g ∧
    g_next_stream_id g' = g_next_stream_id g ∧ g_next_pool_id g' = g_next_pool_id g ∧ g_next_pooled_conn_id g' = g_next_pooled_conn_id g
}.

Lemma owned_by g c id {A} (x y : A) :
  (if decide (id ∈ keys_where (λ k, k =? c) (g_stream_connections g)) then x else y)
  = if decide (g_stream_connections g !! id = Some c) then x else y.
Proof.
  apply decide_ext. rewrite keys_where_spec. split; [intros (k & Hk & <-%Z.eqb_eq); done|intros Hk; exists c; by rewrite Z.eqb_refl].
Qed.

Lemma pending_gone c g key : result_of c g key →
  filter (λ kv, survives c (keys_where (λ s, sh_conn_id s =? c) (g_statements g)) kv.1 = true) (g_pending_result_buffers g) !! key = None.
Proof. intros Hk. apply map_lookup_filter_None. right. intros d _. cbn. rewrite survives_spec. tauto. Qed.

Lemma pending_kept c g key : ¬ result_of c g key →
  filter (λ kv, survives c (keys_where (λ s, sh_conn_id s =? c) (g_statements g)) kv.1 = true) (g_pending_result_buffers g) !! key
  = g_pending_result_buffers g !! key.
Proof.
  intros Hk. apply survives_spec in Hk. apply option_eq. intros d. rewrite map_lookup_filter_Some. cbn. tauto.
Qed.

Lemma disconnect_ok dropped c g l conn (Q : Z → GlobalState → bool → Prop) :
  g_connections g !! c = Some conn → (∀ code g', code = 0 ∨ code = 1 → disconnected dropped c g g' → Q code g' true) →
  ok (λ _ _, False) (λ _, False) g l (odbc_disconnect dropped c) Q.
Proof.
  intros Hc HQ. unfold odbc_disconnect. ok_step. ok_step. ok_step. ok_step. rewrite Hc. do 3 ok_step.
  apply ok_rollbacks. do 5 ok_step. apply ok_drop_streams. ok_steps; apply HQ; try (by auto).
  all: split; unfold set_stream_tables; cbn.
  all: try reflexivity; try (by rewrite deletes_where); try (intros id; rewrite deletes_lookup; apply owned_by); try done.
  all: try (intros key Hk; rewrite ?keys_where_spec; apply pending_gone || apply pending_kept; done).
  - intros c' Hn. by rewrite lookup_delete_ne.
  - intros c' Hn. by rewrite lookup_insert_ne.
Qed.

Lemma disconnected_inv dropped c g g' : inv g → disconnected dropped c g g' → inv g'.
Proof.
  intros (? & Ht & Hx & ? & Hs & Ho & ? & ? & ? & ? & Ha) [Hc HT HS HO HSt HC HR _ _ _ (X1 & X2 & X3) (P1 & P2 & P3) (N1 & N2 & N3 & N4 & N5 & N6)].
  unfold inv. rewrite HT, HS, HR, X1, X2, X3, P1, P2, P3, N1, N2, N3, N4, N5, N6. split_and!; try done.
  - by apply ids_ok_filter.
  - split.
    + intros id t [Hid Hn]%map_lookup_filter_Some. destruct (txns_active _ _ Ht id t Hid) as [? ?]. split; [done|].
      rewrite Hc, lookup_delete_is_Some. cbn in Hn. split; [lia|done].
    + intros id id' t t' [Hid _]%map_lookup_filter_Some [Hid' _]%map_lookup_filter_Some. by eapply (txns_one _ _ Ht).
  - by apply ids_ok_filter.
  - eapply ids_ok_sub; [done|]. intros id Hid. rewrite HSt in Hid. case_decide; [by destruct Hid|done].
  - assert (∀ id, is_Some (g_stream_connections g !! id) → g_stream_connections g !! id ≠ Some c → is_Some (g_stream_connections g' !! id)) as Hk.
    { intros id [k Hk] Hn. exists k. rewrite HO, map_lookup_filter_Some. split; [done|]. cbn. apply Z.eqb_neq. congruence. }
    split.
    + intros id Hid. rewrite HSt in Hid. case_decide; [by destruct Hid|]. apply Hk; [by apply (streams_owned _ _ _ _ Ho)|done].
    + intros id k Hid. rewrite HO in Hid. apply map_lookup_filter_Some in Hid as [Hid Hn]. rewrite Hc, lookup_delete_is_Some.
      cbn in Hn. split; [lia|]. by eapply (streams_open _ _ _ _ Ho).
    + intros id Hid. rewrite HC in Hid. case_decide; [by destruct Hid|]. apply Hk; [by apply (streams_chunks _ _ _ _ Ho)|done].
  - rewrite free_for_connection_run. by apply run_wf.
Qed.

Lemma disconnect_keeps dropped c : keeps (odbc_disconnect dropped c).
Proof.
  intros g l Hinv. destruct (g_connections g !! c) as [conn|] eqn:E.
  - eapply ok_mono; [| |eapply disconnect_ok; [done|]; intros code g' _ Hd; exact (disconnected_inv _ _ _ _ Hinv Hd)]; done.
  - unfold odbc_disconnect. do 4 ok_step. rewrite E. ok_steps; inv_leaf.
Qed.

(** * Runs *)

Lemma call_keeps c : keeps (run_call c).
Proof.
  destruct c; cbn [run_call];
    solve [apply disconnect_keeps|apply begin_v3_keeps|apply pool_set_size_keeps|apply pool_close_keeps|keeps].
Qed.

Lemma dispatch_inv c f : f_poisoned f = false → inv (f_state f) → f_poisoned (dispatch c f).2 = true ∨ inv (f_state (dispatch c f).2).
Proof.
  intros Hp H. pose proof (λ code, ok_call _ _ code _ _ Hp (call_keeps c (f_state f) false H)) as Hc.
  unfold dispatch, call_id, call_int.
  destruct (returns_id c); [specialize (Hc 0)|specialize (Hc FFI_PANIC)]; destruct (call_guard _ _ _) as [[code out] f']; cbn; tauto.
Qed.

Lemma worker_inv s f : inv (f_state f) → inv (f_state (worker_step s f)).
Proof.
  intros H. assert (∀ op, inv (set_g_async_requests (async_step op (g_async_requests (f_state f))) (f_state f))) as Hop.
  { intros op. destruct H as (? & ? & ? & ? & ? & ? & ? & ? & ? & ? & ?). unfold inv. split_and!; try done. by apply step_wf. }
  destruct s as [n|n|n|n]; cbn [worker_step].
  - exact (Hop (OJobStart n)).
  - repeat case_match; try done. exact (Hop (OJobFinish n _)).
  - exact (Hop (OJobDecide n)).
  - exact (Hop (OJobStore n)).
Qed.

Lemma step_inv ev f : f_poisoned f = true ∨ inv (f_state f) → f_poisoned (ffi_step ev f) = true ∨ inv (f_state (ffi_step ev f)).
Proof.
  intros [H|H].
  - left. destruct ev as [c|s]; cbn [ffi_step]; [by apply dispatch_poisoned|by rewrite worker_poisoned].
  - destruct ev as [c|s]; cbn [ffi_step]; [|right; by apply worker_inv].
    destruct (f_poisoned f) eqn:Hp; [left; by apply dispatch_poisoned|by apply dispatch_inv].
Qed.

Lemma run_inv evs f : f_poisoned f = true ∨ inv (f_state f) → f_poisoned (ffi_run evs f) = true ∨ inv (f_state (ffi_run evs f)).
Proof. revert f. induction evs as [|ev evs IH]; intros f Hf; [done|]. apply IH, step_inv, Hf. Qed.


End Keeps.

(** * Witnesses *)

(** Connection 1 with its statement and its transaction, and connection 2. *)
Definition demo_two : Ffi := ffi_run (P := demo_platform) [ECall (CConnect (c_string "DSN=b"))] demo_open.


Example disconnect_demo :
  let '(code, _, f') := dispatch (P := demo_platform) (CDisconnect false 1) demo_two in
  (code, map fst (map_to_list (g_connections (f_state f'))), size (g_transactions (f_state f')), size (g_statements (f_state f')))
  = (0, [2], 0%nat, 0%nat).
Proof. vm_compute. reflexivity. Qed.
