(* ===== verification/FfiWrites.v ===== *)
(** What the entry points write through the pointers of the caller. *)

From S2P Require Import Prelude Wire Errors ParamValue Compression Text Security DiskSpill Streaming StreamSources Caches OutputParams.
From S2P Require Import Handles Transaction Xid Xa Execution Pool AsyncRequests Chunking FfiState FfiSession FfiXa FfiQuery FfiStreams FfiPool FfiInfo FfiCatalog FfiLogic FfiMachine FfiDemo.

(** The buffer and the pointer to its length that most calls come with. *)
Definition out_buf (c : Call) : option OutBuf :=
  match c with
  | CGetVersion b | CExecQuery _ _ b | CExecQueryParams _ _ _ b | CExecQueryMulti _ _ b
  | CExecQueryMultiParams _ _ _ b | CExecute _ _ _ _ b | CAsyncGetResult _ b | CStreamFetch _ b _
  | CPoolGetStateJson _ b | CGetStructuredError b | CGetStructuredErrorFor _ b | CGetMetrics b
  | CAuditGetEvents b _ | CAuditGetStatus b | CMetadataCacheStats b | CGetCacheMetrics b
  | CGetDriverCapabilities _ b | CGetConnectionDbmsInfo _ b | CBuildUpsertSql _ _ _ b
  | CAppendReturningSql _ _ _ _ b | CGetSessionInitSql _ _ b | CCatalogTables _ _ _ b | CCatalogColumns _ _ b
  | CCatalogTypeInfo _ b | CCatalogPrimaryKeys _ _ b | CCatalogForeignKeys _ _ b | CCatalogIndexes _ _ b => Some b
  | _ => None
  end.

(** The result buffer of a call: not null, and how long it is. *)
Definition result_buffer (c : Call) : option Z :=
  match c with
  | CValidateConnectionString _ null n | CGetError null n | CDetectDriver _ null n => if null then None else Some n
  | _ => match out_buf c with Some b => if ob_null b then None else Some (ob_len b) | None => None end
  end.

(** The pointers to integers that are not null. *)
Definition has_pointer (c : Call) (t : Target) : bool :=
  match c, t with
  | _, ToWritten => match out_buf c with Some b => negb (ob_written_null b) | None => false end
  | (CAsyncPoll _ null | CStreamPollAsync _ _ null), ToStatus => negb null
  | CStreamFetch _ _ null, ToHasMore => negb null
  | CXaRecoverGet _ lens_null _ _ _ _, (ToFormatId | ToGtridLen | ToBqualLen) => negb lens_null
  | (CBulkInsertArray _ _ null | CBulkInsertParallel _ _ _ _ null), ToRows => negb null
  | CPoolGetState _ size_null _, ToSize => negb size_null
  | CPoolGetState _ _ idle_null, ToIdle => negb idle_null
  | _, _ => false
  end.

(** A write that stays inside what the caller has given. *)
Definition allowed (c : Call) (x : Write) : Prop :=
  match x with
  | WInt t _ => has_pointer c t = true
  | WBytes ToBuffer d => ∃ n, result_buffer c = Some n ∧ len d ≤ n
  | WBytes ToGtrid d => match c with CXaRecoverGet _ _ null n _ _ => null = false ∧ len d ≤ n | _ => False end
  | WBytes ToBqual d => match c with CXaRecoverGet _ _ _ _ null n => null = false ∧ len d ≤ n | _ => False end
  | WBytes _ _ => False
  end.

Section Writes.
Context `{P : Platform}.

(** What is written from one frame to the next is allowed. *)
Definition writes (c : Call) (a b : Frame) : Prop := ∃ xs, fr_out b = fr_out a ++ xs ∧ Forall (allowed c) xs.

#[export] Instance writes_preorder c : PreOrder (writes c).
Proof.
  split.
  - intros a. exists []. by rewrite app_nil_r.
  - intros a b d (xs & Hb & Hx) (ys & Hd & Hy). exists (xs ++ ys). split; [by rewrite Hd, Hb, app_assoc|by apply Forall_app_2].
Qed.

Lemma writes_nothing c {A} (m : F A) : (∀ fr, fr_out (m fr).2 = fr_out fr) → moves (writes c) m.
Proof. intros H fr. exists []. by rewrite H, app_nil_r. Qed.

Lemma writes_write c x : allowed c x → moves (writes c) (write x).
Proof. intros H fr. exists [x]. split; [done|by apply Forall_singleton]. Qed.

Lemma engine_call_silent c {A} (m : M A) : moves (writes c) (engine_call m).
Proof. apply writes_nothing. intros fr. unfold engine_call. by destruct (m _). Qed.

Lemma pipeline_call_silent c {A} (m : X A) : moves (writes c) (pipeline_call m).
Proof. apply writes_nothing. intros fr. unfold pipeline_call. by destruct (m _ _) as [[??]?]. Qed.

Lemma catalog_call_silent c {A} (m : X A) : moves (writes c) (catalog_call m).
Proof. apply writes_nothing. intros fr. unfold catalog_call. by destruct (m _ _) as [[??]?]. Qed.

Lemma meet_silent c : moves (writes c) meet.
Proof. apply writes_nothing. by intros [f l o [|[|g fs]|]]. Qed.

Lemma lock_state_silent c : moves (writes c) lock_state.
Proof. apply writes_nothing. intros fr. unfold lock_state. by destruct (f_poisoned _). Qed.

Lemma start_buffer_silent c phys n sql : moves (writes c) (start_buffer phys n sql).
Proof. apply writes_nothing. intros fr. unfold start_buffer. by destruct (holding_connection _ _ _ _) as [[[[??]|?|]?]?]. Qed.

Lemma fetch_kind_silent c s : moves (writes c) (fetch_kind s).
Proof. apply writes_nothing. intros fr. unfold fetch_kind. by destruct (kind_fetch _ _) as [[??]?]. Qed.

Lemma loop_silent c {A} (f : A → F unit) xs : (∀ x, moves (writes c) (f x)) → moves (writes c) (for_each f xs).
Proof. apply moves_for_each. typeclasses eauto. Qed.

Lemma record_query_silent c t : moves (writes c) (record_query t).
Proof.
  unfold record_query. apply moves_bind; [typeclasses eauto|apply moves_state; typeclasses eauto|]. intros g.
  destruct (metrics_record_query t (g_metrics g)) as [r m]. apply moves_bind; [typeclasses eauto|by apply writes_nothing|]. intros [].
  destruct r; by apply writes_nothing.
Qed.

Lemma take_whole (d : list byte) n : len d ≤ n → ∃ k, Some n = Some k ∧ len d ≤ k.
Proof. eauto. Qed.
End Writes.

Ltac writes_step :=
  moves_step ltac:(idtac;
    lazymatch goal with
    | |- moves _ (update _) => by apply writes_nothing
    | |- moves _ (with_ffi _) => by apply writes_nothing
    | |- moves _ now => by apply writes_nothing
    | |- moves _ meet => apply meet_silent
    | |- moves _ lock_state => apply lock_state_silent
    | |- moves _ unlock_state => by apply writes_nothing
    | |- moves _ (engine_call _) => apply engine_call_silent
    | |- moves _ (pipeline_call _) => apply pipeline_call_silent
    | |- moves _ (catalog_call _) => apply catalog_call_silent
    | |- moves _ (start_buffer _ _ _) => apply start_buffer_silent
    | |- moves _ (fetch_kind _) => apply fetch_kind_silent
    | |- moves _ (record_query _) => apply record_query_silent
    | |- moves _ (for_each _ _) => apply loop_silent; intros ?
    | |- moves _ (write _) => apply writes_write
    end).

Section Calls.
Context `{P : Platform}.

Ltac allowed_leaf :=
  repeat match goal with
  | H : (_ || _) = false |- _ => apply orb_false_iff in H as [? ?]
  | H : (_ && _) = true |- _ => apply andb_true_iff in H as [? ?]
  | H : (_ <? _) = false |- _ => apply Z.ltb_ge in H
  | H : (_ <? _) = true |- _ => apply Z.ltb_lt in H
  | H : (_ <=? _) = false |- _ => apply Z.leb_gt in H
  | H : negb _ = true |- _ => apply negb_true_iff in H
  end; subst;
  lazymatch goal with
  | |- allowed _ (WInt _ _) => cbn; repeat match goal with H : _ = false |- _ => rewrite H end; done
  | |- allowed _ (WBytes ToBuffer _) => cbn [allowed result_buffer out_buf];
      repeat match goal with H : ?x = false |- _ => rewrite H; clear H end; eexists; (split; [reflexivity|])
  | |- allowed _ (WBytes _ _) => cbn; split; [done|lia]
  end.

Lemma bulk_arguments_rows name data null fr a fr' : bulk_arguments name data null fr = (Next a, fr') → null = false.
Proof.
  unfold bulk_arguments, lock_or, fbind, try_lock_global_state. destruct data as [[|b bs]|]; destruct null; try done; repeat case_match; simplify_eq; done.
Qed.

Lemma bulk_arguments_writes c name data null (k : list byte → F Z) :
  (null = false → ∀ bs, moves (writes c) (k bs)) → moves (writes c) (let& bytes := bulk_arguments name data null in k bytes).
Proof.
  intros Hk. assert (moves (writes c) (bulk_arguments name data null)) as Hm by (unfold bulk_arguments; repeat writes_step).
  intros fr. specialize (Hm fr). unfold fbind. destruct (bulk_arguments name data null fr) as [[bs|?|] fr'] eqn:E; [|done..].
  transitivity fr'; [done|]. apply bulk_arguments_rows in E. by apply Hk.
Qed.

Lemma call_writes c : moves (writes c) (run_call c).
Proof.
  destruct c; cbn [run_call]; try (unfold odbc_bulk_insert_array, odbc_bulk_insert_parallel; apply bulk_arguments_writes; intros -> ?);
    repeat writes_step; allowed_leaf; try assumption; unfold len in *; rewrite ?length_app, ?length_take in *; cbn [length] in *; lia.
Qed.

(** C3: an entry point writes through a pointer only where the caller gave one: no integer through a null
    pointer, no bytes into a null buffer, and never more bytes than the length that came with
    the buffer -- whatever the state, the drivers and the result, and whether the call
    succeeds, fails or panics. *)
Theorem writes_fit (c : Call) (f : Ffi) : Forall (allowed c) (dispatch c f).1.2.
Proof.
  unfold dispatch, call_id, call_int. destruct (returns_id c).
  1: pose proof (moves_call (writes c) 0 (run_call c) f) as H.
  2: pose proof (moves_call (writes c) FFI_PANIC (run_call c) f) as H.
  all: destruct (call_guard _ _ _) as [[code out] f']; destruct H as (l & s & xs & Ho & Hx); [|apply call_writes|cbn in *; by subst].
  all: intros fr; exists []; by rewrite app_nil_r.
Qed.
End Calls.
