(* ===== verification/FfiShared.v ===== *)
(** What the global mutex protects when other threads take it in the gaps of a call: every piece of every entry
    point keeps it, and none goes for the mutex while it holds it. *)

From S2P Require Import Prelude Wire Errors ParamValue Compression Text Security DiskSpill Streaming StreamSources Caches OutputParams.
From S2P Require Import Handles Transaction Xid Xa Execution Pool AsyncRequests Chunking FfiState FfiSession FfiXa FfiQuery FfiStreams FfiPool FfiInfo FfiCatalog FfiLogic FfiMachine FfiDemo FfiPoison FfiInvariant.

(** * What the mutex protects among threads *)

Definition txns_live (txns : gmap Z Transaction) : Prop := ∀ id t, txns !! id = Some t → active t.

Lemma txns_live_delete txns i : txns_live txns → txns_live (delete i txns).
Proof. intros H id t Hid. apply lookup_delete_Some in Hid as [_ ?]. eauto. Qed.

Lemma txns_live_insert txns i t : txns_live txns → active t → txns_live (<[i := t]> txns).
Proof. intros H Ht id u Hid. apply lookup_insert_Some in Hid as [[_ <-]|[_ ?]]; eauto. Qed.

#[export] Hint Resolve txns_live_delete txns_live_insert : tables.

Definition shared `{P : Platform} (g : GlobalState) : Prop :=
  ids_ok (g_transactions g) (g_next_txn_id g) ∧ txns_live (g_transactions g) ∧
  xa_ok (g_xa_active g) (g_xa_preparing g) (g_xa_prepared g) (g_next_xa_id g) ∧
  ids_ok (g_statements g) (g_next_stmt_id g) ∧ ids_ok (g_streams g) (g_next_stream_id g) ∧
  ids_ok (g_pools g) (g_next_pool_id g) ∧ ids_ok (g_pooled_connections g) (g_next_pooled_conn_id g) ∧
  free_ids_ok (g_pooled_free_ids g) ∧ async_wf (g_async_requests g).

Section Shared.
Context `{P : Platform}.

(** What was found in a table has an id, whatever becomes of the table. *)
Lemma shared_stream_id g i s : shared g → g_streams g !! i = Some s → 0 < i < 2 ^ 32.
Proof. intros (? & ? & ? & ? & [_ H] & _) Hi. apply H. eauto. Qed.

Lemma shared_pooled_id g i p : shared g → g_pooled_connections g !! i = Some p → 0 < i < 2 ^ 32.
Proof. intros (? & ? & ? & ? & ? & ? & [_ H] & _) Hi. apply H. eauto. Qed.

Lemma begun_active id l d a t w txn : (begin_with_lock_timeout id l d a t w).1 = Ok txn → active txn.
Proof. intros H. by apply begin_active in H as [? _]. Qed.

Lemma free_for_connection_wf dropped c m : async_wf m → async_wf (free_for_connection dropped c m).
Proof. rewrite free_for_connection_run. apply run_wf. Qed.

#[local] Hint Resolve free_for_connection_wf shared_stream_id shared_pooled_id begun_active : tables.

Abbreviation among := (okw (Some shared) (λ _ g, shared g) shared).

(** A piece that keeps the tables and the mutex. *)
Definition keeps_shared {A : Type} (m : F A) : Prop := ∀ g l, shared g → among g l m (λ _ g l', shared g ∧ l' = l).

Lemma among_kept {A} g l (m : F A) (Q : A → GlobalState → bool → Prop) :
  keeps_shared m → shared g → (∀ a g, shared g → Q a g l) → among g l m Q.
Proof. intros Hm H HQ. eapply ok_weaken; [by apply Hm|]. intros a g' l' [? ->]. auto. Qed.

Ltac shared_leaf :=
  match goal with
  | |- _ ∧ _ = _ => split; [shared_leaf|reflexivity]
  | H : shared ?g |- shared ?g => exact H
  | |- shared _ =>
      first [done
        | match goal with
          | H : shared ?g |- shared ?g' =>
              match g' with context [g] => idtac end;
              let H' := fresh in pose proof H as H'; destruct H' as (? & ? & ? & ? & ? & ? & ? & ? & ?);
              unfold shared; project; alloc_facts; split_and!; eauto with tables
          end]
  | |- _ ∨ shared _ => right; shared_leaf
  | |- _ => idtac
  end.

Lemma try_write_pending_result_shared key b c : keeps_shared (try_write_pending_result key b c).
Proof. intros g l H. ok_steps; shared_leaf. Qed.

Lemma stash_pending_result_shared key d : keeps_shared (stash_pending_result key d).
Proof. intros g l H. ok_steps; shared_leaf. Qed.

Lemma record_query_shared t : keeps_shared (record_query t).
Proof. intros g l H. ok_steps; shared_leaf. Qed.

(** A loop under the mutex. *)
Lemma among_for_each {B} (f : B → F unit) xs g (Q : unit → GlobalState → bool → Prop) :
  (∀ x, keeps_shared (f x)) → shared g → (∀ g, shared g → Q tt g true) → among g true (for_each f xs) Q.
Proof.
  intros Hf Hg HQ. apply (ok_for_each _ _ _ _ _ _ _ _ (λ _ g, shared g)); [done|done| |exact HQ].
  intros x _ g' Hg'. eapply ok_weaken; [by apply Hf|]. by intros [] g2 l [? ->].
Qed.

Lemma rollback_transaction_shared id : keeps_shared (rollback_transaction id).
Proof. intros g l H. ok_steps; shared_leaf. Qed.

Lemma drop_stream_of_shared id : keeps_shared (drop_stream_of id).
Proof. intros g l H. ok_steps; shared_leaf. Qed.

Lemma close_checked_out_shared id : keeps_shared (close_checked_out id).
Proof. intros g l H. ok_steps; shared_leaf. Qed.

Ltac shared_known :=
  lazymatch goal with
  | |- okw _ _ _ _ _ ?m _ =>
      lazymatch m with
      | try_write_pending_result _ _ _ => eapply among_kept; [apply try_write_pending_result_shared|shared_leaf|intros ? ? ?]
      | stash_pending_result _ _ => eapply among_kept; [apply stash_pending_result_shared|shared_leaf|intros ? ? ?]
      | for_each rollback_transaction _ => apply among_for_each; [apply rollback_transaction_shared|shared_leaf|intros ? ?]
      | for_each drop_stream_of _ => apply among_for_each; [apply drop_stream_of_shared|shared_leaf|intros ? ?]
      | for_each close_checked_out _ => apply among_for_each; [apply close_checked_out_shared|shared_leaf|intros ? ?]
      | record_query _ => eapply among_kept; [apply record_query_shared|shared_leaf|intros ? ? ?]
      end
  end.

(** A whole call, from outside the mutex. *)
Definition call_keeps_shared (m : F Z) : Prop := ∀ g, shared g → among g false m (λ _ g _, shared g).

Ltac shared_call := intros g Hg; repeat first [shared_known | ok_step]; shared_leaf.

Lemma call_shared c : call_keeps_shared (run_call c).
Proof. destruct c; cbn [run_call]; shared_call. Qed.
End Shared.
