(* ===== verification/FfiTurns.v ===== *)
(** A call in turns: where it can be interrupted, and what it does when it goes on.

    A call lets the mutex go while a driver works and takes it again; what other threads do in such a gap is what
    they have made of the process when the call goes on.  [resume] runs a call up to the point where it
    pauses for the next time. *)

From S2P Require Import Prelude Wire Errors ParamValue Compression Text Security DiskSpill Streaming StreamSources Caches OutputParams.
From S2P Require Import Handles Transaction Xid Xa Execution Pool AsyncRequests Chunking FfiState FfiSession FfiXa FfiQuery FfiStreams FfiPool FfiInfo FfiCatalog FfiLogic FfiMachine FfiDemo.

(** * Calls in turns *)

Section Turns.
Context `{P : Platform}.

Definition on_panic (c : Call) : Z := if returns_id c then 0 else FFI_PANIC.

(** How far a call that began in [f] gets, having found the mutex with the states [found]: it waits for the mutex, in
    a frame, or it is over. *)
Inductive Turn := Waiting (fr : Frame) | Over (code : Z) (out : Out) (f : Ffi).

Definition resume (c : Call) (f : Ffi) (found : list Ffi) : Turn :=
  let r := run_call c (mkFrame f false [] (Finds found)) in
  match fr_sched r.2 with
  | Waits => Waiting r.2
  | _ => let '(code, out, f) := guarded (on_panic c) r in Over code out f
  end.

Lemma dispatch_guarded c f : dispatch c f = guarded (on_panic c) (run_call c (mkFrame f false [] Alone)).
Proof. unfold dispatch, on_panic. by destruct (returns_id c). Qed.

(** ** A call that is not interrupted *)

Definition with_sched (s : Sched) (fr : Frame) : Frame := mkFrame (fr_ffi fr) (fr_locked fr) (fr_out fr) s.

(** [m] run in turns: [stops] are the states in which it goes for the mutex when it is alone; finding them, it does what it
    does alone, and finding fewer of them it waits in the next. *)
Definition in_turns {A : Type} (m : F A) : Prop := ∀ fr, fr_sched fr = Alone →
  fr_sched (m fr).2 = Alone ∧ ∃ stops,
    (∀ rest, m (with_sched (Finds (stops ++ rest)) fr) = ((m fr).1, with_sched (Finds rest) (m fr).2)) ∧
    (∀ k f, stops !! k = Some f → ∃ fr', m (with_sched (Finds (take k stops)) fr) = (Return 0, fr') ∧ fr_sched fr' = Waits ∧ fr_ffi fr' = f).

(** What does not look at the others. *)
Definition blind {A : Type} (m : F A) : Prop := ∀ s fr, m (with_sched s fr) = ((m fr).1, with_sched s (m fr).2).

Lemma blind_in_turns {A} (m : F A) : blind m → in_turns m.
Proof.
  intros H fr Hs. assert (with_sched Alone fr = fr) as He by (destruct fr; cbn in *; by subst). split.
  - pose proof (H Alone fr) as Ha. rewrite He in Ha. rewrite Ha at 1. done.
  - exists []. split; [intros rest; apply H|]. intros k f Hk. by destruct k.
Qed.

Lemma bind_in_turns {A B} (m : F A) (k : A → F B) : in_turns m → (∀ a, in_turns (k a)) → in_turns (fbind m k).
Proof.
  intros Hm Hk fr Hs. destruct (Hm fr Hs) as (Hs1 & stops1 & Hrun1 & Hwait1). unfold fbind.
  destruct (m fr) as [[a|c|] fr1] eqn:E; cbn [fst snd] in *.
  2,3: split; [done|]; exists stops1; (split; [intros rest; by rewrite Hrun1|]); intros j f Hj;
    destruct (Hwait1 j f Hj) as (fr' & Hw & ? & ?); exists fr'; by rewrite Hw.
  destruct (Hk a fr1 Hs1) as (Hs2 & stops2 & Hrun2 & Hwait2). split; [done|]. exists (stops1 ++ stops2). split.
  - intros rest. rewrite <- app_assoc, Hrun1. cbn. apply Hrun2.
  - intros j f Hj. apply lookup_app_Some in Hj as [Hj|[Hle Hj]].
    + rewrite take_app_le by (apply lookup_lt_Some in Hj; lia).
      destruct (Hwait1 j f Hj) as (fr' & Hw & ? & ?). exists fr'. by rewrite Hw.
    + rewrite take_app_ge by done. rewrite Hrun1. cbn. by apply Hwait2.
Qed.

Lemma meet_in_turns : in_turns meet.
Proof.
  intros [f l o s] Hs. cbn in Hs. subst s. split; [done|]. exists [f]. split.
  - intros rest. cbn. by assert (set_recovered (f_recovered f) f = f) as -> by by destruct f.
  - intros [|k] f' Hk; [|done]. injection Hk as <-. by eexists.
Qed.

Lemma lock_state_blind : blind lock_state.
Proof. intros s fr. unfold lock_state. cbn. by destruct (f_poisoned _). Qed.

Lemma for_each_in_turns {A} (f : A → F unit) xs : (∀ x, in_turns (f x)) → in_turns (for_each f xs).
Proof. intros H. induction xs as [|x xs IH]; cbn [for_each]; [by apply blind_in_turns|]. by apply bind_in_turns. Qed.

Lemma engine_call_blind {A} (m : M A) : blind (engine_call m).
Proof. intros s fr. unfold engine_call. cbn. by destruct (m _). Qed.

Lemma pipeline_call_blind {A} (m : X A) : blind (pipeline_call m).
Proof. intros s fr. unfold pipeline_call. cbn. by destruct (m _ _) as [[??]?]. Qed.

Lemma catalog_call_blind {A} (m : X A) : blind (catalog_call m).
Proof. intros s fr. unfold catalog_call. cbn. by destruct (m _ _) as [[??]?]. Qed.

Lemma start_buffer_blind phys n sql : blind (start_buffer phys n sql).
Proof. intros s fr. unfold start_buffer. cbn. by destruct (holding_connection _ _ _ _) as [[[[??]|?|]?]?]. Qed.

Lemma fetch_kind_blind k : blind (fetch_kind k).
Proof. intros s fr. unfold fetch_kind. cbn. by destruct (kind_fetch _ _) as [[??]?]. Qed.

(** ** Going on with a call *)

(** [m] run again with more states to find does what it did, and where it had to wait it finds the next. *)
Definition resumable {A : Type} (m : F A) : Prop := ∀ fr fs, fr_sched fr = Finds fs →
  match fr_sched (m fr).2 with
  | Alone => False
  | Finds rest =>
      (∃ used, fs = used ++ rest) ∧
      ∀ more, m (with_sched (Finds (fs ++ more)) fr) = ((m fr).1, with_sched (Finds (rest ++ more)) (m fr).2)
  | Waits =>
      (m fr).1 = Return 0 ∧
      ∀ f, let s := fr_sched (m (with_sched (Finds (fs ++ [f])) fr)).2 in s = Finds [] ∨ s = Waits
  end.

Lemma with_own_sched fr : with_sched (fr_sched fr) fr = fr.
Proof. by destruct fr. Qed.

Lemma blind_resumable {A} (m : F A) : blind m → resumable m.
Proof.
  intros H fr fs Hs. assert (fr_sched (m fr).2 = Finds fs) as Hm.
  { rewrite <- (with_own_sched fr), H. cbn. exact Hs. }
  rewrite Hm. split; [by exists []|]. intros more. apply H.
Qed.

(** A piece that has found all there was leaves nothing. *)
Lemma resumable_spent {A} (m : F A) fr : resumable m → fr_sched fr = Finds [] ∨ fr_sched fr = Waits →
  fr_sched fr = Finds [] → fr_sched (m fr).2 = Finds [] ∨ fr_sched (m fr).2 = Waits.
Proof.
  intros Hm _ Hs. specialize (Hm fr [] Hs). destruct (fr_sched (m fr).2) as [|rest|]; [done| |by right].
  destruct Hm as [[used Hu] _]. left. by apply symmetry, app_nil in Hu as [_ ->].
Qed.

Lemma bind_resumable {A B} (m : F A) (k : A → F B) : resumable m → (∀ a, resumable (k a)) → resumable (fbind m k).
Proof.
  intros Hm Hk fr fs Hs. pose proof (Hm fr fs Hs) as H. unfold fbind. destruct (m fr) as [x fr1] eqn:E. cbn [fst snd] in H.
  destruct (fr_sched fr1) as [|rest|] eqn:Hs1; [done| |].
  - destruct H as [[used ->] Hrun]. destruct x as [a|c|]; cbn [fst snd].
    2,3: rewrite Hs1; (split; [by exists used|]); intros more; by rewrite Hrun.
    pose proof (Hk a fr1 rest Hs1) as H2. destruct (fr_sched (k a fr1).2) as [|rest2|] eqn:Hs2; [done| |].
    + destruct H2 as [[used2 ->] Hrun2]. split; [exists (used ++ used2); by rewrite app_assoc|]. intros more. rewrite Hrun. apply Hrun2.
    + destruct H2 as [Hx Hnext]. split; [done|]. intros f. rewrite Hrun. apply Hnext.
  - destruct H as [Hx Hnext]. subst x. cbn [fst snd]. rewrite Hs1. split; [done|]. intros f. specialize (Hnext f).
    destruct (m (with_sched (Finds (fs ++ [f])) fr)) as [[a|c|] fr2] eqn:E2; cbn [fst snd] in *; [|done..].
    destruct Hnext as [Hn|Hn]; [by apply resumable_spent; auto|]. exfalso.
    pose proof (Hm _ _ (eq_refl : fr_sched (with_sched (Finds (fs ++ [f])) fr) = _)) as H3. rewrite E2 in H3. cbn in H3. rewrite Hn in H3.
    by destruct H3.
Qed.

Lemma meet_resumable : resumable meet.
Proof.
  intros [f l o s] fs Hs. cbn in Hs. subst s. destruct fs as [|f' fs]; cbn; [by split; [|intros g; left]|]. split; [by exists [f']|done].
Qed.

Lemma for_each_resumable {A} (f : A → F unit) xs : (∀ x, resumable (f x)) → resumable (for_each f xs).
Proof. intros H. induction xs as [|x xs IH]; cbn [for_each]; [by apply blind_resumable|]. by apply bind_resumable. Qed.

(** The primitives that do not look at the others. *)
Ltac blind_step :=
  lazymatch goal with
  | |- blind ?m =>
      lazymatch m with
      | lock_state => apply lock_state_blind
      | engine_call _ => apply engine_call_blind
      | pipeline_call _ => apply pipeline_call_blind
      | catalog_call _ => apply catalog_call_blind
      | start_buffer _ _ _ => apply start_buffer_blind
      | fetch_kind _ => apply fetch_kind_blind
      | state => done
      | with_ffi _ => done
      | read_ffi _ => done
      | now => done
      | write _ => done
      | next _ => done
      | return_ _ => done
      | panic => done
      | unlock_state => done
      end
  end.

(** Through the code, by the rules for a sequence, a loop, a point where others can run, and the rest. *)
Ltac turns_step sequence loop point rest :=
  lazymatch goal with
  | |- _ ?m =>
      lazymatch m with
      | fbind _ _ => sequence
      | for_each _ _ => loop
      | meet => point
      | match ?x with _ => _ end => destruct x
      | _ => first [rest; blind_step|let h := head_of m in unfold h]
      end
  end.

Lemma call_in_turns c : in_turns (run_call c).
Proof.
  destruct c; cbn [run_call];
    repeat turns_step ltac:(apply bind_in_turns; [|intros ?]) ltac:(apply for_each_in_turns; intros ?) ltac:(apply meet_in_turns) ltac:(apply blind_in_turns).
Qed.

Lemma call_resumable c : resumable (run_call c).
Proof.
  destruct c; cbn [run_call];
    repeat turns_step ltac:(apply bind_resumable; [|intros ?]) ltac:(apply for_each_resumable; intros ?) ltac:(apply meet_resumable) ltac:(apply blind_resumable).
Qed.
(** ** How many turns a call takes *)

(** With [n] states to find [m] does not pause, and leaves [n'] of them, with [Q n']. *)
Definition within {A : Type} (n : nat) (m : F A) (Q : A → nat → Prop) : Prop := ∀ fr fs, fr_sched fr = Finds fs → (n ≤ length fs)%nat →
  match m fr with
  | (Next a, fr') => ∃ rest n', fr_sched fr' = Finds rest ∧ (n' ≤ length rest)%nat ∧ Q a n'
  | (_, fr') => fr_sched fr' ≠ Waits
  end.

Lemma within_bind {A B} n (m : F A) (k : A → F B) Q : within n m (λ a n', within n' (k a) Q) → within n (fbind m k) Q.
Proof.
  intros H fr fs Hs Hn. specialize (H fr fs Hs Hn). unfold fbind. destruct (m fr) as [[a|c|] fr']; [|done|done].
  destruct H as (rest & n' & Hs' & Hn' & H). by apply (H fr' rest).
Qed.

Lemma within_blind {A} n (m : F A) (Q : A → nat → Prop) : blind m → (∀ a, Q a n) → within n m Q.
Proof.
  intros Hm HQ fr fs Hs Hn. assert (fr_sched (m fr).2 = Finds fs) as Hm'.
  { rewrite <- (with_own_sched fr), Hm. cbn. exact Hs. }
  destruct (m fr) as [[a|c|] fr']; cbn in Hm'; [by exists fs, n|by rewrite Hm'..].
Qed.

Lemma within_next {A} n (a : A) (Q : A → nat → Prop) : Q a n → within n (next a) Q.
Proof. intros H fr fs Hs Hn. by exists fs, n. Qed.

Lemma within_return {A} n c (Q : A → nat → Prop) : within n (return_ c) Q.
Proof. intros fr fs Hs Hn. cbn. by rewrite Hs. Qed.

Lemma within_panic {A} n (Q : A → nat → Prop) : within n panic Q.
Proof. intros fr fs Hs Hn. cbn. by rewrite Hs. Qed.

Lemma within_meet n (Q : unit → nat → Prop) : Q tt n → within (S n) meet Q.
Proof.
  intros H [f l o s] fs Hs Hn. cbn in Hs. subst s. destruct fs as [|f' fs]; cbn in *; [lia|]. exists fs, n. split_and!; [done|lia|done].
Qed.

(** The rules leave it open which value comes back, but for the mutex: one that is had is had. *)
Lemma within_lock_or n failed c (Q : unit → nat → Prop) :
  Q tt n → within n failed (λ _ _, True) → within (S n) (lock_or failed c) Q.
Proof.
  intros HQ Hf. apply within_bind, within_bind, within_meet, within_blind; [apply lock_state_blind|].
  intros []; [by apply within_next|]. apply within_bind. intros fr fs Hs Hn. specialize (Hf fr fs Hs Hn).
  destruct (failed fr) as [[[]|?|] fr']; [|done|done]. destruct Hf as (rest & n' & Hs' & Hn' & _). exists rest, n'. split_and!; [done..|].
  intros fr2 fs2 Hs2 _. cbn. by rewrite Hs2.
Qed.

Lemma within_for_each {A} n (f : A → F unit) xs (Q : unit → nat → Prop) :
  (∀ x, within n (f x) (λ _ n', n' = n)) → Q tt n → within n (for_each f xs) Q.
Proof.
  intros Hf HQ. induction xs as [|x xs IH]; cbn [for_each]; [by apply within_next|]. apply within_bind.
  intros fr fs Hs Hn. specialize (Hf x fr fs Hs Hn). destruct (f x fr) as [[[]|?|] fr']; [|done|done].
  destruct Hf as (rest & n' & Hs' & Hn' & ->). exists rest, n. split_and!; [done..|]. exact IH.
Qed.

Lemma bind_blind {A B} (m : F A) (k : A → F B) : blind m → (∀ a, blind (k a)) → blind (fbind m k).
Proof. intros Hm Hk s fr. unfold fbind. rewrite Hm. destruct (m fr) as [[a|c|] fr']; cbn; [apply Hk|done|done]. Qed.

Lemma for_each_blind {A} (f : A → F unit) xs : (∀ x, blind (f x)) → blind (for_each f xs).
Proof. intros H. induction xs as [|x xs IH]; cbn [for_each]; [done|]. by apply bind_blind. Qed.

(** A piece without a point where others can run. *)
Ltac blind_piece :=
  lazymatch goal with
  | |- blind ?m =>
      lazymatch m with
      | fbind _ _ => apply bind_blind; [blind_piece|intros ?; blind_piece]
      | for_each _ _ => apply for_each_blind; intros ?; blind_piece
      | meet => fail
      | match ?x with _ => _ end => destruct x; blind_piece
      | _ => first [blind_step|let h := head_of m in unfold h; blind_piece]
      end
  end.

Ltac within_step :=
  lazymatch goal with
  | |- within _ ?m _ =>
      lazymatch m with
      | fbind _ _ => apply within_bind
      | next _ => apply within_next
      | return_ _ => apply within_return
      | panic => apply within_panic
      | meet => apply within_meet
      | lock_or _ _ => apply within_lock_or
      | for_each _ _ => apply within_for_each; [intros ?|]
      | match ?x with _ => _ end => destruct x
      | _ => first [apply within_blind; [blind_piece|intros ?]|let h := head_of m in unfold h]
      end
  end.

(** The most a call takes: one to begin and no more than seven to go on. *)
Definition MAX_TURNS : nat := 7.

Lemma call_within c : within MAX_TURNS (run_call c) (λ _ _, True).
Proof. unfold MAX_TURNS. destruct c; cbn [run_call]; repeat within_step; try exact I; reflexivity. Qed.

End Turns.
