(* ===== verification/FfiThreads.v ===== *)
(** The library among threads: calls whose turns alternate in any order.

    A thread in a call is that call with the states in which it has gone on so far; [thread_step] begins a
    call, lets a thread go on to its next pause, or moves a worker. *)

From S2P Require Import Prelude Wire Errors ParamValue Compression Text Security DiskSpill Streaming StreamSources Caches OutputParams.
From S2P Require Import Handles Transaction Xid Xa Execution Pool AsyncRequests Chunking FfiState FfiSession FfiXa FfiQuery FfiStreams FfiPool FfiInfo FfiCatalog FfiLogic FfiMachine FfiDemo FfiPoison FfiInvariant FfiWrites FfiShared FfiTurns.

(** * Threads *)

Section Threads.
Context `{P : Platform}.

(** A call that waits: what it is, where it began, and the states it has found since. *)
Record Paused := mkPaused { pa_call : Call; pa_began : Ffi; pa_found : list Ffi }.

(** The process; the calls of the threads that are in one; the list of recovered XIDs of each thread; what the
    calls have answered so far. *)
Record Threads := mkThreads {
  th_ffi : Ffi;
  th_calls : gmap nat Paused;
  th_recovered : gmap nat (list Xid);
  th_answers : list (nat * Z)
}.

Inductive ThreadEvent :=
| TCall (t : nat) (c : Call)
| TGo (t : nat)
| TWorker (s : WorkerStep).

(** Thread [t] goes on with its call. *)
Definition turn (t : nat) (p : Paused) (s : Threads) : Threads :=
  match resume (pa_call p) (pa_began p) (pa_found p) with
  | Waiting fr => mkThreads (fr_ffi fr) (<[t := p]> (th_calls s)) (th_recovered s) (th_answers s)
  | Over code _ f => mkThreads f (delete t (th_calls s)) (<[t := f_recovered f]> (th_recovered s)) (th_answers s ++ [(t, code)])
  end.

(** The process as thread [t] sees it. *)
Definition seen_by (t : nat) (s : Threads) : Ffi := set_recovered (default [] (th_recovered s !! t)) (th_ffi s).

Definition thread_step (s : Threads) (ev : ThreadEvent) : Threads :=
  match ev with
  | TCall t c => match th_calls s !! t with Some _ => s | None => turn t (mkPaused c (seen_by t s) []) s end
  | TGo t => match th_calls s !! t with
             | Some p => turn t (mkPaused (pa_call p) (pa_began p) (pa_found p ++ [th_ffi s])) s
             | None => s
             end
  | TWorker w => mkThreads (worker_step w (th_ffi s)) (th_calls s) (th_recovered s) (th_answers s)
  end.

Definition thread_run (evs : list ThreadEvent) (s : Threads) : Threads := foldl thread_step s evs.

Definition threads_initial (f : Ffi) : Threads := mkThreads f ∅ ∅ [].

(** ** A panic is final *)

(** What the call is going to find last. *)
Definition ends_poisoned (fr : Frame) : Prop :=
  match fr_sched fr with Finds fs => f_poisoned (default (fr_ffi fr) (last fs)) = true | _ => f_poisoned (fr_ffi fr) = true end.

Definition stays_poisoned (a b : Frame) : Prop := ends_poisoned a → ends_poisoned b.

#[local] Instance stays_poisoned_preorder : PreOrder stays_poisoned.
Proof. split; [intros a H; exact H|]. intros a b c H1 H2 H. by apply H2, H1. Qed.

Lemma keeps_poison {A} (m : F A) :
  (∀ fr, f_poisoned (fr_ffi (m fr).2) = f_poisoned (fr_ffi fr) ∧ fr_sched (m fr).2 = fr_sched fr) → moves stays_poisoned m.
Proof.
  intros H fr. unfold stays_poisoned, ends_poisoned. destruct (H fr) as [Hp ->]. destruct (fr_sched fr); rewrite ?Hp; try done.
  destruct (last fs); cbn; congruence.
Qed.

Lemma meet_poison : moves stays_poisoned meet.
Proof.
  intros [f l o [|[|f' fs]|]]; unfold stays_poisoned, ends_poisoned; cbn; try done. rewrite last_cons. by destruct (last fs).
Qed.

Lemma lock_state_poison : moves stays_poisoned lock_state.
Proof. apply keeps_poison. intros fr. unfold lock_state. by case_match. Qed.

Lemma engine_call_poison {A} (m : M A) : moves stays_poisoned (engine_call m).
Proof. apply keeps_poison. intros fr. unfold engine_call. by destruct (m _). Qed.

Lemma pipeline_call_poison {A} (m : X A) : moves stays_poisoned (pipeline_call m).
Proof. apply keeps_poison. intros fr. unfold pipeline_call. by destruct (m _ _) as [[??]?]. Qed.

Lemma catalog_call_poison {A} (m : X A) : moves stays_poisoned (catalog_call m).
Proof. apply keeps_poison. intros fr. unfold catalog_call. by destruct (m _ _) as [[??]?]. Qed.

Lemma start_buffer_poison phys n sql : moves stays_poisoned (start_buffer phys n sql).
Proof. apply keeps_poison. intros fr. unfold start_buffer. by destruct (holding_connection _ _ _ _) as [[[[??]|?|]?]?]. Qed.

Lemma fetch_kind_poison k : moves stays_poisoned (fetch_kind k).
Proof. apply keeps_poison. intros fr. unfold fetch_kind. by destruct (kind_fetch _ _) as [[??]?]. Qed.

Ltac poison_step :=
  moves_step ltac:(idtac;
    lazymatch goal with
    | |- moves _ meet => apply meet_poison
    | |- moves _ lock_state => apply lock_state_poison
    | |- moves _ (engine_call _) => apply engine_call_poison
    | |- moves _ (pipeline_call _) => apply pipeline_call_poison
    | |- moves _ (catalog_call _) => apply catalog_call_poison
    | |- moves _ (start_buffer _ _ _) => apply start_buffer_poison
    | |- moves _ (fetch_kind _) => apply fetch_kind_poison
    | |- moves _ (for_each _ _) => apply moves_for_each; [typeclasses eauto|intros ?]
    | |- moves _ _ => by apply keeps_poison
    end).

Lemma call_stays_poisoned c : moves stays_poisoned (run_call c).
Proof. destruct c; cbn [run_call]; repeat poison_step. Qed.

(** ** A turn *)

Definition turn_ffi (r : Turn) : Ffi := match r with Waiting fr => fr_ffi fr | Over _ _ f => f end.

Lemma turn_state t p s : th_ffi (turn t p s) = turn_ffi (resume (pa_call p) (pa_began p) (pa_found p)).
Proof. unfold turn. by destruct (resume _ _ _). Qed.

Lemma guarded_poisoned n (x : Flow Z) (fr : Frame) : f_poisoned (fr_ffi fr) = true → f_poisoned (guarded n (x, fr)).2 = true.
Proof. intros Hp. destruct x; cbn; by rewrite ?Hp. Qed.

(** The last state found is the one the call goes on in: the call was waiting, or has only begun. *)
Definition caught_up (p : Paused) : Prop :=
  pa_found p = [] ∨ ∃ found f, pa_found p = found ++ [f] ∧ ∃ fr, resume (pa_call p) (pa_began p) found = Waiting fr.

Lemma caught_up_end p : caught_up p →
  let s := fr_sched (run_call (pa_call p) (mkFrame (pa_began p) false [] (Finds (pa_found p)))).2 in s = Finds [] ∨ s = Waits.
Proof.
  destruct p as [c f0 found]. unfold caught_up. cbn [pa_call pa_began pa_found]. intros [->|(found' & f & -> & fr & Hw)].
  { apply resumable_spent; [apply call_resumable|by left|done]. }
  revert Hw. unfold resume.
  pose proof (call_resumable c (mkFrame f0 false [] (Finds found')) found' eq_refl) as H. cbn [with_sched fr_ffi fr_locked fr_out] in H.
  destruct (fr_sched _) as [|more|]; [done| |]; [by destruct (guarded _ _) as [[??]?]|]. intros _. apply H.
Qed.

(** What was poisoned when the call went on is poisoned after its turn. *)
Lemma resume_poisoned p : caught_up p → f_poisoned (default (pa_began p) (last (pa_found p))) = true →
  f_poisoned (turn_ffi (resume (pa_call p) (pa_began p) (pa_found p))) = true.
Proof.
  intros Hc Hp. pose proof (call_stays_poisoned (pa_call p) (mkFrame (pa_began p) false [] (Finds (pa_found p))) Hp) as H.
  apply caught_up_end in Hc. unfold resume, ends_poisoned in *. destruct (run_call _ _) as [x fr]. cbn [fst snd] in *.
  destruct Hc as [Hc|Hc]; rewrite Hc in *; [|done]. pose proof (guarded_poisoned (on_panic (pa_call p)) x fr H) as Hg.
  by destruct (guarded _ _) as [[code out] f].
Qed.

Definition good (f : Ffi) : Prop := f_poisoned f = false ∧ shared (f_state f).

(** A turn of a call that has met good states only. *)
Lemma resume_shared c f found : good f → Forall good found →
  match resume c f found with
  | Waiting fr => good (fr_ffi fr) ∧ fr_locked fr = false
  | Over _ _ f' => f_poisoned f' = true ∨ good f'
  end.
Proof.
  intros [Hp Hg] Hf.
  pose proof (call_shared c (f_state f) Hg (mkFrame f false [] (Finds found)) (conj Hp Hf) eq_refl eq_refl) as H.
  unfold resume, going in *. destruct (run_call c _) as [[code|code|] fr]; cbn [fst snd] in *.
  - destruct H as [[Hp' Hs] Hi]. destruct (fr_sched fr); cbn; [done|by right|done].
  - destruct H as [[[Hp' Hs] Hi]|(Hp' & Hs & Hl & Hi)]; [destruct (fr_sched fr); cbn; [done|by right|done]|].
    rewrite Hs. by split.
  - destruct H as [[Hp' Hs] Hl]. destruct (fr_sched fr); cbn; [done| |done]. unfold good. cbn. rewrite Hp'.
    destruct Hl as [-> |Hi]; [by left|]. destruct (fr_locked fr); [by left|by right].
Qed.

(** ** Runs *)

(** A thread in a call, not poisoned: it waits, without the mutex, and has met good states only. *)
Definition thread_ok (p : Paused) : Prop :=
  good (pa_began p) ∧ Forall good (pa_found p) ∧
  ∃ fr, resume (pa_call p) (pa_began p) (pa_found p) = Waiting fr ∧ fr_locked fr = false.

Definition threads_ok (s : Threads) : Prop :=
  (∀ t p, th_calls s !! t = Some p → ∃ fr, resume (pa_call p) (pa_began p) (pa_found p) = Waiting fr) ∧
  (f_poisoned (th_ffi s) = true ∨ good (th_ffi s) ∧ ∀ t p, th_calls s !! t = Some p → thread_ok p).

Lemma turn_ok t p s : threads_ok s → caught_up p → f_poisoned (default (pa_began p) (last (pa_found p))) = f_poisoned (th_ffi s) →
  (good (th_ffi s) → good (pa_began p) ∧ Forall good (pa_found p)) → threads_ok (turn t p s).
Proof.
  intros [Hw Hs] Hc Hlast Hgood. split.
  - unfold turn. destruct (resume _ _ _) as [fr|code out f] eqn:Hr; cbn [th_calls]; intros t' p' Ht.
    + apply lookup_insert_Some in Ht as [[_ <-]|[_ Ht]]; [by exists fr|by eapply Hw].
    + apply lookup_delete_Some in Ht as [_ Ht]. by eapply Hw.
  - rewrite turn_state. destruct Hs as [Hp|[Hg Ht]].
    { left. apply resume_poisoned; [done|]. by rewrite Hlast. }
    destruct (Hgood Hg) as [Hb Hf]. pose proof (resume_shared (pa_call p) (pa_began p) (pa_found p) Hb Hf) as Hr.
    unfold turn. destruct (resume _ _ _) as [fr|code out f] eqn:Hre; cbn [turn_ffi th_calls].
    + right. destruct Hr as [Hr Hl]. split; [done|]. intros t' p' Ht'. apply lookup_insert_Some in Ht' as [[_ <-]|[_ Ht']]; [|eauto].
      split_and!; [done..|]. by exists fr.
    + destruct Hr as [Hr|Hr]; [by left|right]. split; [done|]. intros t' p' [_ Ht']%lookup_delete_Some. eauto.
Qed.

Lemma worker_shared w f : good f → good (worker_step w f).
Proof.
  intros [Hp Hg]. split; [by rewrite worker_poisoned|].
  assert (∀ op, shared (set_g_async_requests (async_step op (g_async_requests (f_state f))) (f_state f))) as Hop.
  { intros op. destruct Hg as (? & ? & ? & ? & ? & ? & ? & ? & ?). unfold shared. split_and!; try done. by apply step_wf. }
  destruct w as [n|n|n|n]; cbn [worker_step].
  - exact (Hop (OJobStart n)).
  - repeat case_match; try done. exact (Hop (OJobFinish n _)).
  - exact (Hop (OJobDecide n)).
  - exact (Hop (OJobStore n)).
Qed.

Lemma thread_step_ok s ev : threads_ok s → threads_ok (thread_step s ev).
Proof.
  intros Hs. pose proof Hs as [Hw Hk]. destruct ev as [t c|t|w]; cbn [thread_step].
  - destruct (th_calls s !! t) eqn:Ht; [done|]. apply turn_ok; [done|by left|done|]. by split.
  - destruct (th_calls s !! t) as [p|] eqn:Ht; [|done]. destruct (Hw t p Ht) as [fr Hr].
    apply turn_ok; [done|right; cbn; eauto 6|cbn; by rewrite last_snoc|]. cbn. intros Hg.
    destruct Hk as [Hp|[_ Hk]]; [destruct Hg; congruence|]. destruct (Hk t p Ht) as (Hb & Hf & _). split; [done|].
    by apply Forall_app_2; [|apply Forall_singleton].
  - split; [exact Hw|]. cbn. destruct Hk as [Hp|[Hg Hk]]; [left; by rewrite worker_poisoned|right]. split; [by apply worker_shared|exact Hk].
Qed.

Lemma thread_run_ok evs s : threads_ok s → threads_ok (thread_run evs s).
Proof. revert s. induction evs as [|ev evs IH]; intros s Hs; [done|]. apply IH, thread_step_ok, Hs. Qed.

Lemma initial_shared size ttl w e catalog fs : good (ffi_initial size ttl w e catalog fs).
Proof.
  split; [done|]. destruct (initial_inv size ttl) as (? & ? & ? & ? & ? & ? & ? & ? & ? & ? & ?). by split_and!.
Qed.


(** ** Every call is over after a bounded number of turns *)

Lemma resume_over c f found : (MAX_TURNS ≤ length found)%nat → ∃ code out f', resume c f found = Over code out f'.
Proof.
  intros Hn. pose proof (call_within c (mkFrame f false [] (Finds found)) found eq_refl Hn) as H. unfold resume.
  destruct (run_call c _) as [[code|code|] fr]; cbn [snd] in *; [destruct H as (rest & n & Hs & _); rewrite Hs|destruct (fr_sched fr)..];
    try done; cbn; eauto.
Qed.

(** Thread [t] in its call [c], [n] turns after it began, when [before] had been answered; and after its answer. *)
Definition in_call (t : nat) (c : Call) (before : list (nat * Z)) (n : nat) (s : Threads) : Prop :=
  (n < MAX_TURNS)%nat ∧ ∃ p more, th_calls s !! t = Some p ∧ pa_call p = c ∧ length (pa_found p) = n ∧ th_answers s = before ++ more.

Definition answered (t : nat) (before : list (nat * Z)) (s : Threads) : Prop :=
  th_calls s !! t = None ∧ ∃ code more, th_answers s = before ++ more ∧ (t, code) ∈ more.

Lemma turn_in_call t c before f found s more : th_answers s = before ++ more →
  in_call t c before (length found) (turn t (mkPaused c f found) s) ∨ answered t before (turn t (mkPaused c f found) s).
Proof.
  intros Hm. unfold turn. cbn [pa_call pa_began pa_found]. destruct (resume c f found) as [fr|code out f'] eqn:Hr.
  - left. split; [|exists (mkPaused c f found), more; cbn; by rewrite lookup_insert_eq].
    destruct (decide (MAX_TURNS ≤ length found)%nat) as [Hn|]; [|lia]. apply (resume_over c f) in Hn as (? & ? & ? & Hn). congruence.
  - right. split; [apply lookup_delete_eq|]. exists code, (more ++ [(t, code)]). cbn. rewrite Hm, app_assoc. split; [done|]. set_solver.
Qed.

(** A turn of another thread. *)
Lemma turn_other t t' p s : t' ≠ t →
  th_calls (turn t' p s) !! t = th_calls s !! t ∧ ∃ more, th_answers (turn t' p s) = th_answers s ++ more.
Proof.
  intros Hn. unfold turn. destruct (resume _ _ _); cbn; rewrite ?lookup_insert_ne, ?lookup_delete_ne by done; (split; [done|]);
    [exists []; by rewrite app_nil_r|eauto].
Qed.

Lemma step_other t s ev : (∀ c, ev ≠ TCall t c) → ev ≠ TGo t →
  th_calls (thread_step s ev) !! t = th_calls s !! t ∧ ∃ more, th_answers (thread_step s ev) = th_answers s ++ more.
Proof.
  assert (th_calls s !! t = th_calls s !! t ∧ ∃ more, th_answers s = th_answers s ++ more) as Hsame by (split; [done|exists []; by rewrite app_nil_r]).
  intros Hc Hg. destruct ev as [t' c|t'|w]; cbn [thread_step]; [| |exact Hsame].
  - destruct (th_calls s !! t'); [exact Hsame|]. apply turn_other. intros ->. by apply (Hc c).
  - destruct (th_calls s !! t'); [|exact Hsame]. apply turn_other. by intros ->.
Qed.

Definition goes_on (t : nat) (ev : ThreadEvent) : bool := match ev with TGo t' => Nat.eqb t' t | _ => false end.

Lemma goes_on_true t ev : goes_on t ev = true → ev = TGo t.
Proof. destruct ev; try done. by intros ->%Nat.eqb_eq. Qed.

Lemma goes_on_false t ev : goes_on t ev = false → ev ≠ TGo t.
Proof. intros H ->. cbn in H. by rewrite Nat.eqb_refl in H. Qed.

Lemma step_in_call t c before n s ev : (∀ c, ev ≠ TCall t c) → in_call t c before n s →
  in_call t c before (Nat.b2n (goes_on t ev) + n) (thread_step s ev) ∨ answered t before (thread_step s ev).
Proof.
  intros Hc (Hn & p & more & Hp & <- & <- & Hm). destruct (goes_on t ev) eqn:Hg.
  - apply goes_on_true in Hg as ->. cbn [thread_step]. rewrite Hp. destruct p as [c f found]. cbn [pa_call pa_began pa_found].
    replace (Nat.b2n true + length found)%nat with (length (found ++ [th_ffi s])) by (rewrite length_app; cbn; lia).
    by apply (turn_in_call t c before f _ s more).
  - apply goes_on_false in Hg. left. destruct (step_other t s ev Hc Hg) as [Hs [more' Ha]]. split; [done|].
    exists p, (more ++ more'). by rewrite Hs, Ha, Hm, app_assoc.
Qed.

Lemma step_answered t before s ev : (∀ c, ev ≠ TCall t c) → answered t before s → answered t before (thread_step s ev).
Proof.
  intros Hc (Hp & code & more & Hm & Hin). destruct (goes_on t ev) eqn:Hg.
  - apply goes_on_true in Hg as ->. cbn [thread_step]. rewrite Hp. split; [done|eauto].
  - apply goes_on_false in Hg. destruct (step_other t s ev Hc Hg) as [Hs [more' Ha]]. split; [by rewrite Hs|].
    exists code, (more ++ more'). rewrite Ha, Hm, app_assoc. split; [done|set_solver].
Qed.

Lemma run_answered t before evs s : Forall (λ ev, ∀ c, ev ≠ TCall t c) evs → answered t before s → answered t before (thread_run evs s).
Proof.
  intros Hf. revert s. induction Hf as [|ev evs He Hf IH]; intros s Hs; [done|]. by apply IH, step_answered.
Qed.

Lemma run_in_call t c before n s evs : Forall (λ ev, ∀ c, ev ≠ TCall t c) evs → in_call t c before n s →
  in_call t c before (n + length (List.filter (goes_on t) evs)) (thread_run evs s) ∨ answered t before (thread_run evs s).
Proof.
  intros Hf. revert n s. induction Hf as [|ev evs He Hf IH]; intros n s Hs; [left; cbn; by rewrite Nat.add_0_r|].
  change (thread_run (ev :: evs) s) with (thread_run evs (thread_step s ev)).
  destruct (step_in_call _ _ _ _ _ _ He Hs) as [Hs'|Hs']; [|right; by apply run_answered].
  destruct (IH _ _ Hs') as [H|H]; [left|by right]. cbn [List.filter].
  destruct (goes_on t ev); cbn [Nat.b2n length] in *; [|exact H].
  by replace (n + S (length (List.filter (goes_on t) evs)))%nat with (1 + n + length (List.filter (goes_on t) evs))%nat by lia.
Qed.


(** The buffers of a caller are as safe among threads: whatever states a call goes on in, it writes what it may. *)
Theorem writes_fit_among_threads (c : Call) (f : Ffi) (found : list Ffi) (code : Z) (out : Out) (f' : Ffi) :
  resume c f found = Over code out f' → Forall (allowed c) out.
Proof.
  unfold resume. destruct (call_writes c (mkFrame f false [] (Finds found))) as (xs & Ho & Hx).
  destruct (run_call c _) as [x fr]. cbn [snd fr_out] in *. rewrite app_nil_l in Ho. subst xs.
  destruct (fr_sched fr), x; cbn; intros [=]; by subst.
Qed.

(** ** Conservativity *)

Lemma thread_run_snoc evs ev s : thread_run (evs ++ [ev]) s = thread_step (thread_run evs s) ev.
Proof. unfold thread_run. by rewrite foldl_app. Qed.

(** The first turns of a call with [stops] before it. *)
Lemma first_turns t c f0 s stops k f :
  (∀ k f, stops !! k = Some f → ∃ fr, resume c f0 (take k stops) = Waiting fr ∧ fr_ffi fr = f) →
  th_calls s !! t = None → seen_by t s = f0 → stops !! k = Some f →
  thread_run (TCall t c :: replicate k (TGo t)) s =
  mkThreads f (<[t := mkPaused c f0 (take k stops)]> (th_calls s)) (th_recovered s) (th_answers s).
Proof.
  intros Hwait Ht Hs. revert f. induction k as [|k IH]; intros f Hk.
  - cbn [replicate thread_run foldl thread_step]. rewrite Ht, Hs. unfold turn. cbn [pa_call pa_began pa_found].
    destruct (Hwait 0%nat f Hk) as (fr & Hr & <-). rewrite take_0 in *. by rewrite Hr.
  - destruct (lookup_lt_is_Some_2 stops k) as [f1 Hk1]; [apply lookup_lt_Some in Hk; lia|].
    rewrite replicate_S_end, app_comm_cons, thread_run_snoc, (IH f1 Hk1). cbn [thread_step th_calls th_ffi].
    rewrite lookup_insert_eq. cbn [pa_call pa_began pa_found]. rewrite <- (take_S_r _ _ _ Hk1). unfold turn.
    cbn [pa_call pa_began pa_found th_calls th_recovered th_answers].
    destruct (Hwait (S k) f Hk) as (fr & -> & <-). by rewrite insert_insert_eq.
Qed.

(** A call that is not interrupted is a call of the sequential machine: after as many turns as it needs it has answered what
    [dispatch] answers, and left the process as [dispatch] does, and the other threads as they were. *)
Theorem uninterrupted_call (t : nat) (c : Call) (s : Threads) :
  th_calls s !! t = None →
  ∃ n, let '(code, _, f) := dispatch c (seen_by t s) in
    thread_run (TCall t c :: replicate n (TGo t)) s =
    mkThreads f (th_calls s) (<[t := f_recovered f]> (th_recovered s)) (th_answers s ++ [(t, code)]).
Proof.
  intros Ht. rewrite dispatch_guarded. set (f0 := seen_by t s).
  destruct (call_in_turns c (mkFrame f0 false [] Alone) eq_refl) as (Ha & stops & Hrun & Hwait).
  specialize (Hrun []). rewrite app_nil_r in Hrun. cbn [with_sched fr_ffi fr_locked fr_out] in Hrun, Hwait.
  assert (∀ k f, stops !! k = Some f → ∃ fr, resume c f0 (take k stops) = Waiting fr ∧ fr_ffi fr = f) as Hturn.
  { intros k f Hk. destruct (Hwait k f Hk) as (fr & Hr & Hs & <-). exists fr. unfold resume.
    change (mkFrame f0 false [] (Finds (take k stops))) with (with_sched (Finds (take k stops)) (mkFrame f0 false [] Alone)).
    rewrite Hr. cbn. by rewrite Hs. }
  assert (let '(code, out, f) := guarded (on_panic c) (run_call c (mkFrame f0 false [] Alone)) in resume c f0 stops = Over code out f) as Hend.
  { unfold resume. change (mkFrame f0 false [] (Finds stops)) with (with_sched (Finds stops) (mkFrame f0 false [] Alone)). rewrite Hrun.
    destruct (run_call c (mkFrame f0 false [] Alone)) as [[code|code|] fr]; reflexivity. }
  exists (length stops). destruct (guarded _ _) as [[code out] f].
  destruct stops as [|f1 stops'] eqn:Hst; cbn [length].
  - cbn [replicate thread_run foldl thread_step]. rewrite Ht. unfold turn. cbn [pa_call pa_began pa_found]. fold f0.
    rewrite Hend. by rewrite delete_id.
  - rewrite <- Hst in *. destruct (lookup_lt_is_Some_2 stops (length stops')) as [fl Hl]; [rewrite Hst; cbn; lia|].
    rewrite replicate_S_end, app_comm_cons, thread_run_snoc, (first_turns t c f0 s stops _ fl Hturn Ht eq_refl Hl). cbn [thread_step th_calls th_ffi].
    rewrite lookup_insert_eq. cbn [pa_call pa_began pa_found]. rewrite <- (take_S_r _ _ _ Hl), take_ge by (rewrite Hst; cbn; lia).
    unfold turn. cbn [pa_call pa_began pa_found th_calls th_recovered th_answers]. rewrite Hend.
    by rewrite delete_insert_eq, delete_id.
Qed.
End Threads.

(** * Races

    What the sequential library keeps ([inv]) and threads lose.  Each run starts with the session's connection 1. *)

#[local] Existing Instance demo_platform.

Definition demo_connected : Ffi := ffi_run [ECall CInit; ECall (CConnect (c_string "DSN=a"))] demo_start.

Definition race (setup : list Call) (evs : list ThreadEvent) : Threads :=
  thread_run evs (threads_initial (ffi_run (map ECall setup) demo_connected)).

(** Thread [t] goes on, [n] times. *)
Definition goes (n : nat) (t : nat) : list ThreadEvent := replicate n (TGo t).

(** A call from its beginning to its end. *)
Definition whole (t : nat) (c : Call) : list ThreadEvent := TCall t c :: goes 4 t.

(** Two threads begin a transaction on one connection: both look before either has entered its own. *)
Definition race_begin : Threads :=
  race [] ([TCall 1 (CTransactionBegin 1 1 0); TCall 2 (CTransactionBegin 1 1 0)] ++ goes 1 1 ++ goes 1 2 ++ goes 2 1 ++ goes 2 2).

(** A connection is closed while a transaction is begun on it. *)
Definition race_begin_disconnect : Threads := race [] ([TCall 1 (CTransactionBegin 1 1 0)] ++ goes 2 1 ++ whole 2 (CDisconnect false 1) ++ goes 1 1).

(** A transaction is begun between the moment another leaves the table and its commit. *)
Definition race_commit_begin : Threads :=
  race [CTransactionBegin 1 1 0] ([TCall 1 (CTransactionCommit 1)] ++ goes 1 1 ++ whole 2 (CTransactionBegin 1 1 0) ++ goes 1 1).

Definition race_buffer : OutBuf := mkOutBuf false 1000 false.

(** A stream is closed or cancelled, or its connection is closed, while it is fetched. *)
Definition race_fetch (other : Call) : Threads :=
  race [CStreamStartBatched (λ _, false) 1 (c_string "SELECT n FROM t") 10 1000] ([TCall 1 (CStreamFetch 1 race_buffer false)] ++ goes 1 1 ++ whole 2 other ++ goes 2 1).

(** A pool is closed while a query runs on one of its connections. *)
Definition race_pool : Threads :=
  race [CPoolCreate (c_string "DSN=a") 4; CPoolGetConnection 1]
    ([TCall 1 (CExecQuery 1000000 (c_string "SELECT n FROM t") race_buffer)] ++ goes 1 1 ++ whole 2 (CPoolClose 1) ++ goes 4 1).

Definition after (s : Threads) : GlobalState := f_state (th_ffi s).

(** Both begins are answered with a transaction. *)
Example race_begin_answers : th_answers race_begin = [(1%nat, 1); (2%nat, 2)].
Proof. vm_compute. reflexivity. Qed.

(** The commit and the return to autocommit reach the driver after the second transaction has left autocommit: it is in the
    table as an active one, and every statement of it is committed at once. *)
Example race_commit_begin_order :
  th_answers race_commit_begin = [(2%nat, 2); (1%nat, 0)] ∧
  t_state <$> g_transactions (after race_commit_begin) !! 2 = Some TxActive ∧
  drop 15 (w_trace (f_world (th_ffi race_commit_begin))) =
    [(1, CExec "SET TRANSACTION ISOLATION LEVEL READ COMMITTED", true); (1, CAutocommit false, true); (1, CCommit, true); (1, CAutocommit true, true)].
Proof. vm_compute. split_and!; reflexivity. Qed.

(** A close or a cancel is refused as that of an unknown stream, the stream is there again, and nothing asks its
    worker to stop. *)
Example race_fetch_refuses :
  Forall (λ other, th_answers (race_fetch other) = [(2%nat, 1); (1%nat, 0)] ∧
                   (λ k, match k with SkBatched _ c => Some c | _ => None end) <$> g_streams (after (race_fetch other)) !! 1 = Some (Some false))
    [CStreamClose 1; CStreamCancel 1].
Proof. repeat apply Forall_cons_2; [..|apply Forall_nil_2]; vm_compute; split; reflexivity. Qed.

Lemma has_entry {A} (p : A → Z) (m : gmap Z A) i z : p <$> m !! i = Some z → ∃ a, m !! i = Some a ∧ p a = z.
Proof. intros (a & Ha & ->)%fmap_Some. eauto. Qed.

(** Two transactions on one connection; a transaction, and a stream, of no connection; a pooled connection of no pool. *)
Theorem races_break_the_tables :
  Forall (λ s, f_poisoned (th_ffi s) = false ∧ ¬ inv (after s)) [race_begin; race_begin_disconnect; race_fetch (CDisconnect false 1); race_pool].
Proof.
  repeat apply Forall_cons_2; [..|apply Forall_nil_2]; (split; [vm_compute; reflexivity|]); intros (_ & Ht & _ & _ & _ & Hs & _ & _ & Hp & _).
  - destruct (has_entry t_conn_id (g_transactions (after race_begin)) 1 1) as (t & H1 & E1); [vm_compute; reflexivity|].
    destruct (has_entry t_conn_id (g_transactions (after race_begin)) 2 1) as (u & H2 & E2); [vm_compute; reflexivity|].
    assert (1 = 2); [|done]. apply (txns_one _ _ Ht 1 2 t u H1 H2). congruence.
  - destruct (has_entry t_conn_id (g_transactions (after race_begin_disconnect)) 1 1) as (t & H1 & E1); [vm_compute; reflexivity|].
    destruct (txns_active _ _ Ht 1 t H1) as [_ [conn Hc]]. rewrite E1 in Hc.
    assert (g_connections (after race_begin_disconnect) !! 1 = None) as Hn by (vm_compute; reflexivity). congruence.
  - set (g := after _) in *. assert (bool_decide (is_Some (g_streams g !! 1)) = true) as H1%bool_decide_eq_true by (vm_compute; reflexivity).
    apply (streams_owned _ _ _ _ Hs) in H1 as [c Hc].
    assert (g_stream_connections g !! 1 = None) as Hn by (vm_compute; reflexivity). congruence.
  - destruct (has_entry fst (g_pooled_connections (after race_pool)) 1000000 1) as ([p c] & H1 & E1); [vm_compute; reflexivity|].
    cbn in E1. subst p. destruct (Hp _ _ _ H1) as [pool Hpool].
    assert (g_pools (after race_pool) !! 1 = None) as Hn by (vm_compute; reflexivity). congruence.
Qed.

(** * Witnesses *)

(** A query of thread 1, with calls of thread 2 at every turn. *)
Definition busy : list ThreadEvent := concat (replicate 7 [TCall 2 (CTransactionBegin 1 1 0); TGo 1; TGo 2]).


Lemma writes_fit_among_threads_witness :
  Forall (allowed (CExecQuery 1 (c_string "SELECT n FROM t") race_buffer))
    (match resume (CExecQuery 1 (c_string "SELECT n FROM t") race_buffer) demo_connected (replicate 7 demo_connected) with Over _ out _ => out | _ => [] end).
Proof.
  destruct (resume _ _ _) as [fr|code out f'] eqn:E; [apply Forall_nil_2|].
  exact (writes_fit_among_threads (CExecQuery 1 (c_string "SELECT n FROM t") race_buffer) demo_connected (replicate 7 demo_connected) code out f' E).
Defined.

Lemma uninterrupted_call_witness :
  ∃ n, let '(code, _, f) := dispatch (CTransactionBegin 1 1 0) (seen_by 1 (threads_initial demo_connected)) in
    thread_run (TCall 1 (CTransactionBegin 1 1 0) :: replicate n (TGo 1)) (threads_initial demo_connected) =
    mkThreads f ∅ (<[1%nat := f_recovered f]> ∅) ([] ++ [(1%nat, code)]).
Proof. exact (uninterrupted_call 1 (CTransactionBegin 1 1 0) (threads_initial demo_connected) eq_refl). Defined.
