(* ===== verification/FfiResults.v ===== *)
(** Results that did not fit: a call that answers "buffer too small" keeps its result, and the
    retry gets it. *)

From S2P Require Import Prelude Wire Errors ParamValue Compression Text Security DiskSpill Streaming StreamSources Caches OutputParams.
From S2P Require Import Handles Transaction Xid Xa Execution Pool AsyncRequests Chunking FfiState FfiSession FfiXa FfiQuery FfiStreams FfiPool FfiInfo FfiCatalog FfiLogic FfiMachine FfiDemo.

Section Results.
Context `{P : Platform}.

(** Under which key a call keeps its result; the buffer it was given; the same call with
    another buffer. *)
Definition pending_key (g : GlobalState) (c : Call) : option PendingResultKey :=
  match c with
  | CExecQuery id sql _ => match sql ≫= to_str with Some s => Some (KeyExecQuery id (sql_hash s)) | None => None end
  | CExecQueryMulti id sql _ => match sql ≫= to_str with Some s => Some (KeyExecQueryMulti id (sql_hash s)) | None => None end
  | CExecQueryMultiParams id sql params _ =>
      match sql ≫= to_str, multi_params params with
      | Some s, inl (Ok _) => Some (KeyExecQueryParams id (sql_hash s) (params_hash params))
      | _, _ => None
      end
  | CExecute s params t n _ =>
      match g_statements g !! s with Some _ => Some (KeyExecute s (params_hash params) t n) | None => None end
  | _ => None
  end.

Definition buffer_of (c : Call) : option OutBuf :=
  match c with
  | CExecQuery _ _ b | CExecQueryMulti _ _ b | CExecQueryMultiParams _ _ _ b | CExecute _ _ _ _ b => Some b
  | _ => None
  end.

Definition with_buffer (b : OutBuf) (c : Call) : Call :=
  match c with
  | CExecQuery id sql _ => CExecQuery id sql b
  | CExecQueryMulti id sql _ => CExecQueryMulti id sql b
  | CExecQueryMultiParams id sql params _ => CExecQueryMultiParams id sql params b
  | CExecute s params t n _ => CExecute s params t n b
  | c => c
  end.

(** What a code means for the results that are kept. *)
Definition kept (c : Call) (g : GlobalState) (code : Z) (g' : GlobalState) : Prop :=
  code = -2 → ∃ b key data t, buffer_of c = Some b ∧ pending_key g' c = Some key ∧
    g_pending_result_buffers g' !! key = Some (mkPendingResult data t) ∧ ob_len b < len data.

Lemma too_small_kept c g : is_Some (buffer_of c) → ok (kept c g) (λ _, True) g false (run_call c) (λ code g' _, kept c g code g').
Proof.
  intros [b Hb]. destruct c; try discriminate; cbn [run_call]; ok_steps; try (by right); intros Hcode; try discriminate.
  all: repeat match goal with p : PendingResultBuffer |- _ => destruct p end; do 4 eexists; (split; [reflexivity|]).
  all: unfold pending_key; project; cbn [mbind option_bind]; repeat match goal with H : _ = Some _ |- _ => rewrite H; clear H | H : _ = inl _ |- _ => rewrite H; clear H end.
  all: split; [reflexivity|]; split; [apply lookup_insert_eq|]; apply Z.ltb_lt; assumption.
Qed.

(** What the kept result of [key] leads to. *)
Definition retried (key : PendingResultKey) (data : list byte) (b : OutBuf) (f : Ffi) (r : Z * Out * Ffi) : Prop :=
  let '(code, out, f') := r in
  code = 0 ∧ bytes_at ToBuffer out = Some data ∧ int_at ToWritten out = Some (len data mod 2 ^ 32) ∧
  f_world f' = f_world f ∧ f_engine f' = f_engine f ∧ f_poisoned f' = false ∧ g_pending_result_buffers (f_state f') = delete key (g_pending_result_buffers (f_state f)).

Lemma run_pending key data t b conn fr :
  g_pending_result_buffers (f_state (fr_ffi fr)) !! key = Some (mkPendingResult data t) →
  clock (f_reads (fr_ffi fr)) - t ≤ PENDING_RESULT_TTL → len data ≤ ob_len b →
  or_pending key b conn fr =
    (Return 0, mkFrame (set_state (set_g_pending_result_buffers (delete key (g_pending_result_buffers (f_state (fr_ffi fr)))) (f_state (fr_ffi fr)))
                          (later 1 (fr_ffi fr))) (fr_locked fr) (fr_out fr ++ [WBytes ToBuffer data; WInt ToWritten (len data mod 2 ^ 32)]) (fr_sched fr)).
Proof.
  intros Hk Ht Hl. unfold or_pending, try_write_pending_result, fbind, state. rewrite Hk. cbn [pr_created_at pr_data].
  unfold set_pending, update, with_ffi, elapsed, now, fbind, next, set_state. cbn [fr_ffi f_state f_reads fr_locked fr_out].
  destruct (Z.ltb_spec PENDING_RESULT_TTL (Z.max 0 (clock (f_reads (fr_ffi fr)) - t))) as [Hx|_]; [unfold PENDING_RESULT_TTL in *; lia|].
  destruct (Z.ltb_spec (ob_len b) (len data)) as [Hx|_]; [lia|].
  unfold write_out, write, fbind, return_. cbn. by rewrite <- app_assoc.
Qed.

Lemma retry_kept c b f key data t :
  f_poisoned f = false → pending_key (f_state f) c = Some key →
  g_pending_result_buffers (f_state f) !! key = Some (mkPendingResult data t) →
  (∀ n, (f_reads f ≤ n < f_reads f + 3)%nat → clock n - t ≤ PENDING_RESULT_TTL) →
  ob_null b = false → ob_written_null b = false → len data ≤ ob_len b →
  retried key data b f (dispatch (with_buffer b c) f).
Proof.
  intros Hp Hk Hd Ht Hb Hw Hl.
  destruct c; try discriminate; cbn [pending_key] in Hk; unfold dispatch, call_int, call_guard, guarded; cbn [with_buffer returns_id run_call].
  - destruct sql as [bs|]; [|discriminate]. cbn in Hk. destruct (to_str bs) as [s|] eqn:Hs; [|discriminate]. injection Hk as <-.
    unfold odbc_exec_query. rewrite Hb, Hw, Hs. cbn [orb].
    erewrite run_next by (apply run_lock; [exact Hp|reflexivity]). do 2 erewrite run_next by reflexivity.
    erewrite run_return by (apply (run_pending _ data t); cbn; [exact Hd|apply Ht; lia|exact Hl]). cbn. by rewrite Hp.
  - destruct (sql ≫= to_str) as [s|] eqn:Hs; [|discriminate]. injection Hk as <-.
    unfold odbc_exec_query_multi. rewrite Hb, Hw, Hs. cbn [orb].
    erewrite run_next by (apply run_lock; [exact Hp|reflexivity]). erewrite run_next by reflexivity.
    erewrite run_return by (apply (run_pending _ data t); cbn; [exact Hd|apply Ht; lia|exact Hl]). cbn. by rewrite Hp.
  - destruct (sql ≫= to_str) as [s|] eqn:Hs; [|discriminate]. destruct (multi_params params) as [[ps|e|]|msg] eqn:Hm; try discriminate.
    injection Hk as <-. unfold odbc_exec_query_multi_params. rewrite Hb, Hw, Hs, Hm. cbn [orb].
    erewrite run_next by (apply run_lock; [exact Hp|reflexivity]). erewrite run_next by reflexivity.
    erewrite run_return by (apply (run_pending _ data t); cbn; [exact Hd|apply Ht; lia|exact Hl]). cbn. by rewrite Hp.
  - destruct (g_statements (f_state f) !! stmt_id) as [h|] eqn:Hs; [|discriminate]. injection Hk as <-.
    unfold odbc_execute. rewrite Hb, Hw. cbn [orb].
    erewrite run_next by (apply run_lock; [exact Hp|reflexivity]). erewrite run_next by reflexivity. cbn [fr_ffi]. rewrite Hs.
    erewrite run_next by reflexivity.
    erewrite run_return by (apply (run_pending _ data t); cbn; [exact Hd|apply Ht; lia|exact Hl]). cbn. by rewrite Hp.
Qed.

(** C4: no result is lost to a small buffer.  When a query, a multi-result query (with or without parameters)
    or a prepared statement answers -2, its result is kept, larger than the buffer; and the
    same call, made again with a buffer that is long enough and within two seconds, answers
    0 with exactly those bytes, without a word to any driver: the world and the engine are
    as they were, and the kept result is gone. *)
Theorem too_small_then_retry (c : Call) (f f1 : Ffi) (out : Out) :
  is_Some (buffer_of c) → f_poisoned f = false → dispatch c f = (-2, out, f1) →
  ∃ b key data t,
    buffer_of c = Some b ∧ ob_len b < len data ∧ g_pending_result_buffers (f_state f1) !! key = Some (mkPendingResult data t) ∧
    ∀ b', ob_null b' = false → ob_written_null b' = false → len data ≤ ob_len b' →
      (∀ n, (f_reads f1 ≤ n < f_reads f1 + 3)%nat → clock n - t ≤ PENDING_RESULT_TTL) →
      retried key data b' f1 (dispatch (with_buffer b' c) f1).
Proof.
  intros Hb Hp Hd.
  assert (dispatch c f = call_guard FFI_PANIC (run_call c) f) as Hc by (destruct Hb as [b Hb]; by destruct c).
  rewrite Hc in Hd. pose proof (ok_call (kept c (f_state f)) (λ _, True) FFI_PANIC _ _ Hp (too_small_kept c (f_state f) Hb)) as H.
  rewrite Hd in H. destruct H as [[Hp' Hk]|[? _]]; [|discriminate].
  destruct (Hk eq_refl) as (b & key & data & t & Hbuf & Hkey & Hdata & Hlen).
  exists b, key, data, t. split_and!; [done..|]. intros b' Hn Hw Hl Ht. by eapply retry_kept.
Qed.
End Results.

(** * Witness *)

(** A query with a buffer of one byte. *)
Definition demo_query : Call := CExecQuery 1 (c_string "SELECT n FROM t") (mkOutBuf false 1 false).

Definition demo_too_small : Z * Out * Ffi := dispatch (P := demo_platform) demo_query demo_open.

Lemma too_small_then_retry_witness :
  demo_too_small.1.1 = -2 ∧
  ∃ b key data t,
    buffer_of demo_query = Some b ∧ ob_len b < len data ∧
    g_pending_result_buffers (f_state demo_too_small.2) !! key = Some (mkPendingResult data t) ∧
    ∀ b', ob_null b' = false → ob_written_null b' = false → len data ≤ ob_len b' →
      (∀ n, (f_reads demo_too_small.2 ≤ n < f_reads demo_too_small.2 + 3)%nat → clock (Platform := demo_platform) n - t ≤ PENDING_RESULT_TTL) →
      retried (P := demo_platform) key data b' demo_too_small.2 (dispatch (P := demo_platform) (with_buffer b' demo_query) demo_too_small.2).
Proof.
  assert (demo_too_small.1.1 = -2) as Hc by (vm_compute; reflexivity). split; [exact Hc|].
  apply (too_small_then_retry (P := demo_platform) demo_query demo_open demo_too_small.2 demo_too_small.1.2).
  - by eexists.
  - vm_compute. reflexivity.
  - rewrite <- Hc. unfold demo_too_small. by destruct (dispatch (P := demo_platform) demo_query demo_open) as [[code out] f'].
Defined.
