(* ===== verification/FfiFetch.v ===== *)
(** Fetching a stream: with buffers of any length, the client gets the chunks of the stream, each
    once and in order. *)

From S2P Require Import Prelude Wire Errors ParamValue Compression Text Security DiskSpill Streaming StreamSources Caches OutputParams.
From S2P Require Import Handles Transaction Xid Xa Execution Pool AsyncRequests Chunking FfiState FfiSession FfiXa FfiQuery FfiStreams FfiPool FfiInfo FfiCatalog FfiLogic FfiMachine FfiDemo.

Section Fetch.
Context `{P : Platform}.

(** A chunk and whether more follow. *)
Abbreviation Chunk := (list byte * bool)%type.

(** What a stream gives, fetch by fetch; a fetch at its end and one that fails give nothing. *)
Inductive gives : StreamKind → Fs → list Chunk → StreamKind → Fs → Prop :=
| gives_none k fs : gives k fs [] k fs
| gives_chunk k fs cs k1 fs1 k2 fs2 d :
    gives k fs cs k1 fs1 → kind_fetch k1 fs1 = (Ok (Some d), k2, fs2) → gives k fs (cs ++ [(d, kind_has_more k2)]) k2 fs2
| gives_end k fs cs k1 fs1 k2 fs2 : gives k fs cs k1 fs1 → kind_fetch k1 fs1 = (Ok None, k2, fs2) → gives k fs cs k2 fs2
| gives_error k fs cs k1 fs1 k2 fs2 e : gives k fs cs k1 fs1 → kind_fetch k1 fs1 = (Err e, k2, fs2) → gives k fs cs k2 fs2.

(** What the client found in its buffer after a fetch. *)
Definition delivered (code : Z) (out : Out) : list Chunk :=
  match bytes_at ToBuffer out, int_at ToHasMore out with
  | Some d, Some more => if code =? 0 then [(d, negb (more =? 0))] else []
  | _, _ => []
  end.

(** A client that fetches again and again, each time with the next buffer. *)
Fixpoint fetches (stream_id : Z) (bs : list OutBuf) (f : Ffi) : list Chunk * Ffi :=
  match bs with
  | [] => ([], f)
  | b :: bs =>
      let '(code, out, f) := dispatch (CStreamFetch stream_id b false) f in
      let '(cs, f) := fetches stream_id bs f in
      (delivered code out ++ cs, f)
  end.

(** The chunk that waits for a longer buffer. *)
Definition waiting (stream_id : Z) (f : Ffi) : list Chunk :=
  match g_pending_stream_chunks (f_state f) !! stream_id with Some c => [(pc_data c, pc_has_more c)] | None => [] end.

(** What one fetch does to the stream and to what waits. *)
Definition fetch_effect (stream_id : Z) (k : StreamKind) (f f' : Ffi) (cs : list Chunk) : Prop :=
  f_poisoned f' = false ∧
  ( (* nothing *) (g_streams (f_state f') !! stream_id = Some k ∧ f_fs f' = f_fs f ∧ cs ++ waiting stream_id f' = waiting stream_id f) ∨
   (* the stream was asked *)
   (waiting stream_id f = [] ∧ ∃ r k' fs', kind_fetch k (f_fs f) = (r, k', fs') ∧ f_fs f' = fs' ∧
      match r with
      | Ok (Some d) => g_streams (f_state f') !! stream_id = Some k' ∧ cs ++ waiting stream_id f' = [(d, kind_has_more k')]
      | Panic => g_streams (f_state f') !! stream_id = None ∧ cs = [] ∧ waiting stream_id f' = []
      | _ => g_streams (f_state f') !! stream_id = Some k' ∧ cs = [] ∧ waiting stream_id f' = []
      end)).

Lemma set_error_for_run id msg fr : ∃ n errs le,
  set_error_for id msg fr = (Next tt, mkFrame (set_state (set_g_last_structured_error None (set_g_last_error le (set_g_connection_errors errs (f_state (fr_ffi fr)))))
    (later n (fr_ffi fr))) (fr_locked fr) (fr_out fr) (fr_sched fr)).
Proof.
  destruct id as [id|].
  { exists 1%nat, (<[id := mkConnectionError msg None (clock (f_reads (fr_ffi fr)))]> (g_connection_errors (f_state (fr_ffi fr)))), (Some msg). reflexivity. }
  exists 0%nat, (g_connection_errors (f_state (fr_ffi fr))), (Some msg).
  unfold set_error_for, set_error, update, with_ffi, later, set_state. cbn. by destruct fr as [[[]] ? ? ?].
Qed.

Lemma fetch_once stream_id b k f :
  f_poisoned f = false → g_streams (f_state f) !! stream_id = Some k → ob_null b = false → ob_written_null b = false →
  let '(code, out, f') := dispatch (CStreamFetch stream_id b false) f in
  fetch_effect stream_id k f f' (delivered code out).
Proof.
  intros Hp Hk Hb Hw. unfold dispatch, call_int, call_guard, guarded. cbn [returns_id run_call]. unfold odbc_stream_fetch. rewrite Hb, Hw. cbn [orb].
  erewrite run_next by (apply run_lock; [exact Hp|reflexivity]). erewrite run_next by reflexivity. cbn [fr_ffi].
  destruct (g_pending_stream_chunks (f_state f) !! stream_id) as [[d more]|] eqn:Hc.
  - unfold fetch_pending. cbn [pc_data pc_has_more]. destruct (ob_len b <? len d) eqn:Hl.
    + match goal with |- context [set_error_for ?id ?msg] => edestruct (set_error_for_run id msg) as (n & errs & le & E) end.
      erewrite run_next by exact E. cbn. split; [done|]. left. unfold waiting. cbn. done.
    + do 2 erewrite run_next by reflexivity. erewrite run_next by reflexivity. cbn. split; [done|]. left. unfold waiting, delivered. cbn.
      rewrite Hc, lookup_delete_eq. cbn. by destruct more.
  - rewrite Hk. do 2 erewrite run_next by reflexivity. unfold fetch_kind. unfold fbind at 1. cbn [fr_ffi f_fs set_state].
    assert (waiting stream_id f = []) as Hwait by (unfold waiting; by rewrite Hc).
    destruct (kind_fetch k (f_fs f)) as [[r k'] fs'] eqn:E.
    destruct r as [[d|]|e|].
    4: { cbn. unfold unwind. cbn. rewrite Hp. split; [done|]. right. split; [done|]. exists Panic, k', fs'. unfold waiting. cbn.
         by rewrite lookup_delete_eq, Hc. }
    all: erewrite run_next by (apply run_lock; [exact Hp|reflexivity]); erewrite run_next by reflexivity; unfold fetched.
    + destruct (ob_len b <? len d) eqn:Hl.
      * erewrite run_next by reflexivity.
        match goal with |- context [set_error_for ?id ?msg] => edestruct (set_error_for_run id msg) as (n & errs & le & Er) end.
        erewrite run_next by exact Er. cbn. split; [done|]. right. split; [done|]. exists (Ok (Some d)), k', fs'. unfold waiting. cbn.
        by rewrite !lookup_insert_eq.
      * do 2 erewrite run_next by reflexivity. cbn. split; [done|]. right. split; [done|]. exists (Ok (Some d)), k', fs'.
        unfold waiting, delivered. cbn. rewrite lookup_insert_eq, Hc. by destruct (kind_has_more k').
    + do 2 erewrite run_next by reflexivity. cbn. split; [done|]. right. split; [done|]. exists (Ok None), k', fs'. unfold waiting. cbn.
      by rewrite lookup_insert_eq, Hc.
    + match goal with |- context [set_error_for ?id ?msg] => edestruct (set_error_for_run id msg) as (n & errs & le & Er) end.
      erewrite run_next by exact Er. cbn. split; [done|]. right. split; [done|]. exists (Err e), k', fs'. unfold waiting. cbn.
      by rewrite lookup_insert_eq, Hc.
Qed.

(** A stream that is gone gives nothing more. *)
Lemma fetch_gone stream_id b f :
  f_poisoned f = false → g_streams (f_state f) !! stream_id = None → waiting stream_id f = [] → ob_null b = false → ob_written_null b = false →
  let '(code, out, f') := dispatch (CStreamFetch stream_id b false) f in
  delivered code out = [] ∧ f_poisoned f' = false ∧ g_streams (f_state f') !! stream_id = None ∧ waiting stream_id f' = [] ∧ f_fs f' = f_fs f.
Proof.
  intros Hp Hk Hwait Hb Hw. unfold dispatch, call_int, call_guard, guarded. cbn [returns_id run_call]. unfold odbc_stream_fetch. rewrite Hb, Hw. cbn [orb].
  erewrite run_next by (apply run_lock; [exact Hp|reflexivity]). erewrite run_next by reflexivity. cbn [fr_ffi]. unfold waiting in *.
  destruct (g_pending_stream_chunks (f_state f) !! stream_id) eqn:Hc; [done|]. rewrite Hk. cbn. by rewrite Hk, Hc.
Qed.

(** How far the client is: [cs] have been delivered of what [k0] gives. *)
Definition progress (stream_id : Z) (k0 : StreamKind) (fs0 : Fs) (cs : list Chunk) (f : Ffi) : Prop :=
  f_poisoned f = false ∧
  ∃ k fs, gives k0 fs0 (cs ++ waiting stream_id f) k fs ∧
    (g_streams (f_state f) !! stream_id = Some k ∧ f_fs f = fs ∨ g_streams (f_state f) !! stream_id = None ∧ waiting stream_id f = []).

Lemma fetch_progress stream_id k0 fs0 cs b f : ob_null b = false → ob_written_null b = false → progress stream_id k0 fs0 cs f →
  let '(code, out, f') := dispatch (CStreamFetch stream_id b false) f in progress stream_id k0 fs0 (cs ++ delivered code out) f'.
Proof.
  intros Hb Hw (Hp & k & fs & Hg & [[Hk <-]|[Hk Hwait]]).
  - pose proof (fetch_once stream_id b k f Hp Hk Hb Hw) as H. destruct (dispatch _ f) as [[code out] f'].
    destruct H as (Hp' & [(Hk' & Hf & Hd)|(Hwait & r & k' & fs' & E & Hf & H)]); (split; [done|]).
    + exists k, (f_fs f). rewrite <- app_assoc, Hd. auto.
    + rewrite Hwait, app_nil_r in Hg. destruct r as [[d|]|e|].
      * destruct H as [Hk' Hd]. exists k', fs'. rewrite <- app_assoc, Hd. split; [by eapply gives_chunk|auto].
      * destruct H as (Hk' & -> & ->). exists k', fs'. rewrite !app_nil_r. split; [by eapply gives_end|auto].
      * destruct H as (Hk' & -> & ->). exists k', fs'. rewrite !app_nil_r. split; [by eapply gives_error|auto].
      * destruct H as (Hk' & -> & ->). exists k, (f_fs f). rewrite !app_nil_r. auto.
  - pose proof (fetch_gone stream_id b f Hp Hk Hwait Hb Hw) as H. destruct (dispatch _ f) as [[code out] f'].
    destruct H as (-> & Hp' & Hk' & Hwait' & _). split; [done|]. exists k, fs. rewrite Hwait in Hg. rewrite Hwait', app_nil_r. auto.
Qed.

Lemma fetches_progress stream_id k0 fs0 bs cs f :
  Forall (λ b, ob_null b = false ∧ ob_written_null b = false) bs → progress stream_id k0 fs0 cs f →
  progress stream_id k0 fs0 (cs ++ (fetches stream_id bs f).1) (fetches stream_id bs f).2.
Proof.
  intros Hbs. revert cs f. induction Hbs as [|b bs [Hb Hw] _ IH]; intros cs f H; cbn [fetches]; [by rewrite app_nil_r|].
  pose proof (fetch_progress stream_id k0 fs0 cs b f Hb Hw H) as H'. destruct (dispatch _ f) as [[code out] f'].
  specialize (IH _ _ H'). destruct (fetches stream_id bs f') as [cs' f'']. cbn in *. by rewrite <- app_assoc in IH.
Qed.

(** C5: with buffers of any lengths, a client that goes on fetching a stream gets what the stream gives, each
    chunk once, in order, with the right flag: the chunks delivered, followed by the one that
    waits for a longer buffer if there is one, are those the stream has given since the
    start.  A fetch that answers "buffer too small" loses nothing. *)
Theorem fetch_in_order (stream_id : Z) (bs : list OutBuf) (k : StreamKind) (f : Ffi) :
  f_poisoned f = false → g_streams (f_state f) !! stream_id = Some k → waiting stream_id f = [] →
  Forall (λ b, ob_null b = false ∧ ob_written_null b = false) bs →
  let '(cs, f') := fetches stream_id bs f in
  f_poisoned f' = false ∧
  ∃ k' fs', gives k (f_fs f) (cs ++ waiting stream_id f') k' fs' ∧
    (g_streams (f_state f') !! stream_id = Some k' ∧ f_fs f' = fs' ∨ g_streams (f_state f') !! stream_id = None).
Proof.
  intros Hp Hk Hwait Hbs. pose proof (fetches_progress stream_id k (f_fs f) bs [] f Hbs) as H.
  destruct (fetches stream_id bs f) as [cs f']. destruct H as (Hp' & k' & fs' & Hg & Hs).
  - split; [done|]. exists k, (f_fs f). rewrite Hwait. split; [apply gives_none|auto].
  - split; [done|]. exists k', fs'. naive_solver.
Qed.
(** * Draining *)

(** A fetch whose chunk fits. *)
Lemma fetch_fits stream_id b k f d k' fs' :
  f_poisoned f = false → g_streams (f_state f) !! stream_id = Some k → waiting stream_id f = [] → ob_null b = false → ob_written_null b = false →
  kind_fetch k (f_fs f) = (Ok (Some d), k', fs') → len d ≤ ob_len b →
  let '(code, out, f') := dispatch (CStreamFetch stream_id b false) f in
  delivered code out = [(d, kind_has_more k')] ∧ f_poisoned f' = false ∧ g_streams (f_state f') !! stream_id = Some k' ∧ waiting stream_id f' = [].
Proof.
  intros Hp Hk Hwait Hb Hw E Hl. unfold dispatch, call_int, call_guard, guarded. cbn [returns_id run_call]. unfold odbc_stream_fetch. rewrite Hb, Hw. cbn [orb].
  erewrite run_next by (apply run_lock; [exact Hp|reflexivity]). erewrite run_next by reflexivity. cbn [fr_ffi]. unfold waiting in *.
  destruct (g_pending_stream_chunks (f_state f) !! stream_id) eqn:Hc; [done|]. rewrite Hk. do 2 erewrite run_next by reflexivity.
  unfold fetch_kind. unfold fbind at 1. cbn [fr_ffi f_fs set_state]. rewrite E.
  erewrite run_next by (apply run_lock; [exact Hp|reflexivity]). erewrite run_next by reflexivity. unfold fetched.
  destruct (Z.ltb_spec (ob_len b) (len d)); [lia|]. do 2 erewrite run_next by reflexivity. unfold delivered. cbn. rewrite lookup_insert_eq, Hc.
  split_and!; try done. by destruct (kind_has_more k').
Qed.

(** A fetch at the end of a stream. *)
Lemma fetch_at_end stream_id b k f k' fs' :
  f_poisoned f = false → g_streams (f_state f) !! stream_id = Some k → waiting stream_id f = [] → ob_null b = false → ob_written_null b = false →
  kind_fetch k (f_fs f) = (Ok None, k', fs') →
  let '(code, out, f') := dispatch (CStreamFetch stream_id b false) f in
  delivered code out = [] ∧ f_poisoned f' = false ∧ g_streams (f_state f') !! stream_id = Some k' ∧ waiting stream_id f' = [].
Proof.
  intros Hp Hk Hwait Hb Hw E. unfold dispatch, call_int, call_guard, guarded. cbn [returns_id run_call]. unfold odbc_stream_fetch. rewrite Hb, Hw. cbn [orb].
  erewrite run_next by (apply run_lock; [exact Hp|reflexivity]). erewrite run_next by reflexivity. cbn [fr_ffi]. unfold waiting in *.
  destruct (g_pending_stream_chunks (f_state f) !! stream_id) eqn:Hc; [done|]. rewrite Hk. do 2 erewrite run_next by reflexivity.
  unfold fetch_kind. unfold fbind at 1. cbn [fr_ffi f_fs set_state]. rewrite E.
  erewrite run_next by (apply run_lock; [exact Hp|reflexivity]). erewrite run_next by reflexivity. unfold fetched.
  do 2 erewrite run_next by reflexivity. cbn. by rewrite lookup_insert_eq, Hc.
Qed.

Definition buffered (data : list byte) (o chunk : Z) : StreamKind := SkBuffer (InMemory (mkStreaming data o chunk)).

Lemma buffered_fetch data o chunk fs : 0 < chunk → 0 ≤ o < len data →
  let stop := Z.min (o + chunk) (len data) in
  kind_fetch (buffered data o chunk) fs = (Ok (Some (take (Z.to_nat (stop - o)) (drop (Z.to_nat o) data))), buffered data stop chunk, fs).
Proof.
  intros Hc Ho. cbv zeta. unfold kind_fetch, buffered, stream_fetch, memory_fetch. cbn [ss_data ss_offset ss_chunk_size].
  destruct (Z.leb_spec (len data) o); [lia|]. rewrite slice_Ok by (unfold len in *; lia). cbn. by rewrite <- Z2Nat.inj_sub by lia.
Qed.

Lemma fetches_nothing stream_id b n data o chunk f :
  f_poisoned f = false → g_streams (f_state f) !! stream_id = Some (buffered data o chunk) → waiting stream_id f = [] →
  ob_null b = false → ob_written_null b = false → len data ≤ o → (fetches stream_id (replicate n b) f).1 = [].
Proof.
  intros Hp Hk Hwait Hb Hw Ho. revert f Hp Hk Hwait. induction n as [|n IH]; intros f Hp Hk Hwait; [done|]. cbn [replicate fetches].
  pose proof (fetch_at_end stream_id b _ f (buffered data o chunk) (f_fs f) Hp Hk Hwait Hb Hw) as H.
  destruct (dispatch _ f) as [[code out] f']. destruct H as (-> & Hp' & Hk' & Hwait').
  - unfold kind_fetch, buffered, stream_fetch, memory_fetch. cbn [ss_data ss_offset ss_chunk_size]. by destruct (Z.leb_spec (len data) o); [|lia].
  - specialize (IH f' Hp' Hk' Hwait'). by destruct (fetches stream_id (replicate n b) f').
Qed.

Lemma drain_buffered stream_id b data chunk n o f :
  0 < chunk ≤ ob_len b → ob_null b = false → ob_written_null b = false →
  f_poisoned f = false → g_streams (f_state f) !! stream_id = Some (buffered data o chunk) → waiting stream_id f = [] →
  0 ≤ o ≤ len data → len data - o ≤ Z.of_nat n * chunk →
  let cs := (fetches stream_id (replicate n b) f).1 in
  concat (map fst cs) = drop (Z.to_nat o) data ∧
  map snd cs = if o <? len data then replicate (length cs - 1) true ++ [false] else [].
Proof.
  intros Hc Hb Hw. cbv zeta. revert o f. induction n as [|n IH]; intros o f Hp Hk Hwait Ho Hn.
  - assert (o = len data) as -> by lia. rewrite Z.ltb_irrefl. cbn. by rewrite drop_ge by (unfold len; lia).
  - destruct (Z.ltb_spec o (len data)) as [Hlt|Hge].
    2: { rewrite (fetches_nothing stream_id b (S n) data o chunk f) by (done || lia). cbn. by rewrite drop_ge by (unfold len in *; lia). }
    cbn [replicate fetches]. set (stop := Z.min (o + chunk) (len data)).
    pose proof (fetch_fits stream_id b _ f _ _ _ Hp Hk Hwait Hb Hw (buffered_fetch data o chunk (f_fs f) ltac:(lia) ltac:(lia))) as H.
    destruct (dispatch _ f) as [[code out] f']. destruct H as (-> & Hp' & Hk' & Hwait').
    { unfold len. rewrite length_take, length_drop. unfold len in *. lia. }
    fold stop in Hk' |- *. specialize (IH stop f' Hp' Hk' Hwait' ltac:(lia) ltac:(lia)).
    destruct (fetches stream_id (replicate n b) f') as [cs f'']. cbn [fst snd app map concat length] in *. destruct IH as [IH1 IH2]. split.
    + rewrite IH1. replace (Z.to_nat stop) with (Z.to_nat o + Z.to_nat (stop - o))%nat by lia. rewrite <- drop_drop. apply take_drop.
    + rewrite IH2. unfold buffered, kind_has_more, stream_has_more, memory_has_more. cbn [ss_offset ss_data].
      destruct (Z.ltb_spec stop (len data)) as [Hs|Hs].
      * assert (cs ≠ []) as Hne by (intros ->; apply (f_equal length) in IH2; revert IH2; destruct (Z.ltb_spec stop (len data)); [|lia]; cbn; lia).
        destruct cs as [|c cs]; [done|]. cbn. by rewrite Nat.sub_0_r.
      * assert (cs = []) as -> by (destruct cs; [done|]; revert IH2; destruct (Z.ltb_spec stop (len data)); [lia|done]). done.
Qed.

(** C11: fetching ends.  A client that fetches a buffered stream with a buffer of at least the chunk size has all of
    it after as many fetches as there are chunks: the bytes delivered are those of the
    result, in order and complete, every chunk but the last is announced as followed by more
    and the last is not, and any fetch after that delivers nothing. *)
Theorem stream_drained (stream_id : Z) (b : OutBuf) (data : list byte) (chunk : Z) (n : nat) (f : Ffi) :
  0 < chunk ≤ ob_len b → ob_null b = false → ob_written_null b = false → f_poisoned f = false →
  g_streams (f_state f) !! stream_id = Some (buffered data 0 chunk) → waiting stream_id f = [] → len data ≤ Z.of_nat n * chunk →
  let cs := (fetches stream_id (replicate n b) f).1 in
  concat (map fst cs) = data ∧ map snd cs = if 0 <? len data then replicate (length cs - 1) true ++ [false] else [].
Proof. intros. apply (drain_buffered stream_id b data chunk n 0 f); try done; unfold len in *; lia. Qed.
End Fetch.

(** * Witness *)

(** A stream of three bytes, two at a time, fetched with too short a buffer and then with longer ones. *)
Definition demo_stream : Ffi :=
  set_state (P := demo_platform) (set_g_streams {[ 1 := SkBuffer (InMemory (mkStreaming [x01; x02; x03] 0 2)) ]} (f_state demo_open)) demo_open.

Definition demo_buffers : list OutBuf := [mkOutBuf false 1 false; mkOutBuf false 8 false; mkOutBuf false 8 false; mkOutBuf false 8 false].

Example fetches_demo : (fetches (P := demo_platform) 1 demo_buffers demo_stream).1 = [([x01; x02], true); ([x03], false)].
Proof. vm_compute. reflexivity. Qed.

Lemma fetch_in_order_witness :
  let '(cs, f') := fetches (P := demo_platform) 1 demo_buffers demo_stream in
  f_poisoned f' = false ∧
  ∃ k' fs', gives (SkBuffer (InMemory (mkStreaming [x01; x02; x03] 0 2))) (f_fs demo_stream) (cs ++ waiting (P := demo_platform) 1 f') k' fs' ∧
    (g_streams (f_state f') !! 1 = Some k' ∧ f_fs f' = fs' ∨ g_streams (f_state f') !! 1 = None).
Proof.
  apply (fetch_in_order (P := demo_platform) 1 demo_buffers (SkBuffer (InMemory (mkStreaming [x01; x02; x03] 0 2))) demo_stream);
    [vm_compute; reflexivity..|]. repeat constructor.
Defined.

Lemma stream_drained_witness :
  let cs := (fetches (P := demo_platform) 1 (replicate 2 (mkOutBuf false 8 false)) demo_stream).1 in
  concat (map fst cs) = [x01; x02; x03] ∧ map snd cs = if 0 <? 3 then replicate (length cs - 1) true ++ [false] else [].
Proof.
  apply (stream_drained (P := demo_platform) 1 (mkOutBuf false 8 false) [x01; x02; x03] 2 2 demo_stream); try (vm_compute; reflexivity).
  - cbn. lia.
  - vm_compute. discriminate.
Defined.
