(* ===== verification/FfiErrors.v ===== *)
(** Whose error a call reports: no call touches the error of a connection it is not about. *)

From S2P Require Import Prelude Wire Errors ParamValue Compression Text Security DiskSpill Streaming StreamSources Caches OutputParams.
From S2P Require Import Handles Transaction Xid Xa Execution Pool AsyncRequests Chunking FfiState FfiSession FfiXa FfiQuery FfiStreams FfiPool FfiInfo FfiCatalog FfiLogic FfiMachine.
From S2P Require Import FfiDemo FfiPoison FfiInvariant.

Section Errors.
Context `{P : Platform}.

(** The connection a call is about: the one it names, or that of the transaction, the
    statement, the stream or the request it names. *)
Definition about (g : GlobalState) (c : Call) : option Z :=
  match c with
  | CDisconnect _ id | CTransactionBegin id _ _ | CTransactionBeginV2 id _ _ _ | CTransactionBeginV3 id _ _ _ _
  | CXaStart id _ _ _ _ _ | CXaRecoverCount id | CXaResumePrepared id _ _ _ _ _
  | CExecQuery id _ _ | CExecQueryParams id _ _ _ | CExecQueryMulti id _ _ | CExecQueryMultiParams id _ _ _ | CPrepare id _ _
  | CExecuteAsync _ id _ | CStreamStart id _ _ | CStreamStartBatched _ id _ _ _ | CStreamStartAsync _ id _ _ _
  | CStreamMultiStartBatched _ id _ _ | CStreamMultiStartAsync _ id _ _ | CBulkInsertArray id _ _
  | CGetConnectionDbmsInfo id _ | CCatalogTables id _ _ _ | CCatalogColumns id _ _ | CCatalogTypeInfo id _ | CCatalogPrimaryKeys id _ _
  | CCatalogForeignKeys id _ _ | CCatalogIndexes id _ _ => Some id
  | CTransactionCommit t | CTransactionRollback t | CSavepointCreate t _ | CSavepointRollback t _ | CSavepointRelease t _ =>
      option_map t_conn_id (g_transactions g !! t)
  | CExecute s _ _ _ _ => option_map sh_conn_id (g_statements g !! s)
  | CStreamFetch s _ _ => g_stream_connections g !! s
  | CAsyncGetResult r _ => option_map fst (take_result r (g_async_requests g)).1
  | _ => None
  end.

Definition errors_of_others (c : Call) (g g' : GlobalState) : Prop :=
  ∀ id, about g c ≠ Some id → g_connection_errors g' !! id = g_connection_errors g !! id.

Ltac errors_leaf :=
  lazymatch goal with |- errors_of_others _ _ _ => let id := fresh "id" in intros id Habout; unfold about in Habout; project;
  repeat match goal with H : _ = Some _ |- _ => rewrite H in Habout end; cbn in Habout;
  repeat match goal with
  | |- <[?i := _]> _ !! ?id = _ => rewrite lookup_insert_ne by congruence
  end; try reflexivity
  end.

Abbreviation spares c := (∀ g, ok (λ _ g', errors_of_others c g g') (errors_of_others c g) g false (run_call c) (λ _ g' _, errors_of_others c g g')).

Lemma disconnect_spares dropped c : spares (CDisconnect dropped c).
Proof.
  intros g. cbn [run_call]. destruct (g_connections g !! c) as [conn|] eqn:E.
  - eapply ok_mono; [| |eapply disconnect_ok; [done|]; intros code g' _ Hd id Hid; apply (dc_errors _ _ _ _ Hd); intros ->; by apply Hid]; done.
  - unfold odbc_disconnect. do 4 ok_step. rewrite E. ok_steps; errors_leaf.
Qed.

Lemma pool_close_spares p : spares (CPoolClose p).
Proof.
  intros g. cbn [run_call]. unfold odbc_pool_close. ok_steps; try errors_leaf.
  apply (ok_for_each _ _ _ _ _ _ _ _ (λ _ g', g_connection_errors g' = g_connection_errors g)); [done..| |].
  - intros id ids g' E. ok_steps; (split; [done|exact E]).
  - intros g' E. ok_steps. intros id _. project. by rewrite E.
Qed.

Lemma call_errors c : spares c.
Proof.
  destruct c; try apply disconnect_spares; try apply pool_close_spares; intros g; cbn [run_call]; ok_steps; try right; errors_leaf.
  match goal with Heq : take_result _ _ = _ |- _ => rewrite Heq in Habout end. rewrite lookup_insert_ne by (cbn in Habout; congruence). done.
Qed.

Lemma dispatch_errors c f : f_poisoned (dispatch c f).2 = true ∨ errors_of_others c (f_state f) (f_state (dispatch c f).2).
Proof.
  destruct (f_poisoned f) eqn:Hp; [left; by apply dispatch_poisoned|].
  pose proof (λ code, ok_call _ _ code _ _ Hp (call_errors c (f_state f))) as H. unfold dispatch, call_id, call_int.
  destruct (returns_id c); [specialize (H 0)|specialize (H FFI_PANIC)]; destruct (call_guard _ _ _) as [[code out] f']; cbn; tauto.
Qed.

(** C9: errors are isolated.  A call changes the recorded error of no connection but the one it is about: the
    connection it names, or the one of the transaction, statement, stream or asynchronous
    request it names.  So every other connection that has an error answers with it as
    before, whatever the call did, unless a panic has poisoned the state. *)
Theorem errors_isolated (c : Call) (f : Ffi) (id : Z) (e : ConnectionError) :
  about (f_state f) c ≠ Some id → g_connection_errors (f_state f) !! id = Some e →
  let f' := (dispatch c f).2 in
  f_poisoned f' = true ∨
  g_connection_errors (f_state f') !! id = Some e ∧ get_connection_error (f_state f') (Some id) = ce_simple_message e ∧
  get_connection_structured_error (f_state f') (Some id) = ce_structured e.
Proof.
  intros Habout He. cbv zeta. destruct (dispatch_errors c f) as [H|H]; [by left|right]. specialize (H id Habout). rewrite He in H.
  unfold get_connection_error, get_connection_structured_error. cbn [mbind option_bind]. by rewrite H.
Qed.
End Errors.

(** A commit of an unknown transaction leaves the error of connection 7 alone. *)
Lemma errors_isolated_witness :
  let f := set_state (P := demo_platform) (set_g_connection_errors {[ 7 := mkConnectionError "boom" None 0 ]} (f_state demo_open)) demo_open in
  let f' := (dispatch (P := demo_platform) (CTransactionCommit 9) f).2 in
  f_poisoned f' = true ∨
  g_connection_errors (f_state f') !! 7 = Some (mkConnectionError "boom" None 0) ∧
  get_connection_error (P := demo_platform) (f_state f') (Some 7) = "boom" ∧
  get_connection_structured_error (P := demo_platform) (f_state f') (Some 7) = None.
Proof.
  cbv zeta. apply (errors_isolated (P := demo_platform) (CTransactionCommit 9) _ 7 (mkConnectionError "boom" None 0)).
  - vm_compute. discriminate.
  - vm_compute. reflexivity.
Defined.
