(* ===== verification/FfiSpecs.v ===== *)
(** Entry points and engine together: what ending a transaction and giving back a pooled connection
    say to the driver. *)

From S2P Require Import Prelude Wire Errors ParamValue Compression Text Security DiskSpill Streaming StreamSources Caches OutputParams.
From S2P Require Import Handles Transaction Xid Xa Execution Pool AsyncRequests Chunking FfiState FfiSession FfiXa FfiQuery FfiStreams FfiPool FfiInfo FfiCatalog FfiLogic FfiMachine.
From S2P Require Import RowCodec FfiDemo FfiPoison FfiInvariant.

Section Specs.
Context `{P : Platform}.

(** * Ending a transaction *)

Lemma engine_call_runs {A} (m : M A) h r fr :
  runs m (f_world (fr_ffi fr)) h r → r ≠ Panic →
  engine_call m fr = (Next r, mkFrame (set_world (f_engine (fr_ffi fr)) (w_ext (f_world (fr_ffi fr)) h) (fr_ffi fr)) (fr_locked fr) (fr_out fr) (fr_sched fr)).
Proof. unfold runs, engine_call. intros -> Hr. by destruct r. Qed.

(** What the call of [finish] for transaction [id] leaves. *)
Definition ended (id : Z) (t : Transaction) (name : string) (h : History) (r : Result unit) (f : Ffi) (x : Z * Out * Ffi) : Prop :=
  let '(code, out, f') := x in
  out = [] ∧ f_poisoned f' = false ∧ f_world f' = w_ext (f_world f) h ∧
  g_transactions (f_state f') = delete id (g_transactions (f_state f)) ∧
  match r with
  | Ok _ => code = 0 ∧ f_state f' = set_g_transactions (delete id (g_transactions (f_state f))) (f_state f)
  | Err e => code = 1 ∧ get_connection_error (f_state f') (Some (t_conn_id t)) = name +:+ " failed: " +:+ to_string e
  | Panic => False
  end.

Lemma finish_body_runs name fin id t h r f :
  f_poisoned f = false → g_transactions (f_state f) !! id = Some t → runs (fin t) (f_world f) h r → r ≠ Panic →
  ended id t name h r f (call_int (finish_body name fin id) f).
Proof.
  intros Hp Ht Hr Hn. unfold call_int, call_guard, finish_body.
  erewrite run_next by (apply run_lock; [exact Hp|reflexivity]). erewrite run_next by reflexivity. cbn [fr_ffi]. rewrite Ht.
  do 2 erewrite run_next by reflexivity. erewrite run_next by (apply engine_call_runs; [exact Hr|exact Hn]).
  destruct r as [[]|e|]; [done| |done].
  unfold if_locked, try_lock_global_state, lock_state, fbind. cbn. rewrite Hp. cbn. split_and!; try done.
  unfold get_connection_error. cbn. by rewrite lookup_insert_eq.
Qed.

(** C8: ending a transaction through the library.  On a state that satisfies the invariant, for a transaction whose
    connection can be locked, [odbc_transaction_commit] makes exactly two calls on the driver,
    the commit and the return to autocommit, and [odbc_transaction_rollback] the rollback and
    the return to autocommit.  The transaction leaves the table whatever the driver answers;
    the code is 0 if the driver accepts the first call, and otherwise 1, with the driver's
    error recorded for the connection. *)
Theorem transaction_end_spec (id : Z) (t : Transaction) (phys : Z) (f : Ffi) :
  f_poisoned f = false → inv (f_state f) → g_transactions (f_state f) !! id = Some t → live (f_world f) (t_conn_id t) phys →
  ended id t "Commit" (finish_events CCommit phys (f_world f)) (dr_answer (w_trace (f_world f)) phys CCommit) f
    (dispatch (CTransactionCommit id) f) ∧
  ended id t "Rollback" (finish_events CRollback phys (f_world f)) (dr_answer (w_trace (f_world f)) phys CRollback) f
    (dispatch (CTransactionRollback id) f).
Proof.
  intros Hp Hinv Ht Hl. destruct Hinv as (_ & Hx & _). destruct (txns_active _ _ Hx id t Ht) as [Ha _].
  split; (apply finish_body_runs; [done|done| |apply dr_answer_no_panic]).
  - by apply commit_active.
  - by apply rollback_active.
Qed.
(** * Giving a pooled connection back *)

(** C10: a pooled connection goes back clean.  [odbc_pool_release_connection] of a connection that is checked out
    rolls back and then switches autocommit on, whatever the driver answers, before r2d2 gets
    the connection back; every prepared statement of the connection is closed, the id is put
    by for the next checkout of the same pool, and nothing else of the state changes. *)
Theorem pool_release_cleans (id p : Z) (c : PooledConnectionWrapper) (f : Ffi) :
  f_poisoned f = false → g_pooled_connections (f_state f) !! id = Some (p, c) →
  dispatch (CPoolReleaseConnection id) f =
  let g := f_state f in
  let h := finish_events CRollback (pw_phys c) (f_world f) in
  (0, [], set_state
     (set_g_pooled_free_ids (<[p := default [] (g_pooled_free_ids g !! p) ++ [id]]> (g_pooled_free_ids g))
        (set_g_statements (filter (λ kv, sh_conn_id kv.2 ≠ id) (g_statements g))
           (set_g_pooled_connections (delete id (g_pooled_connections g)) g)))
     (set_world (f_engine f) (w_ext (f_world f) (h ++ pd_put (w_trace (f_world f) ++ h) (pw_pool c) (pw_phys c))) f)).
Proof.
  intros Hp Hc. cbv zeta. unfold dispatch, call_int, call_guard, guarded. cbn [returns_id run_call]. unfold odbc_pool_release_connection.
  erewrite run_next by (apply run_lock; [exact Hp|reflexivity]). erewrite run_next by reflexivity. cbn [fr_ffi]. rewrite Hc.
  erewrite run_next by reflexivity.
  erewrite run_next.
  2: { unfold clean. erewrite run_next.
       2: { unfold ignore. erewrite run_next by (apply engine_call_runs; [apply runs_call|apply dr_answer_no_panic]). reflexivity. }
       unfold ignore. erewrite run_next by (apply engine_call_runs; [apply runs_call|apply dr_answer_no_panic]). reflexivity. }
  do 2 erewrite run_next by reflexivity. unfold ignore, drop_pooled, engine_call, fbind. cbn.
  unfold finish_events, set_state, set_world, w_ext. cbn. rewrite <- !app_assoc. by destruct f.
Qed.
End Specs.

(** * Witnesses *)

Lemma demo_inv : inv (P := demo_platform) (f_state demo_open).
Proof.
  destruct (run_inv (P := demo_platform)
    [ECall CInit; ECall (CConnect (c_string "DSN=a")); ECall (CPrepare 1 (c_string "SELECT 1") 0); ECall (CTransactionBegin 1 1 0)] demo_start) as [H|H].
  - right. apply (initial_inv (P := demo_platform)).
  - vm_compute in H. discriminate.
  - exact H.
Qed.


Lemma demo_live : live (f_world demo_open) 1 1.
Proof.
  split; [vm_compute; reflexivity|]. split; [vm_compute; reflexivity|].
  apply (bool_decide_eq_false_1 (1 ∈ w_conn_poisoned (f_world demo_open))). vm_compute. reflexivity.
Qed.

Definition demo_txn : Transaction := mkTx 1 TxActive false ReadCommitted DSql92 ReadWrite None.

Lemma transaction_end_spec_witness :
  ended (P := demo_platform) 1 demo_txn "Commit" (finish_events (H := ok_driver) CCommit 1 (f_world demo_open)) (Ok tt) demo_open
    (dispatch (P := demo_platform) (CTransactionCommit 1) demo_open) ∧
  ended (P := demo_platform) 1 demo_txn "Rollback" (finish_events (H := ok_driver) CRollback 1 (f_world demo_open)) (Ok tt) demo_open
    (dispatch (P := demo_platform) (CTransactionRollback 1) demo_open).
Proof.
  apply (transaction_end_spec (P := demo_platform) 1 demo_txn 1 demo_open).
  - vm_compute. reflexivity.
  - apply demo_inv.
  - vm_compute. reflexivity.
  - apply demo_live.
Defined.

(** A pool, and a connection checked out of it. *)
Definition demo_pooled : Ffi :=
  ffi_run (P := demo_platform) [ECall (CPoolCreate (c_string "DSN=a") 4); ECall (CPoolGetConnection 1)] demo_open.

Lemma pool_release_cleans_witness :
  (dispatch (P := demo_platform) (CPoolReleaseConnection 1000000) demo_pooled).1 = (0, []).
Proof.
  pose proof (pool_release_cleans (P := demo_platform) 1000000 1 (mkPooled 1 (-1)) demo_pooled ltac:(vm_compute; reflexivity) ltac:(vm_compute; reflexivity)) as H.
  cbv zeta in H. rewrite H. reflexivity.
Defined.

(** * Two demonstrations *)

Definition small : OutBuf := mkOutBuf false 1 false.
Definition large : OutBuf := mkOutBuf false 1000000 false.

(** The kept result of a pooled connection outlives its lease: the next holder of the id, on another
    connection, gets it for the same statement and no driver is asked. *)
Example result_outlives_lease :
  let query b := CExecQuery 1000000 (c_string "SELECT n FROM t") b in
  let f := ffi_run (P := demo_platform) [ECall (query small); ECall (CPoolReleaseConnection 1000000); ECall (CPoolGetConnection 1)] demo_pooled in
  let '(code, out, f') := dispatch (P := demo_platform) (query large) f in
  (code, length (w_trace (f_world f')) - length (w_trace (f_world f)))%nat = (0, 0%nat).
Proof. vm_compute. reflexivity. Qed.

(** A query with parameters and a multi-result query with parameters keep their results under the same key: the
    second call gets the row-major message of the first. *)
Example params_and_multi_share_key :
  let f := ffi_run (P := demo_platform) [ECall (CExecQueryParams 1 (c_string "SELECT n FROM t") None small)] demo_open in
  let '(code, out, _) := dispatch (P := demo_platform) (CExecQueryMultiParams 1 (c_string "SELECT n FROM t") None large) f in
  (code, option_map (take 4) (bytes_at ToBuffer out)) = (0, Some (le_bytes 4 MAGIC)).
Proof. vm_compute. reflexivity. Qed.

(** The average of the metrics is a division by the count of queries cut to 32 bits: after 2^32 queries the call that
    reads the metrics panics under the lock, and the library is lost. *)
Example metrics_poison_the_library :
  let counted := mkMetrics (Some (mkQueryMetrics (2 ^ 32) 0 0 0 [] [])) (Some ∅) (Some 0) 0 in
  let f := set_state (P := demo_platform) (set_g_metrics counted (f_state demo_open)) demo_open in
  let '(code, out, f') := dispatch (P := demo_platform) (CGetMetrics large) f in
  (code, out, f_poisoned f') = (FFI_PANIC, [], true).
Proof. vm_compute. reflexivity. Qed.

(** The other metrics: three queries in 12 ms, one error, and the clock stands still. *)
Example metrics_bytes :
  let counted := mkMetrics (Some (mkQueryMetrics 3 12000000 0 0 [] [])) (Some ∅) (Some 1) 0 in
  let f := set_state (P := demo_platform) (set_g_metrics counted (f_state demo_open)) demo_open in
  bytes_at ToBuffer (dispatch (P := demo_platform) (CGetMetrics large) f).1.2 = Some (u64s [3; 1; 0; 12; 4]).
Proof. vm_compute. reflexivity. Qed.

(** No call tells the statement cache that a statement was executed: after a query its metrics count one prepare and no
    execution. *)
Example executions_are_not_counted :
  let f := ffi_run (P := demo_platform) [ECall (CExecQuery 1 (c_string "SELECT n FROM t") large)] demo_open in
  bytes_at ToBuffer (dispatch (P := demo_platform) (CGetCacheMetrics large) f).1.2
  = Some (u64s [1; pc_max_size (ee_prepared_cache sample_engine); 0; 1; 1; 0; 64; 0]).
Proof. vm_compute. reflexivity. Qed.

(** A driver's name is cut to the buffer, and found nevertheless. *)
Example detect_driver_cut :
  (dispatch (P := demo_platform) (CDetectDriver (c_string "Driver={PostgreSQL};Server=x") false 5) demo_start).1
  = (1, [WBytes ToBuffer (as_bytes "post" ++ [x00])]).
Proof. vm_compute. reflexivity. Qed.

(** The generators refuse with the same code whether there is no plugin, the plugin has no such statement, or a name is
    no identifier. *)
Example upsert_codes :
  map (λ '(conn_str, table), (dispatch (P := demo_platform) (CBuildUpsertSql (c_string conn_str) (c_string table) (c_string "{}") large) demo_start).1.1)
    [("Driver={PostgreSQL}", "t"); ("Driver={Unheard}", "t"); ("Driver={Sybase}", "t"); ("Driver={PostgreSQL}", "t;")] = [0; -3; -3; -3].
Proof. vm_compute. reflexivity. Qed.
