(* ===== verification/FfiCatalogSpecs.v ===== *)
(** What the catalog entry points answer: the operation of the engine carried out, its error delivered, and
    the columns of a table kept. *)

From S2P Require Import Prelude Wire Errors ParamValue Compression Text Security DiskSpill Streaming StreamSources Caches OutputParams.
From S2P Require Import Handles Transaction Xid Xa Execution Catalog Pool AsyncRequests Chunking FfiState FfiSession FfiXa FfiQuery FfiStreams FfiPool FfiInfo FfiCatalog FfiLogic FfiMachine.
From S2P Require Import FfiDemo.

Section Specs.
Context `{P : Platform}.

(** * Running to a postcondition *)

(** [m] started in [fr] ends in a flow and a frame that satisfy [Q]. *)
Definition wp {A : Type} (m : F A) (Q : Flow A → Frame → Prop) (fr : Frame) : Prop := Q (m fr).1 (m fr).2.

Lemma wp_bind {A B} (m : F A) (k : A → F B) Q fr :
  wp m (λ x fr, match x with Next a => wp (k a) Q fr | Return c => Q (Return c) fr | Panicked => Q Panicked fr end) fr → wp (fbind m k) Q fr.
Proof. unfold wp, fbind. by destruct (m fr) as [[a|c|] fr']. Qed.

Lemma wp_is {A} (m : F A) Q fr x fr' : m fr = (x, fr') → Q x fr' → wp m Q fr.
Proof. unfold wp. by intros ->. Qed.

(** A call is the postcondition of its body at the end. *)
Lemma wp_call (m : F Z) (f : Ffi) (Q : Z * Out * Ffi → Prop) :
  wp m (λ x fr, Q match x with Next c | Return c => (c, fr_out fr, fr_ffi fr) | Panicked => (FFI_PANIC, fr_out fr, unwind fr) end)
     (mkFrame f false [] Alone) → Q (call_int m f).
Proof. unfold wp, call_int, call_guard, guarded. by destruct (m _) as [[c|c|] fr]. Qed.

Lemma wp_lock_or failed c Q fr : f_poisoned (fr_ffi fr) = false → fr_sched fr = Alone → Q (Next tt) (mkFrame (fr_ffi fr) true (fr_out fr) Alone) → wp (lock_or failed c) Q fr.
Proof. intros Hp Hs. eapply wp_is. by apply run_lock. Qed.

Lemma wp_known id Q fr conn : g_connections (f_state (fr_ffi fr)) !! id = Some conn → Q (Next tt) fr → wp (known_connection id) Q fr.
Proof.
  intros Hc. apply wp_is. unfold known_connection, fbind, state. rewrite bool_decide_eq_true_2 by by eexists. done.
Qed.

Lemma engine_call_same {A} (m : M A) a fr : m (f_world (fr_ffi fr)) = (Ok a, f_world (fr_ffi fr)) → engine_call m fr = (Next (Ok a), fr).
Proof. intros Hm. unfold engine_call. rewrite Hm. by destruct fr as [[] l o s]. Qed.

Lemma wp_connection {A} code code' zero zero' report report' id phys (k : Z → F A) Q fr :
  live (f_world (fr_ffi fr)) id phys → wp (k phys) Q fr →
  wp (let& phys := find_connection code zero report id in let& _ := lock_found code' zero' report' phys in k phys) Q fr.
Proof.
  intros (Hh & Hc & Hl) Hk. apply wp_bind, (wp_is _ _ _ (Next phys) fr).
  - unfold find_connection. erewrite run_next by (apply engine_call_same; unfold lock_handles; by rewrite Hh).
    unfold get_connection. by rewrite Hc.
  - apply wp_bind, (wp_is _ _ _ (Next tt) fr); [|exact Hk]. unfold lock_found.
    by erewrite run_next by (apply engine_call_same; unfold lock_connection; rewrite bool_decide_eq_false_2 by exact Hl; reflexivity).
Qed.

(** * The operation carried out *)

(** The calls that keep nothing, with the operation they ask for. *)
Definition catalog_request (c : Call) : option (Z * CatalogOp * OutBuf) :=
  match c with
  | CCatalogTables id catalog schema b => Some (id, OpTables (ptr_to_opt_str catalog) (ptr_to_opt_str schema), b)
  | CCatalogTypeInfo id b => Some (id, OpTypeInfo, b)
  | CCatalogPrimaryKeys id table b => (λ t, (id, OpPrimaryKeys t, b)) <$> (table ≫= to_str)
  | CCatalogForeignKeys id table b => (λ t, (id, OpForeignKeys t, b)) <$> (table ≫= to_str)
  | CCatalogIndexes id table b => (λ t, (id, OpIndexes t, b)) <$> (table ≫= to_str)
  | _ => None
  end.

(** The state but for its metrics and errors. *)
Definition same_tables (g g' : GlobalState) : Prop :=
  ∃ m errs le lse, g' = set_g_last_structured_error lse (set_g_last_error le (set_g_connection_errors errs (set_g_metrics m g))).

(** What the client sees of the result [r]. *)
Definition delivered (id : Z) (b : OutBuf) (r : Result (list byte)) (code : Z) (out : Out) (f' : Ffi) : Prop :=
  match r with
  | Ok data =>
      if ob_len b <? len data then
        code = -2 ∧ out = [] ∧ get_connection_error (f_state f') (Some id) = buffer_too_small (len data) (ob_len b)
      else code = 0 ∧ out = [WBytes ToBuffer data; WInt ToWritten (len data mod 2 ^ 32)]
  | Err e => code = -1 ∧ out = [] ∧ get_connection_structured_error (f_state f') (Some id) = Some (to_structured e)
  | Panic => False
  end.

(** The operation ended in [r], [e] and [w] and its result is delivered; or it panicked, or the metrics
    did, and the state is poisoned. *)
Definition carried_out (id : Z) (b : OutBuf) (f : Ffi) (r : Result (list byte)) (e : ExecutionEngine) (w : World) (x : Z * Out * Ffi) : Prop :=
  let '(code, out, f') := x in
  f_world f' = w ∧ f_catalog f' = e ∧ f_engine f' = f_engine f ∧
  ((f_poisoned f' = false ∧ delivered id b r code out f' ∧ same_tables (f_state f) (f_state f')) ∨
   (f_poisoned f' = true ∧ code = FFI_PANIC ∧ out = [] ∧
    (r = Panic ∨ ∃ data t, r = Ok data ∧ (metrics_record_query t (g_metrics (f_state f))).1 = Panic))).

Lemma run_op id op b f phys r e w :
  f_poisoned f = false → live (f_world f) id phys →
  holding_connection phys (catalog_op pf_codec phys op) (f_catalog f) (f_world f) = (r, e, w) →
  wp (run_catalog_op id op forget b)
    (λ x fr, carried_out id b f r e w
       match x with Next c | Return c => (c, fr_out fr, fr_ffi fr) | Panicked => (FFI_PANIC, fr_out fr, unwind fr) end)
    (mkFrame f true [] Alone).
Proof.
  intros Hp Hl Hr. unfold run_catalog_op. apply (wp_connection _ _ _ _ _ _ _ phys); [done|].
  apply wp_bind. eapply wp_is; [reflexivity|]. apply wp_bind. cbn [fr_ffi fr_locked fr_out].
  eapply wp_is; [unfold catalog_call; cbn [fr_ffi f_catalog f_world fr_locked fr_out]; by rewrite Hr|].
  destruct r as [data|er|].
  - cbn [of_result]. apply wp_bind. eapply wp_is; [reflexivity|]. cbn [fr_ffi f_reads fr_locked fr_out].
    set (t := Z.max 0 _). apply wp_bind. unfold record_query. apply wp_bind. eapply wp_is; [reflexivity|]. cbn.
    destruct (metrics_record_query t (g_metrics (f_state f))) as [r m] eqn:Em. apply wp_bind. eapply wp_is; [reflexivity|].
    destruct r as [[]|[]|].
    3: { eapply wp_is; [reflexivity|]. cbn. rewrite orb_true_r. split_and!; try done. right. split_and!; try done. right. exists data, t. by rewrite Em. }
    all: eapply wp_is; [reflexivity|]; unfold forget; apply wp_bind; (eapply wp_is; [reflexivity|]); destruct (ob_len b <? len data) eqn:Eb.
    1,3: unfold wp, record_error, catalog_too_small, lock_or, try_lock_global_state, lock_state, fbind; cbn; rewrite Hp; cbn; rewrite Eb; (split_and!; [done..|]);
      left; (split_and!; [done..| |by repeat eexists]); unfold get_connection_error; cbn; by rewrite lookup_insert_eq.
    all: unfold wp; cbn; rewrite Eb, Hp; (split_and!; [done..|]); left; (split_and!; [done..|]); by eexists m, _, _, _.
  - unfold wp, record_error, lock_or, try_lock_global_state, lock_state, fbind. cbn. rewrite Hp. cbn. (split_and!; [done..|]). left.
    (split_and!; [done..| |by repeat eexists]). unfold get_connection_structured_error. cbn. by rewrite lookup_insert_eq.
  - cbn. rewrite orb_true_r. (split_and!; [done..|]). right. by auto.
Qed.

(** The structured error of a connection, asked for. *)
Lemma structured_error_read id e b f :
  f_poisoned f = false → id ≠ 0 → get_connection_structured_error (f_state f) (Some id) = Some e →
  ob_null b = false → ob_written_null b = false → len (se_serialize e) ≤ ob_len b →
  dispatch (CGetStructuredErrorFor id b) f = (0, [WBytes ToBuffer (se_serialize e); WInt ToWritten (len (se_serialize e) mod 2 ^ 32)], f).
Proof.
  intros Hp H0 He Hn Hw Hl. unfold dispatch. cbn [returns_id run_call].
  unfold odbc_get_structured_error_for_connection, structured_error_body, call_int, call_guard, guarded. rewrite Hn, Hw.
  destruct (Z.eqb_spec id 0) as [?|_]; [done|]. cbn [orb].
  erewrite run_next by (apply run_lock; [exact Hp|reflexivity]). erewrite run_next by reflexivity. cbn [fr_ffi]. rewrite He.
  unfold copy_out. destruct (Z.ltb_spec (ob_len b) (len (se_serialize e))); [lia|]. done.
Qed.


(** * The columns of a table *)

(** The cache has the payload [data] of [key], stored at [t]. *)
Definition holds_payload (key : string) (data : list byte) (t : Z) (g : GlobalState) : Prop :=
  ∃ l, mc_payloads (g_metadata_cache g) = Some l ∧ assoc key (lru_entries l) = Some (mkCachedPayload data t).

(** Its mutex is not poisoned, and it has room for an entry. *)
Definition cache_ready (g : GlobalState) : Prop := ∃ l, mc_payloads (g_metadata_cache g) = Some l ∧ (0 < lru_cap l)%nat.

Lemma get_payload_found now key c l data t :
  mc_payloads c = Some l → assoc key (lru_entries l) = Some (mkCachedPayload data t) → now - t ≤ mc_ttl c →
  ∃ c' l', get_payload now key c = (Some data, c') ∧ mc_payloads c' = Some l' ∧ assoc key (lru_entries l') = Some (mkCachedPayload data t).
Proof.
  intros Hl Ha Ht. pose proof (lru_get_value key l) as Hv. pose proof (lru_get_entries key l) as He. unfold get_payload. rewrite Hl.
  destruct (lru_get key l) as [r l']. cbn in Hv, He. rewrite Hv, Ha. rewrite Ha in He. cbn [cp_cached_at cp_data].
  destruct (Z.ltb_spec (mc_ttl c) (now - t)); [lia|]. do 2 eexists. split; [reflexivity|]. split; [reflexivity|]. rewrite He. cbn. by rewrite decide_True.
Qed.

Lemma lookup_cases now key c r c' l :
  mc_payloads c = Some l → (0 < lru_cap l)%nat → get_payload now key c = (r, c') →
  ∃ l', mc_payloads c' = Some l' ∧ (0 < lru_cap l')%nat ∧
    match r with Some data => ∃ t, assoc key (lru_entries l') = Some (mkCachedPayload data t) | None => True end.
Proof.
  intros Hl Hc. pose proof (lru_get_value key l) as Hv. pose proof (lru_get_entries key l) as He. pose proof (lru_get_cap key l) as Hcap.
  unfold get_payload. rewrite Hl. destruct (lru_get key l) as [x l']. cbn in Hv, He, Hcap. destruct x as [[data t]|].
  - rewrite <- Hv in He. destruct (_ <? _); intros [= <- <-]; cbn.
    + eexists. split; [reflexivity|]. by rewrite lru_pop_cap, Hcap.
    + exists l'. rewrite Hcap, He. split; [done|]. split; [done|]. exists t. cbn. by rewrite decide_True.
  - intros [= <- <-]. exists l'. by rewrite Hcap.
Qed.

Lemma run_cached key r c' fr :
  get_payload (clock (f_reads (fr_ffi fr))) key (g_metadata_cache (st fr)) = (r, c') →
  cached_payload key fr = (Next r, mkFrame (set_state (set_g_metadata_cache c' (st fr)) (later 1 (fr_ffi fr))) (fr_locked fr) (fr_out fr) (fr_sched fr)).
Proof. intros Hg. unfold cached_payload, fbind, now, state. cbn [fr_ffi f_state f_reads fr_locked fr_out]. unfold st in Hg. by rewrite Hg. Qed.

(** Asking for what the cache holds. *)
Lemma columns_hit id bs table b conn data t f :
  f_poisoned f = false → to_str bs = Some table → ob_null b = false → ob_written_null b = false →
  g_connections (f_state f) !! id = Some conn → holds_payload (cache_key id table) data t (f_state f) →
  clock (f_reads f) - t ≤ mc_ttl (g_metadata_cache (f_state f)) → len data ≤ ob_len b →
  ∃ f', dispatch (CCatalogColumns id (Some bs) b) f = (0, [WBytes ToBuffer data; WInt ToWritten (len data mod 2 ^ 32)], f') ∧
    f_world f' = f_world f ∧ f_poisoned f' = false.
Proof.
  intros Hp Hs Hn Hw Hconn (l & Hl & Ha) Ht Hlen. destruct (get_payload_found _ _ _ _ _ _ Hl Ha Ht) as (c' & l' & Hg & _).
  unfold dispatch. cbn [returns_id run_call]. unfold odbc_catalog_columns, call_int, call_guard, guarded. rewrite Hn, Hw, Hs. cbn [orb].
  erewrite run_next by (apply run_lock; [exact Hp|reflexivity]).
  erewrite run_next by (unfold known_connection; erewrite run_next by reflexivity; cbn [fr_ffi]; rewrite bool_decide_eq_true_2 by (by eexists); reflexivity).
  erewrite run_next by (apply run_cached; exact Hg).
  cbv beta iota. destruct (Z.ltb_spec (ob_len b) (len data)); [lia|]. cbn. eexists. split; [reflexivity|]. done.
Qed.

(** The first answer: what it delivers, or could not, is in the cache. *)
Definition columns_kept (id : Z) (key : string) (b : OutBuf) (g : GlobalState) (x : Z * Out * Ffi) : Prop :=
  let '(code, out, f1) := x in
  code = 0 ∨ code = -2 →
  f_poisoned f1 = false ∧ g_connections (f_state f1) = g_connections g ∧ is_Some (g_connections g !! id) ∧
  ∃ data t, holds_payload key data t (f_state f1) ∧
    if code =? 0 then out = [WBytes ToBuffer data; WInt ToWritten (len data mod 2 ^ 32)] else ob_len b < len data.

Lemma wp_relock {A} id msg (Q : Flow A → Frame → Prop) fr :
  fr_sched fr = Alone → (∀ fr', Q (Return (-1)) fr') → wp (relock_fail (-1) skip (set_connection_error id msg)) Q fr.
Proof.
  intros Hs HQ. unfold wp. assert ((relock_fail (-1) skip (set_connection_error id msg) fr : Flow A * Frame).1 = Return (-1)) as ->; [|apply HQ].
  unfold relock_fail, lock_or, drop_state, try_lock_global_state, meet, unlock_state, lock_state, fbind. cbn. rewrite !Hs. cbn. rewrite ?Hs.
  by destruct (f_poisoned (fr_ffi fr)).
Qed.

Lemma call_lock_handles msg fr :
  engine_call (lock_handles msg) fr =
  (Next (if w_handles_poisoned (f_world (fr_ffi fr)) then Err (InternalError msg) else Ok (w_handles (f_world (fr_ffi fr)))), fr).
Proof. unfold engine_call, lock_handles. destruct (w_handles_poisoned _); by destruct fr as [[] l o s]. Qed.

Lemma call_lock_connection phys fr :
  engine_call (lock_connection phys) fr =
  (Next (if bool_decide (phys ∈ w_conn_poisoned (f_world (fr_ffi fr))) then Err (InternalError "Failed to lock connection") else Ok tt), fr).
Proof. unfold engine_call, lock_connection. case_bool_decide; by destruct fr as [[] l o s]. Qed.

(** [find_connection] and [lock_found] go on in the same frame, or return -1. *)
Lemma wp_find {A} id (k : Z → F A) Q fr :
  fr_sched fr = Alone → (∀ phys, wp (k phys) Q fr) → (∀ fr', Q (Return (-1)) fr') →
  wp (let& phys := find_connection (-1) skip (set_connection_error id) id in
      let& _ := lock_found (-1) skip (set_connection_error id) phys in k phys) Q fr.
Proof.
  intros Hs Hk Hr. apply wp_bind. unfold find_connection. apply wp_bind. eapply wp_is; [apply call_lock_handles|]. cbv beta iota.
  destruct (w_handles_poisoned _); [by apply wp_relock|]. unfold get_connection.
  destruct (hm_connections _ !! id) as [phys|]; cbn [ok_or]; [|by apply wp_relock].
  eapply wp_is; [reflexivity|]. cbv beta iota. apply wp_bind. unfold lock_found. apply wp_bind. eapply wp_is; [apply call_lock_connection|]. cbv beta iota.
  case_bool_decide; [by apply wp_relock|]. eapply wp_is; [reflexivity|]. apply Hk.
Qed.

Lemma run_columns id table key b f g :
  f_poisoned f = false → g_connections (f_state f) = g_connections g → is_Some (g_connections g !! id) → cache_ready (f_state f) →
  wp (run_catalog_op id (OpColumns table) (keep_payload key) b)
    (λ x fr, columns_kept id key b g
       match x with Next c | Return c => (c, fr_out fr, fr_ffi fr) | Panicked => (FFI_PANIC, fr_out fr, unwind fr) end)
    (mkFrame f true [] Alone).
Proof.
  intros Hp Hc Hid (l & Hl & Hcap). unfold run_catalog_op. apply wp_find; [done| |intros fr' [?|?]; discriminate].
  intros phys. apply wp_bind. eapply wp_is; [reflexivity|]. apply wp_bind. unfold catalog_call.
  destruct (holding_connection phys (catalog_op pf_codec phys (OpColumns table)) (f_catalog f) (f_world f)) as [[[data|er|] e] w] eqn:Hr; (eapply wp_is; [cbn [fr_ffi fr_locked fr_out f_catalog f_world]; by rewrite Hr|]); cbn [of_result].
  - apply wp_bind. eapply wp_is; [reflexivity|]. cbn [fr_ffi f_reads fr_locked fr_out].
    set (t := Z.max 0 _). apply wp_bind. unfold record_query. apply wp_bind. eapply wp_is; [reflexivity|]. cbn.
    destruct (metrics_record_query t (g_metrics (f_state f))) as [r m] eqn:Em. apply wp_bind. eapply wp_is; [reflexivity|].
    destruct r as [[]|[]|]; [| |eapply wp_is; [reflexivity|]; intros [?|?]; discriminate].
    all: eapply wp_is; [reflexivity|]; unfold keep_payload; apply wp_bind, wp_bind; (eapply wp_is; [reflexivity|]); cbn.
    all: set (t1 := clock _); assert (holds_payload key data t1 (set_g_metadata_cache (cache_payload t1 key data (g_metadata_cache (f_state f))) (set_g_metrics m (f_state f)))) as Hh.
    1,3: exists (lru_put key (mkCachedPayload data t1) l); cbn; rewrite Hl; (split; [done|]); rewrite lru_put_entries; destruct (lru_cap l); [lia|]; cbn; by rewrite decide_True.
    all: destruct (Z.ltb_spec (ob_len b) (len data)).
    1,3: unfold wp, record_error, catalog_too_small, lock_or, try_lock_global_state, lock_state, fbind; cbn; rewrite Hp; cbn; intros _; (split_and!; [done..|]); by exists data, t1.
    all: unfold wp; cbn; intros _; rewrite Hp; (split_and!; [done..|]); by exists data, t1.
  - unfold wp, record_error, lock_or, try_lock_global_state, lock_state, fbind. cbn. rewrite Hp. cbn. intros [?|?]; discriminate.
  - intros [?|?]; discriminate.
Qed.

(** C14: the columns of a table are asked for once.  When [odbc_catalog_columns] answers 0, or -2 for a buffer that is
    too short, the payload it delivered, or could not deliver, is in the metadata cache; and the
    same question on the same connection, with any buffer that is long enough and until the time
    to live has passed, answers 0 with exactly those bytes and without a word to any driver. *)
Theorem columns_cached (id : Z) (bs : list byte) (table : string) (b : OutBuf) (f f1 : Ffi) (code : Z) (out : Out) :
  f_poisoned f = false → to_str bs = Some table → ob_null b = false → ob_written_null b = false → cache_ready (f_state f) →
  dispatch (CCatalogColumns id (Some bs) b) f = (code, out, f1) → code = 0 ∨ code = -2 →
  ∃ data t, holds_payload (cache_key id table) data t (f_state f1) ∧
    (if code =? 0 then out = [WBytes ToBuffer data; WInt ToWritten (len data mod 2 ^ 32)] else ob_len b < len data) ∧
    ∀ b', ob_null b' = false → ob_written_null b' = false → len data ≤ ob_len b' →
      clock (f_reads f1) - t ≤ mc_ttl (g_metadata_cache (f_state f1)) →
      ∃ f2, dispatch (CCatalogColumns id (Some bs) b') f1 = (0, [WBytes ToBuffer data; WInt ToWritten (len data mod 2 ^ 32)], f2) ∧
        f_world f2 = f_world f1.
Proof.
  intros Hp Hs Hn Hw Hready Hd Hcode.
  assert (columns_kept id (cache_key id table) b (f_state f) (dispatch (CCatalogColumns id (Some bs) b) f)) as H.
  { unfold dispatch. cbn [returns_id run_call]. apply wp_call. unfold odbc_catalog_columns. rewrite Hn, Hw, Hs. cbn [orb].
    apply wp_bind, wp_lock_or; [exact Hp|reflexivity|]. cbn [fr_ffi fr_out]. apply wp_bind. unfold known_connection. apply wp_bind. eapply wp_is; [reflexivity|].
    cbn [fr_ffi]. case_bool_decide as Hid; [|apply wp_relock; [done|intros fr' [?|?]; discriminate]].
    eapply wp_is; [reflexivity|]. cbv beta iota zeta. destruct Hready as (l & Hl & Hcap). apply wp_bind.
    destruct (get_payload (clock (f_reads f)) (cache_key id table) (g_metadata_cache (f_state f))) as [r c] eqn:Hg.
    eapply wp_is; [apply run_cached; exact Hg|]. cbv beta iota.
    destruct (lookup_cases _ _ _ _ _ _ Hl Hcap Hg) as (l' & Hl' & Hcap' & Hr). destruct r as [data|].
    - destruct Hr as [t Ht]. destruct (Z.ltb_spec (ob_len b) (len data)).
      + unfold wp, catalog_too_small, lock_or, try_lock_global_state, lock_state, fbind. cbn. rewrite Hp. cbn. intros _. split_and!; [done..|].
        exists data, t. split; [by exists l'|done].
      + unfold wp. cbn. intros _. rewrite Hp. split_and!; [done..|]. exists data, t. split; [by exists l'|done].
    - apply run_columns; [exact Hp|done|exact Hid|by exists l']. }
  rewrite Hd in H. destruct (H Hcode) as (Hp1 & Hc1 & [conn Hconn] & data & t & Hh & Hout).
  exists data, t. split; [exact Hh|]. split; [exact Hout|]. intros b' Hn' Hw' Hlen Ht.
  destruct (columns_hit id bs table b' conn data t f1) as (f2 & ? & ? & _); try done; [by rewrite Hc1|]. by exists f2.
Qed.

(** ** The cache always has room *)

Definition ready (f : Ffi) : Prop := cache_ready (f_state f).

Definition stays_ready (a b : Frame) : Prop := throughout ready a → throughout ready b.

#[local] Instance stays_ready_preorder : PreOrder stays_ready.
Proof. split; [intros a H; exact H|]. intros a b c H1 H2 H. by apply H2, H1. Qed.

Lemma ready_update (f : GlobalState → GlobalState) : (∀ g, cache_ready g → cache_ready (f g)) → moves stays_ready (update f).
Proof. intros H fr [Hr Hs]. split; [by apply H|done]. Qed.

Lemma ready_silent {A} (m : F A) : (∀ fr, f_state (fr_ffi (m fr).2) = f_state (fr_ffi fr) ∧ fr_sched (m fr).2 = fr_sched fr) → moves stays_ready m.
Proof. intros H fr. unfold stays_ready, throughout, ready. by destruct (H fr) as [-> ->]. Qed.

Lemma ready_cached_payload key : moves stays_ready (cached_payload key).
Proof.
  intros fr [(l & Hl & Hcap) Hs]. destruct (get_payload (clock (f_reads (fr_ffi fr))) key (g_metadata_cache (st fr))) as [r c'] eqn:Hg.
  rewrite (run_cached _ _ _ _ Hg). destruct (lookup_cases _ _ _ _ _ _ Hl Hcap Hg) as (l' & Hl' & Hcap' & _). split; [by exists l'|done].
Qed.

Lemma ready_put t key data g : cache_ready g → cache_ready (set_g_metadata_cache (cache_payload t key data (g_metadata_cache g)) g).
Proof. intros (l & Hl & Hcap). exists (lru_put key (mkCachedPayload data t) l). cbn. rewrite Hl, lru_put_cap. done. Qed.

Lemma ready_clear g : cache_ready g → cache_ready (set_g_metadata_cache (meta_clear (g_metadata_cache g)) g).
Proof. intros (l & Hl & Hcap). exists (lru_clear l). cbn. rewrite Hl, lru_clear_cap. done. Qed.

Lemma ready_new n ttl g : cache_ready (set_g_metadata_cache (meta_new n ttl) g).
Proof. eexists. split; [reflexivity|]. cbn. rewrite lru_new_cap. lia. Qed.

Lemma ready_meet : moves stays_ready meet.
Proof.
  intros [f l o [|[|f' fs]|]]; unfold stays_ready, throughout, ready; cbn; [done|by intros [? _]| |done]. by intros [_ [? ?]%Forall_cons].
Qed.

Lemma ready_lock_state : moves stays_ready lock_state.
Proof. apply ready_silent. intros fr. unfold lock_state. by destruct (f_poisoned _). Qed.

Lemma ready_engine_call {A} (m : M A) : moves stays_ready (engine_call m).
Proof. apply ready_silent. intros fr. unfold engine_call. by destruct (m _). Qed.

Lemma ready_pipeline_call {A} (m : X A) : moves stays_ready (pipeline_call m).
Proof. apply ready_silent. intros fr. unfold pipeline_call. by destruct (m _ _) as [[??]?]. Qed.

Lemma ready_catalog_call {A} (m : X A) : moves stays_ready (catalog_call m).
Proof. apply ready_silent. intros fr. unfold catalog_call. by destruct (m _ _) as [[??]?]. Qed.

Lemma ready_start_buffer phys n sql : moves stays_ready (start_buffer phys n sql).
Proof. apply ready_silent. intros fr. unfold start_buffer. by destruct (holding_connection _ _ _ _) as [[[[??]|?|]?]?]. Qed.

Lemma ready_fetch_kind s : moves stays_ready (fetch_kind s).
Proof. apply ready_silent. intros fr. unfold fetch_kind. by destruct (kind_fetch _ _) as [[??]?]. Qed.

Ltac ready_step :=
  moves_step ltac:(idtac;
    lazymatch goal with
    | |- moves _ (cached_payload _) => apply ready_cached_payload
    | |- moves _ (update (set_g_metadata_cache (meta_new _ _))) => apply ready_update; intros ? _; apply ready_new
    | |- moves _ (update _) => apply ready_update; intros ? H; first [exact H|apply ready_put; exact H|apply ready_clear; exact H]
    | |- moves _ (with_ffi _) => by apply ready_silent
    | |- moves _ now => by apply ready_silent
    | |- moves _ unlock_state => by apply ready_silent
    | |- moves _ meet => apply ready_meet
    | |- moves _ lock_state => apply ready_lock_state
    | |- moves _ (write _) => by apply ready_silent
    | |- moves _ (engine_call _) => apply ready_engine_call
    | |- moves _ (pipeline_call _) => apply ready_pipeline_call
    | |- moves _ (catalog_call _) => apply ready_catalog_call
    | |- moves _ (start_buffer _ _ _) => apply ready_start_buffer
    | |- moves _ (fetch_kind _) => apply ready_fetch_kind
    | |- moves _ (for_each _ _) => apply moves_for_each; [typeclasses eauto|intros ?]
    end).

Lemma call_stays_ready c : moves stays_ready (run_call c).
Proof. destruct c; cbn [run_call]; repeat ready_step. Qed.

Lemma event_stays_ready ev f : cache_ready (f_state f) → cache_ready (f_state (ffi_step ev f)).
Proof.
  intros H. destruct ev as [c|s]; cbn [ffi_step].
  - unfold dispatch, call_id, call_int. destruct (returns_id c).
    1: pose proof (moves_call stays_ready 0 (run_call c) f) as Hm.
    2: pose proof (moves_call stays_ready FFI_PANIC (run_call c) f) as Hm.
    all: destruct (call_guard _ _ _) as [[code out] f']; destruct Hm as (l & s & Hm); [intros fr Hfr; exact Hfr|apply call_stays_ready|exact (proj1 (Hm (conj H I)))].
  - destruct s; cbn [worker_step]; repeat case_match; exact H.
Qed.

(** In every run the cache of payloads can be used and has room: what [columns_cached] asks for. *)
Theorem cache_always_ready size ttl w e catalog fs evs : cache_ready (f_state (ffi_run evs (ffi_initial size ttl w e catalog fs))).
Proof.
  assert (∀ evs f, cache_ready (f_state f) → cache_ready (f_state (ffi_run evs f))) as H.
  { clear. induction evs as [|ev evs IH]; intros f Hf; [done|]. apply IH, event_stays_ready, Hf. }
  apply H. eexists. split; [reflexivity|]. cbn. rewrite lru_new_cap. lia.
Qed.
End Specs.

(** * Witnesses *)

#[local] Existing Instance demo_platform.

Definition roomy : OutBuf := mkOutBuf false 1000000 false.
Definition tiny : OutBuf := mkOutBuf false 1 false.

(** The indexes of a table whose name is empty: the engine refuses it, and the client reads the error. *)
Definition demo_indexes : Call := CCatalogIndexes 1 (c_string "s.") roomy.

Example demo_indexes_refused :
  let '(code, out, f1) := dispatch (P := demo_platform) demo_indexes demo_open in
  let '(code', out', _) := dispatch (P := demo_platform) (CGetStructuredErrorFor 1 roomy) f1 in
  (code, out, code') = (-1, [], 0) ∧
  option_map se_deserialize (bytes_at ToBuffer out') =
    Some (Ok (Some (to_structured (ValidationError "Invalid table name (empty after schema)")))).
Proof. vm_compute. done. Qed.

Definition columns_of_t (b : OutBuf) : Call := CCatalogColumns 1 (c_string "t") b.

Definition demo_columns : Z * Out * Ffi := dispatch (P := demo_platform) (columns_of_t tiny) demo_open.

Example demo_columns_too_small : demo_columns.1 = (-2, []).
Proof. vm_compute. reflexivity. Qed.

Example demo_columns_again :
  let '(code, out, f2) := dispatch (P := demo_platform) (columns_of_t roomy) demo_columns.2 in
  (code, option_map (take 4) (bytes_at ToBuffer out), length (w_trace (f_world f2)) - length (w_trace (f_world demo_columns.2)))%nat
  = (0, Some (le_bytes 4 RowCodec.MAGIC), 0%nat).
Proof. vm_compute. reflexivity. Qed.

Lemma demo_connection_live : live (f_world demo_open) 1 1.
Proof.
  split; [vm_compute; reflexivity|]. split; [vm_compute; reflexivity|].
  apply (bool_decide_eq_false_1 (1 ∈ w_conn_poisoned (f_world demo_open))). vm_compute. reflexivity.
Qed.


Lemma columns_cached_witness :
  ∃ data t, holds_payload (P := demo_platform) (cache_key 1 "t") data t (f_state demo_columns.2) ∧ ob_len tiny < len data.
Proof.
  destruct (columns_cached (P := demo_platform) 1 (as_bytes "t") "t" tiny demo_open demo_columns.2 (-2) []) as (data & t & Hh & Hl & _).
  - vm_compute. reflexivity.
  - vm_compute. reflexivity.
  - reflexivity.
  - reflexivity.
  - apply (cache_always_ready (P := demo_platform) None None sample_world sample_engine sample_engine (mkFs ∅ 0 [])
      [ECall CInit; ECall (CConnect (c_string "DSN=a")); ECall (CPrepare 1 (c_string "SELECT 1") 0); ECall (CTransactionBegin 1 1 0)]).
  - rewrite <- demo_columns_too_small. unfold demo_columns, columns_of_t. by destruct (dispatch _ _) as [[??]?].
  - by right.
  - exists data, t. by split.
Defined.
